(* ===== verification/_CoqProject ===== *)
-Q . S2P
Prelude.v
GoStrings.v
Json.v
JsonNormal.v
Decode.v
GoTime.v
Validation.v
ConfigDoc.v
HsiConfig.v
Etcd.v
Db.v
DbProps.v
Events.v
Effects.v
Grows.v
Cas.v
Storage.v
Hoare.v
Rely.v
ConfigLog.v
Auth.v
NetIP.v
NodeMonitor.v
LiveQueries.v
ConfigGrpc.v
RestServer.v
Rollback.v
HsiDocs.v
ApiDocs.v
ApiSpec.v
GrpcProps.v
RestProps.v
ApiProps.v
HandlerProps.v
AuthProps.v
ApiEdges.v
OffsetGuard.v
OfflineEdit.v
Consumer.v
PPPoEBatch.v
Converge.v
AtLeastOnce.v
OfflineFlow.v
Session.v
Progress.v
LoadTest.v
Projection.v
ProjectionProps.v
Reconcile.v
Amaps.v
Pool.v
MonitorProps.v
Sweep.v
NodeServer.v
NodeProps.v
Startup.v
HttpFront.v
FrontProps.v
Settings.v
Metrics.v
Lifecycle.v
ControlLoop.v
Tools.v
Boot.v
