(* ===== verification/Prelude.v ===== *)
(** * FastRG controller: the verification library (root file)

    The controller manages a fleet of residential gateway nodes.  Operators edit
    subscriber configs over REST or gRPC; the configs live in etcd, where the
    nodes watch them; the nodes report back over Kafka what they applied; a
    PostgreSQL read model keeps history, PPPoE states and failed events.  This
    library models that program in Rocq and proves what makes it correct.  File
    names below are relative to [src/]; definitions keep the names of the code.

    ** How the code is modelled

    Pure code is translated to functions.  Code that talks to etcd, PostgreSQL,
    the clock or the broker is a value of [Effects.prog], one constructor per
    call that leaves the process, in the order of the code.  [Effects.run]
    executes it against a [world] and a list of [turn]s.  A turn says what
    happened just before one call: writes of other etcd clients, compaction,
    statements of other replicas, elapsed time, a failed request (and whether it
    took effect all the same), an ended context, a passed deadline.  A missing
    turn is a quiet one, so [run] is total, witnesses evaluate, and a theorem over
    all lists of turns is a theorem over all interleavings and failures.  [Effects.met]
    is the list of etcd states the calls of a run found.  [Hoare]
    has one proof rule per call ([ensures]) and the rules for what a program may
    write ([writes_only]); [rel_no_sql] and [rel_db] carry what the others keep
    through a program.
    State machines with several actors (the call pool, the process, leadership,
    the entry of a node) are inductive step relations.

    ** Files

    Foundations:
    - [Prelude]: results, notations, generic lemmas, hints.
    - [GoStrings], [Json], [JsonNormal], [Decode], [GoTime]: what the program
      uses of the Go standard library, byte by byte: decimal numbers at their
      width, splitting, trimming, [encoding/json] with its escaping, UTF-8 repair
      and number rules, decoding into structs and maps, RFC 3339.  The JSON round
      trip and "what was decoded can be printed and read back" live here.
    - [Amaps]: the same for the Go maps the node entries are.
    - [Etcd], [Effects], [Hoare]: etcd's documented key-value behaviour as a class
      with an executable instance, programs, and the proof rules.
    - [Grows]: what no statement on the tables undoes, of whichever replica.
    - [Rely]: programs that keep a promise as long as the others keep theirs.
    - [ConfigLog]: the changes that the writes of others make of the configs.

    Stored data:
    - [Cas] ([internal/storage/etcd.go]): the compare-and-swap loop and its
      contract: one atomic read-modify-write, at most five attempts.
    - [Storage] ([internal/storage]): listing and watching configs, and the
      closures both servers hand to the compare-and-swap.
    - [ConfigDoc], [HsiConfig], [HsiDocs], [ApiDocs]: the stored documents, their
      versions, the update rules, and what every closure writes.
    - [Db], [DbProps] ([internal/db]): the tables and every repository statement.
    - [Metrics] ([internal/db/metrics.go]): health gauges.

    The API:
    - [Validation] ([internal/validation]): the rules both servers share.
    - [Auth], [AuthProps] ([internal/server/rest_server.go], auth parts): tokens,
      the blacklist, login and logout.
    - [ConfigGrpc] ([config_grpc_server.go]) and [RestServer]
      ([rest_server.go]): every method and every route.
    - [HttpFront], [FrontProps] ([rest_server.go], [log_server.go]): from a URL to
      the handler, unmatched paths, the log listener, the redirect.
    - [ApiSpec]: the abstract specification, what a write of the API may do to the
      entry it finds.  [GrpcProps] and [RestProps] prove that both servers make no
      other writes; [ApiProps] derives what then holds of every request;
      [HandlerProps] has the full behaviour of the mutating methods; [ApiEdges]
      the limits.

    The way back from the nodes:
    - [Events] ([proto/eventsv1]): the messages.
    - [Consumer] ([internal/kafka/consumer.go]): one message from decoding to its
      settled offset, dead letters, batches; [Rollback] and [OfflineEdit] are the
      two decisions it takes inside a compare-and-swap.
    - [AtLeastOnce], [PPPoEBatch], [Converge]: what it takes for a message to be
      settled, and that one is committed only then; a batch equals its messages
      one by one; and what is read of the PPPoE states does not depend on the
      order or repetition of events of different seconds, but for [updated_at].
    - [OfflineFlow]: a proposal of a node from arrival to its answer.
    - [Session], [Progress]: the loop of [Run] from the start of a session to its
      end, with its commits as a watermark, and its progress on healthy backends.
    - [LoadTest] ([e2e_test/tools/consumer_load]): the load test, against that
      consumer.
    - [ControlLoop]: push, confirmation and rollback together.
    - [OffsetGuard] ([offset_metrics.go], start of a session in [consumer.go]).
    - [Projection], [ProjectionProps], [Reconcile] ([internal/projection]): etcd
      changes into the history table, what the checkpoint promises, and listings
      after a fresh start or a compaction.

    Nodes:
    - [NodeServer], [NodeProps] ([grpc_server.go]): registration, heartbeats,
      shutdown, removal, eviction; the entry of a node as a state machine.
    - [NodeMonitor], [MonitorProps] ([node_monitor.go]): connections, NIC models,
      republishing, the confirmation sweep; [Sweep]: the sweep as a whole;
      [Pool]: the bounded parallel calls.
    - [NetIP], [LiveQueries] ([internal/utils], [node_monitor.go],
      [rest_server.go]): queries answered by a node directly.

    The process:
    - [Startup] ([jwt_secret.go], [db.go], [leader.go]), [Settings] (environment
      variables, listeners, the connection string), [Boot] (the order of [main],
      connection pools), [Lifecycle] ([main.go], serving and shutdown).
    - [Tools] ([tools/]): what the operator tools write, call and publish.

    ** What the theorems show

    - Concurrency: [Cas.CASWithRevision_refines]; on top of it the API refines
      [ApiSpec.api_write] ([ApiProps.api_refines_spec]), versions form a chain
      ([api_version_chain]), an edit never sets the requested status
      ([desire_status_owned]), and each handler's success and failure is exact
      ([HandlerProps]).
    - Reconciliation: a confirmation records one document at the attested revision,
      the attested one unless that revision is compacted; a config that fails is
      replaced by the confirmed one, when nothing was compacted and the failure is
      handled undisturbed; a rollback replaces only the failed version; an offline
      edit never overrides a newer controller write.
    - Delivery: over a session commits follow the fetched order and cover only
      messages that are dead-lettered or settled, reports of nodes with what they
      ask of the tables and of etcd ([AtLeastOnce.report_settled]); a healthy
      session commits exactly what it fetched, unless a message attests a revision
      not reached yet ([future_revision_stalls]) or the config of a reported
      failure keeps changing; the load test's completion signal is exact.
    - Projection: while the watch is not compacted the checkpoint never passes a
      change missing from the history, over any failures and restarts, and with
      former leaders that still project, nor a document the JSONB type refuses;
      with listings and compactions the history still holds every config of the
      checkpoint's revision.
    - Access: no effect without a token on any method, route or path; a logout is
      final; replicas share one secret.
    - Nodes: reachable entries decode and carry consistent markers, every write of
      the service is a step of the entry's machine, eviction hits stale entries
      only, connections do not leak, the pool completes within its bound, the
      sweep finds exactly the nodes behind, and one that stays behind is asked in
      time, then at growing gaps.
    - Tables: idempotence and ordering guards, batches, states that converge,
      exact gauges.
    Where the code does not do what it means to, the example or theorem that
    shows it says so in its comment.

    ** Bounds and fuel

    The compare-and-swap loop runs on the code's own bound of five attempts.  The
    JSON parser takes fuel from the length of its input, which each step
    consumes.  The consumer's retry loops have no bound in the code: their
    definitions take fuel, [None] means still retrying, and [Progress] proves
    that without failures five attempts return a result.  Loops that end only
    with their context ([Projection.Run], [ConnectLoop], [leader_Run], the
    confirmation sweep, the samplers) recurse over a list with one entry per
    round; the theorems hold for every list.  NIC models are fetched five times
    and written three times, as in the code; the pool has the code's 16 slots.

    ** Parameters

    Code outside the repository is a class or an argument with its documented
    behaviour: etcd ([EtcdStore], [EtcdLaws], its watch [feeds]), JWT, bcrypt,
    request binding and the route lookup of gin ([Jwt], [Bcrypt], [Gin], [GinTree] and their laws), JSONB
    input ([Jsonb]), protobuf decoding ([ProtoEvents]), error texts, the answers of
    a node and of the Kafka broker.  Each has an executable instance the witnesses
    run on.

    ** Not modelled, and simplifications

    - Logging, TLS, opening listeners, serving files, the export of the metrics,
      the driver's pool settings, the setup of the log file; in the tools, dialling
      and printing.
    - The bodies of the migration files: whether one commits is a flag.
    - Other replicas write etcd at any turn, and run the statements of a consumer
      or of a projection on the tables; an operator who deletes events is not
      interleaved.  Refusals of text encodings by the server are failing turns.
      Etcd writes of others are single puts and deletes; what a transaction of
      several does to the checkpoint is [ProjectionProps.shared_revision_lost].
    - [Grant] and [Put] of a lease are one call; the expiry of a lease is a delete
      by the environment.
    - A [json.RawMessage] is kept as its document; a repeated key whose field is
      a slice replaces the slice; years have four digits; nesting deeper than
      10000 levels is not refused.
    - The service handlers return the calls they make on the monitor manager in
      order; they are carried out by [NodeServer.run_mgr].
    - The JSON texts of event and status rows in REST answers are parameters.
    - A watch is a function of the revision it starts after: the test of
      [WatchConfigs] for revision 0 is not written out, since the revisions etcd
      and the checkpoint give are positive.  [Shutdown] of the HTTP servers drains
      them; that its deadline may pass first changes nothing in what follows it.
      The error path of [json.Marshal] on a document built by the program is left
      out: such documents can always be printed. *)

From Stdlib Require Export Ascii String.
From stdpp Require Export base tactics option list strings gmap fin_maps.
From Stdlib Require Export ZArith Lia.

(** stdpp never simplifies [String.append]; the string lemmas here recurse on
    it, so it unfolds again when its first argument is a constructor. *)
#[global] Arguments String.append !_ _ / : simpl nomatch.

(** ** Results of fallible code *)

(** A Go call returning [(v, err)]: a value when [err == nil], the error
    otherwise. *)
Inductive result (E A : Type) : Type :=
| Ok (a : A)
| Err (e : E).
Arguments Ok {E A} a.
Arguments Err {E A} e.

Declare Scope go_scope.
Delimit Scope go_scope with go.

Notation "'let?' x := m 'in' k" :=
  (match m with Ok x => k | Err e => Err e end)
  (at level 10, x pattern, m at level 100, k at level 200) : go_scope.
Notation "'letopt' x := m 'in' k" :=
  (match m with Some x => k | None => None end)
  (at level 10, x pattern, m at level 100, k at level 200) : go_scope.

#[export] Instance result_eq_dec {E A} `{EqDecision E, EqDecision A} : EqDecision (result E A).
Proof. solve_decision. Defined.

Lemma Ok_inj {E A} (a b : A) : @Ok E A a = Ok b -> a = b.
Proof. by intros [=]. Qed.

Definition is_ok {E A} (r : result E A) : bool :=
  match r with Ok _ => true | Err _ => false end.

(** ** Tactics of the development *)

(** Split the boolean connectives of the hypotheses. *)
Ltac bool_split :=
  repeat match goal with
  | H : andb _ _ = true |- _ => apply andb_true_iff in H; destruct H
  | H : orb _ _ = false |- _ => apply orb_false_iff in H; destruct H
  | H : negb _ = true |- _ => apply negb_true_iff in H
  | H : negb _ = false |- _ => apply negb_false_iff in H
  end.

(** ... and turn their comparisons into propositions. *)
Ltac bool_hyps :=
  bool_split;
  repeat match goal with
  | H : bool_decide _ = true |- _ => apply bool_decide_eq_true in H
  | H : bool_decide _ = false |- _ => apply bool_decide_eq_false in H
  | H : Z.leb _ _ = true |- _ => apply Z.leb_le in H
  | H : Z.leb _ _ = false |- _ => apply Z.leb_gt in H
  | H : Z.ltb _ _ = true |- _ => apply Z.ltb_lt in H
  | H : Z.ltb _ _ = false |- _ => apply Z.ltb_ge in H
  | H : Z.eqb _ _ = true |- _ => apply Z.eqb_eq in H
  | H : Z.eqb _ _ = false |- _ => apply Z.eqb_neq in H
  | H : String.eqb _ _ = true |- _ => apply String.eqb_eq in H
  | H : String.eqb _ _ = false |- _ => apply String.eqb_neq in H
  end.

(** Case analysis on the first scrutinee of the goal, keeping its equation. *)
Ltac split_match :=
  match goal with
  | |- context [match ?x with _ => _ end] =>
      lazymatch x with context [match _ with _ => _ end] => fail | _ => destruct x eqn:? end
  end.

(** The same in a hypothesis. *)
Ltac split_match_in H :=
  match type of H with
  | context [match ?x with _ => _ end] =>
      lazymatch x with context [match _ with _ => _ end] => fail | _ => destruct x eqn:? end
  end.

(** Explore every path of a computed hypothesis, dropping impossible ones. *)
Ltac paths H := repeat (split_match_in H; simplify_eq/=).

(** ** Integers at their width *)

(** Two's-complement wrap-around of Go's [int] / [int64]. *)
Definition wrap64 (z : Z) : Z := (z + 2^63) mod 2^64 - 2^63.
(** Wrap-around of [uint64] and [uint32]. *)
Definition wrapu64 (z : Z) : Z := z mod 2^64.
Definition wrapu32 (z : Z) : Z := z mod 2^32.

Definition max_int64 : Z := 2^63 - 1.
Definition min_int64 : Z := - 2^63.
Definition max_uint64 : Z := 2^64 - 1.
Definition max_uint32 : Z := 2^32 - 1.

Lemma wrap64_id z : (min_int64 <= z <= max_int64)%Z -> wrap64 z = z.
Proof. unfold wrap64, min_int64, max_int64. intros. rewrite Z.mod_small; lia. Qed.

Lemma wrapu64_id z : (0 <= z <= max_uint64)%Z -> wrapu64 z = z.
Proof. unfold wrapu64, max_uint64. intros. rewrite Z.mod_small; lia. Qed.

Lemma wrapu64_range z : (0 <= wrapu64 z)%Z.
Proof. unfold wrapu64. apply Z.mod_pos_bound. lia. Qed.

Lemma wrapu32_id z : (0 <= z <= max_uint32)%Z -> wrapu32 z = z.
Proof. unfold wrapu32, max_uint32. intros. rewrite Z.mod_small; lia. Qed.

(** ** Lists *)

Lemma find_none_forall {A} (f : A -> bool) (l : list A) :
  List.find f l = None <-> Forall (fun x => f x = false) l.
Proof.
  split.
  - intros H. apply Forall_forall. intros x Hx.
    eapply List.find_none; [exact H|]. by apply list_elem_of_In.
  - induction 1 as [|x l Hx _ IH]; simpl; [done|]. by rewrite Hx.
Qed.

Lemma omap_ext {A B} (f g : A -> option B) (l : list A) :
  (forall x, x ∈ l -> f x = g x) -> omap f l = omap g l.
Proof.
  induction l as [|x l IH]; intros H; csimpl; [done|].
  rewrite (H x) by set_solver. rewrite IH by set_solver. done.
Qed.
