(* ===== verification/GoStrings.v ===== *)
(** * Strings and numbers of the Go standard library

    The parts of [strings], [strconv], [fmt] and [unicode/utf8] that the
    controller uses, on byte strings: decimal parsing and printing at their
    machine width, splitting and trimming, [fmt.Sscanf] with [%d], and the
    UTF-8 decoder that [encoding/json] relies on. *)

From S2P Require Import Prelude.
Local Open Scope string_scope.
Local Open Scope Z_scope.
Local Open Scope go_scope.

(** ** Bytes *)

Definition code (c : ascii) : Z := Z.of_N (N_of_ascii c).
Definition byte (n : Z) : ascii := ascii_of_N (Z.to_N n).
Definition between (lo c hi : Z) : bool := (lo <=? c) && (c <=? hi).

Lemma code_byte n : 0 <= n < 256 -> code (byte n) = n.
Proof.
  intros H. unfold code, byte. rewrite N_ascii_embedding by lia. lia.
Qed.

Lemma byte_code c : byte (code c) = c.
Proof. unfold code, byte. rewrite N2Z.id. apply ascii_N_embedding. Qed.

Lemma code_range c : 0 <= code c < 256.
Proof. unfold code. pose proof (N_ascii_bounded c). lia. Qed.

Lemma code_inj c d : code c = code d -> c = d.
Proof. intros H. rewrite <- (byte_code c), <- (byte_code d). by f_equal. Qed.

(** Concatenation is written with [+:+], stdpp's notation on strings. *)
Lemma sapp_assoc (a b c : string) : (a +:+ b) +:+ c = a +:+ (b +:+ c).
Proof. induction a as [|x a IH]; simpl; [done|]. by f_equal. Qed.

Lemma sapp_nil_r (a : string) : a +:+ "" = a.
Proof. induction a as [|x a IH]; simpl; [done|]. by f_equal. Qed.

Lemma slength_app (a b : string) : String.length (a +:+ b) = (String.length a + String.length b)%nat.
Proof. induction a as [|x a IH]; simpl; [done|]. by f_equal. Qed.

Lemma sapp_inv_l (a b c : string) : a +:+ b = a +:+ c -> b = c.
Proof. induction a as [|x a IH]; simpl; [done|]. intros [= H]. auto. Qed.

Lemma string_compare_refl (s : string) : String.compare s s = Eq.
Proof.
  induction s as [|c r IH]; simpl; [done|].
  unfold Ascii.compare. by rewrite N.compare_refl.
Qed.

(** ** Prefixes, splitting and searching *)

(** [strings.TrimPrefix]; [strings.HasPrefix s p] is [String.prefix p s]. *)
Fixpoint strip_prefix (p s : string) : option string :=
  match p, s with
  | EmptyString, _ => Some s
  | String a p', String b s' => if Ascii.eqb a b then strip_prefix p' s' else None
  | String _ _, EmptyString => None
  end.
Definition has_prefix (p s : string) : bool :=
  match strip_prefix p s with Some _ => true | None => false end.
Definition trim_prefix (p s : string) : string := default s (strip_prefix p s).

Lemma strip_prefix_app p s : strip_prefix p (p +:+ s) = Some s.
Proof. induction p as [|a p IH]; simpl; [done|]. by rewrite Ascii.eqb_refl. Qed.

Lemma strip_prefix_inv p s t : strip_prefix p s = Some t -> s = p +:+ t.
Proof.
  revert s. induction p as [|a p IH]; intros [|b s]; simpl; try by intros [= ->].
  destruct (Ascii.eqb_spec a b) as [->|]; [|done]. intros H. by rewrite (IH _ H).
Qed.

Lemma has_prefix_iff p s : has_prefix p s = true <-> exists t, s = p +:+ t.
Proof.
  unfold has_prefix. split.
  - destruct (strip_prefix p s) as [t|] eqn:H; [|done]. eauto using strip_prefix_inv.
  - intros [t ->]. by rewrite strip_prefix_app.
Qed.

(** Does the byte occur in the string? *)
Fixpoint has_byte (c : ascii) (s : string) : bool :=
  match s with
  | EmptyString => false
  | String a r => Ascii.eqb a c || has_byte c r
  end.

Lemma has_byte_app c s t : has_byte c (s +:+ t) = has_byte c s || has_byte c t.
Proof. induction s as [|a s IH]; simpl; [done|]. by rewrite IH, orb_assoc. Qed.

(** [strings.Split(s, sep)] for a separator of one byte. *)
Fixpoint split_on (c : ascii) (s : string) : list string :=
  match s with
  | EmptyString => [""]
  | String a r =>
      if Ascii.eqb a c then "" :: split_on c r
      else match split_on c r with
           | [] => [String a ""]
           | w :: ws => String a w :: ws
           end
  end.

Lemma split_on_nonempty c s : split_on c s <> [].
Proof. destruct s as [|a r]; simpl; [done|]. destruct (Ascii.eqb a c); [done|]. by destruct (split_on c r). Qed.

Lemma split_on_no_sep c s : has_byte c s = false -> split_on c s = [s].
Proof.
  induction s as [|a r IH]; simpl; [done|]. intros H. apply orb_false_iff in H as [-> H].
  by rewrite IH.
Qed.

(** The first separator cuts the string: the law the key parsers rest on. *)
Lemma split_on_app c w s :
  has_byte c w = false -> split_on c (w +:+ String c s) = w :: split_on c s.
Proof.
  induction w as [|a r IH]; simpl.
  - intros _. by rewrite Ascii.eqb_refl.
  - intros H. apply orb_false_iff in H as [-> H]. by rewrite IH.
Qed.

(** Joining with the separator inverts splitting. *)
Fixpoint join_with (c : ascii) (ws : list string) : string :=
  match ws with
  | [] => ""
  | [w] => w
  | w :: ws' => w +:+ String c (join_with c ws')
  end.

Lemma join_split c s : join_with c (split_on c s) = s.
Proof.
  induction s as [|a r IH]; simpl; [done|].
  destruct (Ascii.eqb_spec a c) as [->|].
  - pose proof (split_on_nonempty c r). simpl.
    destruct (split_on c r); [done|]. by rewrite IH.
  - destruct (split_on c r) as [|w ws]; simpl in *; [by subst|].
    destruct ws; simpl in *; by rewrite <- IH.
Qed.

Lemma split_join c ws : ws <> [] -> Forall (fun w => has_byte c w = false) ws -> split_on c (join_with c ws) = ws.
Proof.
  intros Hne Hw. induction Hw as [|w ws Hw _ IH]; [done|]. destruct ws as [|w' ws]; [by apply split_on_no_sep|].
  change (join_with c (w :: w' :: ws)) with (w +:+ String c (join_with c (w' :: ws))). by rewrite split_on_app, IH.
Qed.

Lemma split_on_pieces c s : Forall (fun w => has_byte c w = false) (split_on c s).
Proof.
  induction s as [|a r IH]; simpl; [by repeat constructor|].
  destruct (Ascii.eqb a c) eqn:E; [by constructor|].
  destruct (split_on c r); inversion IH; subst; constructor; simpl; rewrite ?E; auto.
Qed.

(** ** Decimal numbers *)

Definition is_digit (c : ascii) : bool := between 48 (code c) 57.
Definition digit_val (c : ascii) : option Z := if is_digit c then Some (code c - 48) else None.
Definition digit_char (d : Z) : ascii := byte (48 + d).

(** The value of a run of digits, most significant first. *)
Fixpoint parse_digits (s : string) (acc : Z) : option Z :=
  match s with
  | EmptyString => Some acc
  | String c r => letopt d := digit_val c in parse_digits r (acc * 10 + d)
  end.

(** [strconv.ParseUint(s, 10, bits)]; [None] for a syntax or a range error. *)
Definition parse_uint (bits : Z) (s : string) : option Z :=
  if String.eqb s "" then None
  else letopt n := parse_digits s 0 in if n <? 2 ^ bits then Some n else None.

(** [strconv.ParseInt(s, 10, bits)], also [strconv.Atoi] at 64 bits. *)
Definition parse_int (bits : Z) (s : string) : option Z :=
  match s with
  | EmptyString => None
  | String c r =>
      let neg := Ascii.eqb c "-" in
      let body := if neg || Ascii.eqb c "+" then r else s in
      if String.eqb body "" then None
      else letopt n := parse_digits body 0 in
           if neg then (if n <=? 2 ^ (bits - 1) then Some (- n) else None)
           else (if n <? 2 ^ (bits - 1) then Some n else None)
  end.
Definition atoi (s : string) : option Z := parse_int 64 s.

(** [strconv.FormatUint(n, 10)]: at most [log2 n + 1] decimal digits. *)
Fixpoint format_digits (fuel : nat) (n : Z) (acc : string) : string :=
  match fuel with
  | O => acc
  | S f =>
      let acc' := String (digit_char (n mod 10)) acc in
      if n <? 10 then acc' else format_digits f (n / 10) acc'
  end.
Definition format_uint (n : Z) : string := format_digits (S (Z.to_nat (Z.log2 n))) n "".

(** [fmt.Sprintf("%d", z)]. *)
Definition format_int (z : Z) : string :=
  if z <? 0 then String "-" (format_uint (- z)) else format_uint z.

Lemma digit_val_char d : 0 <= d < 10 -> digit_val (digit_char d) = Some d.
Proof.
  intros H. unfold digit_val, is_digit, digit_char, between. rewrite code_byte by lia.
  replace ((48 <=? 48 + d) && (48 + d <=? 57)) with true by (symmetry; apply andb_true_iff; lia).
  f_equal. lia.
Qed.

Lemma parse_format_digits fuel n acc :
  0 <= n < 10 ^ Z.of_nat fuel -> (0 < fuel)%nat ->
  parse_digits (format_digits fuel n acc) 0 = parse_digits acc n.
Proof.
  revert n acc. induction fuel as [|f IH]; intros n acc Hn Hf; [lia|]. simpl format_digits.
  assert (Hm : 0 <= n mod 10 < 10) by (apply Z.mod_pos_bound; lia).
  destruct (Z.ltb_spec n 10).
  - simpl. rewrite digit_val_char by done. f_equal. rewrite Z.mod_small; lia.
  - assert (f <> O) by (intros ->; simpl in Hn; lia).
    rewrite IH; [|split; [apply Z.div_pos; lia|]|lia].
    + simpl. rewrite digit_val_char by done. f_equal.
      pose proof (Z.div_mod n 10). lia.
    + apply Z.div_lt_upper_bound; [lia|].
      replace (Z.of_nat (S f)) with (1 + Z.of_nat f) in Hn by lia.
      rewrite Z.pow_add_r in Hn by lia. lia.
Qed.

Lemma format_uint_fuel n : 0 <= n -> n < 10 ^ Z.of_nat (S (Z.to_nat (Z.log2 n))).
Proof.
  intros H. pose proof (Z.log2_nonneg n).
  replace (Z.of_nat (S (Z.to_nat (Z.log2 n)))) with (Z.log2 n + 1) by lia.
  destruct (Z.eq_dec n 0) as [->|]; [reflexivity|].
  pose proof (Z.log2_spec n ltac:(lia)).
  assert (2 ^ (Z.log2 n + 1) <= 10 ^ (Z.log2 n + 1)) by (apply Z.pow_le_mono_l; lia).
  replace (Z.succ (Z.log2 n)) with (Z.log2 n + 1) in * by lia. lia.
Qed.

Lemma parse_digits_format n : 0 <= n -> parse_digits (format_uint n) 0 = Some n.
Proof.
  intros H. unfold format_uint. rewrite parse_format_digits; [done| |lia].
  split; [done|by apply format_uint_fuel].
Qed.

(** Every byte of a printed number is a digit. *)
Fixpoint all_digits (s : string) : bool :=
  match s with EmptyString => true | String c r => is_digit c && all_digits r end.

Lemma digit_char_is_digit d : 0 <= d < 10 -> is_digit (digit_char d) = true.
Proof.
  intros H. pose proof (digit_val_char d H) as E. unfold digit_val in E.
  by destruct (is_digit (digit_char d)).
Qed.

Lemma format_digits_all fuel n acc :
  0 <= n -> all_digits acc = true -> all_digits (format_digits fuel n acc) = true.
Proof.
  revert n acc. induction fuel as [|f IH]; intros n acc Hn Ha; simpl; [done|].
  assert (all_digits (String (digit_char (n mod 10)) acc) = true).
  { simpl. rewrite digit_char_is_digit by (apply Z.mod_pos_bound; lia). done. }
  destruct (n <? 10); [done|]. apply IH; [apply Z.div_pos; lia|done].
Qed.

Lemma format_uint_all_digits n : 0 <= n -> all_digits (format_uint n) = true.
Proof. intros. by apply format_digits_all. Qed.

Lemma format_digits_nonempty fuel n acc : acc <> "" -> format_digits fuel n acc <> "".
Proof.
  revert n acc. induction fuel as [|f IH]; intros n acc Ha; simpl; [done|].
  destruct (n <? 10); [done|]. by apply IH.
Qed.

Lemma format_uint_nonempty n : format_uint n <> "".
Proof.
  unfold format_uint. simpl. destruct (n <? 10); [done|]. by apply format_digits_nonempty.
Qed.

(** *** Round trips of the decimal codecs *)

Lemma parse_format_uint bits n : 0 <= n < 2 ^ bits -> parse_uint bits (format_uint n) = Some n.
Proof.
  intros [H1 H2]. unfold parse_uint.
  destruct (String.eqb_spec (format_uint n) "") as [E|_]; [by destruct (format_uint_nonempty n)|].
  rewrite parse_digits_format by done.
  destruct (Z.ltb_spec n (2 ^ bits)); [done|lia].
Qed.

Lemma format_digits_acc fuel n acc :
  format_digits fuel n acc = format_digits fuel n "" +:+ acc.
Proof.
  revert n acc. induction fuel as [|f IH]; intros n acc; simpl; [done|].
  destruct (n <? 10); [done|].
  rewrite IH. rewrite (IH (n / 10) (String _ "")). by rewrite sapp_assoc.
Qed.

Lemma format_digits_fuel f g n acc :
  0 <= n -> n < 10 ^ Z.of_nat f -> n < 10 ^ Z.of_nat g -> (0 < f)%nat -> (0 < g)%nat ->
  format_digits f n acc = format_digits g n acc.
Proof.
  revert g n acc. induction f as [|f IH]; intros [|g] n acc Hn Hf Hg Pf Pg; try lia. simpl.
  destruct (Z.ltb_spec n 10); [done|].
  assert (f <> O) by (intros ->; simpl in Hf; lia).
  assert (g <> O) by (intros ->; simpl in Hg; lia).
  rewrite Nat2Z.inj_succ, Z.pow_succ_r in Hf, Hg by lia.
  apply IH; try lia; [apply Z.div_pos; lia|apply Z.div_lt_upper_bound; lia..].
Qed.

Lemma format_uint_digit d : 0 <= d < 10 -> format_uint d = String (digit_char d) "".
Proof.
  intros H. unfold format_uint. simpl.
  destruct (Z.ltb_spec d 10); [|lia]. by rewrite Z.mod_small.
Qed.

Lemma format_uint_snoc n d :
  0 < n -> 0 <= d < 10 -> format_uint (n * 10 + d) = format_uint n +:+ String (digit_char d) "".
Proof.
  intros Hn Hd. unfold format_uint at 1. set (f := Z.to_nat (Z.log2 (n * 10 + d))). simpl.
  destruct (Z.ltb_spec (n * 10 + d) 10); [lia|].
  assert (Em : (n * 10 + d) mod 10 = d) by (rewrite Z.add_comm, Z.mod_add, Z.mod_small; lia).
  assert (Ed : (n * 10 + d) / 10 = n) by (rewrite Z.div_add_l, Z.div_small; lia).
  rewrite Em, Ed, format_digits_acc. f_equal. unfold format_uint.
  pose proof (Z.log2_nonneg n).
  assert (n < 2 ^ Z.of_nat f).
  { unfold f. rewrite Z2Nat.id by apply Z.log2_nonneg.
    assert (1 <= Z.log2 (n * 10 + d)) by (apply Z.log2_le_pow2; lia).
    pose proof (Z.log2_spec (n * 10 + d) ltac:(lia)) as [_ Hs].
    rewrite Z.pow_succ_r in Hs by lia. lia. }
  assert (2 ^ Z.of_nat f <= 10 ^ Z.of_nat f) by (apply Z.pow_le_mono_l; lia).
  apply format_digits_fuel; try lia.
  - apply format_uint_fuel; lia.
  - destruct f; [simpl in *; lia|lia].
Qed.

Lemma digit_val_spec c d : digit_val c = Some d -> 0 <= d < 10 /\ c = digit_char d.
Proof.
  unfold digit_val, is_digit, between. destruct (_ && _) eqn:E; [|done].
  intros [= <-]. bool_hyps. split; [lia|]. unfold digit_char.
  replace (48 + (code c - 48)) with (code c) by lia. by rewrite byte_code.
Qed.

Lemma parse_digits_canonical s a n :
  0 < a -> parse_digits s a = Some n -> format_uint n = format_uint a +:+ s.
Proof.
  revert a. induction s as [|c r IH]; intros a Ha; simpl.
  - intros [= ->]. by rewrite sapp_nil_r.
  - destruct (digit_val c) as [d|] eqn:E; [|done]. apply digit_val_spec in E as [Hd ->].
    intros Hp. apply IH in Hp; [|lia]. rewrite Hp, format_uint_snoc by done.
    by rewrite sapp_assoc.
Qed.

Lemma parse_digits_mono s a n : 0 <= a -> parse_digits s a = Some n -> a <= n.
Proof.
  revert a. induction s as [|c r IH]; intros a Ha; simpl; [intros [= ->]; lia|].
  destruct (digit_val c) as [e|] eqn:E; [|done]. apply digit_val_spec in E as [He _].
  intros Hp. apply IH in Hp; lia.
Qed.

(** The canonical decimal numerals are exactly the printed positive numbers. *)
Lemma parse_uint_canonical bits c r n :
  c <> "0"%char -> parse_uint bits (String c r) = Some n ->
  String c r = format_uint n /\ 0 < n < 2 ^ bits.
Proof.
  intros Hc. unfold parse_uint. simpl.
  destruct (digit_val c) as [d|] eqn:E; [|done]. apply digit_val_spec in E as [Hd ->].
  assert (d <> 0) by (intros ->; apply Hc; reflexivity).
  replace (0 * 10 + d) with d by lia.
  destruct (parse_digits r d) as [m|] eqn:Ep; [|done].
  destruct (Z.ltb_spec m (2 ^ bits)); [|done]. intros [= ->].
  pose proof (parse_digits_mono r d n ltac:(lia) Ep).
  split; [|lia].
  rewrite (parse_digits_canonical r d n) by (auto; lia). rewrite format_uint_digit by lia. done.
Qed.

Lemma all_digits_no_byte c s : all_digits s = true -> is_digit c = false -> has_byte c s = false.
Proof.
  intros Hs Hc. induction s as [|a r IH]; simpl in *; [done|]. bool_hyps.
  destruct (Ascii.eqb_spec a c) as [->|]; [congruence|]. simpl. auto.
Qed.

Lemma parse_format_int z : min_int64 <= z <= max_int64 -> parse_int 64 (format_int z) = Some z.
Proof.
  unfold min_int64, max_int64. intros Hz. unfold format_int, parse_int. destruct (Z.ltb_spec z 0).
  - simpl. destruct (String.eqb_spec (format_uint (- z)) "") as [E|_]; [by destruct (format_uint_nonempty (-z))|].
    rewrite parse_digits_format by lia.
    destruct (Z.leb_spec (- z) (2 ^ (64 - 1))); [f_equal; lia|lia].
  - pose proof (format_uint_all_digits z ltac:(lia)) as Hd.
    pose proof (parse_digits_format z ltac:(lia)) as Hp.
    destruct (format_uint z) as [|c r] eqn:E; [by destruct (format_uint_nonempty z)|].
    simpl in Hd. bool_hyps.
    destruct (Ascii.eqb_spec c "-") as [->|]; [done|].
    destruct (Ascii.eqb_spec c "+") as [->|]; [done|]. simpl.
    change (match digit_val c with Some d => parse_digits r (0 * 10 + d) | None => None end)
      with (parse_digits (String c r) 0). rewrite Hp.
    destruct (Z.ltb_spec z (2 ^ (64 - 1))); [done|lia].
Qed.

(** ** White space

    The runes [unicode.IsSpace] and [fmt]'s [isSpace] accept, as UTF-8. *)
Definition bytes (l : list Z) : string := List.fold_right (fun b s => String (byte b) s) "" l.
Definition wide_spaces : list string :=
  [bytes [194; 133]; bytes [194; 160]; bytes [225; 154; 128]]
  ++ List.map (fun n => bytes [226; 128; n]) [128; 129; 130; 131; 132; 133; 134; 135; 136; 137; 138; 168; 169; 175]
  ++ [bytes [226; 129; 159]; bytes [227; 128; 128]].
Definition is_ascii_space (c : ascii) : bool := between 9 (code c) 13 || (code c =? 32).

(** Drop one leading space rune. *)
Definition drop_space (s : string) : option string :=
  match s with
  | EmptyString => None
  | String c r =>
      if is_ascii_space c then Some r
      else List.fold_right (fun w k => match strip_prefix w s with Some t => Some t | None => k end) None wide_spaces
  end.
Fixpoint trim_left_fuel (fuel : nat) (s : string) : string :=
  match fuel with
  | O => s
  | S f => match drop_space s with Some t => trim_left_fuel f t | None => s end
  end.
Definition trim_left (s : string) : string := trim_left_fuel (String.length s) s.

Fixpoint srev_append (s acc : string) : string :=
  match s with EmptyString => acc | String c r => srev_append r (String c acc) end.
Definition srev (s : string) : string := srev_append s "".

(** Trailing spaces are dropped on the reversed string, whose space runes are
    spelled backwards. *)
Definition drop_space_rev (s : string) : option string :=
  match s with
  | EmptyString => None
  | String c r =>
      if is_ascii_space c then Some r
      else List.fold_right (fun w k => match strip_prefix (srev w) s with Some t => Some t | None => k end) None wide_spaces
  end.
Fixpoint trim_right_fuel (fuel : nat) (s : string) : string :=
  match fuel with
  | O => s
  | S f => match drop_space_rev s with Some t => trim_right_fuel f t | None => s end
  end.
(** [strings.TrimSpace]. *)
Definition trim_space (s : string) : string :=
  let t := trim_left s in srev (trim_right_fuel (String.length t) (srev t)).

(** [strings.EqualFold(s, p)] against an ASCII [p] without the letters [k] and
    [s], whose fold orbits leave ASCII. *)
Definition to_lower (c : ascii) : ascii :=
  if between 65 (code c) 90 then byte (code c + 32) else c.
Definition to_upper (c : ascii) : ascii :=
  if between 97 (code c) 122 then byte (code c - 32) else c.
Fixpoint smap (f : ascii -> ascii) (s : string) : string :=
  match s with EmptyString => "" | String c r => String (f c) (smap f r) end.
Definition equal_fold (s p : string) : bool := String.eqb (smap to_lower s) (smap to_lower p).

(** ** [fmt.Sscanf(s, "%d", &n)] *)

(** [ss.SkipSpace] of a [Sscanf]: a newline is an error, a carriage return
    before a newline is skipped, other space runes are skipped. *)
Fixpoint skip_space_fuel (fuel : nat) (s : string) : option string :=
  match fuel with
  | O => Some s
  | S f =>
      match s with
      | String c (String d r as t) =>
          if (code c =? 13) && (code d =? 10) then skip_space_fuel f t
          else if code c =? 10 then None
          else match drop_space s with Some u => skip_space_fuel f u | None => Some s end
      | String c EmptyString =>
          if code c =? 10 then None
          else match drop_space s with Some u => skip_space_fuel f u | None => Some s end
      | EmptyString => Some s
      end
  end.
Fixpoint take_digits (s : string) : string :=
  match s with
  | EmptyString => ""
  | String c r => if is_digit c then String c (take_digits r) else ""
  end.
(** Scans an optionally signed run of digits after leading space and ignores
    what follows it; the run must fit [int64]. *)
Definition sscanf_d (s : string) : option Z :=
  letopt t := skip_space_fuel (S (String.length s)) s in
  match t with
  | EmptyString => None
  | String c r =>
      let signed := Ascii.eqb c "-" || Ascii.eqb c "+" in
      let body := take_digits (if signed then r else t) in
      if String.eqb body "" then None
      else parse_int 64 (if signed then String c body else body)
  end.

Lemma take_digits_all s : all_digits s = true -> take_digits s = s.
Proof. induction s as [|c r IH]; simpl; [done|]. intros H. bool_hyps. rewrite H. by rewrite IH. Qed.

Lemma digit_not_space c r : is_digit c = true -> drop_space (String c r) = None.
Proof.
  intros H. unfold is_digit, between in H. bool_hyps. unfold drop_space, is_ascii_space, between.
  replace ((9 <=? code c) && (code c <=? 13) || (code c =? 32)) with false
    by (symmetry; apply orb_false_iff; split; [apply andb_false_iff; right; apply Z.leb_gt; lia|apply Z.eqb_neq; lia]).
  assert (Hne : forall b t, 128 <= b < 256 -> strip_prefix (String (byte b) t) (String c r) = None).
  { intros b t Hb. simpl. destruct (Ascii.eqb_spec (byte b) c) as [E|]; [|done].
    exfalso. rewrite <- E, code_byte in H, H0; lia. }
  unfold wide_spaces, bytes. cbn -[strip_prefix byte].
  rewrite !Hne by lia. done.
Qed.

Lemma parse_digits_all s a n : parse_digits s a = Some n -> all_digits s = true.
Proof.
  revert a. induction s as [|c r IH]; intros a; simpl; [done|]. unfold digit_val.
  destruct (is_digit c); [|done]. intros Hp. simpl. by eapply IH.
Qed.
(** A run of digits is read as its value whatever its leading zeros. *)
Lemma sscanf_digits s n : s <> "" -> parse_digits s 0 = Some n -> n <= max_int64 -> sscanf_d s = Some n.
Proof.
  intros Hne Hp Hn. pose proof (parse_digits_all s 0 n Hp) as Hd. destruct s as [|c r]; [done|].
  assert (Hc : is_digit c = true) by (simpl in Hd; by bool_hyps).
  assert (Hs : skip_space_fuel (S (String.length (String c r))) (String c r) = Some (String c r)).
  { pose proof (digit_not_space c r Hc) as Hns.
    unfold is_digit, between in Hc. bool_hyps.
    assert (code c <> 13 /\ code c <> 10) as [H13 H10] by lia.
    apply Z.eqb_neq in H13, H10.
    destruct r; cbn -[drop_space code]; by rewrite ?H13, ?H10, Hns. }
  unfold sscanf_d. rewrite Hs.
  destruct (Ascii.eqb_spec c "-") as [->|]; [done|].
  destruct (Ascii.eqb_spec c "+") as [->|]; [done|]. simpl orb. cbv iota zeta.
  rewrite take_digits_all by done. simpl (String.eqb _ _). unfold parse_int.
  destruct (Ascii.eqb_spec c "-") as [->|]; [done|].
  destruct (Ascii.eqb_spec c "+") as [->|]; [done|]. simpl (String.eqb _ _). simpl orb. cbv iota zeta.
  rewrite Hp. unfold max_int64 in Hn. destruct (Z.ltb_spec n (2 ^ (64 - 1))); [done|lia].
Qed.
Lemma sscanf_format n : 0 <= n <= max_int64 -> sscanf_d (format_uint n) = Some n.
Proof.
  intros Hn. apply sscanf_digits; [apply format_uint_nonempty|apply parse_digits_format; lia|lia].
Qed.

(** A printed positive number does not start with a zero. *)
Lemma format_digits_head fuel n acc :
  0 < n -> n < 10 ^ Z.of_nat fuel ->
  exists c r, format_digits fuel n acc = String c r /\ c <> "0"%char.
Proof.
  revert n acc. induction fuel as [|f IH]; intros n acc Hn Hf; [simpl in Hf; lia|].
  rewrite Nat2Z.inj_succ, Z.pow_succ_r in Hf by lia. simpl.
  destruct (Z.ltb_spec n 10).
  - eexists _, _. split; [done|]. rewrite Z.mod_small by lia. intros E.
    apply (f_equal code) in E. unfold digit_char in E. rewrite code_byte in E by lia.
    change (code "0") with 48 in E. lia.
  - apply IH; [apply Z.div_str_pos; lia|apply Z.div_lt_upper_bound; lia].
Qed.
Lemma format_uint_no_zero n c r : 0 < n -> format_uint n = String c r -> c <> "0"%char.
Proof.
  intros Hn E. destruct (format_digits_head _ n "" Hn (format_uint_fuel n ltac:(lia))) as (d & t & H & Hd).
  unfold format_uint in E. congruence.
Qed.
