(* ===== verification/Json.v ===== *)
(** * JSON: the codec of [encoding/json]

    Byte-level [json.Marshal] and [json.Unmarshal] as the controller uses
    them: the value tree, the printer with Go's string escaping, the parser
    with Go's unescaping and UTF-8 repair, and the theorem that parsing inverts
    printing.  A number is kept as its literal; whether it fits a field is
    decided where it is decoded.  Documents nested deeper than Go's limit of
    10000 levels are not refused here. *)

From S2P Require Import Prelude GoStrings.
Local Open Scope string_scope.
Local Open Scope Z_scope.
Local Open Scope go_scope.

Inductive json :=
| JNull
| JBool (b : bool)
| JNum (lit : string)
| JStr (s : string)
| JArr (l : list json)
| JObj (l : list (string * json)).

(** Induction that reaches the elements of arrays and objects. *)
Section json_induction.
Variable P : json -> Prop.
Hypothesis Hnull : P JNull.
Hypothesis Hbool : forall b, P (JBool b).
Hypothesis Hnum : forall n, P (JNum n).
Hypothesis Hstr : forall s, P (JStr s).
Hypothesis Harr : forall l, Forall P l -> P (JArr l).
Hypothesis Hobj : forall l, Forall (fun kv => P kv.2) l -> P (JObj l).

Fixpoint json_ind_nested (j : json) : P j :=
  match j with
  | JNull => Hnull
  | JBool b => Hbool b
  | JNum n => Hnum n
  | JStr s => Hstr s
  | JArr l =>
      Harr l ((fix go (l : list json) : Forall P l :=
                 match l with
                 | [] => Forall_nil_2 P
                 | x :: l' => Forall_cons_2 P x l' (json_ind_nested x) (go l')
                 end) l)
  | JObj l =>
      Hobj l ((fix go (l : list (string * json)) : Forall (fun kv => P kv.2) l :=
                 match l with
                 | [] => Forall_nil_2 _
                 | (k, x) :: l' => Forall_cons_2 (fun kv => P kv.2) (k, x) l' (json_ind_nested x) (go l')
                 end) l)
  end.
End json_induction.

(** ** UTF-8 *)

Definition cont (c : ascii) : bool := between 128 (code c) 191.
Definition lead3 (x : Z) (b : ascii) : bool :=
  ((x =? 224) && between 160 (code b) 191) || (between 225 x 236 && cont b)
  || ((x =? 237) && between 128 (code b) 159) || (between 238 x 239 && cont b).
Definition lead4 (x : Z) (b : ascii) : bool :=
  ((x =? 240) && between 144 (code b) 191) || (between 241 x 243 && cont b)
  || ((x =? 244) && between 128 (code b) 143).

(** The length of the rune at the head, [0] when [utf8.DecodeRune] would answer
    [RuneError] for a byte that starts no valid sequence. *)
Definition utf8_len (s : string) : nat :=
  match s with
  | EmptyString => 0
  | String a r =>
      if code a <? 128 then 1
      else match r with
           | EmptyString => 0
           | String b r2 =>
               if between 194 (code a) 223 && cont b then 2
               else match r2 with
                    | EmptyString => 0
                    | String c r3 =>
                        if lead3 (code a) b && cont c then 3
                        else match r3 with
                             | EmptyString => 0
                             | String d _ => if lead4 (code a) b && cont c && cont d then 4 else 0
                             end
                    end
           end
  end.

Fixpoint stake (n : nat) (s : string) : string :=
  match n, s with
  | S n', String c r => String c (stake n' r)
  | _, _ => ""
  end.
Fixpoint sdrop (n : nat) (s : string) : string :=
  match n, s with
  | S n', String _ r => sdrop n' r
  | _, _ => s
  end.

(** [utf8.EncodeRune] of a rune that is not a surrogate. *)
Definition encode_rune (u : Z) : string :=
  if u <? 128 then bytes [u]
  else if u <? 2048 then bytes [192 + u / 64; 128 + u mod 64]
  else if u <? 65536 then bytes [224 + u / 4096; 128 + (u / 64) mod 64; 128 + u mod 64]
  else bytes [240 + u / 262144; 128 + (u / 4096) mod 64; 128 + (u / 64) mod 64; 128 + u mod 64].
Definition rune_error : string := bytes [239; 191; 189].

(** A string all of whose runes are valid. *)
Fixpoint utf8_fuel (fuel : nat) (s : string) : bool :=
  match s, fuel with
  | EmptyString, _ => true
  | _, O => false
  | _, S f => match utf8_len s with O => false | n => utf8_fuel f (sdrop n s) end
  end.
Definition valid_utf8 (s : string) : bool := utf8_fuel (String.length s) s.

(** ** Printing *)

Definition quote : ascii := byte 34.
Definition backslash : ascii := byte 92.
Definition hex_digit (n : Z) : ascii := if n <? 10 then byte (48 + n) else byte (87 + n).
Definition hex4 (u : Z) : string :=
  String (hex_digit (u / 4096 mod 16)) (String (hex_digit (u / 256 mod 16))
    (String (hex_digit (u / 16 mod 16)) (String (hex_digit (u mod 16)) ""))).
Definition uescape (u : Z) : string := String backslash (String "u" (hex4 u)).
Definition two (c : ascii) : string := String backslash (String c "").

(** [appendString] on one ASCII byte, with HTML escaping on. *)
Definition escape_ascii (c : ascii) : string :=
  let x := code c in
  if (x =? 34) || (x =? 92) then two c
  else if x =? 8 then two "b" else if x =? 12 then two "f"
  else if x =? 10 then two "n" else if x =? 13 then two "r" else if x =? 9 then two "t"
  else if (x <? 32) || (x =? 60) || (x =? 62) || (x =? 38) then uescape x
  else String c "".
(** ... and on a multi-byte rune: the two JavaScript line separators. *)
Definition escape_rune (r : string) : string :=
  if String.eqb r (bytes [226; 128; 168]) then uescape 8232
  else if String.eqb r (bytes [226; 128; 169]) then uescape 8233 else r.

Fixpoint escape_fuel (fuel : nat) (s : string) : string :=
  match fuel, s with
  | S f, String a r =>
      match utf8_len s with
      | O => uescape 65533 +:+ escape_fuel f r
      | 1%nat => escape_ascii a +:+ escape_fuel f r
      | n => escape_rune (stake n s) +:+ escape_fuel f (sdrop n s)
      end
  | _, _ => ""
  end.
Definition encode_str (s : string) : string :=
  String quote (escape_fuel (String.length s) s +:+ String quote "").

Fixpoint encode (j : json) : string :=
  match j with
  | JNull => "null"
  | JBool b => if b then "true" else "false"
  | JNum lit => lit
  | JStr s => encode_str s
  | JArr l =>
      String "[" ((fix go (l : list json) : string :=
        match l with
        | [] => "]"
        | [x] => encode x +:+ "]"
        | x :: l' => encode x +:+ String "," (go l')
        end) l)
  | JObj l =>
      String "{" ((fix go (l : list (string * json)) : string :=
        match l with
        | [] => "}"
        | [(k, x)] => encode_str k +:+ String ":" (encode x +:+ "}")
        | (k, x) :: l' => encode_str k +:+ String ":" (encode x +:+ String "," (go l'))
        end) l)
  end.

(** The same printers of element and member lists, named for the proofs. *)
Fixpoint encode_elems (l : list json) : string :=
  match l with
  | [] => "]"
  | [x] => encode x +:+ "]"
  | x :: l' => encode x +:+ String "," (encode_elems l')
  end.
Fixpoint encode_members (l : list (string * json)) : string :=
  match l with
  | [] => "}"
  | [(k, x)] => encode_str k +:+ String ":" (encode x +:+ "}")
  | (k, x) :: l' => encode_str k +:+ String ":" (encode x +:+ String "," (encode_members l'))
  end.

Lemma encode_arr l : encode (JArr l) = String "[" (encode_elems l).
Proof. reflexivity. Qed.
Lemma encode_obj l : encode (JObj l) = String "{" (encode_members l).
Proof. reflexivity. Qed.

(** ** Parsing *)

Definition is_ws (c : ascii) : bool :=
  (code c =? 32) || (code c =? 9) || (code c =? 13) || (code c =? 10).
Fixpoint skip_ws (s : string) : string :=
  match s with
  | String c r => if is_ws c then skip_ws r else s
  | EmptyString => ""
  end.

Definition hex_val (c : ascii) : option Z :=
  let x := code c in
  if between 48 x 57 then Some (x - 48)
  else if between 97 x 102 then Some (x - 87)
  else if between 65 x 70 then Some (x - 55) else None.
(** [getu4] past the backslash and the [u]. *)
Definition parse_hex4 (s : string) : option (Z * string) :=
  match s with
  | String a (String b (String c (String d r))) =>
      letopt x := hex_val a in letopt y := hex_val b in
      letopt z := hex_val c in letopt w := hex_val d in
      Some (x * 4096 + y * 256 + z * 16 + w, r)
  | _ => None
  end.

Definition simple_escape (c : ascii) : option ascii :=
  let x := code c in
  if (x =? 34) || (x =? 92) || (x =? 47) then Some c
  else if x =? 98 then Some (byte 8) else if x =? 102 then Some (byte 12)
  else if x =? 110 then Some (byte 10) else if x =? 114 then Some (byte 13)
  else if x =? 116 then Some (byte 9) else None.

(** A [\uXXXX] escape whose value is [u], before [r]: a high surrogate takes the
    low surrogate that follows it; a lone surrogate becomes U+FFFD. *)
Definition join_surrogates (u : Z) (r : string) : string * string :=
  if between 55296 u 57343 then
    match r with
    | String b (String c r') =>
        if (code b =? 92) && (code c =? 117) then
          match parse_hex4 r' with
          | Some (lo, r'') =>
              if between 55296 u 56319 && between 56320 lo 57343
              then (encode_rune (65536 + (u - 55296) * 1024 + (lo - 56320)), r'')
              else (rune_error, r)
          | None => (rune_error, r)
          end
        else (rune_error, r)
    | _ => (rune_error, r)
    end
  else (encode_rune u, r).

(** The rest of a string literal after its opening quote. *)
Fixpoint parse_str (fuel : nat) (s : string) : option (string * string) :=
  match fuel, s with
  | S f, String a r =>
      if code a =? 34 then Some ("", r)
      else if code a <? 32 then None
      else if code a =? 92 then
        match r with
        | EmptyString => None
        | String e r2 =>
            match simple_escape e with
            | Some c => letopt (t, k) := parse_str f r2 in Some (String c t, k)
            | None =>
                if code e =? 117 then
                  letopt (u, r3) := parse_hex4 r2 in
                  let '(chunk, r4) := join_surrogates u r3 in
                  letopt (t, k) := parse_str f r4 in Some (chunk +:+ t, k)
                else None
            end
        end
      else
        match utf8_len s with
        | O => letopt (t, k) := parse_str f r in Some (rune_error +:+ t, k)
        | n => letopt (t, k) := parse_str f (sdrop n s) in Some (stake n s +:+ t, k)
        end
  | _, _ => None
  end.
Definition parse_string (s : string) : option (string * string) := parse_str (S (String.length s)) s.

(** A number literal: sign, integer part without leading zeros, fraction,
    exponent. *)
Definition scan_frac (s : string) : option string :=
  match s with
  | String "." r => if String.eqb (take_digits r) "" then None else Some (String "." (take_digits r))
  | _ => Some ""
  end.
Definition scan_exp (s : string) : option string :=
  match s with
  | String e r =>
      if (code e =? 101) || (code e =? 69) then
        let '(sg, d) := match r with
                        | String c r' => if (code c =? 43) || (code c =? 45) then (String c "", r') else ("", r)
                        | EmptyString => ("", "")
                        end in
        if String.eqb (take_digits d) "" then None else Some (String e (sg +:+ take_digits d))
      else Some ""
  | EmptyString => Some ""
  end.
Definition scan_int_part (s : string) : option string :=
  match s with
  | String c _ => if code c =? 48 then Some (String c "")
                  else if is_digit c then Some (take_digits s) else None
  | EmptyString => None
  end.
Definition scan_num (s : string) : option (string * string) :=
  let '(sg, r) := match s with
                  | String c r => if code c =? 45 then (String c "", r) else ("", s)
                  | EmptyString => ("", "")
                  end in
  letopt ip := scan_int_part r in
  let r1 := sdrop (String.length ip) r in
  letopt fr := scan_frac r1 in
  let r2 := sdrop (String.length fr) r1 in
  letopt ex := scan_exp r2 in
  Some (sg +:+ ip +:+ fr +:+ ex, sdrop (String.length ex) r2).

(** A value, the elements of an array after the bracket or a comma, the members
    of an object likewise.  The fuel bounds the recursion. *)
Fixpoint parse_value (fuel : nat) (s : string) : option (json * string) :=
  match fuel with
  | O => None
  | S f =>
      match skip_ws s with
      | EmptyString => None
      | String c r as t =>
          let x := code c in
          if x =? 34 then letopt (w, k) := parse_string r in Some (JStr w, k)
          else if x =? 123 then
            match skip_ws r with
            | String d k => if code d =? 125 then Some (JObj [], k)
                            else letopt (l, k') := parse_members f r in Some (JObj l, k')
            | EmptyString => None
            end
          else if x =? 91 then
            match skip_ws r with
            | String d k => if code d =? 93 then Some (JArr [], k)
                            else letopt (l, k') := parse_elems f r in Some (JArr l, k')
            | EmptyString => None
            end
          else match strip_prefix "null" t, strip_prefix "true" t, strip_prefix "false" t with
               | Some k, _, _ => Some (JNull, k)
               | _, Some k, _ => Some (JBool true, k)
               | _, _, Some k => Some (JBool false, k)
               | _, _, _ => letopt (lit, k) := scan_num t in Some (JNum lit, k)
               end
      end
  end
with parse_elems (fuel : nat) (s : string) : option (list json * string) :=
  match fuel with
  | O => None
  | S f =>
      letopt (x, r) := parse_value f s in
      match skip_ws r with
      | String c k =>
          if code c =? 93 then Some ([x], k)
          else if code c =? 44 then letopt (l, k') := parse_elems f k in Some (x :: l, k')
          else None
      | EmptyString => None
      end
  end
with parse_members (fuel : nat) (s : string) : option (list (string * json) * string) :=
  match fuel with
  | O => None
  | S f =>
      match skip_ws s with
      | String q r =>
          if code q =? 34 then
            letopt (key, r1) := parse_string r in
            match skip_ws r1 with
            | String c r2 =>
                if code c =? 58 then
                  letopt (x, r3) := parse_value f r2 in
                  match skip_ws r3 with
                  | String c' k =>
                      if code c' =? 125 then Some ([(key, x)], k)
                      else if code c' =? 44 then letopt (l, k') := parse_members f k in Some ((key, x) :: l, k')
                      else None
                  | EmptyString => None
                  end
                else None
            | EmptyString => None
            end
          else None
      | EmptyString => None
      end
  end.

(** [json.Unmarshal]'s syntax phase: one value and nothing but space after it. *)
Definition decode (s : string) : option json :=
  letopt (j, r) := parse_value (2 * String.length s + 2)%nat s in
  if String.eqb (skip_ws r) "" then Some j else None.
(** [json.Valid]. *)
Definition json_valid (s : string) : bool := match decode s with Some _ => true | None => false end.

Definition sample : json :=
  JObj [("config", JObj [("user_id", JStr "2"); ("on", JBool true); ("l", JArr [JNum "1"; JNull; JNum "-17"])]);
        ("m", JStr (String quote (String backslash ("<a>" +:+ bytes [10; 226; 128; 168; 195; 169]))))].
Example sample_roundtrip : decode (encode sample) = Some sample.
Proof. vm_compute. reflexivity. Qed.
Example decode_spaces : decode " { } " = Some (JObj []).
Proof. vm_compute. reflexivity. Qed.
Example decode_trailing : decode "[1] x" = None.
Proof. vm_compute. reflexivity. Qed.
Example decode_number : decode "-12.50e+3" = Some (JNum "-12.50e+3").
Proof. vm_compute. reflexivity. Qed.
Example decode_leading_zero : decode "012" = None.
Proof. vm_compute. reflexivity. Qed.

(** ** Parsing inverts printing *)

Lemma stake_sdrop n s : stake n s +:+ sdrop n s = s.
Proof. revert s. induction n as [|n IH]; intros [|c r]; simpl; [done..|]. by rewrite IH. Qed.

Lemma stake_app s t : stake (String.length s) (s +:+ t) = s.
Proof. induction s as [|c r IH]; simpl; [by destruct t|]. by rewrite IH. Qed.

Lemma sdrop_app s t : sdrop (String.length s) (s +:+ t) = t.
Proof. induction s as [|c r IH]; simpl; [by destruct t|]. done. Qed.

Lemma slength_stake n s : (String.length (stake n s) <= n)%nat.
Proof. revert s. induction n as [|n IH]; intros [|c r]; simpl; try lia. specialize (IH r). lia. Qed.

Lemma slength_sdrop n s : String.length (sdrop n s) = (String.length s - n)%nat.
Proof. revert s. induction n as [|n IH]; intros [|c r]; simpl; auto. Qed.

(** The rune at the head is decided by its own bytes. *)
Lemma utf8_len_cases s n :
  utf8_len s = S n ->
  String.length (stake (S n) s) = S n /\
  (forall t, utf8_len (stake (S n) s +:+ t) = S n) /\
  (n = 0%nat <-> exists a r, s = String a r /\ code a < 128).
Proof.
  destruct s as [|a r]; [done|].
  unfold utf8_len at 1. destruct (Z.ltb_spec (code a) 128) as [Ha|Ha].
  { intros [= <-]. simpl. destruct (Z.ltb_spec (code a) 128); [|lia]. naive_solver. }
  assert (Hz : forall m, S m = 0%nat <-> exists a0 r0, String a r = String a0 r0 /\ code a0 < 128).
  { intros m. split; [done|]. intros (? & ? & [= -> ->] & ?). lia. }
  apply Z.ltb_ge in Ha.
  destruct r as [|b r]; [done|].
  destruct (between 194 (code a) 223 && cont b) eqn:E2.
  { intros [= <-]. simpl. rewrite Ha, E2. auto. }
  destruct r as [|c r]; [done|].
  destruct (lead3 (code a) b && cont c) eqn:E3.
  { intros [= <-]. simpl. rewrite Ha, E2, E3. auto. }
  destruct r as [|d r]; [done|].
  destruct (lead4 (code a) b && cont c && cont d) eqn:E4; [|done].
  intros [= <-]. simpl. rewrite Ha, E2, E3, E4. auto.
Qed.

Lemma parse_escape_ascii a f t :
  code a < 128 ->
  parse_str (S f) (escape_ascii a +:+ t) =
  letopt (w, k) := parse_str f t in Some (String a w, k).
Proof.
  destruct a as [[|] [|] [|] [|] [|] [|] [|] [|]]; try reflexivity;
    intros H; exfalso; revert H; vm_compute; discriminate.
Qed.

Lemma parse_str_multi f a r m :
  128 <= code a -> utf8_len (String a r) = S m ->
  parse_str (S f) (String a r) =
  letopt (w, k) := parse_str f (sdrop (S m) (String a r)) in Some (stake (S m) (String a r) +:+ w, k).
Proof.
  intros Ha Hl. cbn [parse_str]. rewrite Hl.
  destruct (Z.eqb_spec (code a) 34), (Z.ltb_spec (code a) 32), (Z.eqb_spec (code a) 92); try lia. done.
Qed.

Lemma parse_escape_rune s n f t :
  utf8_len s = S (S n) ->
  parse_str (S f) (escape_rune (stake (S (S n)) s) +:+ t) =
  letopt (w, k) := parse_str f t in Some (stake (S (S n)) s +:+ w, k).
Proof.
  intros Hl. unfold escape_rune.
  destruct (String.eqb_spec (stake (S (S n)) s) (bytes [226; 128; 168])) as [->|_]; [reflexivity|].
  destruct (String.eqb_spec (stake (S (S n)) s) (bytes [226; 128; 169])) as [->|_]; [reflexivity|].
  apply utf8_len_cases in Hl as (Hlen & Hst & Hz).
  set (w := stake (S (S n)) s) in *. specialize (Hst t).
  pose proof (stake_app w t) as Hs. pose proof (sdrop_app w t) as Hd. rewrite Hlen in Hs, Hd.
  destruct s as [|a r]; [done|].
  assert (Ha : 128 <= code a).
  { destruct (Z.ltb_spec (code a) 128); [|done]. destruct Hz as [_ Hz].
    assert (S n = 0%nat) by (apply Hz; eauto). done. }
  destruct w as [|b w'] eqn:Ew; [done|].
  assert (b = a) as -> by (subst w; simpl in Ew; congruence).
  change (String a w' +:+ t) with (String a (w' +:+ t)) in *.
  rewrite parse_str_multi with (m := S n) by done. by rewrite Hs, Hd.
Qed.

Lemma parse_escape n s fuel rest :
  utf8_fuel n s = true -> (n < fuel)%nat ->
  parse_str fuel (escape_fuel n s +:+ String quote rest) = Some (s, rest).
Proof.
  revert s fuel. induction n as [|n IH]; intros [|a r] [|f] Hv Hf; try lia; try reflexivity; [done|].
  cbn [utf8_fuel] in Hv. cbn [escape_fuel].
  destruct (utf8_len (String a r)) as [|[|m]] eqn:Hl; [done| |].
  - pose proof (utf8_len_cases _ _ Hl) as (_ & _ & [H0 _]).
    destruct H0 as (? & ? & [= <- <-] & Ha); [done|].
    rewrite sapp_assoc, parse_escape_ascii by done. simpl in Hv.
    by rewrite IH by (auto; lia).
  - rewrite sapp_assoc, parse_escape_rune by done.
    rewrite IH by (auto; lia). by rewrite stake_sdrop.
Qed.

Lemma escape_length n s : (String.length s <= n)%nat -> (String.length s <= String.length (escape_fuel n s))%nat.
Proof.
  revert s. induction n as [|n IH]; intros [|a r] Hn; simpl in Hn; try (simpl; lia).
  cbn [escape_fuel].
  destruct (utf8_len (String a r)) as [|[|m]] eqn:Hl; rewrite slength_app.
  - specialize (IH r ltac:(lia)). unfold uescape. simpl. lia.
  - specialize (IH r ltac:(lia)).
    assert (1 <= String.length (escape_ascii a))%nat; [|simpl; lia].
    unfold escape_ascii, two, uescape. repeat case_match; simpl; lia.
  - pose proof (utf8_len_cases _ _ Hl) as (Hlen & _ & _).
    specialize (IH (sdrop (S (S m)) (String a r))). rewrite slength_sdrop in IH. simpl in IH.
    assert (S (S m) <= String.length (escape_rune (stake (S (S m)) (String a r))))%nat.
    { set (w := stake (S (S m)) (String a r)) in *. clearbody w. unfold escape_rune.
      destruct (String.eqb_spec w (bytes [226; 128; 168])) as [->|_]; [vm_compute in Hlen |- *; lia|].
      destruct (String.eqb_spec w (bytes [226; 128; 169])) as [->|_]; [vm_compute in Hlen |- *; lia|].
      lia. }
    simpl in *. lia.
Qed.

Lemma parse_encode_str s rest :
  valid_utf8 s = true ->
  exists t, encode_str s +:+ rest = String quote t /\ parse_string t = Some (s, rest).
Proof.
  intros Hv. unfold encode_str. eexists. split; [reflexivity|].
  unfold parse_string. rewrite sapp_assoc. simpl (String quote "" +:+ rest).
  apply parse_escape; [done|].
  rewrite slength_app. pose proof (escape_length (String.length s) s). simpl. lia.
Qed.

(** A literal the number grammar accepts. *)
Definition num_lit (s : string) : bool :=
  match scan_num s with Some (lit, r) => String.eqb lit s && String.eqb r "" | None => false end.

(** Documents of valid UTF-8 strings and number literals. *)
Fixpoint wf_json (j : json) : bool :=
  match j with
  | JNull | JBool _ => true
  | JNum lit => num_lit lit
  | JStr s => valid_utf8 s
  | JArr l => (fix go l := match l with [] => true | x :: l' => wf_json x && go l' end) l
  | JObj l => (fix go l := match l with [] => true | (k, x) :: l' => valid_utf8 k && wf_json x && go l' end) l
  end.
Lemma wf_arr l : wf_json (JArr l) = forallb wf_json l.
Proof. simpl. induction l as [|x l IH]; simpl; [done|]. by rewrite IH. Qed.
Lemma wf_obj l : wf_json (JObj l) = forallb (fun kv => valid_utf8 kv.1 && wf_json kv.2) l.
Proof. simpl. induction l as [|[k x] l IH]; simpl; [done|]. by rewrite IH. Qed.

(** What may follow a number without extending it. *)
Definition num_stop (s : string) : bool :=
  match s with
  | EmptyString => true
  | String c _ => negb (is_digit c || (code c =? 46) || (code c =? 101) || (code c =? 69))
  end.

(** ... and what may follow its digits, or its integer and fraction parts. *)
Definition digit_stop (s : string) : bool :=
  match s with EmptyString => true | String c _ => negb (is_digit c) end.
Definition frac_stop (s : string) : bool :=
  match s with EmptyString => true | String c _ => negb (is_digit c) && negb (code c =? 46) end.

Lemma num_frac_stop s : num_stop s = true -> frac_stop s = true.
Proof. destruct s; simpl; [done|]. intros H. bool_split. by rewrite H, H2. Qed.
Lemma frac_digit_stop s : frac_stop s = true -> digit_stop s = true.
Proof. destruct s; simpl; [done|]. intros H. bool_split. by rewrite H. Qed.

Lemma take_digits_split s : exists r, s = take_digits s +:+ r /\ digit_stop r = true /\ all_digits (take_digits s) = true.
Proof.
  induction s as [|c s (r & Hs & Hr & Hd)]; simpl; [by exists ""|].
  destruct (is_digit c) eqn:E; simpl.
  - exists r. rewrite E. split_and!; [congruence|done|done].
  - exists (String c s). simpl. by rewrite E.
Qed.

Lemma take_digits_app s t : all_digits s = true -> digit_stop t = true -> take_digits (s +:+ t) = s.
Proof.
  induction s as [|c r IH]; simpl.
  - intros _ Ht. destruct t as [|c r]; [done|]. simpl in *. bool_split. by rewrite Ht.
  - intros H Ht. bool_split. rewrite H. by rewrite IH.
Qed.

(** Each scanner finds again the piece it found before, whatever follows. *)
Lemma scan_frac_app s f t : scan_frac s = Some f -> frac_stop t = true ->
  scan_frac (f +:+ t) = Some f /\ exists r, s = f +:+ r.
Proof.
  assert (Hstop : forall u, frac_stop u = true -> scan_frac u = Some "").
  { intros [|c r]; [done|]. simpl. intros H. bool_split.
    destruct c as [[|] [|] [|] [|] [|] [|] [|] [|]]; reflexivity || discriminate. }
  intros Hf Ht. assert (f = "" \/ exists r, s = String "." r /\ take_digits r <> "" /\ f = String "." (take_digits r))
    as [-> | (r & -> & Hne & ->)].
  { destruct s as [|c r]; [left; by injection Hf|].
    destruct (ascii_dec c ".") as [->|Hne].
    - simpl in Hf. destruct (String.eqb_spec (take_digits r) ""); [done|]. injection Hf as <-. eauto.
    - left. destruct c as [[|] [|] [|] [|] [|] [|] [|] [|]]; try done; by injection Hf. }
  - split; [by apply Hstop|by exists s].
  - destruct (take_digits_split r) as (k & Hr & _ & Hd). split; [|exists k; simpl; congruence].
    change (String "." (take_digits r) +:+ t) with (String "." (take_digits r +:+ t)). cbn [scan_frac].
    rewrite take_digits_app by auto using frac_digit_stop. by destruct (String.eqb_spec (take_digits r) "").
Qed.

Lemma scan_exp_app s x t : scan_exp s = Some x -> num_stop t = true ->
  scan_exp (x +:+ t) = Some x /\ frac_stop (x +:+ t) = true /\ exists r, s = x +:+ r.
Proof.
  intros Hx Ht.
  assert (Hnil : x = "" -> scan_exp (x +:+ t) = Some x /\ frac_stop (x +:+ t) = true /\ exists r, s = x +:+ r).
  { intros ->. split_and!; [|by apply num_frac_stop|by exists s].
    destruct t as [|c r]; [done|]. simpl in *. bool_split. by rewrite H0, H1. }
  destruct s as [|e r]; [apply Hnil; by injection Hx|]. unfold scan_exp in Hx.
  destruct ((code e =? 101) || (code e =? 69)) eqn:Ee; [|apply Hnil; by injection Hx].
  assert (Hstop : forall u, frac_stop (String e u) = true).
  { intros u. simpl. unfold is_digit, between. destruct (Z.eqb_spec (code e) 101), (Z.eqb_spec (code e) 69); try done;
      destruct (Z.leb_spec 48 (code e)), (Z.leb_spec (code e) 57), (Z.eqb_spec (code e) 46); done || lia. }
  assert (exists sg d, r = sg +:+ d /\ take_digits d <> "" /\ x = String e (sg +:+ take_digits d) /\
     (sg = "" /\ (forall c d', d = String c d' -> (code c =? 43) || (code c =? 45) = false) \/
      exists c, sg = String c "" /\ (code c =? 43) || (code c =? 45) = true))
    as (sg & d & -> & Hd & -> & Hsg).
  { destruct r as [|c r']; [done|]. destruct ((code c =? 43) || (code c =? 45)) eqn:Ec.
    - destruct (String.eqb_spec (take_digits r') ""); [done|]. injection Hx as <-.
      exists (String c ""), r'. eauto 7.
    - destruct (String.eqb_spec (take_digits (String c r')) ""); [done|]. injection Hx as <-.
      exists "", (String c r'). split_and!; [done..|]. left. split; [done|]. by intros ? ? [= -> ->]. }
  destruct (take_digits_split d) as (k & Hk & _ & Hall).
  split_and!; [|apply Hstop|exists k; simpl; rewrite sapp_assoc; congruence].
  change (String e (sg +:+ take_digits d) +:+ t) with (String e ((sg +:+ take_digits d) +:+ t)).
  unfold scan_exp. rewrite Ee, sapp_assoc.
  assert (Htd : take_digits (take_digits d +:+ t) = take_digits d)
    by auto using take_digits_app, num_frac_stop, frac_digit_stop.
  destruct Hsg as [[-> Hno]|(c & -> & Hc)].
  - cbn [String.append]. destruct (take_digits d +:+ t) as [|c u] eqn:Eu.
    { by rewrite <-Htd in Hd. }
    assert ((code c =? 43) || (code c =? 45) = false) as ->.
    { destruct d as [|c' d']; [done|]. specialize (Hno c' d' eq_refl).
      simpl in Eu, Hd. destruct (is_digit c'); [|done]. by injection Eu as <- _. }
    rewrite Htd. by destruct (String.eqb_spec (take_digits d) "").
  - cbn [String.append]. rewrite Hc, Htd. by destruct (String.eqb_spec (take_digits d) "").
Qed.

Lemma scan_int_app s i t : scan_int_part s = Some i -> digit_stop t = true ->
  scan_int_part (i +:+ t) = Some i /\ exists r, s = i +:+ r.
Proof.
  intros Hi Ht. destruct s as [|c r]; [done|]. unfold scan_int_part in Hi.
  destruct (code c =? 48) eqn:E.
  - injection Hi as <-. cbn [String.append scan_int_part]. rewrite E. split; [done|by exists r].
  - destruct (is_digit c) eqn:Ed; [|done].
    destruct (take_digits_split (String c r)) as (k & Hk & _ & Hall).
    assert (i = take_digits (String c r)) as -> by congruence.
    assert (exists u, take_digits (String c r) = String c u) as (u & Hu) by (simpl; rewrite Ed; eauto).
    rewrite Hu in Hk, Hall |- *. split; [|by exists k].
    cbn [String.append scan_int_part]. rewrite E, Ed.
    change (String c (u +:+ t)) with (String c u +:+ t). by rewrite take_digits_app.
Qed.

(** The scanner stops where the literal stops. *)
Lemma scan_num_app s lit r t :
  scan_num s = Some (lit, r) -> num_stop t = true -> scan_num (lit +:+ t) = Some (lit, t).
Proof.
  intros Hs Ht. unfold scan_num in Hs.
  destruct (match s with String c r => if code c =? 45 then (String c "", r) else ("", s) | "" => ("", "") end)
    as [sg u] eqn:Esg.
  destruct (scan_int_part u) as [ip|] eqn:Ei; [|done].
  destruct (scan_frac (sdrop (String.length ip) u)) as [fr|] eqn:Ef; [|done].
  destruct (scan_exp (sdrop (String.length fr) (sdrop (String.length ip) u))) as [ex|] eqn:Ee; [|done].
  injection Hs as <- _.
  destruct (scan_exp_app _ _ t Ee Ht) as (He & Hfs & _).
  destruct (scan_frac_app _ _ (ex +:+ t) Ef Hfs) as (Hf & _).
  assert (Hds : digit_stop (fr +:+ (ex +:+ t)) = true).
  { destruct fr as [|c fr']; [by apply frac_digit_stop|]. simpl.
    destruct (ascii_dec c ".") as [->|Hne]; [done|]. exfalso.
    destruct (sdrop (String.length ip) u) as [|d v]; [done|].
    destruct d as [[|] [|] [|] [|] [|] [|] [|] [|]]; try done; simpl in Ef.
    destruct (String.eqb (take_digits v) ""); [done|]. by injection Ef as <-. }
  destruct (scan_int_app _ _ (fr +:+ (ex +:+ t)) Ei Hds) as (Hi & _).
  set (body := ip +:+ (fr +:+ (ex +:+ t))) in *.
  assert (Hsg : (match sg +:+ body with
                 | String c r => if code c =? 45 then (String c "", r) else ("", sg +:+ body)
                 | "" => ("", "") end) = (sg, body)).
  { destruct s as [|c s']; [injection Esg as <- <-; done|]. destruct (code c =? 45) eqn:Ec; injection Esg as <- <-.
    - cbn [String.append]. by rewrite Ec.
    - cbn [String.append]. subst body. destruct ip as [|d ip'].
      { unfold scan_int_part in Ei. destruct (code c =? 48); [done|].
        destruct (is_digit c) eqn:Ed; [|done]. simpl in Ei. by rewrite Ed in Ei. }
      assert (d = c) as ->.
      { unfold scan_int_part in Ei. destruct (code c =? 48); [by injection Ei as <-|].
        destruct (is_digit c) eqn:Ed; [|done]. simpl in Ei. rewrite Ed in Ei. by injection Ei as <-. }
      cbn [String.append]. by rewrite Ec. }
  unfold scan_num. rewrite !sapp_assoc. fold body. rewrite Hsg, Hi. cbv beta iota zeta.
  unfold body. rewrite sdrop_app, Hf. cbv beta iota zeta. rewrite sdrop_app, He. by rewrite sdrop_app.
Qed.

Lemma scan_num_lit s t : num_lit s = true -> num_stop t = true -> scan_num (s +:+ t) = Some (s, t).
Proof.
  unfold num_lit. destruct (scan_num s) as [[lit r]|] eqn:E; [|done]. intros H Ht. bool_hyps.
  subst. by eapply scan_num_app.
Qed.

(** How much fuel a value needs. *)
Fixpoint need (j : json) : nat :=
  match j with
  | JArr l => S ((fix go l := match l with [] => 0%nat | x :: l' => S (need x + go l') end) l)
  | JObj l => S ((fix go l := match l with [] => 0%nat | (_, x) :: l' => S (need x + go l') end) l)
  | _ => 1
  end.
Definition needs (l : list json) : nat := List.fold_right (fun x n => S (need x + n)) 0%nat l.
Lemma need_arr l : need (JArr l) = S (needs l).
Proof. simpl. apply (f_equal S). induction l as [|x l IH]; simpl; congruence. Qed.
Lemma need_obj l : need (JObj l) = S (needs l.*2).
Proof. simpl. apply (f_equal S). induction l as [|[k x] l IH]; csimpl; congruence. Qed.

(** What the parser must do on the printed form of one value. *)
Definition parses (j : json) : Prop :=
  forall fuel t, (need j <= fuel)%nat -> num_stop t = true ->
  parse_value fuel (encode j +:+ t) = Some (j, t).

Lemma parse_elems_encode l fuel t :
  l <> [] -> Forall parses l -> (needs l <= fuel)%nat ->
  parse_elems fuel (encode_elems l +:+ t) = Some (l, t).
Proof.
  revert fuel. induction l as [|x l IH]; intros fuel Hne Hl Hf; [done|].
  inversion Hl as [|? ? Hx Hl']; subst. simpl in Hf. destruct fuel as [|f]; [lia|].
  cbn [parse_elems encode_elems]. destruct l as [|y l].
  - rewrite sapp_assoc, Hx by (done || lia). reflexivity.
  - rewrite sapp_assoc. change (String "," (encode_elems (y :: l)) +:+ t) with
      (String "," (encode_elems (y :: l) +:+ t)).
    rewrite Hx by (done || lia). cbn [skip_ws]. change (is_ws ",") with false. cbv iota.
    change (code "," =? 93) with false. change (code "," =? 44) with true. cbv iota.
    rewrite IH by (done || lia). done.
Qed.

Lemma parse_members_encode l fuel t :
  l <> [] -> Forall (fun kv => parses kv.2 /\ valid_utf8 kv.1 = true) l ->
  (needs l.*2 <= fuel)%nat ->
  parse_members fuel (encode_members l +:+ t) = Some (l, t).
Proof.
  revert fuel. induction l as [|[k x] l IH]; intros fuel Hne Hl Hf; [done|].
  inversion Hl as [|? ? [Hx Hk] Hl']; subst. simpl in Hf, Hx, Hk. destruct fuel as [|f]; [lia|].
  cbn [parse_members encode_members].
  destruct l as [|[k' y] l]; rewrite sapp_assoc.
  - destruct (parse_encode_str k (String ":" (encode x +:+ "}") +:+ t) Hk) as (u & -> & Hu).
    cbn [skip_ws]. change (is_ws quote) with false. cbv iota. change (code quote =? 34) with true. cbv iota.
    rewrite Hu. cbn [skip_ws String.append]. change (is_ws ":") with false. cbv iota.
    change (code ":" =? 58) with true. cbv iota.
    rewrite sapp_assoc, Hx by (done || lia). reflexivity.
  - set (m := (k', y) :: l) in *.
    destruct (parse_encode_str k (String ":" (encode x +:+ String "," (encode_members m)) +:+ t) Hk) as (u & -> & Hu).
    cbn [skip_ws]. change (is_ws quote) with false. cbv iota. change (code quote =? 34) with true. cbv iota.
    rewrite Hu. cbn [skip_ws String.append]. change (is_ws ":") with false. cbv iota.
    change (code ":" =? 58) with true. cbv iota.
    rewrite sapp_assoc.
    change (String "," (encode_members m) +:+ t) with (String "," (encode_members m +:+ t)).
    rewrite Hx by (done || lia). cbn [skip_ws]. change (is_ws ",") with false. cbv iota.
    change (code "," =? 125) with false. change (code "," =? 44) with true. cbv iota.
    rewrite IH by (subst m; simpl in *; done || lia). done.
Qed.

Lemma num_lit_head s : num_lit s = true -> exists c r, s = String c r /\ 45 <= code c <= 57.
Proof.
  destruct s as [|c r]; [done|]. unfold num_lit, scan_num. intros H. exists c, r. split; [done|].
  destruct (Z.eqb_spec (code c) 45); [lia|]. unfold scan_int_part in H.
  destruct (Z.eqb_spec (code c) 48); [lia|]. destruct (is_digit c) eqn:Ed; [|done].
  unfold is_digit, between in Ed. bool_hyps. lia.
Qed.

Lemma encode_head j :
  wf_json j = true -> exists c r, encode j = String c r /\ is_ws c = false /\ code c <> 93.
Proof.
  destruct j as [|b|lit|s|l|l]; intros Hw.
  - by eexists _, _.
  - destruct b; by eexists _, _.
  - destruct (num_lit_head lit Hw) as (c & r & -> & Hc). exists c, r. split; [done|].
    unfold is_ws. split; [|lia].
    destruct (Z.eqb_spec (code c) 32), (Z.eqb_spec (code c) 9),
      (Z.eqb_spec (code c) 13), (Z.eqb_spec (code c) 10); done || lia.
  - by eexists _, _.
  - rewrite encode_arr. by eexists _, _.
  - rewrite encode_obj. by eexists _, _.
Qed.

Lemma parse_value_num f c r :
  45 <= code c <= 57 ->
  parse_value (S f) (String c r) = letopt (lit, k) := scan_num (String c r) in Some (JNum lit, k).
Proof.
  intros Hc. cbn [parse_value skip_ws].
  assert (is_ws c = false) as ->.
  { unfold is_ws. destruct (Z.eqb_spec (code c) 32), (Z.eqb_spec (code c) 9),
      (Z.eqb_spec (code c) 13), (Z.eqb_spec (code c) 10); done || lia. }
  destruct (Z.eqb_spec (code c) 34), (Z.eqb_spec (code c) 123), (Z.eqb_spec (code c) 91); try lia.
  assert (Hne : forall d s, 57 < code d -> strip_prefix (String d s) (String c r) = None).
  { intros d s Hd. simpl. destruct (Ascii.eqb_spec d c) as [->|]; [lia|done]. }
  rewrite !Hne by done. done.
Qed.


Lemma parses_wf j : wf_json j = true -> parses j.
Proof.
  induction j as [|b|lit|s|l IH|l IH] using json_ind_nested; intros Hw fuel t Hf Ht;
    (destruct fuel as [|f]; [simpl in Hf; lia|]).
  - reflexivity.
  - destruct b; reflexivity.
  - simpl encode. destruct (num_lit_head lit Hw) as (c & r & -> & Hc).
    pose proof (scan_num_lit (String c r) t Hw Ht) as Hs.
    change (String c r +:+ t) with (String c (r +:+ t)) in *.
    by rewrite parse_value_num, Hs.
  - simpl encode. destruct (parse_encode_str s t Hw) as (u & -> & Hu).
    cbn [parse_value skip_ws]. change (is_ws quote) with false. cbv iota zeta.
    change (code quote =? 34) with true. cbv iota. by rewrite Hu.
  - rewrite wf_arr in Hw. rewrite need_arr in Hf. rewrite encode_arr.
    change (String "[" (encode_elems l) +:+ t) with (String "[" (encode_elems l +:+ t)).
    destruct l as [|x l]; [reflexivity|].
    assert (Hl : Forall parses (x :: l)).
    { apply Forall_forall. intros y Hy. rewrite Forall_forall in IH.
      apply IH; [done|]. rewrite forallb_forall in Hw. apply Hw. by apply list_elem_of_In. }
    pose proof (parse_elems_encode (x :: l) f t ltac:(done) Hl ltac:(lia)) as Hp.
    assert (exists c r, encode_elems (x :: l) +:+ t = String c r /\ is_ws c = false /\ code c <> 93)
      as (c & r & Hc & Hws & H93).
    { simpl in Hw. bool_split. destruct (encode_head x) as (c & r & Hx & ? & ?); [done|].
      simpl encode_elems. rewrite Hx. destruct l; by eexists _, _. }
    rewrite Hc in *. cbn [parse_value skip_ws]. change (is_ws "[") with false. cbv iota zeta.
    change (code "[" =? 34) with false. change (code "[" =? 123) with false.
    change (code "[" =? 91) with true. cbv iota. cbn [skip_ws]. rewrite Hws.
    apply Z.eqb_neq in H93. rewrite H93, Hp. done.
  - rewrite wf_obj in Hw. rewrite need_obj in Hf. rewrite encode_obj.
    change (String "{" (encode_members l) +:+ t) with (String "{" (encode_members l +:+ t)).
    destruct l as [|[k x] l]; [reflexivity|].
    assert (Hl : Forall (fun kv => parses kv.2 /\ valid_utf8 kv.1 = true) ((k, x) :: l)).
    { apply Forall_forall. intros y Hy. rewrite Forall_forall in IH.
      rewrite forallb_forall in Hw. specialize (Hw y). rewrite list_elem_of_In in Hy.
      specialize (Hw Hy). bool_split. split; [|done]. apply IH; [by apply list_elem_of_In|done]. }
    pose proof (parse_members_encode ((k, x) :: l) f t ltac:(done) Hl ltac:(lia)) as Hp.
    assert (exists r, encode_members ((k, x) :: l) +:+ t = String quote r) as (r & Hc)
      by (destruct l; by eexists).
    rewrite Hc in *. cbn [parse_value skip_ws]. change (is_ws "{") with false. cbv iota zeta.
    change (code "{" =? 34) with false. change (code "{" =? 123) with true. cbv iota. cbn [skip_ws].
    change (is_ws quote) with false. cbv iota. change (code quote =? 125) with false. cbv iota.
    by rewrite Hp.
Qed.

#[global] Arguments encode_str : simpl never.

Lemma encode_str_length s : (2 <= String.length (encode_str s))%nat.
Proof. unfold encode_str. simpl. rewrite slength_app. simpl. lia. Qed.

Lemma encode_members_length k x l :
  String.length (encode_members ((k, x) :: l)) =
  (String.length (encode_str k) + S (String.length (encode x) +
     match l with [] => 1 | _ => S (String.length (encode_members l)) end))%nat.
Proof.
  destruct l as [|[k' y] l].
  - change (encode_members [(k, x)]) with (encode_str k +:+ String ":" (encode x +:+ "}")).
    rewrite slength_app. cbn [String.length]. rewrite slength_app. cbn [String.length]. lia.
  - change (encode_members ((k, x) :: (k', y) :: l)) with
      (encode_str k +:+ String ":" (encode x +:+ String "," (encode_members ((k', y) :: l)))).
    rewrite slength_app. cbn [String.length]. rewrite slength_app. cbn [String.length]. lia.
Qed.

Lemma need_length j : wf_json j = true -> (need j <= 2 * String.length (encode j))%nat.
Proof.
  induction j as [|b|lit|s|l IH|l IH] using json_ind_nested; intros Hw.
  - simpl; lia.
  - destruct b; simpl; lia.
  - destruct (num_lit_head lit Hw) as (c & r & -> & _). simpl; lia.
  - simpl need. simpl encode. pose proof (encode_str_length s). lia.
  - rewrite wf_arr in Hw. rewrite need_arr, encode_arr. simpl String.length.
    assert (needs l + 1 <= 2 * String.length (encode_elems l))%nat; [|lia].
    induction l as [|x l IHl]; [simpl; lia|]. inversion IH as [|? ? Hx Hl]; subst.
    simpl in Hw. bool_split. specialize (Hx H). simpl needs.
    destruct l as [|y l]; simpl encode_elems; rewrite slength_app; simpl String.length;
      [simpl; lia|]. specialize (IHl Hl H0). simpl in *. lia.
  - rewrite wf_obj in Hw. rewrite need_obj, encode_obj. cbn [String.length].
    assert (needs l.*2 + 1 <= 2 * String.length (encode_members l))%nat; [|lia].
    induction l as [|[k x] l IHl]; [simpl; lia|]. inversion IH as [|? ? Hx Hl]; subst.
    simpl in Hw, Hx. bool_split. specialize (Hx H1).
    pose proof (encode_str_length k).
    rewrite encode_members_length. destruct l as [|[k' y] l]; [simpl; lia|].
    specialize (IHl Hl H0). cbn [needs List.fold_right fmap list_fmap snd] in *. lia.
Qed.

(** [json.Unmarshal (json.Marshal v)] is [v], for every document of valid
    strings and integer numbers. *)
Lemma decode_encode j : wf_json j = true -> decode (encode j) = Some j.
Proof.
  intros Hw. unfold decode.
  pose proof (parses_wf j Hw (2 * String.length (encode j) + 2)%nat "" ltac:(pose proof (need_length j Hw); lia) eq_refl) as Hp.
  rewrite sapp_nil_r in Hp. by rewrite Hp.
Qed.

Lemma encode_inj j k : wf_json j = true -> wf_json k = true -> encode j = encode k -> j = k.
Proof. intros Hj Hk E. apply decode_encode in Hj, Hk. congruence. Qed.
