(* ===== verification/JsonNormal.v ===== *)
(** * Every decoded document can be printed and read back

    Whatever bytes are decoded, the resulting document has valid strings and
    well-formed numbers, so the parser/printer round trip of [Json] applies to
    it: a payload copied from one stored value into another is read back
    unchanged. *)

From S2P Require Import Prelude GoStrings Json.
Local Open Scope string_scope.
Local Open Scope Z_scope.
Local Open Scope go_scope.

(** ** Runes *)

Inductive runes : string -> Prop :=
| RunesNil : runes ""
| RunesCons n s : utf8_len s = S n -> runes (sdrop (S n) s) -> runes s.

Lemma runes_fuel s : runes s -> forall f, (String.length s <= f)%nat -> utf8_fuel f s = true.
Proof.
  induction 1 as [|n s Hl Hr IH]; intros f Hf; [by destruct f|].
  destruct s as [|a r]; [done|]. destruct f as [|f]; [simpl in Hf; lia|].
  cbn [utf8_fuel]. rewrite Hl. apply IH. rewrite slength_sdrop. simpl in *. lia.
Qed.
Lemma runes_valid s : runes s -> valid_utf8 s = true.
Proof. intros Hr. by apply runes_fuel. Qed.

Definition one_rune (c : string) : Prop := exists n, utf8_len c = S n /\ String.length c = S n.

Lemma stake_all n s : (String.length s <= n)%nat -> stake n s = s.
Proof. revert s. induction n as [|n IH]; intros [|c s] Hl; simpl in *; [done|lia|done|]. rewrite IH; done || lia. Qed.

Lemma runes_app c w : one_rune c -> runes w -> runes (c +:+ w).
Proof.
  intros (n & Hl & Hc) Hw. destruct (utf8_len_cases _ _ Hl) as (_ & Hst & _).
  rewrite stake_all in Hst by lia. apply (RunesCons n); [apply Hst|]. by rewrite <-Hc, sdrop_app.
Qed.

Lemma one_rune_error : one_rune rune_error.
Proof. by exists 2%nat. Qed.

Lemma one_rune_stake s n : utf8_len s = S n -> one_rune (stake (S n) s).
Proof.
  intros Hl. destruct (utf8_len_cases _ _ Hl) as (Hs & Ht & _). exists n. split; [|done].
  specialize (Ht ""). by rewrite sapp_nil_r in Ht.
Qed.

Lemma one_rune_ascii c : code c < 128 -> one_rune (String c "").
Proof. intros Hc. exists 0%nat. simpl. by destruct (Z.ltb_spec (code c) 128); [|lia]. Qed.

Ltac rune_arith := unfold cont, lead3, lead4, between; rewrite ?andb_true_iff, ?orb_true_iff, ?andb_true_iff, ?Z.leb_le, ?Z.eqb_eq;
  Z.to_euclidean_division_equations; lia.

Lemma one_rune_encode u : 0 <= u < 1114112 -> between 55296 u 57343 = false -> one_rune (encode_rune u).
Proof.
  intros Hu Hs. unfold encode_rune.
  assert (Hsur : u < 55296 \/ 57343 < u)
    by (unfold between in Hs; apply andb_false_iff in Hs as [Hs|Hs]; bool_hyps; lia).
  destruct (Z.ltb_spec u 128); [apply one_rune_ascii; rewrite code_byte; lia|].
  destruct (Z.ltb_spec u 2048); [|destruct (Z.ltb_spec u 65536)].
  - exists 1%nat. split; [|done]. simpl. rewrite !code_byte by (Z.to_euclidean_division_equations; lia).
    destruct (Z.ltb_spec (192 + u / 64) 128); [Z.to_euclidean_division_equations; lia|].
    assert (between 194 (192 + u / 64) 223 && cont (byte (128 + u mod 64)) = true) as ->; [|done].
    unfold cont. rewrite code_byte by (Z.to_euclidean_division_equations; lia). rune_arith.
  - exists 2%nat. split; [|done]. simpl. rewrite !code_byte by (Z.to_euclidean_division_equations; lia).
    destruct (Z.ltb_spec (224 + u / 4096) 128); [Z.to_euclidean_division_equations; lia|].
    assert (between 194 (224 + u / 4096) 223 && cont (byte (128 + (u / 64) mod 64)) = false) as ->.
    { apply andb_false_iff. left. unfold between. apply andb_false_iff. right. apply Z.leb_gt.
      Z.to_euclidean_division_equations; lia. }
    assert (lead3 (224 + u / 4096) (byte (128 + (u / 64) mod 64)) && cont (byte (128 + u mod 64)) = true) as ->; [|done].
    unfold cont, lead3, cont. rewrite !code_byte by (Z.to_euclidean_division_equations; lia). rune_arith.
  - exists 3%nat. split; [|done]. simpl. rewrite !code_byte by (Z.to_euclidean_division_equations; lia).
    destruct (Z.ltb_spec (240 + u / 262144) 128); [Z.to_euclidean_division_equations; lia|].
    assert (between 194 (240 + u / 262144) 223 = false) as ->.
    { unfold between. apply andb_false_iff. right. apply Z.leb_gt. Z.to_euclidean_division_equations; lia. }
    assert (forall b, lead3 (240 + u / 262144) b = false) as ->.
    { intros b. unfold lead3, between. repeat (apply orb_false_iff; split); apply andb_false_iff; left;
        rewrite ?andb_false_iff, ?Z.leb_gt, ?Z.eqb_neq; Z.to_euclidean_division_equations; lia. }
    simpl.
    assert (lead4 (240 + u / 262144) (byte (128 + (u / 4096) mod 64)) && cont (byte (128 + (u / 64) mod 64))
            && cont (byte (128 + u mod 64)) = true) as ->; [|done].
    unfold cont, lead4, cont. rewrite !code_byte by (Z.to_euclidean_division_equations; lia). rune_arith.
Qed.

(** ** Strings *)

Lemma hex_val_range c v : hex_val c = Some v -> 0 <= v < 16.
Proof.
  unfold hex_val, between. destruct (_ && _) eqn:E1; [intros [= <-]; bool_hyps; lia|].
  destruct (_ && _) eqn:E2 in |- *; [intros [= <-]; bool_hyps; lia|].
  destruct (_ && _) eqn:E3 in |- *; [intros [= <-]; bool_hyps; lia|done].
Qed.

Lemma parse_hex4_range s u r : parse_hex4 s = Some (u, r) -> 0 <= u < 65536.
Proof.
  destruct s as [|a [|b [|c [|d s]]]]; try done. unfold parse_hex4.
  destruct (hex_val a) eqn:Ha, (hex_val b) eqn:Hb, (hex_val c) eqn:Hc, (hex_val d) eqn:Hd; try done.
  intros [= <- _]. apply hex_val_range in Ha, Hb, Hc, Hd. lia.
Qed.

Lemma join_rune u r chunk k : 0 <= u < 65536 -> join_surrogates u r = (chunk, k) -> one_rune chunk.
Proof.
  intros Hu. unfold join_surrogates. destruct (between 55296 u 57343) eqn:Es.
  - assert (Herr : forall (x y : string), (rune_error, x) = (chunk, y) -> one_rune chunk)
      by (intros x y [= <- _]; apply one_rune_error).
    destruct r as [|b [|c r]]; eauto. destruct (_ && _); eauto.
    destruct (parse_hex4 r) as [[lo r']|] eqn:Eh; eauto.
    destruct (_ && _) eqn:El; eauto. intros [= <- _]. apply parse_hex4_range in Eh.
    bool_split. unfold between in *. bool_hyps. apply one_rune_encode; [lia|].
    unfold between. apply andb_false_iff. right. apply Z.leb_gt. lia.
  - intros [= <- _]. apply one_rune_encode; [lia|done].
Qed.

Lemma simple_escape_ascii c d : simple_escape c = Some d -> code d < 128.
Proof.
  unfold simple_escape. cbv zeta. intros Hs. repeat case_match; apply (inj Some) in Hs || done; subst d; [bool_hyps; lia|vm_compute; reflexivity..].
Qed.

Lemma parse_str_runes f : forall s w k, parse_str f s = Some (w, k) -> runes w.
Proof.
  induction f as [|f IH]; intros s w k; [done|]. destruct s as [|a r]; [done|]. cbn [parse_str].
  destruct (code a =? 34); [intros [= <- _]; constructor|].
  destruct (code a <? 32); [done|].
  destruct (code a =? 92).
  - destruct r as [|e r2]; [done|]. destruct (simple_escape e) as [c|] eqn:Ee.
    + destruct (parse_str f r2) as [[t k']|] eqn:Ep; [|done]. intros [= <- _].
      apply (runes_app (String c "")); [by eapply one_rune_ascii, simple_escape_ascii|by eapply IH].
    + destruct (code e =? 117); [|done].
      destruct (parse_hex4 r2) as [[u r3]|] eqn:Eh; [|done].
      destruct (join_surrogates u r3) as [chunk r4] eqn:Ej.
      destruct (parse_str f r4) as [[t k']|] eqn:Ep; [|done]. intros [= <- _].
      apply runes_app; [eapply join_rune, Ej; by eapply parse_hex4_range|by eapply IH].
  - destruct (utf8_len (String a r)) as [|n] eqn:El.
    + destruct (parse_str f r) as [[t k']|] eqn:Ep; [|done]. intros [= <- _].
      apply (runes_app rune_error); [apply one_rune_error|by eapply IH].
    + destruct (parse_str f (sdrop (S n) (String a r))) as [[t k']|] eqn:Ep; [|done]. intros [= <- _].
      apply (runes_app (stake (S n) (String a r))); [by apply one_rune_stake|by eapply IH].
Qed.

Lemma parse_string_valid s w k : parse_string s = Some (w, k) -> valid_utf8 w = true.
Proof. intros Hp. eapply runes_valid, parse_str_runes, Hp. Qed.

(** ** Documents *)

Lemma scan_num_lit_ok s lit r : scan_num s = Some (lit, r) -> num_lit lit = true.
Proof.
  intros Hs. apply (scan_num_app _ _ _ "") in Hs; [|done]. rewrite sapp_nil_r in Hs.
  unfold num_lit. by rewrite Hs, !String.eqb_refl.
Qed.

Lemma parse_wf f :
  (forall s j k, parse_value f s = Some (j, k) -> wf_json j = true) /\
  (forall s l k, parse_elems f s = Some (l, k) -> forallb wf_json l = true) /\
  (forall s l k, parse_members f s = Some (l, k) ->
     forallb (fun kv => valid_utf8 kv.1 && wf_json kv.2) l = true).
Proof.
  induction f as [|f (IHv & IHe & IHm)]; [done|]. split_and!; intros s x k.
  - cbn [parse_value]. destruct (skip_ws s) as [|c r]; [done|].
    destruct (code c =? 34).
    { destruct (parse_string r) as [[w k']|] eqn:Ep; [|done]. intros [= <- _]. by eapply parse_string_valid. }
    destruct (code c =? 123).
    { destruct (skip_ws r) as [|d k']; [done|]. destruct (code d =? 125); [by intros [= <- _]|].
      destruct (parse_members f r) as [[l k'']|] eqn:Ep; [|done]. intros [= <- _].
      rewrite wf_obj. by eapply IHm. }
    destruct (code c =? 91).
    { destruct (skip_ws r) as [|d k']; [done|]. destruct (code d =? 93); [by intros [= <- _]|].
      destruct (parse_elems f r) as [[l k'']|] eqn:Ep; [|done]. intros [= <- _].
      rewrite wf_arr. by eapply IHe. }
    destruct (strip_prefix "null" _); [by intros [= <- _]|].
    destruct (strip_prefix "true" _); [by intros [= <- _]|].
    destruct (strip_prefix "false" _); [by intros [= <- _]|].
    destruct (scan_num _) as [[lit k']|] eqn:Es; [|done]. intros [= <- _]. by eapply scan_num_lit_ok.
  - cbn [parse_elems]. destruct (parse_value f s) as [[j r]|] eqn:Ev; [|done].
    destruct (skip_ws r) as [|c k']; [done|].
    destruct (code c =? 93); [intros [= <- _]; simpl; by rewrite (IHv _ _ _ Ev)|].
    destruct (code c =? 44); [|done].
    destruct (parse_elems f k') as [[l k'']|] eqn:El; [|done]. intros [= <- _].
    simpl. by rewrite (IHv _ _ _ Ev), (IHe _ _ _ El).
  - cbn [parse_members]. destruct (skip_ws s) as [|q r]; [done|]. destruct (code q =? 34); [|done].
    destruct (parse_string r) as [[key r1]|] eqn:Ep; [|done]. apply parse_string_valid in Ep.
    destruct (skip_ws r1) as [|c r2]; [done|]. destruct (code c =? 58); [|done].
    destruct (parse_value f r2) as [[j r3]|] eqn:Ev; [|done].
    destruct (skip_ws r3) as [|c' k']; [done|].
    destruct (code c' =? 125); [intros [= <- _]; simpl; by rewrite Ep, (IHv _ _ _ Ev)|].
    destruct (code c' =? 44); [|done].
    destruct (parse_members f k') as [[l k'']|] eqn:El; [|done]. intros [= <- _].
    simpl. by rewrite Ep, (IHv _ _ _ Ev), (IHm _ _ _ El).
Qed.

Lemma decode_wf s j : decode s = Some j -> wf_json j = true.
Proof.
  unfold decode. destruct (parse_value _ s) as [[j' r]|] eqn:Ep; [|done].
  destruct (String.eqb (skip_ws r) ""); [|done]. intros [= <-]. by eapply (proj1 (parse_wf _)).
Qed.

(** Parts of a well-formed document. *)
Lemma wf_member l k x : wf_json (JObj l) = true -> (k, x) ∈ l -> valid_utf8 k = true /\ wf_json x = true.
Proof.
  rewrite wf_obj, forallb_forall. intros Hl Hx. apply list_elem_of_In, Hl in Hx. simpl in Hx. by bool_split.
Qed.
Lemma wf_elem l x : wf_json (JArr l) = true -> x ∈ l -> wf_json x = true.
Proof. rewrite wf_arr, forallb_forall. intros Hl Hx. by apply list_elem_of_In, Hl in Hx. Qed.

(** Normalisation is idempotent: decoding what was printed gives the document
    back, so printing it again gives the same bytes. *)
Lemma decode_print s j : decode s = Some j -> decode (encode j) = Some j.
Proof. intros Hd. eapply decode_encode, decode_wf, Hd. Qed.

(** Printed numbers are JSON literals. *)
Lemma digits_num_lit s : all_digits s = true -> (exists c r, s = String c r /\ (c <> "0"%char \/ r = "")) -> num_lit s = true.
Proof.
  intros Hs (c & r & -> & Hc). unfold num_lit, scan_num.
  assert (Hd : is_digit c = true) by (simpl in Hs; by bool_hyps).
  assert (H45 : (code c =? 45) = false) by (unfold is_digit, between in Hd; bool_hyps; lia).
  rewrite H45. unfold scan_int_part. destruct (code c =? 48) eqn:E48.
  - assert (c = "0"%char) as -> by (apply code_inj; apply Z.eqb_eq in E48; exact E48).
    destruct Hc as [Hc| ->]; [done|]. reflexivity.
  - rewrite Hd, take_digits_all by done.
    pose proof (sdrop_app (String c r) "") as Hdrop. rewrite sapp_nil_r in Hdrop. rewrite Hdrop.
    change (String.eqb ("" +:+ (String c r +:+ ("" +:+ ""))) (String c r) && true = true).
    simpl ("" +:+ _). rewrite sapp_nil_r, String.eqb_refl. done.
Qed.
Lemma format_uint_lit n : 0 <= n -> num_lit (format_uint n) = true.
Proof.
  intros Hn. apply digits_num_lit; [by apply format_uint_all_digits|].
  destruct (format_uint n) as [|c r] eqn:E; [by apply format_uint_nonempty in E|]. exists c, r. split; [done|].
  destruct (decide (n = 0)) as [->|]; [right; vm_compute in E; by simplify_eq|].
  left. apply (format_uint_no_zero n c r); [lia|done].
Qed.
(** A sign in front keeps a literal that starts with a digit. *)
Lemma minus_num_lit s : num_lit s = true -> (exists c r, s = String c r /\ code c <> 45) -> num_lit (String "-" s) = true.
Proof.
  unfold num_lit, scan_num. intros Hs (c & r & -> & Hc). revert Hs.
  destruct (Z.eqb_spec (code c) 45); [done|]. change (code "-" =? 45) with true. cbv beta iota.
  destruct (scan_int_part (String c r)) as [ip|]; [|done]. destruct (scan_frac _) as [fr|]; [|done].
  destruct (scan_exp _) as [ex|]; [|done]. intros Hs. bool_split. apply String.eqb_eq in H. rewrite H0, andb_true_r.
  apply String.eqb_eq. cbn [String.append] in H |- *. by rewrite H.
Qed.
Lemma format_int_lit z : num_lit (format_int z) = true.
Proof.
  unfold format_int. destruct (Z.ltb_spec z 0); [|by apply format_uint_lit].
  apply minus_num_lit; [apply format_uint_lit; lia|].
  pose proof (format_uint_all_digits (- z) ltac:(lia)) as Hd.
  destruct (format_uint (- z)) as [|c r] eqn:E; [by apply format_uint_nonempty in E|]. exists c, r. split; [done|].
  simpl in Hd. unfold is_digit, between in Hd. bool_hyps. lia.
Qed.
