(* ===== verification/Decode.v ===== *)
(** * Decoding JSON values into Go values

    [json.Unmarshal] into structs, pointers, slices, raw-message maps and
    [interface{}], on the value tree of [Json]; and [float64], the number type
    an [interface{}] holds, with [ParseFloat]'s rounding, Go's conversions to
    integers and [json.Marshal]'s shortest spelling.

    Simplification: when an object repeats a key whose field is a slice, Go
    reuses the old backing array; here the later value simply replaces it. *)

From S2P Require Import Prelude GoStrings Json.
Local Open Scope string_scope.
Local Open Scope Z_scope.
Local Open Scope go_scope.

(** ** Structs *)

(** A decoder stores into the current value of a Go variable; [None] is an
    [UnmarshalTypeError]. *)
Definition dec (A : Type) : Type := A -> json -> option A.

Definition d_string : dec string := fun cur j =>
  match j with JNull => Some cur | JStr s => Some s | _ => None end.
Definition d_bool_ptr : dec (option bool) := fun _ j =>
  match j with JNull => Some None | JBool b => Some (Some b) | _ => None end.
Definition d_uint32 : dec Z := fun cur j =>
  match j with JNull => Some cur | JNum lit => parse_uint 32 lit | _ => None end.
(** A slice; [None] is the nil slice, different from the empty one. *)
Definition d_slice {A} (zero : A) (d : dec A) : dec (option (list A)) := fun _ j =>
  match j with
  | JNull => Some None
  | JArr l => Some <$> mapM (d zero) l
  | _ => None
  end.

(** Field names match exactly or up to Go's simple case folding, where the
    Kelvin sign folds with [k] and the long s with [s]. *)
Fixpoint fold_name (s : string) : string :=
  match s with
  | EmptyString => ""
  | String a r =>
      match r with
      | String b r2 =>
          if (code a =? 197) && (code b =? 191) then String "S" (fold_name r2)
          else match r2 with
               | String c r3 =>
                   if (code a =? 226) && (code b =? 132) && (code c =? 170) then String "K" (fold_name r3)
                   else String (to_upper a) (fold_name r)
               | EmptyString => String (to_upper a) (fold_name r)
               end
      | EmptyString => String (to_upper a) ""
      end
  end.
Definition field (A : Type) : Type := string * dec A.
Definition find_field {A} (fs : list (field A)) (key : string) : option (dec A) :=
  match List.find (fun f => String.eqb f.1 key) fs with
  | Some f => Some f.2
  | None => snd <$> List.find (fun f => String.eqb (fold_name f.1) (fold_name key)) fs
  end.
Fixpoint d_members {A} (fs : list (field A)) (l : list (string * json)) (cur : A) : option A :=
  match l with
  | [] => Some cur
  | (k, j) :: l' =>
      match find_field fs k with
      | None => d_members fs l' cur
      | Some d => letopt cur' := d cur j in d_members fs l' cur'
      end
  end.
Definition d_struct {A} (fs : list (field A)) : dec A := fun cur j =>
  match j with JNull => Some cur | JObj l => d_members fs l cur | _ => None end.
(** A field of a record, from its getter, setter and decoder. *)
Definition fld {A B} (name : string) (get : A -> B) (set : B -> A -> A) (d : dec B) : field A :=
  (name, fun cur j => letopt b := d (get cur) j in Some (set b cur)).

Definition unmarshal {A} (d : dec A) (zero : A) (s : string) : option A :=
  letopt j := decode s in d zero j.

(** [map[string]json.RawMessage]: [None] inside is the nil map of [null]. The
    last of several members with one name wins. *)
Definition d_map (j : json) : option (option (gmap string json)) :=
  match j with
  | JNull => Some None
  | JObj l => Some (Some (list_to_map (reverse l)))
  | _ => None
  end.

Lemma d_map_lookup l k :
  (list_to_map (reverse l) : gmap string json) !! k =
  snd <$> List.find (fun kv => String.eqb kv.1 k) (reverse l).
Proof.
  induction (reverse l) as [|[a x] r IH]; simpl; [done|].
  destruct (String.eqb_spec a k) as [->|Hne]; [by rewrite lookup_insert_eq|].
  by rewrite lookup_insert_ne.
Qed.

(** ** [float64] *)

(** An integer of magnitude at most [2^53], or [m * 2^e] with [m] odd: every
    finite binary64 value has exactly one such form (the two zeros are one). *)
Inductive float64 := FInt (z : Z) | FDy (m e : Z).
#[export] Instance float64_eq_dec : EqDecision float64.
Proof. solve_decision. Defined.

Fixpoint strip_twos (fuel : nat) (m e : Z) : Z * Z :=
  match fuel with
  | O => (m, e)
  | S f => if Z.even m then strip_twos f (m / 2) (e + 1) else (m, e)
  end.
Definition mk_float (m e : Z) : float64 :=
  if m =? 0 then FInt 0
  else let '(m', e') := strip_twos (Z.to_nat (Z.log2 (Z.abs m)) + 1) m e in
       if (0 <=? e') && (e' <=? 53) && (Z.abs m' * 2 ^ e' <=? 2 ^ 53) then FInt (m' * 2 ^ e')
       else FDy m' e'.
(** Divide to the nearest integer, ties to even. *)
Definition div_even (n d : Z) : Z :=
  let q := n / d in let r := n mod d in
  if (2 * r <? d) then q else if (d <? 2 * r) then q + 1 else if Z.even q then q else q + 1.
(** The binary64 nearest to [n / d], [None] on overflow. *)
Definition fround (neg : bool) (n d : Z) : option float64 :=
  if n =? 0 then Some (FInt 0) else
  let e0 := Z.log2 n - Z.log2 d - 52 in
  let scaled e := if 0 <=? e then (n, d * 2 ^ e) else (n * 2 ^ (- e), d) in
  let e1 := let '(a, b) := scaled e0 in if a / b <? 2 ^ 52 then e0 - 1 else e0 in
  let e := Z.max e1 (-1074) in
  let '(a, b) := scaled e in
  let q := div_even a b in
  if (1024 <=? Z.log2 q + e) then None
  else Some (mk_float (if neg then - q else q) e).

(** The exact decimal a JSON number literal spells: [m * 10^e]. *)
Definition lit_decimal (lit : string) : bool * Z * Z :=
  let '(neg, s) := match lit with
                   | String c r => if code c =? 45 then (true, r) else (false, lit)
                   | EmptyString => (false, "")
                   end in
  let ip := take_digits s in
  let s1 := sdrop (String.length ip) s in
  let fp := match s1 with String c r => if code c =? 46 then take_digits r else "" | _ => "" end in
  let s2 := if String.eqb fp "" then s1 else sdrop (S (String.length fp)) s1 in
  let ex := match s2 with
            | String _ r => match r with
                            | String c r' => if code c =? 45 then - default 0 (parse_digits r' 0)
                                             else if code c =? 43 then default 0 (parse_digits r' 0)
                                             else default 0 (parse_digits r 0)
                            | EmptyString => 0
                            end
            | EmptyString => 0
            end in
  (neg, default 0 (parse_digits (ip +:+ fp) 0), ex - Z.of_nat (String.length fp)).
(** [strconv.ParseFloat(lit, 64)]; [None] is its range error. *)
Definition float_of_lit (lit : string) : option float64 :=
  let '(neg, m, e) := lit_decimal lit in
  if m =? 0 then Some (FInt 0)
  else if (e =? 0) && (m <=? 2 ^ 53) then Some (FInt (if neg then - m else m))
  else let size := Z.log2 m / 3 + e in
       if 400 <? size then None
       else if size <? -800 then Some (FInt 0)
       else if 0 <=? e then fround neg (m * 10 ^ e) 1 else fround neg m (10 ^ (- e)).

(** Truncation toward zero, and the conversions [int64(f)] and [uint32(f)] as
    amd64 performs them. *)
Definition ftrunc (f : float64) : Z :=
  match f with
  | FInt z => z
  | FDy m e => if 0 <=? e then m * 2 ^ e else Z.quot m (2 ^ (- e))
  end.
Definition float_to_int64 (f : float64) : Z :=
  let t := ftrunc f in if (min_int64 <=? t) && (t <=? max_int64) then t else min_int64.
Definition float_to_uint32 (f : float64) : Z := wrapu32 (float_to_int64 f).
Definition float_pos (f : float64) : bool := match f with FInt z => 0 <? z | FDy m _ => 0 <? m end.

(** Shortest digits that round back, for the non-integers. *)
Definition frac_of (m e : Z) : Z * Z := if 0 <=? e then (m * 2 ^ e, 1) else (m, 2 ^ (- e)).
Fixpoint shortest (fuel : nat) (p x : Z) (n d : Z) (want : float64) : Z * Z :=
  let k := x - p + 1 in
  let q := if 0 <=? k then div_even n (d * 10 ^ k) else div_even (n * 10 ^ (- k)) d in
  let back := if 0 <=? k then fround false (q * 10 ^ k) 1 else fround false q (10 ^ (- k)) in
  match fuel with
  | O => (q, k)
  | S f => if decide (back = Some want) then (q, k) else shortest f (p + 1) x n d want
  end.
Fixpoint strip_tens (fuel : nat) (q k : Z) : Z * Z :=
  match fuel with
  | O => (q, k)
  | S f => if (q mod 10 =? 0) && negb (q =? 0) then strip_tens f (q / 10) (k + 1) else (q, k)
  end.
Fixpoint log10_up (fuel : nat) (x n d : Z) : Z :=
  match fuel with
  | O => x
  | S f => let above := if 0 <=? x + 1 then d * 10 ^ (x + 1) <=? n else d <=? n * 10 ^ (- (x + 1)) in
           if above then log10_up f (x + 1) n d else x
  end.
Fixpoint zeros (n : nat) : string := match n with O => "" | S k => String "0" (zeros k) end.
Definition float_digits (m e : Z) : string :=
  let '(n, d) := frac_of m e in
  let x := log10_up 10 ((Z.log2 n - Z.log2 d) * 30103 / 100000 - 2) n d in
  let '(q0, k0) := shortest 17 1 x n d (FDy m e) in
  let '(q, k) := strip_tens 20 q0 k0 in
  let ds := format_uint q in
  let len := Z.of_nat (String.length ds) in
  let x10 := len + k - 1 in
  if (-6 <=? x10) && (x10 <? 21) then
    if 0 <=? k then ds +:+ zeros (Z.to_nat k)
    else if 0 <=? x10 then stake (Z.to_nat (x10 + 1)) ds +:+ String "." (sdrop (Z.to_nat (x10 + 1)) ds)
    else "0." +:+ zeros (Z.to_nat (- x10 - 1)) +:+ ds
  else
    let mant := if len =? 1 then ds else stake 1 ds +:+ String "." (sdrop 1 ds) in
    mant +:+ (if x10 <? 0 then "e-" +:+ format_uint (- x10)
              else "e+" +:+ format_uint x10).
Definition float_lit (f : float64) : string :=
  match f with
  | FInt z => format_int z
  | FDy m e => if m <? 0 then String "-" (float_digits (- m) e) else float_digits m e
  end.

Example float_half : float_of_lit "2.50" = Some (FDy 5 (-1)). Proof. vm_compute. reflexivity. Qed.
Example float_third_print : float_lit <$> float_of_lit "0.1" = Some "0.1". Proof. vm_compute. reflexivity. Qed.
Example float_big_print : float_lit <$> float_of_lit "1.5e300" = Some "1.5e+300". Proof. vm_compute. reflexivity. Qed.
Example float_e_int : float_of_lit "17e2" = Some (FInt 1700). Proof. vm_compute. reflexivity. Qed.
Example float_small_print : float_lit <$> float_of_lit "0.00000025" = Some "2.5e-7". Proof. vm_compute. reflexivity. Qed.

(** ** [interface{}] values

    What [json.Unmarshal] stores into an [any], and the integers the program
    puts there itself. Maps are kept sorted by key without repetition, the
    order [json.Marshal] prints them in. *)
Inductive any :=
| ANil
| ABool (b : bool)
| AInt (z : Z)            (* a Go integer, never the result of decoding *)
| ANum (f : float64)
| AStr (s : string)
| AArr (l : list any)
| AMap (l : list (string * any)).

Notation amap := (list (string * any)) (only parsing).

Section maps.
Context {V : Type}.
Implicit Types (l : list (string * V)).
Fixpoint kget (k : string) l : option V :=
  match l with
  | [] => None
  | (k', v) :: l' => if String.eqb k k' then Some v else kget k l'
  end.
Fixpoint kset (k : string) (v : V) l : list (string * V) :=
  match l with
  | [] => [(k, v)]
  | (k', v') :: l' =>
      match String.compare k k' with
      | Lt => (k, v) :: l
      | Eq => (k, v) :: l'
      | Gt => (k', v') :: kset k v l'
      end
  end.
Fixpoint kdel (k : string) l : list (string * V) :=
  match l with
  | [] => []
  | (k', v) :: l' => if String.eqb k k' then kdel k l' else (k', v) :: kdel k l'
  end.

Lemma kget_kset k v l k' : kget k' (kset k v l) = if String.eqb k' k then Some v else kget k' l.
Proof.
  induction l as [|[a x] l IH]; simpl; [done|].
  destruct (String.compare k a) eqn:E; simpl.
  - apply String.compare_eq_iff in E as ->. by destruct (String.eqb k' a).
  - done.
  - rewrite IH. destruct (String.eqb_spec k' a) as [Ha|], (String.eqb_spec k' k) as [Hk|]; try done.
    assert (String.compare k a = Eq) by (subst; apply string_compare_refl). congruence.
Qed.

Lemma kget_kdel k l k' : kget k' (kdel k l) = if String.eqb k' k then None else kget k' l.
Proof.
  induction l as [|[a x] l IH]; simpl; [by destruct (String.eqb k' k)|].
  destruct (String.eqb_spec k a) as [Hk|]; simpl; rewrite IH;
    destruct (String.eqb_spec k' a), (String.eqb_spec k' k); congruence.
Qed.
End maps.

Fixpoint to_any (j : json) : option any :=
  match j with
  | JNull => Some ANil
  | JBool b => Some (ABool b)
  | JNum lit => ANum <$> float_of_lit lit
  | JStr s => Some (AStr s)
  | JArr l =>
      AArr <$> (fix go l := match l with
                            | [] => Some []
                            | x :: l' => letopt a := to_any x in letopt r := go l' in Some (a :: r)
                            end) l
  | JObj l =>
      AMap <$> (fix go l acc := match l with
                                | [] => Some acc
                                | (k, x) :: l' => letopt a := to_any x in go l' (kset k a acc)
                                end) l []
  end.
Fixpoint to_amap (l : list (string * json)) (acc : amap) : option amap :=
  match l with
  | [] => Some acc
  | (k, x) :: l' => letopt a := to_any x in to_amap l' (kset k a acc)
  end.
(** [json.Unmarshal] into a [map[string]interface{}]; [Some None] is the nil
    map of a JSON [null]. *)
Definition unmarshal_map (s : string) : option (option amap) :=
  letopt j := decode s in
  match j with
  | JNull => Some None
  | JObj l => Some <$> to_amap l []
  | _ => None
  end.

Fixpoint of_any (a : any) : json :=
  match a with
  | ANil => JNull
  | ABool b => JBool b
  | AInt z => JNum (format_int z)
  | ANum f => JNum (float_lit f)
  | AStr s => JStr s
  | AArr l => JArr ((fix go l := match l with [] => [] | x :: l' => of_any x :: go l' end) l)
  | AMap l => JObj ((fix go l := match l with [] => [] | (k, x) :: l' => (k, of_any x) :: go l' end) l)
  end.
Definition of_amap (m : amap) : json := JObj (prod_map id of_any <$> m).
Definition marshal_map (m : amap) : string := encode (of_amap m).

(** [reflect.DeepEqual] of decoded values. *)
Fixpoint any_eqb (a b : any) : bool :=
  match a, b with
  | ANil, ANil => true
  | ABool x, ABool y => Bool.eqb x y
  | AInt x, AInt y => x =? y
  | ANum x, ANum y => bool_decide (x = y)
  | AStr x, AStr y => String.eqb x y
  | AArr l, AArr m =>
      (fix go l m := match l, m with
                     | [], [] => true
                     | x :: l', y :: m' => any_eqb x y && go l' m'
                     | _, _ => false
                     end) l m
  | AMap l, AMap m =>
      (fix go l m := match l, m with
                     | [], [] => true
                     | (k, x) :: l', (k', y) :: m' => String.eqb k k' && any_eqb x y && go l' m'
                     | _, _ => false
                     end) l m
  | _, _ => false
  end.

Lemma any_eqb_refl a : any_eqb a a = true.
Proof.
  revert a. fix IH 1. intros [|b|z|f|s|l|l]; simpl.
  - done.
  - apply eqb_reflx.
  - apply Z.eqb_refl.
  - by apply bool_decide_eq_true.
  - apply String.eqb_refl.
  - induction l as [|x l IHl]; [done|]. by rewrite IH, IHl.
  - induction l as [|[k x] l IHl]; [done|]. by rewrite String.eqb_refl, IH, IHl.
Qed.

Lemma any_eqb_eq a b : any_eqb a b = true -> a = b.
Proof.
  revert a b. fix IH 1. intros [|x|x|x|x|l|l] [|y|y|y|y|m|m]; try done; simpl; intros H.
  - by apply eqb_prop in H as ->.
  - by apply Z.eqb_eq in H as ->.
  - by apply bool_decide_eq_true in H as ->.
  - by apply String.eqb_eq in H as ->.
  - f_equal. revert m H. induction l as [|x l IHl]; intros [|y m] H; try done. bool_split.
    apply IH in H. by rewrite H, (IHl m).
  - f_equal. revert m H. induction l as [|[k x] l IHl]; intros [|[k' y] m] H; try done. bool_split.
    apply String.eqb_eq in H as ->. apply IH in H1. by rewrite H1, (IHl m).
Qed.
