(* ===== verification/GoTime.v ===== *)
(** * Time: RFC 3339 as [time.Format] and [time.Parse] implement it

    Instants are nanoseconds since the Unix epoch. Formatting prints UTC with
    whole seconds, as [time.Now().UTC().Format(time.RFC3339)] does; parsing
    accepts what Go accepts for that layout (a one-digit hour, a fraction after
    the seconds, any offset up to 24:60). *)

From S2P Require Import Prelude GoStrings Json.
Local Open Scope string_scope.
Local Open Scope Z_scope.
Local Open Scope go_scope.

Definition second : Z := 1000000000.
Definition unix (sec : Z) : Z := sec * second.

(** ** The civil calendar *)

Definition is_leap (y : Z) : bool :=
  (y mod 4 =? 0) && (negb (y mod 100 =? 0) || (y mod 400 =? 0)).
Definition days_in (m y : Z) : Z :=
  if m =? 2 then (if is_leap y then 29 else 28)
  else if (m =? 4) || (m =? 6) || (m =? 9) || (m =? 11) then 30 else 31.

(** Days of a 400-year era before a civil date, years starting in March. *)
Definition doe_of (y m d : Z) : Z :=
  let y' := if m <=? 2 then y - 1 else y in
  let yoe := y' mod 400 in
  let doy := (153 * (if 2 <? m then m - 3 else m + 9) + 2) / 5 + d - 1 in
  yoe * 365 + yoe / 4 - yoe / 100 + doy.
Definition era_of (y m : Z) : Z := (if m <=? 2 then y - 1 else y) / 400.
Definition days_from_civil (y m d : Z) : Z := era_of y m * 146097 + doe_of y m d - 719468.
(** The date on a day of the era starting at year 0 (March based). *)
Definition civil_of_doe (doe : Z) : Z * Z * Z :=
  let yoe := (doe - doe / 1460 + doe / 36524 - doe / 146096) / 365 in
  let doy := doe - (365 * yoe + yoe / 4 - yoe / 100) in
  let mp := (5 * doy + 2) / 153 in
  let d := doy - (153 * mp + 2) / 5 + 1 in
  let m := if mp <? 10 then mp + 3 else mp - 9 in
  (if m <=? 2 then yoe + 1 else yoe, m, d).
Definition civil_from_days (z : Z) : Z * Z * Z :=
  let n := z + 719468 in
  let '(y, m, d) := civil_of_doe (n mod 146097) in
  (y + 400 * (n / 146097), m, d).

(** The calendar of an era: a day and its date agree. *)
Definition day_ok (doe : Z) : bool :=
  let '(y, m, d) := civil_of_doe doe in
  (doe_of y m d =? doe) && (era_of y m =? 0) && (1 <=? m) && (m <=? 12)
  && (1 <=? d) && (d <=? days_in m y).

(** A sweep over its 4800 months decides it: within a month, year and month are
    constant, because both are monotone in the day, and the day counts up. *)
Definition yoe_of (doe : Z) : Z := (doe - doe / 1460 + doe / 36524 - doe / 146096) / 365.
Definition mp_of (doy : Z) : Z := (5 * doy + 2) / 153.
Definition year_start (yoe : Z) : Z := 365 * yoe + yoe / 4 - yoe / 100.
Definition month_of (mp : Z) : Z := if mp <? 10 then mp + 3 else mp - 9.
Definition year_of (yoe mp : Z) : Z := if month_of mp <=? 2 then yoe + 1 else yoe.
Definition month_len (yoe mp : Z) : Z := days_in (month_of mp) (year_of yoe mp).
Definition month_ok (yoe mp start : Z) : bool :=
  let y := year_of yoe mp in let m := month_of mp in let last := start + month_len yoe mp - 1 in
  (yoe_of start =? yoe) && (yoe_of last =? yoe) && (last <? 146097) &&
  (mp_of (start - year_start yoe) =? mp) && (mp_of (last - year_start yoe) =? mp) &&
  (start - year_start yoe =? (153 * mp + 2) / 5) && (doe_of y m 1 =? start) && (era_of y m =? 0) && (1 <=? m) && (m <=? 12).
Fixpoint months_ok (n : nat) (k start : Z) : bool :=
  match n with
  | O => start =? 146097
  | S n => month_ok (k / 12) (k mod 12) start && months_ok n (k + 1) (start + month_len (k / 12) (k mod 12))
  end.

Lemma yoe_mono a b : 0 <= a -> a <= b -> b < 146097 -> yoe_of a <= yoe_of b.
Proof.
  intros Ha Hab Hb. unfold yoe_of. apply Z.div_le_mono; [lia|]. Z.to_euclidean_division_equations; lia.
Qed.
Lemma mp_mono a b : a <= b -> mp_of a <= mp_of b.
Proof. intros Hab. unfold mp_of. apply Z.div_le_mono; lia. Qed.
Lemma doe_of_linear y m d j : doe_of y m (d + j) = doe_of y m d + j.
Proof. unfold doe_of. lia. Qed.

Lemma month_days yoe mp start doe : 0 <= start -> month_ok yoe mp start = true -> start <= doe < start + month_len yoe mp -> day_ok doe = true.
Proof.
  intros H0 Hm Hd. unfold month_ok in Hm. set (last := start + month_len yoe mp - 1) in *. bool_hyps.
  assert (Hy : yoe_of doe = yoe).
  { pose proof (yoe_mono start doe ltac:(lia) ltac:(lia) ltac:(lia)). pose proof (yoe_mono doe last ltac:(lia) ltac:(lia) ltac:(lia)). lia. }
  assert (Hp : mp_of (doe - year_start yoe) = mp).
  { pose proof (mp_mono (start - year_start yoe) (doe - year_start yoe) ltac:(lia)).
    pose proof (mp_mono (doe - year_start yoe) (last - year_start yoe) ltac:(lia)). lia. }
  unfold day_ok, civil_of_doe. fold (yoe_of doe). rewrite Hy. fold (year_start yoe). fold (mp_of (doe - year_start yoe)). rewrite Hp.
  fold (month_of mp). fold (year_of yoe mp).
  replace (doe - year_start yoe - (153 * mp + 2) / 5 + 1) with (1 + (doe - start)) by lia. rewrite doe_of_linear.
  unfold last, month_len in *. lia.
Qed.
Lemma months_days n k start doe : 0 <= start -> months_ok n k start = true -> start <= doe < 146097 -> day_ok doe = true.
Proof.
  revert k start. induction n as [|n IH]; intros k start H0 Hm Hd; cbn [months_ok] in Hm; [lia|].
  apply andb_true_iff in Hm as [Hm Hn]. destruct (Z.lt_ge_cases doe (start + month_len (k / 12) (k mod 12))) as [Hlt|Hge].
  - apply (month_days (k / 12) (k mod 12) start); [done|done|lia].
  - apply (IH (k + 1) (start + month_len (k / 12) (k mod 12))); [|done|lia].
    assert (0 <= days_in (month_of (k mod 12)) (year_of (k / 12) (k mod 12))) by (unfold days_in; by repeat case_match). unfold month_len. lia.
Qed.
Lemma months_ok_era : months_ok (Z.to_nat 4800) 0 0 = true.
Proof. vm_compute. reflexivity. Qed.
Lemma era_ok doe : 0 <= doe < 146097 -> day_ok doe = true.
Proof. apply (months_days _ _ _ _ (Z.le_refl 0) months_ok_era). Qed.

Lemma is_leap_era y k : is_leap (y + 400 * k) = is_leap y.
Proof.
  unfold is_leap.
  replace ((y + 400 * k) mod 400) with (y mod 400) by (rewrite (Z.mul_comm 400), Z.mod_add; lia).
  replace ((y + 400 * k) mod 100) with (y mod 100)
    by (replace (400 * k) with (4 * k * 100) by lia; rewrite Z.mod_add; lia).
  replace ((y + 400 * k) mod 4) with (y mod 4)
    by (replace (400 * k) with (100 * k * 4) by lia; rewrite Z.mod_add; lia).
  done.
Qed.

Lemma civil_days z y m d :
  civil_from_days z = (y, m, d) ->
  days_from_civil y m d = z /\ 1 <= m <= 12 /\ 1 <= d <= days_in m y.
Proof.
  unfold civil_from_days. set (n := z + 719468).
  pose proof (Z.mod_pos_bound n 146097 ltac:(lia)) as Hr.
  pose proof (era_ok (n mod 146097) ltac:(lia)) as Hok. unfold day_ok in Hok.
  destruct (civil_of_doe (n mod 146097)) as [[y0 m0] d0]. intros [= <- <- <-]. bool_hyps.
  assert (Hdoe : doe_of (y0 + 400 * (n / 146097)) m0 d0 = doe_of y0 m0 d0).
  { unfold doe_of. destruct (m0 <=? 2).
    - replace ((y0 + 400 * (n / 146097) - 1) mod 400) with ((y0 - 1) mod 400); [done|].
      replace (y0 + 400 * (n / 146097) - 1) with (y0 - 1 + n / 146097 * 400) by lia.
      by rewrite Z.mod_add by lia.
    - replace ((y0 + 400 * (n / 146097)) mod 400) with (y0 mod 400); [done|].
      rewrite (Z.mul_comm 400). by rewrite Z.mod_add by lia. }
  assert (Hera : era_of (y0 + 400 * (n / 146097)) m0 = n / 146097).
  { unfold era_of in *. destruct (m0 <=? 2).
    - replace (y0 + 400 * (n / 146097) - 1) with (y0 - 1 + n / 146097 * 400) by lia.
      rewrite Z.div_add by lia. lia.
    - rewrite (Z.mul_comm 400), Z.div_add by lia. lia. }
  split; [|split; [lia|]].
  - unfold days_from_civil. rewrite Hdoe, Hera.
    pose proof (Z.div_mod n 146097 ltac:(lia)). lia.
  - unfold days_in in *. by rewrite is_leap_era.
Qed.

(** ** Formatting *)

Definition pad2 (n : Z) : string := String (digit_char (n / 10 mod 10)) (String (digit_char (n mod 10)) "").
Definition pad4 (n : Z) : string := pad2 (n / 100) +:+ pad2 (n mod 100).
(** Years outside 0..9999 are not printed with four digits by Go either; the
    clock of the program never leaves that range. *)
Definition format_rfc3339 (t : Z) : string :=
  let sec := t / second in
  let '(y, m, d) := civil_from_days (sec / 86400) in
  let tod := sec mod 86400 in
  pad4 y +:+ String "-" (pad2 m +:+ String "-" (pad2 d +:+ String "T"
    (pad2 (tod / 3600) +:+ String ":" (pad2 (tod / 60 mod 60) +:+ String ":" (pad2 (tod mod 60) +:+ "Z"))))).

(** ** Parsing *)

(** [getnum]. *)
Definition getnum (s : string) (fixed : bool) : option (Z * string) :=
  match s with
  | EmptyString => None
  | String a r =>
      letopt x := digit_val a in
      match r with
      | String b r' =>
          match digit_val b with
          | Some y => Some (x * 10 + y, r')
          | None => if fixed then None else Some (x, r)
          end
      | EmptyString => if fixed then None else Some (x, r)
      end
  end.
Definition expect (c : ascii) (s : string) : option string :=
  match s with String a r => if Ascii.eqb a c then Some r else None | EmptyString => None end.
Definition get_year (s : string) : option (Z * string) :=
  match s with
  | String a (String b (String c (String d r))) =>
      letopt w := digit_val a in letopt x := digit_val b in
      letopt y := digit_val c in letopt z := digit_val d in
      Some (w * 1000 + x * 100 + y * 10 + z, r)
  | _ => None
  end.
(** A fraction after the seconds: at least one digit, nine of them counted. *)
Definition get_frac (s : string) : Z * string :=
  match s with
  | String c r =>
      let ds := take_digits r in
      if (Ascii.eqb c "." || Ascii.eqb c ",") && negb (String.eqb ds "") then
        let nine := stake 9 ds in
        (default 0 (parse_digits nine 0) * 10 ^ (9 - Z.of_nat (String.length nine)),
         sdrop (String.length ds) r)
      else (0, s)
  | EmptyString => (0, s)
  end.
(** [Z07:00]: the offset in seconds east of UTC. *)
Definition get_zone (s : string) : option (Z * string) :=
  match s with
  | String z r =>
      if Ascii.eqb z "Z" then Some (0, r)
      else match r with
           | String h1 (String h2 (String c (String m1 (String m2 r')))) =>
               if Ascii.eqb c ":" then
                 letopt (hr, _) := getnum (String h1 (String h2 "")) true in
                 letopt (mm, _) := getnum (String m1 (String m2 "")) true in
                 if (24 <? hr) || (60 <? mm) then None
                 else if Ascii.eqb z "+" then Some ((hr * 60 + mm) * 60, r')
                 else if Ascii.eqb z "-" then Some (- ((hr * 60 + mm) * 60), r')
                 else None
               else None
           | _ => None
           end
  | EmptyString => None
  end.
(** [time.Parse(time.RFC3339, s)]: the instant and its zone offset. *)
Definition parse_rfc3339 (s : string) : option (Z * Z) :=
  letopt (y, s1) := get_year s in letopt s2 := expect "-" s1 in
  letopt (m, s3) := getnum s2 true in
  if (m <=? 0) || (12 <? m) then None else
  letopt s4 := expect "-" s3 in
  letopt (d, s5) := getnum s4 true in letopt s6 := expect "T" s5 in
  letopt (hh, s7) := getnum s6 false in if 24 <=? hh then None else
  letopt s8 := expect ":" s7 in
  letopt (mi, s9) := getnum s8 true in if 60 <=? mi then None else
  letopt s10 := expect ":" s9 in
  letopt (ss, s11) := getnum s10 true in if 60 <=? ss then None else
  let '(ns, s12) := get_frac s11 in
  letopt (off, rest) := get_zone s12 in
  if negb (String.eqb rest "") then None
  else if (d <? 1) || (days_in m y <? d) then None
  else Some (unix (days_from_civil y m d * 86400 + hh * 3600 + mi * 60 + ss - off) + ns, off).

Example format_sample : format_rfc3339 (unix 1700000000) = "2023-11-14T22:13:20Z".
Proof. vm_compute. reflexivity. Qed.
Example parse_offset : parse_rfc3339 "2024-02-29T9:05:06.25+08:00" = Some (unix 1709168706 + 250000000, 28800).
Proof. vm_compute. reflexivity. Qed.
Example parse_bad_day : parse_rfc3339 "2023-02-29T00:00:00Z" = None.
Proof. vm_compute. reflexivity. Qed.

(** ** Round trip *)

Lemma getnum_pad2 n s fixed : 0 <= n < 100 -> getnum (pad2 n +:+ s) fixed = Some (n, s).
Proof.
  intros Hn. unfold pad2. cbn [String.append getnum].
  rewrite !digit_val_char by (apply Z.mod_pos_bound; lia).
  rewrite (Z.mod_small (n / 10)) by (split; [apply Z.div_pos; lia|apply Z.div_lt_upper_bound; lia]).
  pose proof (Z.div_mod n 10 ltac:(lia)). do 2 f_equal; lia.
Qed.

Lemma get_year_pad4 y s : 0 <= y < 10000 -> get_year (pad4 y +:+ s) = Some (y, s).
Proof.
  intros Hy. unfold pad4, pad2. cbn [String.append get_year].
  rewrite !digit_val_char by (apply Z.mod_pos_bound; lia).
  pose proof (Z.div_mod y 100 ltac:(lia)). pose proof (Z.div_mod (y / 100) 10 ltac:(lia)).
  pose proof (Z.div_mod (y mod 100) 10 ltac:(lia)).
  assert (0 <= y / 100 < 100) by (split; [apply Z.div_pos; lia|apply Z.div_lt_upper_bound; lia]).
  pose proof (Z.mod_pos_bound y 100 ltac:(lia)).
  rewrite (Z.mod_small (y / 100 / 10)) by (split; [apply Z.div_pos; lia|apply Z.div_lt_upper_bound; lia]).
  rewrite (Z.mod_small (y mod 100 / 10)) by (split; [apply Z.div_pos; lia|apply Z.div_lt_upper_bound; lia]).
  do 2 f_equal; lia.
Qed.

(** A time whose year has four digits. *)
Definition year_ok (t : Z) : bool :=
  let '(y, _, _) := civil_from_days (t / second / 86400) in (0 <=? y) && (y <=? 9999).

Lemma parse_format_rfc3339 t :
  year_ok t = true -> parse_rfc3339 (format_rfc3339 t) = Some (unix (t / second), 0).
Proof.
  unfold year_ok, format_rfc3339. set (sec := t / second).
  destruct (civil_from_days (sec / 86400)) as [[y m] d] eqn:E. intros Hy. bool_hyps.
  apply civil_days in E as (Hd & Hm & Hday).
  assert (Hd31 : days_in m y <= 31) by (unfold days_in; repeat case_match; lia).
  set (tod := sec mod 86400).
  assert (Ht : 0 <= tod < 86400) by (apply Z.mod_pos_bound; lia).
  assert (Hh : 0 <= tod / 3600 < 24)
    by (split; [apply Z.div_pos; lia|apply Z.div_lt_upper_bound; lia]).
  pose proof (Z.mod_pos_bound (tod / 60) 60 ltac:(lia)).
  pose proof (Z.mod_pos_bound tod 60 ltac:(lia)).
  unfold parse_rfc3339. rewrite get_year_pad4 by lia. cbn [expect]. rewrite Ascii.eqb_refl.
  rewrite getnum_pad2 by lia.
  replace ((m <=? 0) || (12 <? m)) with false
    by (symmetry; apply orb_false_iff; split; [apply Z.leb_gt|apply Z.ltb_ge]; lia).
  cbn [expect]. rewrite Ascii.eqb_refl. rewrite getnum_pad2 by lia. cbn [expect]. rewrite Ascii.eqb_refl.
  rewrite getnum_pad2 by lia. destruct (Z.leb_spec 24 (tod / 3600)); [lia|].
  cbn [expect]. rewrite Ascii.eqb_refl. rewrite getnum_pad2 by lia.
  destruct (Z.leb_spec 60 (tod / 60 mod 60)); [lia|].
  cbn [expect]. rewrite Ascii.eqb_refl. rewrite getnum_pad2 by lia.
  destruct (Z.leb_spec 60 (tod mod 60)); [lia|].
  change (get_frac "Z") with (0, "Z"). cbv iota beta. change (get_zone "Z") with (Some (0, "")). cbv iota beta.
  simpl (negb _). replace ((d <? 1) || (days_in m y <? d)) with false
    by (symmetry; apply orb_false_iff; split; apply Z.ltb_ge; lia).
  rewrite Hd. do 3 f_equal.
  assert (tod = tod / 3600 * 3600 + tod / 60 mod 60 * 60 + tod mod 60).
  { replace (tod / 3600) with (tod / 60 / 60) by (rewrite Z.div_div; [done|lia|lia]).
    pose proof (Z.div_mod (tod / 60) 60 ltac:(lia)). pose proof (Z.div_mod tod 60 ltac:(lia)). lia. }
  pose proof (Z.div_mod sec 86400 ltac:(lia)). rewrite Z.add_0_r. f_equal. subst tod. lia.
Qed.
