(* ===== verification/Validation.v ===== *)
(** * Validation rules ([internal/validation/validation.go])

    The transport-neutral checks every write path shares, and what passing them
    guarantees: canonical subscriber ids, node ids that cannot escape their
    etcd key, exclusive VLANs. *)

From S2P Require Import Prelude GoStrings.
Local Open Scope string_scope.
Local Open Scope Z_scope.
Local Open Scope go_scope.

Record Error := MkError { Msg : string; Conflict : bool }.
#[export] Instance Error_eq_dec : EqDecision Error.
Proof. solve_decision. Defined.
Definition badRequest (msg : string) : Error := MkError msg false.

(** A rule returns [None] for nil. *)
Notation check := (option Error) (only parsing).

(** [^[A-Za-z0-9_-]{1,64}$] *)
Definition node_id_char (c : ascii) : bool :=
  between 65 (code c) 90 || between 97 (code c) 122 || is_digit c || (code c =? 95) || (code c =? 45).
Fixpoint all_chars (p : ascii -> bool) (s : string) : bool :=
  match s with EmptyString => true | String c r => p c && all_chars p r end.
Definition nodeIDPattern (s : string) : bool :=
  all_chars node_id_char s && (1 <=? Z.of_nat (String.length s)) && (Z.of_nat (String.length s) <=? 64).
(** [^[0-9]+$] *)
Definition userIDPattern (s : string) : bool := all_chars is_digit s && negb (String.eqb s "").

Definition ValidateNodeID (id : string) : check :=
  if String.eqb id "" then Some (badRequest "Node ID is required")
  else if negb (nodeIDPattern id) then
    Some (badRequest "Node ID must be 1-64 characters containing only letters, numbers, underscores, or hyphens")
  else None.

Definition first_byte (s : string) : ascii := match s with String c _ => c | EmptyString => zero end.

Definition ValidateUserID (id : string) : check :=
  if String.eqb id "" then Some (badRequest "User ID is required")
  else if negb (userIDPattern id) then Some (badRequest "User ID must contain only digits")
  else if String.eqb id "0" then Some (badRequest "User ID must be greater than 0")
  else if Ascii.eqb (first_byte id) "0" then Some (badRequest "User ID must not contain leading zeros")
  else match parse_uint 32 id with
       | None => Some (badRequest "User ID must fit in uint32")
       | Some _ => None
       end.

Record HSIConfigInput := MkInput {
  in_UserID : string; in_VlanID : string; in_AccountName : string; in_Password : string;
  in_DHCPAddrPool : string; in_DHCPSubnet : string; in_DHCPGateway : string }.

Record VlanOwner := MkOwner { vo_UserID : string; vo_VlanID : string }.

Definition ValidateHSIConfig (i : HSIConfigInput) : check :=
  if String.eqb (in_UserID i) "" then Some (badRequest "User ID is required")
  else if String.eqb (in_VlanID i) "" then Some (badRequest "VLAN ID is required")
  else if String.eqb (in_AccountName i) "" then Some (badRequest "Account Name is required")
  else if String.eqb (in_Password i) "" then Some (badRequest "Password is required")
  else if String.eqb (in_DHCPAddrPool i) "" then Some (badRequest "DHCP Address Pool is required")
  else if String.eqb (in_DHCPSubnet i) "" then Some (badRequest "DHCP Subnet is required")
  else if String.eqb (in_DHCPGateway i) "" then Some (badRequest "DHCP Gateway is required")
  else None.

Definition ValidateUserIDMatch (urlUserID bodyUserID : string) : check :=
  if String.eqb urlUserID bodyUserID then None else Some (badRequest "User ID mismatch").

Definition CheckSubscriberCount (userID : string) (subscriberCount : Z) : check :=
  if subscriberCount <? 0 then None
  else match atoi userID with
       | None => None
       | Some uidNum => if subscriberCount <? uidNum
                        then Some (badRequest "User ID exceeds subscriber count") else None
       end.

Fixpoint CheckVlanUnique (vlanID currentUserID : string) (existing : list VlanOwner) : check :=
  match existing with
  | [] => None
  | owner :: rest =>
      if String.eqb (vo_VlanID owner) vlanID && negb (String.eqb (vo_UserID owner) currentUserID)
      then Some (MkError ("Input VLAN has been already used by other user: " +:+ vo_UserID owner) true)
      else CheckVlanUnique vlanID currentUserID rest
  end.

Definition ValidateSubscriberCount (count : Z) : check :=
  if count <? 0 then Some (badRequest "Subscriber count must be non-negative") else None.

Definition ValidateDnsRecord (domain ip : string) (ttl : Z) : check :=
  if String.eqb domain "" then Some (badRequest "Domain is required")
  else if String.eqb ip "" then Some (badRequest "IP is required")
  else if ttl =? 0 then Some (badRequest "TTL must be greater than 0")
  else None.

(** ** What the rules guarantee *)

Lemma all_chars_digits s : all_chars is_digit s = all_digits s.
Proof. induction s as [|c r IH]; simpl; [done|]. by rewrite IH. Qed.

Lemma all_chars_no_byte p c s : all_chars p s = true -> p c = false -> has_byte c s = false.
Proof.
  intros Hs Hc. induction s as [|a r IH]; simpl in *; [done|]. bool_split.
  destruct (Ascii.eqb_spec a c) as [->|]; [congruence|]. simpl. auto.
Qed.

Lemma node_id_no_slash id : ValidateNodeID id = None -> has_byte "/" id = false /\ id <> "".
Proof.
  unfold ValidateNodeID. destruct (String.eqb_spec id "") as [->|Hne]; [done|].
  destruct (nodeIDPattern id) eqn:E; [|done]. intros _. unfold nodeIDPattern in E. bool_split.
  split; [by eapply all_chars_no_byte|done].
Qed.

(** The user ids that pass are exactly the printed numbers 1 .. 2^32-1. *)
Lemma user_id_canonical id :
  ValidateUserID id = None <-> exists n, 1 <= n <= max_uint32 /\ id = format_uint n.
Proof.
  unfold max_uint32. split.
  - unfold ValidateUserID. destruct (String.eqb_spec id "") as [->|Hne]; [done|].
    destruct (userIDPattern id); [|done]. simpl negb.
    destruct (String.eqb_spec id "0"); [done|].
    destruct id as [|c r]; [done|]. simpl first_byte.
    destruct (Ascii.eqb_spec c "0") as [|Hc]; [done|].
    destruct (parse_uint 32 (String c r)) as [k|] eqn:E; [|done]. intros _.
    apply parse_uint_canonical in E as [E Hk]; [|done]. exists k. split; [lia|done].
  - intros (n & Hn & ->). unfold ValidateUserID.
    pose proof (format_uint_all_digits n ltac:(lia)) as Hd.
    pose proof (parse_format_uint 32 n ltac:(lia)) as Hp.
    pose proof (format_uint_nonempty n) as Hne.
    destruct (String.eqb_spec (format_uint n) ""); [done|].
    unfold userIDPattern. rewrite all_chars_digits, Hd.
    destruct (String.eqb_spec (format_uint n) ""); [done|]. simpl negb.
    destruct (String.eqb_spec (format_uint n) "0") as [E|].
    { rewrite E in Hp. vm_compute in Hp. simplify_eq. lia. }
    destruct (Ascii.eqb_spec (first_byte (format_uint n)) "0") as [E|]; [|by rewrite Hp].
    exfalso. destruct (format_uint n) as [|c r] eqn:Ef; [done|].
    by apply (format_uint_no_zero n c r ltac:(lia)).
Qed.
