(* ===== verification/ConfigDoc.v ===== *)
(** * Stored config documents

    The JSON envelopes under [configs/] and [user_counts/]: keys, the shared
    metadata object, the resource version inside a stored value, and the lemmas
    on decoders and printers the components that rewrite such values share. *)

From S2P Require Import Prelude GoStrings Json JsonNormal Decode GoTime Validation.
Local Open Scope string_scope.
Local Open Scope Z_scope.
Local Open Scope go_scope.

(** ** Keys *)

Definition hsiKey (nodeID userID : string) : string := "configs/" +:+ nodeID +:+ "/hsi/" +:+ userID.
Definition dnsKey (nodeID userID : string) : string := "configs/" +:+ nodeID +:+ "/dns/" +:+ userID.
Definition subscriberCountKey (nodeID : string) : string := "user_counts/" +:+ nodeID +:+ "/".

(** ** More decoders *)

(** A pointer: [null] makes it nil, a value is decoded into what it points to. *)
Definition d_ptr {A} (zero : A) (d : dec A) : dec (option A) := fun cur j =>
  match j with JNull => Some None | _ => Some <$> d (default zero cur) j end.
(** A [json.RawMessage], kept as the document it holds; [None] is the field
    never met. *)
Definition d_raw : dec (option json) := fun _ j => Some (Some j).

(** Decoders of anonymous structs with one field. *)
Definition one_field {A} (name : string) (d : dec A) : dec A := d_struct [fld name (fun a => a) (fun v _ => v) d].

(** What holds of the target and is kept by every field is kept by the struct. *)
Lemma d_members_inv {A} (P : A -> Prop) (fs : list (field A)) l cur cur' :
  (forall f c j c', f ∈ fs -> P c -> wf_json j = true -> f.2 c j = Some c' -> P c') ->
  wf_json (JObj l) = true -> P cur -> d_members fs l cur = Some cur' -> P cur'.
Proof.
  intros Hfs Hl. rewrite wf_obj in Hl. revert cur. induction l as [|[k j] l IH]; intros cur Hc; cbn [d_members];
    [by intros [= <-]|]. simpl in Hl. bool_split.
  destruct (find_field fs k) as [d|] eqn:Ef; [|by apply IH].
  destruct (d cur j) as [c1|] eqn:Ed; [|done]. apply IH; [done|].
  assert (exists f, f ∈ fs /\ f.2 = d) as (f & Hf & <-); [|by eapply Hfs].
  unfold find_field in Ef. destruct (List.find (fun f => String.eqb f.1 k) fs) as [f|] eqn:E1.
  - apply find_some in E1 as [Hin _]. exists f. split; [by apply list_elem_of_In|by injection Ef].
  - destruct (List.find (fun f => String.eqb (fold_name f.1) (fold_name k)) fs) as [f|] eqn:E2; [|done].
    apply find_some in E2 as [Hin _]. exists f. split; [by apply list_elem_of_In|by injection Ef].
Qed.
Lemma d_struct_inv {A} (P : A -> Prop) (fs : list (field A)) cur j cur' :
  (forall f c j c', f ∈ fs -> P c -> wf_json j = true -> f.2 c j = Some c' -> P c') ->
  wf_json j = true -> P cur -> d_struct fs cur j = Some cur' -> P cur'.
Proof.
  intros Hfs Hj Hc. destruct j; cbn [d_struct]; try done; [by intros [= <-]|]. by apply d_members_inv.
Qed.

(** The same, field by field. *)
Definition keeps {A} (P : A -> Prop) (f : field A) : Prop :=
  forall c j c', P c -> wf_json j = true -> f.2 c j = Some c' -> P c'.
Lemma d_struct_keeps {A} (P : A -> Prop) (fs : list (field A)) cur j cur' :
  Forall (keeps P) fs -> wf_json j = true -> P cur -> d_struct fs cur j = Some cur' -> P cur'.
Proof. rewrite Forall_forall. intros Hf. apply d_struct_inv. intros f c j' c' Hin. by apply (Hf f). Qed.
Lemma keeps_fld {A B} (P : A -> Prop) n (get : A -> B) set d :
  (forall c j b, P c -> wf_json j = true -> d (get c) j = Some b -> P (set b c)) -> keeps P (fld n get set d).
Proof. intros Hd c j c' Hc Hj. unfold fld. simpl. destruct (d (get c) j) as [b|] eqn:Eb; [|done]. intros [= <-]. by eapply Hd. Qed.

Lemma d_string_valid c j c' :
  valid_utf8 c = true -> wf_json j = true -> d_string c j = Some c' -> valid_utf8 c' = true.
Proof. destruct j; simpl; intros ? ? [=]; congruence. Qed.

Lemma d_map_wf j m k x : wf_json j = true -> d_map j = Some (Some m) -> m !! k = Some x -> wf_json x = true.
Proof.
  intros Hj. destruct j; cbn [d_map]; try done. intros [= <-]. rewrite d_map_lookup.
  destruct (List.find _ _) as [[k' y]|] eqn:Ef; [|done]. intros [= <-]. apply find_some in Ef as [Hin _].
  apply list_elem_of_In, elem_of_reverse, (wf_member _ _ _ Hj) in Hin as [_ Hx]. done.
Qed.

(** ** ASCII strings *)

Fixpoint ascii_only (s : string) : bool :=
  match s with String c r => (code c <? 128) && ascii_only r | EmptyString => true end.
Lemma ascii_valid s : ascii_only s = true -> valid_utf8 s = true.
Proof.
  intros Hs. apply runes_valid. induction s as [|c s IH]; [constructor|]. simpl in Hs. bool_hyps.
  apply (runes_app (String c "")); [by apply one_rune_ascii|auto].
Qed.
Lemma ascii_app s t : ascii_only (s +:+ t) = ascii_only s && ascii_only t.
Proof. induction s as [|c s IH]; simpl; [done|]. by rewrite IH, andb_assoc. Qed.
Lemma digits_ascii s : all_digits s = true -> ascii_only s = true.
Proof.
  induction s as [|c s IH]; simpl; [done|]. intros Hs. unfold is_digit, between in Hs. bool_hyps.
  apply andb_true_iff. split; [apply Z.ltb_lt; lia|auto].
Qed.
Lemma format_uint_valid n : 0 <= n -> valid_utf8 (format_uint n) = true.
Proof. intros Hn. by apply ascii_valid, digits_ascii, format_uint_all_digits. Qed.
Lemma pad2_ascii n : ascii_only (pad2 n) = true.
Proof.
  unfold pad2, digit_char. cbn [ascii_only]. rewrite !code_byte by (Z.to_euclidean_division_equations; lia).
  rewrite !andb_true_iff, !Z.ltb_lt. Z.to_euclidean_division_equations; lia.
Qed.
Lemma format_rfc3339_valid t : valid_utf8 (format_rfc3339 t) = true.
Proof.
  apply ascii_valid. unfold format_rfc3339. repeat case_match.
  repeat (rewrite ?ascii_app, ?pad2_ascii; unfold pad4; cbn [ascii_only andb]; simpl (_ <? _)).
  reflexivity.
Qed.
Lemma node_id_valid id : ValidateNodeID id = None -> valid_utf8 id = true.
Proof.
  unfold ValidateNodeID. destruct (String.eqb_spec id ""); [done|].
  destruct (nodeIDPattern id) eqn:E; [|done]. intros _. unfold nodeIDPattern in E. bool_split.
  apply ascii_valid. clear -H. induction id as [|c id IH]; simpl in *; [done|]. bool_split.
  rewrite IH by done. rewrite andb_true_r. unfold node_id_char, is_digit, between in H.
  rewrite !orb_true_iff, !andb_true_iff, !Z.leb_le, !Z.eqb_eq in H. apply Z.ltb_lt. lia.
Qed.
