(* ===== verification/HsiConfig.v ===== *)
(** * Subscriber documents the API servers write

    The HSI config, subscriber-count and DNS documents of
    [internal/server/config_grpc_server.go] and [rest_server.go]: their structs
    and JSON forms, the version stamp, and the update rules.  The two servers
    declare the same structs twice; the REST names are the aliases below. *)

From S2P Require Import Prelude GoStrings Json JsonNormal Decode GoTime ConfigDoc Validation.
Local Open Scope string_scope.
Local Open Scope Z_scope.
Local Open Scope go_scope.

(** ** Structs *)

Record portMapping := MkPM { pm_Index : string; pm_DIP : string; pm_DPort : string; pm_EPort : string }.
#[export] Instance portMapping_eq_dec : EqDecision portMapping.
Proof. solve_decision. Defined.

(** [*bool] is an option; [PortMappings] is [None] for the nil slice. *)
Record hsiConfigInner := MkHsi {
  UserID : string; VlanID : string; AccountName : string; Password : string;
  DHCPAddrPool : string; DHCPSubnet : string; DHCPGateway : string;
  DNSProxyEnable : option bool; TCPConntrackEnable : option bool; IPv6Enable : option bool;
  PortMappings : option (list portMapping); DesireStatus : string }.
#[export] Instance hsiConfigInner_eq_dec : EqDecision hsiConfigInner.
Proof. solve_decision. Defined.

Record hsiMetaInner := MkHMeta {
  Node : string; ResourceVersion : string; UpdatedBy : string; UpdatedAt : string }.
#[export] Instance hsiMetaInner_eq_dec : EqDecision hsiMetaInner.
Proof. solve_decision. Defined.

Record hsiConfigWithMetadata := MkCwm { Config : hsiConfigInner; Metadata : hsiMetaInner }.

Definition PortMapping : Type := portMapping.
Definition HSIConfig : Type := hsiConfigInner.
Definition HSIMetadata : Type := hsiMetaInner.
Definition HSIConfigWithMetadata : Type := hsiConfigWithMetadata.

Definition pm_zero : portMapping := MkPM "" "" "" "".
Definition hsi_zero : hsiConfigInner := MkHsi "" "" "" "" "" "" "" None None None None "".
Definition hmeta_zero : hsiMetaInner := MkHMeta "" "" "" "".
Definition cwm_zero : hsiConfigWithMetadata := MkCwm hsi_zero hmeta_zero.

(** ** [json.Marshal] *)

Definition pm_json (p : portMapping) : json :=
  JObj [("index", JStr (pm_Index p)); ("dip", JStr (pm_DIP p)); ("dport", JStr (pm_DPort p)); ("eport", JStr (pm_EPort p))].
(** [omitempty]: a nil pointer or an empty slice is left out. *)
Definition omit_bool (name : string) (b : option bool) : list (string * json) :=
  match b with Some b => [(name, JBool b)] | None => [] end.
Definition omit_ports (l : option (list portMapping)) : list (string * json) :=
  match l with Some (p :: l) => [("port-mapping", JArr (pm_json <$> p :: l))] | _ => [] end.
Definition hsi_json (c : hsiConfigInner) : json :=
  JObj ([("user_id", JStr (UserID c)); ("vlan_id", JStr (VlanID c)); ("account_name", JStr (AccountName c));
         ("password", JStr (Password c)); ("dhcp_addr_pool", JStr (DHCPAddrPool c));
         ("dhcp_subnet", JStr (DHCPSubnet c)); ("dhcp_gateway", JStr (DHCPGateway c))] ++
        omit_bool "dns_proxy_enable" (DNSProxyEnable c) ++ omit_bool "tcp_conntrack_enable" (TCPConntrackEnable c) ++
        omit_bool "ipv6_enable" (IPv6Enable c) ++ omit_ports (PortMappings c) ++
        [("desire_status", JStr (DesireStatus c))])%list.
Definition hmeta_json (m : hsiMetaInner) : json :=
  JObj [("node", JStr (Node m)); ("resourceVersion", JStr (ResourceVersion m));
        ("updatedBy", JStr (UpdatedBy m)); ("updatedAt", JStr (UpdatedAt m))].
Definition cwm_json (d : hsiConfigWithMetadata) : json :=
  JObj [("config", hsi_json (Config d)); ("metadata", hmeta_json (Metadata d))].

(** ** [json.Unmarshal] *)

Definition d_pm : dec portMapping := d_struct
  [fld "index" pm_Index (fun v p => MkPM v (pm_DIP p) (pm_DPort p) (pm_EPort p)) d_string;
   fld "dip" pm_DIP (fun v p => MkPM (pm_Index p) v (pm_DPort p) (pm_EPort p)) d_string;
   fld "dport" pm_DPort (fun v p => MkPM (pm_Index p) (pm_DIP p) v (pm_EPort p)) d_string;
   fld "eport" pm_EPort (fun v p => MkPM (pm_Index p) (pm_DIP p) (pm_DPort p) v) d_string].

Definition set_UserID v c := MkHsi v (VlanID c) (AccountName c) (Password c) (DHCPAddrPool c) (DHCPSubnet c) (DHCPGateway c) (DNSProxyEnable c) (TCPConntrackEnable c) (IPv6Enable c) (PortMappings c) (DesireStatus c).
Definition set_VlanID v c := MkHsi (UserID c) v (AccountName c) (Password c) (DHCPAddrPool c) (DHCPSubnet c) (DHCPGateway c) (DNSProxyEnable c) (TCPConntrackEnable c) (IPv6Enable c) (PortMappings c) (DesireStatus c).
Definition set_AccountName v c := MkHsi (UserID c) (VlanID c) v (Password c) (DHCPAddrPool c) (DHCPSubnet c) (DHCPGateway c) (DNSProxyEnable c) (TCPConntrackEnable c) (IPv6Enable c) (PortMappings c) (DesireStatus c).
Definition set_Password v c := MkHsi (UserID c) (VlanID c) (AccountName c) v (DHCPAddrPool c) (DHCPSubnet c) (DHCPGateway c) (DNSProxyEnable c) (TCPConntrackEnable c) (IPv6Enable c) (PortMappings c) (DesireStatus c).
Definition set_DHCPAddrPool v c := MkHsi (UserID c) (VlanID c) (AccountName c) (Password c) v (DHCPSubnet c) (DHCPGateway c) (DNSProxyEnable c) (TCPConntrackEnable c) (IPv6Enable c) (PortMappings c) (DesireStatus c).
Definition set_DHCPSubnet v c := MkHsi (UserID c) (VlanID c) (AccountName c) (Password c) (DHCPAddrPool c) v (DHCPGateway c) (DNSProxyEnable c) (TCPConntrackEnable c) (IPv6Enable c) (PortMappings c) (DesireStatus c).
Definition set_DHCPGateway v c := MkHsi (UserID c) (VlanID c) (AccountName c) (Password c) (DHCPAddrPool c) (DHCPSubnet c) v (DNSProxyEnable c) (TCPConntrackEnable c) (IPv6Enable c) (PortMappings c) (DesireStatus c).
Definition set_toggles d t i c := MkHsi (UserID c) (VlanID c) (AccountName c) (Password c) (DHCPAddrPool c) (DHCPSubnet c) (DHCPGateway c) d t i (PortMappings c) (DesireStatus c).
Definition set_PortMappings v c := MkHsi (UserID c) (VlanID c) (AccountName c) (Password c) (DHCPAddrPool c) (DHCPSubnet c) (DHCPGateway c) (DNSProxyEnable c) (TCPConntrackEnable c) (IPv6Enable c) v (DesireStatus c).
Definition set_DesireStatus v c := MkHsi (UserID c) (VlanID c) (AccountName c) (Password c) (DHCPAddrPool c) (DHCPSubnet c) (DHCPGateway c) (DNSProxyEnable c) (TCPConntrackEnable c) (IPv6Enable c) (PortMappings c) v.

Definition d_hsi : dec hsiConfigInner := d_struct
  [fld "user_id" UserID set_UserID d_string; fld "vlan_id" VlanID set_VlanID d_string;
   fld "account_name" AccountName set_AccountName d_string; fld "password" Password set_Password d_string;
   fld "dhcp_addr_pool" DHCPAddrPool set_DHCPAddrPool d_string; fld "dhcp_subnet" DHCPSubnet set_DHCPSubnet d_string;
   fld "dhcp_gateway" DHCPGateway set_DHCPGateway d_string;
   fld "dns_proxy_enable" DNSProxyEnable (fun v c => set_toggles v (TCPConntrackEnable c) (IPv6Enable c) c) d_bool_ptr;
   fld "tcp_conntrack_enable" TCPConntrackEnable (fun v c => set_toggles (DNSProxyEnable c) v (IPv6Enable c) c) d_bool_ptr;
   fld "ipv6_enable" IPv6Enable (fun v c => set_toggles (DNSProxyEnable c) (TCPConntrackEnable c) v c) d_bool_ptr;
   fld "port-mapping" PortMappings set_PortMappings (d_slice pm_zero d_pm);
   fld "desire_status" DesireStatus set_DesireStatus d_string].
Definition d_hmeta : dec hsiMetaInner := d_struct
  [fld "node" Node (fun v m => MkHMeta v (ResourceVersion m) (UpdatedBy m) (UpdatedAt m)) d_string;
   fld "resourceVersion" ResourceVersion (fun v m => MkHMeta (Node m) v (UpdatedBy m) (UpdatedAt m)) d_string;
   fld "updatedBy" UpdatedBy (fun v m => MkHMeta (Node m) (ResourceVersion m) v (UpdatedAt m)) d_string;
   fld "updatedAt" UpdatedAt (fun v m => MkHMeta (Node m) (ResourceVersion m) (UpdatedBy m) v) d_string].
Definition d_cwm : dec hsiConfigWithMetadata := d_struct
  [fld "config" Config (fun v d => MkCwm v (Metadata d)) d_hsi;
   fld "metadata" Metadata (fun v d => MkCwm (Config d) v) d_hmeta].

(** A stored HSI document as the handlers read it. *)
Definition read_cwm (value : string) : option hsiConfigWithMetadata := unmarshal d_cwm cwm_zero value.

(** ** The version chain *)

Definition nextResourceVersion (current : option string) : string :=
  match current with
  | None => "1"
  | Some cur =>
      if String.eqb cur "" then "1"
      else match unmarshal (one_field "metadata" (one_field "resourceVersion" d_string)) "" cur with
           | None => "2"
           | Some rv => if String.eqb rv "" then "2"
                        else match sscanf_d rv with
                             | None => "2"
                             | Some n => format_int (wrap64 (n + 1))
                             end
           end
  end.

(** ** Update rules *)

Definition desireStatusConnect : string := "connect".
Definition desireStatusDisconnect : string := "disconnect".

Definition merge_toggle (requested current : option bool) (dflt : bool) : option bool :=
  match requested, current with Some b, _ => Some b | None, Some b => Some b | None, None => Some dflt end.
Definition merge_desire (current : option hsiConfigInner) : string :=
  match current with
  | Some c => if String.eqb (DesireStatus c) "" then desireStatusDisconnect else DesireStatus c
  | None => desireStatusDisconnect
  end.
(** [append([]portMapping{}, l...)]: a fresh slice, never nil. *)
Definition copied (l : option (list portMapping)) : option (list portMapping) := Some (default [] l).

Definition mergeGRPCHSIConfigUpdate (requested : hsiConfigInner) (current : option hsiConfigInner)
    (clearPortMappings : bool) : hsiConfigInner :=
  let ports :=
    if clearPortMappings then Some []
    else match PortMappings requested with
         | Some (p :: l) => copied (Some (p :: l))
         | _ => match current with Some c => copied (PortMappings c) | None => Some [] end
         end in
  set_DesireStatus (merge_desire current)
    (set_PortMappings ports
       (set_toggles (merge_toggle (DNSProxyEnable requested) (current ≫= DNSProxyEnable) true)
          (merge_toggle (TCPConntrackEnable requested) (current ≫= TCPConntrackEnable) true)
          (merge_toggle (IPv6Enable requested) (current ≫= IPv6Enable) false) requested)).
Definition mergeRESTHSIConfigUpdate (requested : HSIConfig) (current : option HSIConfig) : HSIConfig :=
  let ports :=
    match PortMappings requested with
    | Some l => copied (Some l)
    | None => match current with Some c => copied (PortMappings c) | None => Some [] end
    end in
  set_DesireStatus (merge_desire current)
    (set_PortMappings ports
       (set_toggles (merge_toggle (DNSProxyEnable requested) (current ≫= DNSProxyEnable) true)
          (merge_toggle (TCPConntrackEnable requested) (current ≫= TCPConntrackEnable) true)
          (merge_toggle (IPv6Enable requested) (current ≫= IPv6Enable) false) requested)).

(** [errConflictingPortMappingUpdate] as [true]. *)
Definition validateGRPCPortMappingUpdate (requested : hsiConfigInner) (clearPortMappings : bool) : bool :=
  clearPortMappings && match PortMappings requested with Some (_ :: _) => true | _ => false end.

(** ** Subscriber counts *)

Record subscriberCountData := MkCount { SubscriberCount : string; cnt_Metadata : hsiMetaInner }.
(** The gRPC struct prints the count first, the REST one the metadata; both
    print [updatedAt] before [updatedBy]. *)
Definition cmeta_json (m : hsiMetaInner) : json :=
  JObj [("node", JStr (Node m)); ("resourceVersion", JStr (ResourceVersion m));
        ("updatedAt", JStr (UpdatedAt m)); ("updatedBy", JStr (UpdatedBy m))].
Definition count_json (d : subscriberCountData) : json :=
  JObj [("subscriber_count", JStr (SubscriberCount d)); ("metadata", cmeta_json (cnt_Metadata d))].
Definition SubscriberCountData : Type := subscriberCountData.
Definition SubscriberCountData_json (d : SubscriberCountData) : json :=
  JObj [("metadata", cmeta_json (cnt_Metadata d)); ("subscriber_count", JStr (SubscriberCount d))].
Definition d_count : dec subscriberCountData := d_struct
  [fld "subscriber_count" SubscriberCount (fun v d => MkCount v (cnt_Metadata d)) d_string;
   fld "metadata" cnt_Metadata (fun v d => MkCount (SubscriberCount d) v) d_hmeta].
Definition read_count (value : string) : option subscriberCountData :=
  unmarshal d_count (MkCount "" hmeta_zero) value.

(** ** DNS records *)

Record dnsRecordInner := MkDns { Domain : string; IP : string; TTL : Z }.
#[export] Instance dnsRecordInner_eq_dec : EqDecision dnsRecordInner.
Proof. solve_decision. Defined.
Record dnsRecordsWithMetadata := MkRecords { Records : option (list dnsRecordInner); rec_Metadata : hsiMetaInner }.
Definition DnsRecord : Type := dnsRecordInner.
Definition DnsRecordsData : Type := dnsRecordsWithMetadata.

Definition dns_json (r : dnsRecordInner) : json :=
  JObj [("domain", JStr (Domain r)); ("ip", JStr (IP r)); ("ttl", JNum (format_uint (TTL r)))].
Definition records_json (d : dnsRecordsWithMetadata) : json :=
  JObj [("records", match Records d with Some l => JArr (dns_json <$> l) | None => JNull end);
        ("metadata", hmeta_json (rec_Metadata d))].
Definition d_dns : dec dnsRecordInner := d_struct
  [fld "domain" Domain (fun v r => MkDns v (IP r) (TTL r)) d_string;
   fld "ip" IP (fun v r => MkDns (Domain r) v (TTL r)) d_string;
   fld "ttl" TTL (fun v r => MkDns (Domain r) (IP r) v) d_uint32].
Definition d_records : dec dnsRecordsWithMetadata := d_struct
  [fld "records" Records (fun v d => MkRecords v (rec_Metadata d)) (d_slice (MkDns "" "" 0) d_dns);
   fld "metadata" rec_Metadata (fun v d => MkRecords (Records d) v) d_hmeta].
(** A value that is no envelope counts as holding no records. *)
Definition decodeDNSRecords (current : option string) : list dnsRecordInner :=
  match current with
  | None => []
  | Some cur => if String.eqb cur "" then []
                else match unmarshal d_records (MkRecords None hmeta_zero) cur with
                     | Some env => default [] (Records env)
                     | None => []
                     end
  end.
Definition decodeDnsRecords (value : option string) : list DnsRecord := decodeDNSRecords value.

(** The first record of the domain is replaced in place. *)
Fixpoint replace_record (newRec : dnsRecordInner) (records : list dnsRecordInner) : option (list dnsRecordInner) :=
  match records with
  | [] => None
  | rec :: rest => if String.eqb (Domain rec) (Domain newRec) then Some (newRec :: rest)
                   else (rec ::.) <$> replace_record newRec rest
  end.
Definition dns_limit : nat := 64.
(** The records after adding or updating one; [None] is [errDNSRecordLimit];
    the flag is [isUpdate]. *)
Definition put_record (newRec : dnsRecordInner) (records : list dnsRecordInner) : option (list dnsRecordInner * bool) :=
  match replace_record newRec records with
  | Some l => Some (l, true)
  | None => if (dns_limit <=? length records)%nat then None else Some ((records ++ [newRec])%list, false)
  end.
(** The records without a domain; [None] when there was none. *)
Definition remove_record (domain : string) (records : list dnsRecordInner) : option (list dnsRecordInner) :=
  if existsb (fun rec => String.eqb (Domain rec) domain) records
  then Some (List.filter (fun rec => negb (String.eqb (Domain rec) domain)) records) else None.
