(* ===== verification/Etcd.v ===== *)
(** * The etcd interface

    etcd is a service the controller calls, so the development is stated over
    any store with etcd's documented key-value semantics: the operations are the
    class [EtcdStore], the documented behaviour is [EtcdLaws], and [MemEtcd] is
    an executable instance that the examples run on. *)

From stdpp Require Import sorting.
From S2P Require Import Prelude GoStrings.
Create HintDb etcd.
Local Open Scope string_scope.
Local Open Scope Z_scope.

(** One [mvccpb.KeyValue]: its value, the revisions of its creation and last
    modification, and the version counted since creation. *)
Record kv := Kv { kv_value : string; kv_create : Z; kv_mod : Z; kv_version : Z }.
#[export] Instance kv_eq_dec : EqDecision kv.
Proof. solve_decision. Defined.

(** Errors of the client: the cluster is unreachable, the call's context ended,
    or the requested revision is compacted or not reached yet. *)
Inductive eerr := EtcdUnavailable | EtcdCtx | EtcdCompacted | EtcdFutureRev.
#[export] Instance eerr_eq_dec : EqDecision eerr.
Proof. solve_decision. Defined.

Class EtcdStore (E : Type) := {
  et_get : E -> string -> option kv;
  et_range : E -> string -> list (string * kv);       (* clientv3.WithPrefix *)
  et_rev : E -> Z;                                    (* header revision *)
  et_at : E -> string -> Z -> result eerr (option kv); (* clientv3.WithRev *)
  et_put : E -> string -> string -> E;
  et_del : E -> string -> E;
  et_compact : E -> Z -> E;
  et_wf : E -> Prop }.

(** The documented behaviour the controller relies on. *)
Class EtcdLaws (E : Type) `{EtcdStore E} : Prop := {
  (* every write to a key gets a revision above all earlier ones *)
  get_put_same s k v :
    et_wf s ->
    et_get (et_put s k v) k =
    Some (match et_get s k with
          | Some e => Kv v (kv_create e) (et_rev s + 1) (kv_version e + 1)
          | None => Kv v (et_rev s + 1) (et_rev s + 1) 1
          end);
  get_put_other s k k' v : k <> k' -> et_get (et_put s k v) k' = et_get s k';
  get_del_same s k : et_get (et_del s k) k = None;
  get_del_other s k k' : k <> k' -> et_get (et_del s k) k' = et_get s k';
  get_compact s r k : et_get (et_compact s r) k = et_get s k;
  rev_put s k v : et_rev (et_put s k v) = et_rev s + 1;
  rev_del s k : et_rev (et_del s k) =
                match et_get s k with Some _ => et_rev s + 1 | None => et_rev s end;
  rev_compact s r : et_rev (et_compact s r) = et_rev s;
  mod_bound s k e : et_wf s -> et_get s k = Some e -> 0 < kv_mod e <= et_rev s;
  version_pos s k e : et_wf s -> et_get s k = Some e -> 0 < kv_version e /\ 0 < kv_create e;
  wf_put s k v : et_wf s -> et_wf (et_put s k v);
  wf_del s k : et_wf s -> et_wf (et_del s k);
  wf_compact s r : et_wf s -> et_wf (et_compact s r);
  range_spec s p k e : (k, e) ∈ et_range s p <-> has_prefix p k = true /\ et_get s k = Some e;
  range_nodup s p : NoDup (et_range s p).*1;
  (* history: the current revision is readable and past reads are stable *)
  at_current s k : et_wf s -> et_at s k (et_rev s) = Ok (et_get s k);
  at_put s k k' v r : et_wf s -> r <= et_rev s -> et_at (et_put s k v) k' r = et_at s k' r;
  at_del s k k' r : et_wf s -> r <= et_rev s -> et_at (et_del s k) k' r = et_at s k' r;
  at_compact s c k r : et_at (et_compact s c) k r = et_at s k r \/ et_at (et_compact s c) k r = Err EtcdCompacted;
  (* a revision not reached yet is refused; one reached can only be compacted *)
  at_future s k r : et_wf s -> et_rev s < r -> et_at s k r = Err EtcdFutureRev;
  at_error s k r e : et_wf s -> r <= et_rev s -> et_at s k r = Err e -> e = EtcdCompacted }.

(** ** Other clients *)

Inductive envop := EvPut (k v : string) | EvDel (k : string) | EvCompact (r : Z).

Section env.
Context `{EtcdLaws E}.

Definition apply_env (s : E) (o : envop) : E :=
  match o with
  | EvPut k v => et_put s k v
  | EvDel k => et_del s k
  | EvCompact r => et_compact s r
  end.
Definition apply_envs (s : E) (l : list envop) : E := fold_left apply_env l s.

Definition touches (k : string) (o : envop) : bool :=
  match o with EvPut k' _ | EvDel k' => String.eqb k k' | EvCompact _ => false end.

Lemma wf_env s o : et_wf s -> et_wf (apply_env s o).
Proof. destruct o; simpl; [apply wf_put|apply wf_del|apply wf_compact]. Qed.
Lemma wf_envs s l : et_wf s -> et_wf (apply_envs s l).
Proof. unfold apply_envs. revert s. induction l as [|o l IH]; intros s Hs; simpl; auto using wf_env. Qed.

Lemma rev_env s o : et_rev s <= et_rev (apply_env s o).
Proof.
  destruct o; simpl; rewrite ?rev_put, ?rev_compact; try lia.
  rewrite rev_del. destruct (et_get s k); lia.
Qed.
Lemma rev_envs s l : et_rev s <= et_rev (apply_envs s l).
Proof.
  unfold apply_envs. revert s. induction l as [|o l IH]; intros s; simpl; [lia|].
  pose proof (rev_env s o). specialize (IH (apply_env s o)). lia.
Qed.

(** A key keeps its entry or gets one of a later revision, or disappears. *)
Lemma env_entry s o k e' :
  et_wf s -> et_get (apply_env s o) k = Some e' ->
  et_get s k = Some e' \/ et_rev s < kv_mod e'.
Proof.
  intros Hs. destruct o as [k' v|k'|r]; simpl.
  - destruct (decide (k' = k)) as [->|Hne].
    + rewrite get_put_same by done. intros [= <-]. right. destruct (et_get s k); simpl; lia.
    + rewrite get_put_other by done. auto.
  - destruct (decide (k' = k)) as [->|Hne].
    + by rewrite get_del_same.
    + rewrite get_del_other by done. auto.
  - rewrite get_compact. auto.
Qed.
Lemma envs_entry s l k e' :
  et_wf s -> et_get (apply_envs s l) k = Some e' ->
  et_get s k = Some e' \/ et_rev s < kv_mod e'.
Proof.
  unfold apply_envs. revert s. induction l as [|o l IH]; intros s Hs; simpl; [auto|].
  intros He. destruct (IH (apply_env s o)) as [He'|He']; auto using wf_env.
  - eapply env_entry; eauto.
  - right. pose proof (rev_env s o). lia.
Qed.

(** The fact compare-and-swap on ModRevision rests on: an unchanged revision
    means an unchanged entry. *)
Lemma mod_identifies s l k e e' :
  et_wf s -> et_get s k = Some e -> et_get (apply_envs s l) k = Some e' ->
  kv_mod e' = kv_mod e -> e' = e.
Proof.
  intros Hs He He' Hm. destruct (envs_entry s l k e' Hs He') as [H1|H1]; [congruence|].
  pose proof (mod_bound s k e Hs He). lia.
Qed.

Lemma at_env_stable s o k r :
  et_wf s -> r <= et_rev s ->
  et_at (apply_env s o) k r = et_at s k r \/ et_at (apply_env s o) k r = Err EtcdCompacted.
Proof.
  intros Hs Hr. destruct o; simpl; [left; by apply at_put|left; by apply at_del|apply at_compact].
Qed.
End env.

(** ** An executable store *)

Record mem := Mem {
  m_rev : Z;
  m_kvs : gmap string kv;
  m_log : list (Z * string * option kv);  (* newest first *)
  m_compact : Z }.
Definition mem_empty : mem := Mem 1 ∅ [] 0.

Definition string_le (a b : string * kv) : Prop := String.leb a.1 b.1 = true.
#[export] Instance string_le_dec a b : Decision (string_le a b).
Proof. unfold string_le. apply _. Defined.

Definition log_find (l : list (Z * string * option kv)) (k : string) (r : Z) : option kv :=
  match List.find (fun x => String.eqb x.1.2 k && (x.1.1 <=? r)) l with
  | Some x => x.2
  | None => None
  end.

#[export] Instance MemEtcd : EtcdStore mem := {
  et_get s k := m_kvs s !! k;
  et_range s p := merge_sort string_le (map_to_list (filter (fun x => has_prefix p x.1 = true) (m_kvs s)));
  et_rev := m_rev;
  et_at s k r :=
    if r <? m_compact s then Err EtcdCompacted
    else if m_rev s <? r then Err EtcdFutureRev
    else Ok (log_find (m_log s) k r);
  et_put s k v :=
    let r := m_rev s + 1 in
    let e := match m_kvs s !! k with
             | Some e => Kv v (kv_create e) r (kv_version e + 1)
             | None => Kv v r r 1
             end in
    Mem r (<[k := e]> (m_kvs s)) ((r, k, Some e) :: m_log s) (m_compact s);
  et_del s k :=
    match m_kvs s !! k with
    | Some _ => let r := m_rev s + 1 in Mem r (delete k (m_kvs s)) ((r, k, None) :: m_log s) (m_compact s)
    | None => s
    end;
  et_compact s r := Mem (m_rev s) (m_kvs s) (m_log s) (Z.max (m_compact s) (Z.min r (m_rev s)));
  et_wf s :=
    0 < m_rev s /\ m_compact s <= m_rev s /\
    (forall k e, m_kvs s !! k = Some e -> 0 < kv_mod e <= m_rev s /\ 0 < kv_version e /\ 0 < kv_create e) /\
    (forall x, x ∈ m_log s -> x.1.1 <= m_rev s) /\
    (forall k, log_find (m_log s) k (m_rev s) = m_kvs s !! k) }.

Lemma log_find_cons r0 k0 o l k r :
  log_find ((r0, k0, o) :: l) k r = if String.eqb k0 k && (r0 <=? r) then o else log_find l k r.
Proof. unfold log_find. simpl. by destruct (String.eqb k0 k && (r0 <=? r)). Qed.

Lemma log_find_newer l k r r' :
  (forall x, x ∈ l -> x.1.1 <= r) -> r <= r' -> log_find l k r' = log_find l k r.
Proof.
  intros Hl Hr. induction l as [|[[r0 k0] o] l IH]; [done|]. rewrite !log_find_cons.
  assert (r0 <= r) by (apply (Hl (r0, k0, o)); left). rewrite IH by (intros x Hx; apply Hl; by right).
  destruct (Z.leb_spec r0 r), (Z.leb_spec r0 r'); done || lia.
Qed.

(** Extending the store by one revision keeps the old reads. *)
Lemma at_extend m k0 e kvs k r :
  et_wf m -> r <= m_rev m ->
  et_at (Mem (m_rev m + 1) kvs ((m_rev m + 1, k0, e) :: m_log m) (m_compact m)) k r = et_at m k r.
Proof.
  intros (_ & Hc & _) Hr. simpl. destruct (Z.ltb_spec r (m_compact m)); [done|].
  destruct (Z.ltb_spec (m_rev m + 1) r), (Z.ltb_spec (m_rev m) r); try lia.
  rewrite log_find_cons. destruct (Z.leb_spec (m_rev m + 1) r); [lia|]. by rewrite andb_false_r.
Qed.

Lemma wf_extend m k0 e (kvs : gmap string kv) :
  et_wf m ->
  (forall k e', kvs !! k = Some e' -> (k = k0 /\ e = Some e' /\ kv_mod e' = m_rev m + 1 /\ 0 < kv_version e' /\ 0 < kv_create e')
                                     \/ (k <> k0 /\ m_kvs m !! k = Some e')) ->
  kvs !! k0 = e -> (forall k, k <> k0 -> kvs !! k = m_kvs m !! k) ->
  et_wf (Mem (m_rev m + 1) kvs ((m_rev m + 1, k0, e) :: m_log m) (m_compact m)).
Proof.
  intros (Hr & Hc & Hk & Hl & Hf) Hkv He Ho. simpl. split_and!; try lia.
  - intros k e' Hke. destruct (Hkv k e' Hke) as [(-> & _ & Hm & ? & ?)|[_ Hold]]; [lia|].
    specialize (Hk _ _ Hold). lia.
  - intros x Hx. apply elem_of_cons in Hx as [->|Hx]; [simpl; lia|]. specialize (Hl x Hx). lia.
  - intros k. rewrite log_find_cons. destruct (String.eqb_spec k0 k) as [->|Hne].
    + destruct (Z.leb_spec (m_rev m + 1) (m_rev m + 1)); [done|lia].
    + simpl. rewrite (log_find_newer _ _ (m_rev m)) by (done || lia). rewrite Hf. symmetry. by apply Ho.
Qed.

#[export] Instance MemEtcd_laws : EtcdLaws mem.
Proof.
  split.
  - intros s k v _. simpl. rewrite lookup_insert_eq. by destruct (m_kvs s !! k).
  - intros s k k' v Hne. simpl. by rewrite lookup_insert_ne.
  - intros s k. simpl. destruct (m_kvs s !! k) eqn:E; simpl; [apply lookup_delete_eq|done].
  - intros s k k' Hne. simpl. destruct (m_kvs s !! k) eqn:E; simpl; [by rewrite lookup_delete_ne|done].
  - done.
  - done.
  - intros s k. simpl. by destruct (m_kvs s !! k).
  - done.
  - intros s k e (_ & _ & Hk & _) He. specialize (Hk k e He). simpl. lia.
  - intros s k e (_ & _ & Hk & _) He. specialize (Hk k e He). lia.
  - intros s k v Hs. pose proof Hs as (Hr & _ & Hk & _). apply (wf_extend s k); [done| |simpl; by rewrite lookup_insert_eq|].
    + intros k' e'. destruct (decide (k = k')) as [->|Hne].
      * rewrite lookup_insert_eq. intros [= <-]. left. destruct (m_kvs s !! k') as [e0|] eqn:E; simpl;
          [specialize (Hk _ _ E)|]; split_and!; done || lia.
      * rewrite lookup_insert_ne by done. auto.
    + intros k' Hne. by rewrite lookup_insert_ne.
  - intros s k Hs. simpl et_del. destruct (m_kvs s !! k) eqn:E; [|done].
    apply (wf_extend s k); [done| |by rewrite lookup_delete_eq|].
    + intros k' e'. destruct (decide (k = k')) as [->|Hne]; [by rewrite lookup_delete_eq|].
      rewrite lookup_delete_ne by done. auto.
    + intros k' Hne. by rewrite lookup_delete_ne.
  - intros s r (? & ? & ? & ? & ?). simpl. split_and!; try done. lia.
  - intros s p k e. simpl. rewrite merge_sort_Permutation, elem_of_map_to_list, map_lookup_filter_Some.
    naive_solver.
  - intros s p. simpl. rewrite merge_sort_Permutation. apply NoDup_fst_map_to_list.
  - intros s k (Hr & Hc & _ & _ & Hf). simpl.
    destruct (Z.ltb_spec (m_rev s) (m_compact s)); [lia|].
    destruct (Z.ltb_spec (m_rev s) (m_rev s)); [lia|]. by rewrite Hf.
  - intros s k k' v r Hs Hr. by apply at_extend.
  - intros s k k' r Hs Hr. simpl et_del. destruct (m_kvs s !! k); [by apply at_extend|done].
  - intros s c k r. simpl. destruct (Z.ltb_spec r (Z.max (m_compact s) (Z.min c (m_rev s)))); [by right|].
    left. destruct (Z.ltb_spec r (m_compact s)); [lia|done].
  - intros s k r (_ & Hc & _) Hr. simpl in *. destruct (Z.ltb_spec r (m_compact s)); [lia|].
    by destruct (Z.ltb_spec (m_rev s) r); [|lia].
  - intros s k r e _ Hr. simpl in *. destruct (Z.ltb_spec r (m_compact s)); [by intros [= <-]|].
    destruct (Z.ltb_spec (m_rev s) r); [lia|done].
Qed.

Lemma mem_empty_wf : et_wf mem_empty.
Proof.
  split_and!; simpl; try lia; [done|set_solver|]. intros k. by rewrite lookup_empty.
Qed.
#[export] Hint Resolve mem_empty_wf wf_put wf_del wf_compact : etcd.

(** Other clients that leave a key alone. *)
Lemma envs_untouched `{EtcdLaws E} (s : E) l k :
  forallb (fun o => negb (touches k o)) l = true -> et_get (apply_envs s l) k = et_get s k.
Proof.
  unfold apply_envs. revert s. induction l as [|o l IH]; intros s; simpl; [done|].
  intros Hl. bool_split. rewrite IH by done. destruct o; simpl in *.
  - apply get_put_other. by intros ->; rewrite String.eqb_refl in *.
  - apply get_del_other. by intros ->; rewrite String.eqb_refl in *.
  - apply get_compact.
Qed.
