(* ===== verification/Db.v ===== *)
(** * The PostgreSQL read model ([internal/db])

    The tables of [migrations/*.sql] and, one definition per repository call,
    the SQL statements of [config_repo.go] and [event_repo.go] as functions on
    them: conflict targets, [WHERE] guards, [NULLIF]-style columns and the
    transaction of [UpsertCurrentWithHistory].  The server's JSONB input function
    is a parameter ([Jsonb]); connection failures are injected by the caller's
    environment (see [Effects]). *)

From S2P Require Import Prelude GoStrings Json GoTime.
Local Open Scope string_scope.
Local Open Scope Z_scope.

(** Failures of a query: no usable connection, or a server error with its
    SQLSTATE. *)
Inductive dberr := DbConn | DbPg (sqlstate : string).
#[export] Instance dberr_eq_dec : EqDecision dberr.
Proof. solve_decision. Defined.

(** Text of a [JSONB] column: [None] when the server refuses the input. *)
Class Jsonb := jsonb_in : string -> option string.
#[export] Instance plain_jsonb : Jsonb := fun s => if json_valid s then Some s else None.
#[global] Typeclasses Opaque plain_jsonb.

Definition ActionUpsert : string := "upsert".
Definition ActionDelete : string := "delete".

(** [models.go] *)
Definition ConfigKey : Type := string * string.          (* NodeUUID, UserID *)
Record HSIConfigRow := MkRow {
  NodeUUID : string; UserID : string; Action : string; ConfigJSON : option string;
  DesireStatus : string; ModRevision : Z; ResourceVersion : string; UpdatedBy : string;
  UpdatedAt : option Z }.
#[export] Instance HSIConfigRow_eq_dec : EqDecision HSIConfigRow.
Proof. solve_decision. Defined.

Record HistRow := MkHist { h_id : Z; h_row : HSIConfigRow; h_status : string }.

Record PPPoEStatusRow := MkPPPoE {
  pp_node : string; pp_user : string; pp_phase : string;
  pp_ipv4 : string; pp_ipv4gw : string; pp_ipv6 : string; pp_ipv6pd : string; pp_ipv6dns : string;
  pp_error : string; pp_event : Z; pp_updated : Z }.
#[export] Instance PPPoEStatusRow_eq_dec : EqDecision PPPoEStatusRow.
Proof. solve_decision. Defined.
(** A stored row: empty texts are NULL, [updated_at] is the statement's clock. *)
Record StatusRec := MkStatus {
  st_phase : string;
  st_ipv4 : option string; st_ipv4gw : option string; st_ipv6 : option string;
  st_ipv6pd : option string; st_ipv6dns : option string; st_error : option string;
  st_event : Z; st_updated : Z }.
#[export] Instance StatusRec_eq_dec : EqDecision StatusRec.
Proof. solve_decision. Defined.

Record NodeEventRow := MkEvent {
  ne_node : string; ne_user : string; ne_type : string; ne_action : string; ne_success : option bool;
  ne_module : string; ne_code : string; ne_message : string; ne_context : string;
  ne_correlation : string; ne_time : Z }.
#[export] Instance NodeEventRow_eq_dec : EqDecision NodeEventRow.
Proof. solve_decision. Defined.

Record DLQRow := MkDLQ {
  dq_id : Z; dq_topic : string; dq_partition : Z; dq_offset : Z; dq_value : string;
  dq_error : string; dq_retry : Z; dq_status : string; dq_updated : Z }.

(** The tables, with the sequences behind their [BIGSERIAL] ids. *)
Record db := Db {
  hsi_config_current : gmap ConfigKey HSIConfigRow;
  hsi_config_history : list HistRow;                 (* ascending id *)
  etcd_watch_progress : gmap string Z;
  pppoe_status : gmap ConfigKey StatusRec;
  node_events : list (Z * NodeEventRow);             (* ascending id *)
  kafka_dlq : list DLQRow;
  seq_history : Z; seq_events : Z; seq_dlq : Z }.
Definition db_empty : db := Db ∅ [] ∅ ∅ [] [] 1 1 1.

(** A statement, run at the server's [now()]. *)
Definition query (A : Type) : Type := Z -> db -> result dberr (A * db).

Definition nullStr (s : string) : option string := if String.eqb s "" then None else Some s.
Definition coalesce (o : option string) : string := default "" o.

Section queries.
Context {J : Jsonb}.

(** The text a nullable JSONB parameter is stored as. *)
Definition jsonb_param (o : option string) : result dberr (option string) :=
  match o with
  | None => Ok None
  | Some s => match jsonb_in s with Some t => Ok (Some t) | None => Err (DbPg "22P02") end
  end.

Definition row_key (r : HSIConfigRow) : ConfigKey := (NodeUUID r, UserID r).
Definition with_config (c : option string) (r : HSIConfigRow) : HSIConfigRow :=
  MkRow (NodeUUID r) (UserID r) (Action r) c (DesireStatus r) (ModRevision r)
        (ResourceVersion r) (UpdatedBy r) (UpdatedAt r).

Definition set_current (m : gmap ConfigKey HSIConfigRow) (d : db) : db :=
  Db m (hsi_config_history d) (etcd_watch_progress d) (pppoe_status d) (node_events d)
     (kafka_dlq d) (seq_history d) (seq_events d) (seq_dlq d).
Definition set_history (l : list HistRow) (n : Z) (d : db) : db :=
  Db (hsi_config_current d) l (etcd_watch_progress d) (pppoe_status d) (node_events d)
     (kafka_dlq d) n (seq_events d) (seq_dlq d).
Definition set_progress (m : gmap string Z) (d : db) : db :=
  Db (hsi_config_current d) (hsi_config_history d) m (pppoe_status d) (node_events d)
     (kafka_dlq d) (seq_history d) (seq_events d) (seq_dlq d).
Definition set_pppoe (m : gmap ConfigKey StatusRec) (d : db) : db :=
  Db (hsi_config_current d) (hsi_config_history d) (etcd_watch_progress d) m (node_events d)
     (kafka_dlq d) (seq_history d) (seq_events d) (seq_dlq d).
Definition set_events (l : list (Z * NodeEventRow)) (n : Z) (d : db) : db :=
  Db (hsi_config_current d) (hsi_config_history d) (etcd_watch_progress d) (pppoe_status d) l
     (kafka_dlq d) (seq_history d) n (seq_dlq d).
Definition set_dlq (l : list DLQRow) (n : Z) (d : db) : db :=
  Db (hsi_config_current d) (hsi_config_history d) (etcd_watch_progress d) (pppoe_status d)
     (node_events d) l (seq_history d) (seq_events d) n.

(** [upsertCurrentSQL]: insert, or update when the stored revision is older.
    [config] is NOT NULL (23502). *)
Definition upsertCurrent (row : HSIConfigRow) : query unit := fun _ d =>
  match jsonb_param (ConfigJSON row) with
  | Err e => Err e
  | Ok None => Err (DbPg "23502")
  | Ok c =>
      let cur := hsi_config_current d in
      match cur !! row_key row with
      | Some old => if ModRevision old <? ModRevision row
                    then Ok (tt, set_current (<[row_key row := with_config c row]> cur) d)
                    else Ok (tt, d)
      | None => Ok (tt, set_current (<[row_key row := with_config c row]> cur) d)
      end
  end.

(** The conflict target of the history: (node, user, mod_revision, status). *)
Definition same_history (row : HSIConfigRow) (status : string) (h : HistRow) : bool :=
  String.eqb (NodeUUID (h_row h)) (NodeUUID row) && String.eqb (UserID (h_row h)) (UserID row)
  && (ModRevision (h_row h) =? ModRevision row) && String.eqb (h_status h) status.

(** [appendHistorySQL]; the sequence advances even when the row is dropped. *)
Definition appendHistoryWithStatus (row : HSIConfigRow) (status : string) : query unit := fun _ d =>
  match jsonb_param (ConfigJSON row) with
  | Err e => Err e
  | Ok c =>
      let l := hsi_config_history d in
      let n := seq_history d in
      if existsb (same_history row status) l then Ok (tt, set_history l (n + 1) d)
      else Ok (tt, set_history (l ++ [MkHist n (with_config c row) status]) (n + 1) d)
  end.
Definition AppendHistory (row : HSIConfigRow) : query unit := appendHistoryWithStatus row "pending".

(** One transaction: an error of either statement leaves no trace. *)
Definition UpsertCurrentWithHistory (row : HSIConfigRow) (status : string) : query unit := fun now d =>
  match upsertCurrent row now d with
  | Err e => Err e
  | Ok (_, d1) => appendHistoryWithStatus row status now d1
  end.

Definition DeleteCurrent (nodeUUID userID : string) : query unit := fun _ d =>
  Ok (tt, set_current (delete (nodeUUID, userID) (hsi_config_current d)) d).
Definition ListCurrentKeys : query (list ConfigKey) := fun _ d =>
  Ok ((map_to_list (hsi_config_current d)).*1, d).
Definition ListCurrentModRevisions : query (gmap ConfigKey Z) := fun _ d =>
  Ok (ModRevision <$> hsi_config_current d, d).

Definition GetWatchProgress (watcher : string) : query (option Z) := fun _ d =>
  Ok (etcd_watch_progress d !! watcher, d).
Definition SetWatchProgress (watcher : string) (rev : Z) : query unit := fun _ d =>
  Ok (tt, set_progress (<[watcher := rev]> (etcd_watch_progress d)) d).

Definition is_success (nodeUUID userID : string) (h : HistRow) : bool :=
  String.eqb (NodeUUID (h_row h)) nodeUUID && String.eqb (UserID (h_row h)) userID
  && String.eqb (h_status h) "success" && String.eqb (Action (h_row h)) "upsert"
  && match ConfigJSON (h_row h) with Some _ => true | None => false end.
(** [ORDER BY id DESC LIMIT 1]. *)
Definition GetLastSuccessfulConfig (nodeUUID userID : string) : query (option HSIConfigRow) := fun _ d =>
  Ok (h_row <$> List.find (is_success nodeUUID userID) (reverse (hsi_config_history d)), d).

(** Note the constant [mod_revision] 0 of the statement. *)
Definition failed_row (nodeUUID userID : string) (now : Z) : HSIConfigRow :=
  MkRow nodeUUID userID "apply-failed" None "disconnect" 0 "" "system" (Some now).
Definition RollbackToLastSuccessful (nodeUUID userID failureReason : string) : query unit := fun now d =>
  appendHistoryWithStatus (failed_row nodeUUID userID now) "failed" now d.

(** *** Events *)

(** The table keeps the server's clock; the [UpdatedAt] of the row is not sent. *)
Definition status_of (row : PPPoEStatusRow) (now : Z) : StatusRec :=
  MkStatus (pp_phase row) (nullStr (pp_ipv4 row)) (nullStr (pp_ipv4gw row)) (nullStr (pp_ipv6 row))
           (nullStr (pp_ipv6pd row)) (nullStr (pp_ipv6dns row)) (nullStr (pp_error row)) (pp_event row) now.
Definition pp_key (row : PPPoEStatusRow) : ConfigKey := (pp_node row, pp_user row).
Definition upsert_status (now : Z) (m : gmap ConfigKey StatusRec) (row : PPPoEStatusRow) : gmap ConfigKey StatusRec :=
  match m !! pp_key row with
  | Some old => if st_event old <=? pp_event row then <[pp_key row := status_of row now]> m else m
  | None => <[pp_key row := status_of row now]> m
  end.
Definition UpsertPPPoEStatus (row : PPPoEStatusRow) : query unit := fun now d =>
  Ok (tt, set_pppoe (upsert_status now (pppoe_status d) row) d).

(** One statement over many rows: the same upsert per row, but the server
    refuses a statement that hits one row twice (21000). *)
Definition UpsertPPPoEStatusBatch (rows : list PPPoEStatusRow) : query unit := fun now d =>
  if decide (NoDup (pp_key <$> rows)) then
    Ok (tt, set_pppoe (fold_left (upsert_status now) rows (pppoe_status d)) d)
  else Err (DbPg "21000").

Definition status_row (k : ConfigKey) (s : StatusRec) : PPPoEStatusRow :=
  MkPPPoE k.1 k.2 (st_phase s) (coalesce (st_ipv4 s)) (coalesce (st_ipv4gw s)) (coalesce (st_ipv6 s))
          (coalesce (st_ipv6pd s)) (coalesce (st_ipv6dns s)) (coalesce (st_error s)) (st_event s) (st_updated s).
Definition GetPPPoEStatus (nodeUUID userID : string) : query (option PPPoEStatusRow) := fun _ d =>
  Ok (status_row (nodeUUID, userID) <$> pppoe_status d !! (nodeUUID, userID), d).
Definition CountPPPoEStatusByNode : query (gmap string Z) := fun _ d =>
  Ok (map_fold (fun k _ m => <[k.1 := default 0 (m !! k.1) + 1]> m) ∅ (pppoe_status d), d).

Definition same_message (topic : string) (partition offset : Z) (r : DLQRow) : bool :=
  String.eqb (dq_topic r) topic && (dq_partition r =? partition) && (dq_offset r =? offset).
Definition bump_dlq (now : Z) (errorMessage : string) (r : DLQRow) : DLQRow :=
  MkDLQ (dq_id r) (dq_topic r) (dq_partition r) (dq_offset r) (dq_value r) errorMessage
        (dq_retry r + 1) (dq_status r) now.
Definition SendToDLQ (topic : string) (partition offset : Z) (messageValue errorMessage : string)
  : query Z := fun now d =>
  let l := kafka_dlq d in let n := seq_dlq d in
  match List.find (same_message topic partition offset) l with
  | Some r => Ok (dq_id r,
                  set_dlq ((fun r => if same_message topic partition offset r
                                     then bump_dlq now errorMessage r else r) <$> l) (n + 1) d)
  | None => Ok (n, set_dlq (l ++ [MkDLQ n topic partition offset messageValue errorMessage 0 "pending" now]) (n + 1) d)
  end.

Definition same_event (a b : NodeEventRow) : bool :=
  String.eqb (ne_node a) (ne_node b) && String.eqb (ne_user a) (ne_user b)
  && String.eqb (ne_type a) (ne_type b) && (ne_time a =? ne_time b)
  && String.eqb (ne_correlation a) (ne_correlation b).
Definition InsertNodeEvent (row : NodeEventRow) : query bool := fun _ d =>
  let l := node_events d in let n := seq_events d in
  if existsb (fun x => same_event row x.2) l then Ok (false, set_events l (n + 1) d)
  else Ok (true, set_events (l ++ [(n, row)]) (n + 1) d).

Definition event_before (a b : Z * NodeEventRow) : Prop :=
  ne_time b.2 < ne_time a.2 \/ (ne_time b.2 = ne_time a.2 /\ b.1 <= a.1).
#[export] Instance event_before_dec a b : Decision (event_before a b).
Proof. unfold event_before. apply _. Defined.
Fixpoint insert_event (x : Z * NodeEventRow) (l : list (Z * NodeEventRow)) : list (Z * NodeEventRow) :=
  match l with
  | [] => [x]
  | y :: l' => if decide (event_before x y) then x :: l else y :: insert_event x l'
  end.
Definition event_limit (limit : Z) : Z := if (limit <=? 0) || (1000 <? limit) then 500 else limit.
Definition event_matches (nodeUUID eventType : string) (x : Z * NodeEventRow) : bool :=
  (String.eqb nodeUUID "" || String.eqb (ne_node x.2) nodeUUID)
  && (String.eqb eventType "" || String.eqb (ne_type x.2) eventType).
Definition ListNodeEvents (nodeUUID eventType : string) (limit : Z) : query (list (Z * NodeEventRow)) := fun _ d =>
  Ok (take (Z.to_nat (event_limit limit))
        (foldr insert_event [] (List.filter (event_matches nodeUUID eventType) (node_events d))), d).
Definition DeleteNodeEvents (ids : list Z) : query Z := fun _ d =>
  if bool_decide (ids = []) then Ok (0, d)
  else let gone x := bool_decide (x.1 ∈ ids) in
       Ok (Z.of_nat (length (List.filter gone (node_events d))),
           set_events (List.filter (fun x => negb (gone x)) (node_events d)) (seq_events d) d).
End queries.
