(* ===== verification/DbProps.v ===== *)
(** * What the read model's statements guarantee

    Idempotence and ordering guards of the statements in [internal/db], the
    facts at-least-once delivery relies on. *)

From S2P Require Import Prelude GoStrings Json GoTime Db.
Local Open Scope string_scope.
Local Open Scope Z_scope.

(** ** PPPoE states *)

Lemma upsert_status_same now m row : exists st, upsert_status now m row !! pp_key row = Some st /\ pp_event row <= st_event st.
Proof.
  unfold upsert_status. destruct (m !! pp_key row) as [old|] eqn:E.
  - destruct (Z.leb_spec (st_event old) (pp_event row)).
    + rewrite lookup_insert_eq. eexists. split; [done|]. simpl. lia.
    + exists old. split; [done|lia].
  - rewrite lookup_insert_eq. eexists. split; [done|]. simpl. lia.
Qed.

(** A row only ever moves forward in event time. *)
Lemma upsert_status_mono now m row k st :
  m !! k = Some st -> exists st', upsert_status now m row !! k = Some st' /\ st_event st <= st_event st'.
Proof.
  intros Hk. unfold upsert_status. destruct (decide (pp_key row = k)) as [<-|Hne].
  - rewrite Hk. destruct (Z.leb_spec (st_event st) (pp_event row)).
    + rewrite lookup_insert_eq. eexists. split; [done|]. simpl. lia.
    + exists st. split; [done|lia].
  - exists st. split; [|lia]. destruct (m !! pp_key row) as [old|]; [destruct (_ <=? _)|];
      by rewrite ?lookup_insert_ne.
Qed.
Lemma upsert_statuses_mono now rows m k st :
  m !! k = Some st -> exists st', fold_left (upsert_status now) rows m !! k = Some st' /\ st_event st <= st_event st'.
Proof.
  revert m st. induction rows as [|r rows IH]; intros m st Hk; cbn [fold_left]; [exists st; split; [done|lia]|].
  destruct (upsert_status_mono now m r k st Hk) as (st1 & H1 & L1).
  destruct (IH _ _ H1) as (st2 & H2 & L2). exists st2. split; [done|lia].
Qed.

(** ** Events *)

Lemma same_event_refl r : same_event r r = true.
Proof. unfold same_event. by rewrite !String.eqb_refl, Z.eqb_refl. Qed.

Definition event_recorded (row : NodeEventRow) (d : db) : Prop :=
  existsb (fun x => same_event row x.2) (node_events d) = true.

Lemma InsertNodeEvent_records row now d : exists b d', InsertNodeEvent row now d = Ok (b, d') /\ event_recorded row d'.
Proof.
  unfold InsertNodeEvent, event_recorded. destruct (existsb _ (node_events d)) eqn:E; eexists _, _; (split; [done|]); simpl.
  - done.
  - rewrite existsb_app. simpl. by rewrite same_event_refl, orb_true_r.
Qed.

(** ** Dead letters *)

Definition in_dlq (topic : string) (partition offset : Z) (d : db) : Prop :=
  existsb (same_message topic partition offset) (kafka_dlq d) = true.

Lemma same_message_bump topic p o now e r :
  same_message topic p o (bump_dlq now e r) = same_message topic p o r.
Proof. done. Qed.

Lemma SendToDLQ_records topic p o v e now d : exists id d', SendToDLQ topic p o v e now d = Ok (id, d') /\ in_dlq topic p o d'.
Proof.
  unfold SendToDLQ, in_dlq. destruct (List.find _ _) as [r|] eqn:E; eexists _, _; (split; [done|]); simpl.
  - apply find_some in E as [Hin Hs]. apply existsb_exists.
    exists (if same_message topic p o r then bump_dlq now e r else r). split; [|by rewrite Hs].
    apply list_elem_of_In, list_elem_of_fmap. exists r. split; [done|]. by apply list_elem_of_In.
  - rewrite existsb_app. simpl. unfold same_message at 2. simpl.
    by rewrite String.eqb_refl, !Z.eqb_refl, !orb_true_r.
Qed.

(** ** Config history *)

Section history.
Context {J : Jsonb}.

Lemma same_history_refl row status c n : same_history row status (MkHist n (with_config c row) status) = true.
Proof. unfold same_history. simpl. by rewrite !String.eqb_refl, Z.eqb_refl. Qed.

(** Once appended, a version with its status is never appended again. *)
Lemma append_recorded row status now d d' :
  appendHistoryWithStatus row status now d = Ok (tt, d') ->
  existsb (same_history row status) (hsi_config_history d') = true.
Proof.
  unfold appendHistoryWithStatus. destruct (jsonb_param (ConfigJSON row)) as [c|]; [|done].
  destruct (existsb _ (hsi_config_history d)) eqn:E; intros [= <-]; simpl; [done|].
  rewrite existsb_app. simpl. by rewrite same_history_refl, orb_true_r.
Qed.
Lemma append_current row status now d d' :
  appendHistoryWithStatus row status now d = Ok (tt, d') -> hsi_config_current d' = hsi_config_current d.
Proof.
  unfold appendHistoryWithStatus. destruct (jsonb_param (ConfigJSON row)) as [c|]; [|done].
  destruct (existsb _ (hsi_config_history d)); intros [= <-]; done.
Qed.
Lemma append_again row status now d c :
  existsb (same_history row status) (hsi_config_history d) = true -> jsonb_param (ConfigJSON row) = Ok c ->
  appendHistoryWithStatus row status now d = Ok (tt, set_history (hsi_config_history d) (seq_history d + 1) d).
Proof. intros Hs Hc. unfold appendHistoryWithStatus. by rewrite Hc, Hs. Qed.

Lemma upsertCurrent_inv row now d d' :
  upsertCurrent row now d = Ok (tt, d') ->
  exists c, jsonb_param (ConfigJSON row) = Ok (Some c) /\
  hsi_config_history d' = hsi_config_history d /\ node_events d' = node_events d /\
  hsi_config_current d' =
    match hsi_config_current d !! row_key row with
    | Some old => if ModRevision old <? ModRevision row
                  then <[row_key row := with_config (Some c) row]> (hsi_config_current d) else hsi_config_current d
    | None => <[row_key row := with_config (Some c) row]> (hsi_config_current d)
    end.
Proof.
  unfold upsertCurrent. destruct (jsonb_param (ConfigJSON row)) as [[c|]|]; [|done|done].
  destruct (hsi_config_current d !! row_key row) as [old|]; [destruct (_ <? _)|]; intros [= <-]; by exists c.
Qed.

Lemma upsertCurrent_mono row now d d' k r :
  upsertCurrent row now d = Ok (tt, d') -> hsi_config_current d !! k = Some r ->
  exists r', hsi_config_current d' !! k = Some r' /\ ModRevision r <= ModRevision r'.
Proof.
  intros Hu Hr. apply upsertCurrent_inv in Hu as (c & _ & _ & _ & ->).
  destruct (decide (row_key row = k)) as [<-|Hne].
  - rewrite Hr. destruct (Z.ltb_spec (ModRevision r) (ModRevision row)).
    + rewrite lookup_insert_eq. eexists. split; [done|]. simpl. lia.
    + exists r. split; [done|lia].
  - exists r. split; [|lia]. destruct (hsi_config_current d !! row_key row); [destruct (_ <? _)|];
      by rewrite ?lookup_insert_ne.
Qed.

Lemma upsertCurrent_holds row now d d' :
  upsertCurrent row now d = Ok (tt, d') ->
  exists r, hsi_config_current d' !! row_key row = Some r /\ ModRevision row <= ModRevision r.
Proof.
  intros Hu. apply upsertCurrent_inv in Hu as (c & _ & _ & _ & ->).
  destruct (hsi_config_current d !! row_key row) as [old|] eqn:E.
  - destruct (Z.ltb_spec (ModRevision old) (ModRevision row)).
    + rewrite lookup_insert_eq. eexists. split; [done|]. simpl. lia.
    + exists old. split; [done|lia].
  - rewrite lookup_insert_eq. eexists. split; [done|]. simpl. lia.
Qed.

Lemma upsertCurrent_again row now d c r :
  jsonb_param (ConfigJSON row) = Ok (Some c) ->
  hsi_config_current d !! row_key row = Some r -> ModRevision row <= ModRevision r ->
  upsertCurrent row now d = Ok (tt, d).
Proof.
  intros Hc Hr Hm. unfold upsertCurrent. rewrite Hc, Hr. by destruct (Z.ltb_spec (ModRevision r) (ModRevision row)); [lia|].
Qed.

(** ** Properties *)

(** C36: recording a confirmed config is idempotent and never goes back: a
    replayed record changes neither the current view nor the history, and the
    stored revision of every subscriber only grows. *)
Theorem UpsertCurrentWithHistory_idempotent row status now now' d d1 :
  UpsertCurrentWithHistory row status now d = Ok (tt, d1) ->
  (exists d2, UpsertCurrentWithHistory row status now' d1 = Ok (tt, d2) /\
     hsi_config_current d2 = hsi_config_current d1 /\ hsi_config_history d2 = hsi_config_history d1) /\
  forall k r, hsi_config_current d !! k = Some r ->
    exists r', hsi_config_current d1 !! k = Some r' /\ ModRevision r <= ModRevision r'.
Proof.
  unfold UpsertCurrentWithHistory. destruct (upsertCurrent row now d) as [[[] d0]|] eqn:Eu; [|done].
  intros Ha. pose proof (append_recorded _ _ _ _ _ Ha) as Hrec.
  assert (Hcur : hsi_config_current d1 = hsi_config_current d0).
  { by eapply append_current. }
  split.
  - destruct (upsertCurrent_inv _ _ _ _ Eu) as (c & Hc & _). destruct (upsertCurrent_holds _ _ _ _ Eu) as (r & Hr & Hle).
    rewrite (upsertCurrent_again row now' d1 c r) by congruence.
    rewrite (append_again row status now' d1 (Some c)) by done. eexists. split_and!; done.
  - intros k r Hr. rewrite Hcur. by eapply upsertCurrent_mono.
Qed.

(** The last successful config of a subscriber is the one recorded last: a
    newly recorded success is what the next rollback restores. *)
Theorem last_success_is_latest row now now' d d1 :
  Action row = ActionUpsert -> existsb (same_history row "success") (hsi_config_history d) = false ->
  UpsertCurrentWithHistory row "success" now d = Ok (tt, d1) ->
  exists c, jsonb_param (ConfigJSON row) = Ok (Some c) /\
    GetLastSuccessfulConfig (NodeUUID row) (UserID row) now' d1 = Ok (Some (with_config (Some c) row), d1).
Proof.
  intros Hact Hnew. unfold UpsertCurrentWithHistory. destruct (upsertCurrent row now d) as [[[] d0]|] eqn:Eu; [|done].
  destruct (upsertCurrent_inv _ _ _ _ Eu) as (c & Hc & Hh & _). unfold appendHistoryWithStatus. rewrite Hc, Hh, Hnew.
  intros [= <-]. exists c. split; [done|]. unfold GetLastSuccessfulConfig. simpl. do 2 f_equal.
  rewrite reverse_app. simpl. unfold is_success at 1. simpl. by rewrite !String.eqb_refl, Hact.
Qed.

(** Only the first failure of a subscriber is ever recorded: the statement's
    constant revision makes every later one a duplicate, whatever its reason. *)
Theorem failures_recorded_once node user reason reason' now now' d d1 d2 :
  RollbackToLastSuccessful node user reason now d = Ok (tt, d1) ->
  RollbackToLastSuccessful node user reason' now' d1 = Ok (tt, d2) ->
  hsi_config_history d2 = hsi_config_history d1.
Proof.
  unfold RollbackToLastSuccessful. intros H1 H2. apply append_recorded in H1.
  assert (existsb (same_history (failed_row node user now') "failed") (hsi_config_history d1) = true) as Hs by exact H1.
  rewrite (append_again _ _ _ _ None) in H2 by done. by injection H2 as <-.
Qed.
End history.

(** An event is inserted once: the first delivery stores it, and delivering it
    again reports a duplicate and changes no row. *)
Theorem InsertNodeEvent_once row now now' d :
  exists b d1 n, InsertNodeEvent row now d = Ok (b, d1) /\ event_recorded row d1 /\
    (b = true <-> ~ event_recorded row d) /\
    InsertNodeEvent row now' d1 = Ok (false, set_events (node_events d1) n d1).
Proof.
  destruct (InsertNodeEvent_records row now d) as (b & d1 & H1 & Hrec). exists b, d1, (seq_events d1 + 1).
  split_and!; [done|done| |unfold InsertNodeEvent; by rewrite Hrec].
  revert H1. unfold InsertNodeEvent, event_recorded. destruct (existsb _ (node_events d)); intros [= <- _]; naive_solver.
Qed.

(** Neither the single nor the batched statement moves a subscriber's PPPoE
    state back in event time. *)
Theorem pppoe_event_time_monotone row rows now d k st :
  pppoe_status d !! k = Some st ->
  (exists d' st', UpsertPPPoEStatus row now d = Ok (tt, d') /\ pppoe_status d' !! k = Some st' /\ st_event st <= st_event st') /\
  forall d', UpsertPPPoEStatusBatch rows now d = Ok (tt, d') ->
    exists st', pppoe_status d' !! k = Some st' /\ st_event st <= st_event st'.
Proof.
  intros Hk. split.
  - destruct (upsert_status_mono now _ row k st Hk) as (st' & H & L). by eexists _, st'.
  - intros d'. unfold UpsertPPPoEStatusBatch. destruct (decide _); [|done]. intros [= <-].
    by apply upsert_statuses_mono.
Qed.

(** *** Witnesses *)

Definition confirmed_sample : HSIConfigRow := MkRow "n" "2" "upsert" (Some "{}") "" 7 "" "node" None.
Lemma UpsertCurrentWithHistory_idempotent_witness :
  exists d1, UpsertCurrentWithHistory confirmed_sample "success" 0 db_empty = Ok (tt, d1) /\
  (exists d2, UpsertCurrentWithHistory confirmed_sample "success" 1 d1 = Ok (tt, d2) /\
     hsi_config_current d2 = hsi_config_current d1 /\ hsi_config_history d2 = hsi_config_history d1) /\
  forall k r, hsi_config_current db_empty !! k = Some r ->
    exists r', hsi_config_current d1 !! k = Some r' /\ ModRevision r <= ModRevision r'.
Proof.
  eexists. split; [reflexivity|].
  eapply (UpsertCurrentWithHistory_idempotent confirmed_sample "success" 0 1 db_empty). reflexivity.
Defined.
Lemma last_success_is_latest_witness :
  exists d1 c, UpsertCurrentWithHistory confirmed_sample "success" 0 db_empty = Ok (tt, d1) /\
    jsonb_param (ConfigJSON confirmed_sample) = Ok (Some c) /\
    GetLastSuccessfulConfig "n" "2" 0 d1 = Ok (Some (with_config (Some c) confirmed_sample), d1).
Proof.
  destruct (UpsertCurrentWithHistory confirmed_sample "success" 0 db_empty) as [[[] d1]|] eqn:E;
    [|vm_compute in E; discriminate].
  destruct (last_success_is_latest confirmed_sample 0 0 db_empty d1 eq_refl eq_refl E) as (c & Hc).
  exists d1, c. split; [reflexivity|exact Hc].
Defined.
Lemma failures_recorded_once_witness :
  exists d1 d2, RollbackToLastSuccessful "n" "2" "first" 0 db_empty = Ok (tt, d1) /\
    RollbackToLastSuccessful "n" "2" "second" 5 d1 = Ok (tt, d2) /\
    hsi_config_history d2 = hsi_config_history d1.
Proof.
  eexists _, _. split; [reflexivity|]. split; [reflexivity|].
  eapply (failures_recorded_once "n" "2" "first" "second" 0 5 db_empty); reflexivity.
Defined.
Definition old_state : db := set_pppoe {[ ("n", "2") := MkStatus "connected" None None None None None None 9 0 ]} db_empty.
Definition late_row : PPPoEStatusRow := MkPPPoE "n" "2" "disconnected" "" "" "" "" "" "" 5 0.
Lemma pppoe_event_time_monotone_witness :
  exists st, pppoe_status old_state !! ("n", "2") = Some st /\
  (exists d' st', UpsertPPPoEStatus late_row 1 old_state = Ok (tt, d') /\ pppoe_status d' !! ("n", "2") = Some st' /\ st_event st <= st_event st') /\
  forall d', UpsertPPPoEStatusBatch [late_row] 1 old_state = Ok (tt, d') ->
    exists st', pppoe_status d' !! ("n", "2") = Some st' /\ st_event st <= st_event st'.
Proof.
  eexists. split; [reflexivity|]. apply (pppoe_event_time_monotone late_row [late_row] 1 old_state ("n", "2")). reflexivity.
Defined.
