(* ===== verification/Events.v ===== *)
(** * Node events ([proto/eventsv1/kafka-events.proto])

    The messages the nodes publish, as the getters of the generated Go code
    return them.  [proto.Unmarshal] itself is not in the repository: the class
    [ProtoEvents] is the decoder the consumer is given. *)

From S2P Require Import Prelude GoStrings Json GoTime Db.
Local Open Scope string_scope.
Local Open Scope Z_scope.

(** Enumerations are open in proto3: any int32 may arrive. *)
Definition EventType := Z.
Definition OfflineEditKind := Z.
Definition PPPoEPhase := Z.
Definition EVENT_TYPE_CONFIG_OFFLINE_EDIT : EventType := 3.
Definition OFFLINE_EDIT_KIND_HSI_CONFIG : OfflineEditKind := 1.
Definition OFFLINE_EDIT_KIND_DNS_RECORDS : OfflineEditKind := 2.
Definition OFFLINE_EDIT_KIND_SUBSCRIBER_COUNT : OfflineEditKind := 3.

(** [String()]: the declared name, or the number. *)
Definition enum_string (names : list (Z * string)) (z : Z) : string :=
  match List.find (fun p => p.1 =? z) names with Some p => p.2 | None => format_int z end.
Definition EventType_names : list (Z * string) :=
  [(0, "EVENT_TYPE_UNSPECIFIED"); (1, "EVENT_TYPE_CONFIG_APPLY_OK"); (2, "EVENT_TYPE_CONFIG_APPLY_FAIL");
   (3, "EVENT_TYPE_CONFIG_OFFLINE_EDIT"); (10, "EVENT_TYPE_PPPOE_CONNECTING"); (11, "EVENT_TYPE_PPPOE_CONNECTED");
   (12, "EVENT_TYPE_PPPOE_DISCONNECTING"); (13, "EVENT_TYPE_PPPOE_DISCONNECTED"); (20, "EVENT_TYPE_RUNTIME_ERROR")].
Definition OfflineEditKind_names : list (Z * string) :=
  [(0, "OFFLINE_EDIT_KIND_UNSPECIFIED"); (1, "OFFLINE_EDIT_KIND_HSI_CONFIG");
   (2, "OFFLINE_EDIT_KIND_DNS_RECORDS"); (3, "OFFLINE_EDIT_KIND_SUBSCRIBER_COUNT")].

Record ConfigApplyResult := MkApply {
  ar_action : string; ar_success : bool; ar_error_code : string; ar_error_message : string;
  ar_applied_rv : string; ar_republished : bool; ar_applied_mod : Z }.
Record PPPoEStateChange := MkChange {
  pc_phase : PPPoEPhase; pc_ipv4 : string; pc_ipv4gw : string; pc_error : string;
  pc_ipv6 : string; pc_ipv6pd : string; pc_ipv6dns : string }.
Record RuntimeError := MkRuntime { re_module : string; re_code : string; re_message : string; re_context : string }.
Record ConfigOfflineEdit := MkEdit {
  oe_config_json : string; oe_resource_version : string; oe_edited_at : Z; oe_summary : string;
  oe_kind : OfflineEditKind; oe_deleted : bool }.
Inductive payload :=
| PApply (r : ConfigApplyResult)
| PChange (c : PPPoEStateChange)
| PRuntime (r : RuntimeError)
| POffline (e : ConfigOfflineEdit)
| PNone.
Record NodeEvent := MkNodeEvent {
  ev_node : string; ev_user : string; ev_type : EventType; ev_timestamp : Z;
  ev_correlation : string; ev_payload : payload }.

Class ProtoEvents := unmarshal_event : string -> option NodeEvent.

(** [time.Unix(sec, 0)]: seconds are kept from year 1, in an int64 that wraps. *)
Definition unixToInternal : Z := 62135596800.
Definition time_Unix (sec : Z) : Z := unix (wrap64 (sec + unixToInternal) - unixToInternal).

Lemma time_Unix_id sec : min_int64 <= sec + unixToInternal <= max_int64 -> time_Unix sec = unix sec.
Proof. intros Hs. unfold time_Unix. rewrite wrap64_id by done. f_equal. lia. Qed.

(** ** Projecting events to rows *)

Definition phaseString (p : PPPoEPhase) : string :=
  if p =? 1 then "connecting" else if p =? 2 then "connected"
  else if p =? 3 then "disconnecting" else if p =? 4 then "disconnected" else "unspecified".
Definition eventTypeString (t : EventType) : string := trim_prefix "EVENT_TYPE_" (enum_string EventType_names t).
Definition offlineEditKindString (k : OfflineEditKind) : string :=
  trim_prefix "OFFLINE_EDIT_KIND_" (enum_string OfflineEditKind_names k).

(** [UpdatedAt] is left at the zero time. *)
Definition zeroTime : Z := unix (- unixToInternal).
Definition pppoeStatusRow (ev : NodeEvent) (change : PPPoEStateChange) : PPPoEStatusRow :=
  MkPPPoE (ev_node ev) (ev_user ev) (phaseString (pc_phase change)) (pc_ipv4 change) (pc_ipv4gw change)
          (pc_ipv6 change) (pc_ipv6pd change) (pc_ipv6dns change) (pc_error change) (time_Unix (ev_timestamp ev)) zeroTime.
