(* ===== verification/Effects.v ===== *)
(** * Effectful code: programs, the world, and its interference

    Handlers talk to etcd, PostgreSQL, the broker and the clock.  They are
    values of [prog], one constructor per call that leaves the process, and
    [run] executes them against a world and a list of [turn]s: what the rest of
    the system did just before each call (other clients' etcd writes, clock
    ticks, a lost connection, the context ending).  An exhausted list means
    nothing interferes, so [run] is total and executable, and a theorem over all
    lists of turns is a theorem over all interleavings. *)

From S2P Require Import Prelude GoStrings Etcd Db.
Local Open Scope string_scope.
Local Open Scope Z_scope.

(** ** Requests *)

(** [clientv3.Compare]s the controller uses, and the operations it guards. *)
Inductive guard := Version0 (k : string) | ModRevEq (k : string) (r : Z).
Inductive etcdop := OpPut (k v : string) | OpDelete (k : string).
#[export] Instance etcdop_eq_dec : EqDecision etcdop.
Proof. solve_decision. Defined.

(** A Kafka message: where it sits and what it holds. *)
Record message := Msg { Topic : string; Partition : Z; Offset : Z; Value : string }.
#[export] Instance message_eq_dec : EqDecision message.
Proof. solve_decision. Defined.

Inductive eff : Type -> Type :=
| EGet (k : string) : eff (result eerr (option kv))
| EGetRev (k : string) (r : Z) : eff (result eerr (option kv))
| ERange (p : string) : eff (result eerr (list (string * kv) * Z))
| ETxn (g : guard) (o : etcdop) : eff (result eerr bool)
| EPutLease (k v : string) (ttl : Z) : eff (result eerr unit)   (* Grant, then Put WithLease *)
| EDelete (k : string) : eff (result eerr Z)                    (* number deleted *)
| EDb (A : Type) (q : query A) : eff (result dberr A)
| ENow : eff Z
| ESleep (d : Z) (bounded : bool) : eff bool                    (* true: the context ended first; bounded: it has a deadline *)
| ECtx : eff bool                                               (* ctx.Err() != nil of the process context *)
| ECommit (m : list message) : eff (option eerr).
Arguments EDb {A} q.

Inductive prog (A : Type) :=
| Ret (a : A)
| Vis (X : Type) (e : eff X) (k : X -> prog A).
Arguments Ret {A} a.
Arguments Vis {A X} e k.

Fixpoint bind {A B} (p : prog A) (f : A -> prog B) : prog B :=
  match p with
  | Ret a => f a
  | Vis e k => Vis e (fun x => bind (k x) f)
  end.
Definition call {X} (e : eff X) : prog X := Vis e Ret.

Notation "'do!' x := p 'in' k" := (bind p (fun x => k))
  (at level 10, x pattern, p at level 100, k at level 200) : go_scope.
(** [if err != nil { return err }] *)
Notation "'do?' x := p 'in' k" :=
  (bind p (fun r => match r with Ok x => k | Err e => Ret (Err e) end))
  (at level 10, x pattern, p at level 100, k at level 200) : go_scope.

(** ** Statements of other replicas *)

(** What the consumers and projections of other replicas write to the tables;
    documents are in the form PostgreSQL stores them in. *)
Inductive sqlop :=
| SqlStatus (row : PPPoEStatusRow)
| SqlEvent (row : NodeEventRow)
| SqlConfirm (row : HSIConfigRow) (status : string)
| SqlHistory (row : HSIConfigRow) (status : string)
| SqlDLQ (topic : string) (partition offset : Z) (value error : string)
| SqlProgress (watcher : string) (rev : Z).
#[local] Instance stored_json : Jsonb := Some.
Definition after {A} (q : query A) (now : Z) (d : db) : db := match q now d with Ok (_, d') => d' | Err _ => d end.
Definition apply_sql (now : Z) (d : db) (o : sqlop) : db :=
  match o with
  | SqlStatus row => after (UpsertPPPoEStatus row) now d
  | SqlEvent row => after (InsertNodeEvent row) now d
  | SqlConfirm row status => after (UpsertCurrentWithHistory row status) now d
  | SqlHistory row status => after (appendHistoryWithStatus row status) now d
  | SqlDLQ topic partition offset value error => after (SendToDLQ topic partition offset value error) now d
  | SqlProgress watcher rev => after (SetWatchProgress watcher rev) now d
  end.
(** The tables after some of them. *)
Definition db_env : db -> db -> Prop := relations.rtc (fun d d' => exists now o, d' = apply_sql now d o).
#[export] Instance db_env_preorder : PreOrder db_env.
Proof. unfold db_env. apply _. Qed.
Lemma db_env_fold now l d : db_env d (fold_left (apply_sql now) l d).
Proof.
  revert d. induction l as [|o l IH]; intros d; [reflexivity|]. etransitivity; [|apply IH].
  apply relations.rtc_once. by exists now, o.
Qed.
(** A property of tables each of them keeps. *)
Lemma db_env_keeps (I : db -> Prop) d d' : (forall now o d, I d -> I (apply_sql now d o)) -> db_env d d' -> I d -> I d'.
Proof. intros Hk. induction 1 as [|x y z (now & o & ->) _ IH]; [done|]. intros Hx. by apply IH, Hk. Qed.

(** ** The world and its turns *)

Section world.
Context {E : Type} {HE : EtcdStore E}.

(** What the process itself did, newest first, with the store it acted on. *)
Inductive act :=
| ATxn (s : E) (g : guard) (o : etcdop)         (* a committed transaction *)
| AConflict (s : E) (g : guard) (o : etcdop)    (* one whose guard failed *)
| APut (s : E) (k v : string) (ttl : Z)
| ADelete (s : E) (k : string)
| AQuery (before after : db)
| ASleep (d : Z)
| ACommit (d : db) (s : E) (m : list message).

Record world := World { w_etcd : E; w_db : db; w_now : Z; w_done : bool; w_log : list act }.

(** Just before one call: writes by other clients, elapsed nanoseconds, an
    etcd failure (with whether the request took effect all the same), the
    same for the database, a failing broker, whether the process context has
    ended by now (it stays ended), whether the call's own deadline passed, and the
    statements other replicas ran. *)
Record turn := Turn {
  t_env : list envop;
  t_tick : N;
  t_etcd : option (eerr * bool);
  t_db : option (dberr * bool);
  t_kafka : option eerr;
  t_ctx : bool;
  t_deadline : bool;
  t_sql : list sqlop }.
Definition quiet : turn := Turn [] 0 None None None false false [].

Definition interfere (t : turn) (w : world) : world :=
  World (fold_left (fun s o => match o with
                               | EvPut k v => et_put s k v
                               | EvDel k => et_del s k
                               | EvCompact r => et_compact s r
                               end) (t_env t) (w_etcd w))
        (fold_left (apply_sql (w_now w + Z.of_N (t_tick t))) (t_sql t) (w_db w))
        (w_now w + Z.of_N (t_tick t)) (w_done w || t_ctx t) (w_log w).

Definition check (s : E) (g : guard) : bool :=
  match g with
  | Version0 k => match et_get s k with None => true | Some _ => false end
  | ModRevEq k r => match et_get s k with Some e => kv_mod e =? r | None => 0 =? r end
  end.
Definition do_op (s : E) (o : etcdop) : E :=
  match o with OpPut k v => et_put s k v | OpDelete k => et_del s k end.

Definition with_etcd (w : world) (s : E) (a : act) : world :=
  World s (w_db w) (w_now w) (w_done w) (a :: w_log w).

(** An etcd request under a turn: the reply, unless the turn makes it fail. *)
Definition etcd_reply {A} (t : turn) (w : world) (f : world -> A * world) : result eerr A * world :=
  match t_etcd t with
  | None => let '(a, w') := f w in (Ok a, w')
  | Some (e, applied) => (Err e, if applied then (f w).2 else w)
  end.

Definition db_reply {A} (t : turn) (w : world) (q : query A) : result dberr A * world :=
  let commit d := World (w_etcd w) d (w_now w) (w_done w) (AQuery (w_db w) d :: w_log w) in
  match q (w_now w) (w_db w), t_db t with
  | Ok (a, d), None => (Ok a, commit d)
  | Ok (a, d), Some (e, applied) => (Err e, if applied then commit d else w)
  | Err e, _ => (Err e, w)
  end.

Definition perform {X} (e : eff X) (t : turn) (w : world) : X * world :=
  match e in eff X return X * world with
  | EGet k => etcd_reply t w (fun w => (et_get (w_etcd w) k, w))
  | EGetRev k r =>
      match t_etcd t with
      | Some (e, _) => (Err e, w)
      | None => (et_at (w_etcd w) k r, w)
      end
  | ERange p => etcd_reply t w (fun w => ((et_range (w_etcd w) p, et_rev (w_etcd w)), w))
  | ETxn g o => etcd_reply t w (fun w =>
      let s := w_etcd w in
      if check s g then (true, with_etcd w (do_op s o) (ATxn s g o))
      else (false, with_etcd w s (AConflict s g o)))
  | EPutLease k v ttl => etcd_reply t w (fun w =>
      (tt, with_etcd w (et_put (w_etcd w) k v) (APut (w_etcd w) k v ttl)))
  | EDelete k => etcd_reply t w (fun w =>
      (match et_get (w_etcd w) k with Some _ => 1 | None => 0 end,
       with_etcd w (et_del (w_etcd w) k) (ADelete (w_etcd w) k)))
  | EDb q => db_reply t w q
  | ENow => (w_now w, w)
  | ESleep d bounded =>
      (w_done w || (bounded && t_deadline t),
       World (w_etcd w) (w_db w) (w_now w + Z.max 0 d) (w_done w) (ASleep d :: w_log w))
  | ECtx => (w_done w, w)
  | ECommit m =>
      match t_kafka t with
      | Some e => (Some e, w)
      | None => (None, World (w_etcd w) (w_db w) (w_now w) (w_done w) (ACommit (w_db w) (w_etcd w) m :: w_log w))
      end
  end.

Definition step_eff {X} (e : eff X) (w : world) (ts : list turn) : X * world :=
  let t := hd quiet ts in perform e t (interfere t w).

Fixpoint run {A} (p : prog A) (w : world) (ts : list turn) : A * world * list turn :=
  match p with
  | Ret a => (a, w, ts)
  | Vis e k => let '(x, w') := step_eff e w ts in run (k x) w' (tl ts)
  end.
Definition outcome {A} (p : prog A) (w : world) (ts : list turn) : A := (run p w ts).1.1.
Definition final {A} (p : prog A) (w : world) (ts : list turn) : world := (run p w ts).1.2.
Definition rest {A} (p : prog A) (w : world) (ts : list turn) : list turn := (run p w ts).2.

(** The etcd states the calls of a run found, in order. *)
Fixpoint met {A} (p : prog A) (w : world) (ts : list turn) : list E :=
  match p with
  | Ret _ => []
  | Vis e k => w_etcd (interfere (hd quiet ts) w) :: let '(x, w') := step_eff e w ts in met (k x) w' (tl ts)
  end.
End world.
Arguments act E : clear implicits.
Arguments world E : clear implicits.

(** ** Running composed programs *)

Section laws.
Context `{EtcdLaws E}.

Lemma run_bind {A B} (p : prog A) (f : A -> prog B) (w : world E) ts :
  run (bind p f) w ts = let '(a, w', ts') := run p w ts in run (f a) w' ts'.
Proof.
  revert w ts. induction p as [a|X e k IH]; intros w ts; cbn [bind run]; [done|].
  destruct (step_eff e w ts) as [x w']. apply IH.
Qed.

Lemma run_call {X} (e : eff X) (w : world E) ts :
  run (call e) w ts = (step_eff e w ts, tl ts).
Proof. unfold call. cbn [run]. by destruct (step_eff e w ts). Qed.

Lemma run_call_bind {X B} (e : eff X) (f : X -> prog B) (w : world E) ts :
  run (bind (call e) f) w ts = let '(x, w') := step_eff e w ts in run (f x) w' (tl ts).
Proof. done. Qed.

Lemma met_bind {A B} (p : prog A) (f : A -> prog B) (w : world E) ts a w' ts' :
  run p w ts = (a, w', ts') -> met (bind p f) w ts = (met p w ts ++ met (f a) w' ts')%list.
Proof.
  revert w ts. induction p as [b|X e k IH]; intros w ts; cbn [bind met run]; [by intros [= -> -> ->]|].
  destruct (step_eff e w ts) as [x w1]. intros Hr. cbn [app]. f_equal. by apply IH.
Qed.

Lemma interfere_etcd t (w : world E) : w_etcd (interfere t w) = apply_envs (w_etcd w) (t_env t).
Proof. done. Qed.

Lemma wf_do_op (s : E) o : et_wf s -> et_wf (do_op s o).
Proof. destruct o; simpl; auto using wf_put, wf_del. Qed.

(** A property of worlds kept by interference and by every own action is kept
    by every program, under every interleaving. *)
Definition stable (I : world E -> Prop) : Prop :=
  (forall t w, I w -> I (interfere t w)) /\
  (forall X (e : eff X) t w, I w -> I (perform e t w).2).

Lemma run_stable (I : world E -> Prop) {A} (p : prog A) w ts :
  stable I -> I w -> I (final p w ts).
Proof.
  intros [Hi Hp]. unfold final. revert w ts. induction p as [a|X e k IH]; intros w ts Hw; cbn [run]; [done|].
  unfold step_eff. pose proof (Hp X e (hd quiet ts) _ (Hi (hd quiet ts) _ Hw)) as Hx.
  destruct (perform e (hd quiet ts) (interfere (hd quiet ts) w)) as [x w']. by apply IH.
Qed.

Definition world_wf (w : world E) : Prop := et_wf (w_etcd w).

(** An etcd request leaves the world alone or performs its action. *)
Lemma etcd_reply_world {A} t (w : world E) (f : world E -> A * world E) :
  (etcd_reply t w f).2 = w \/ (etcd_reply t w f).2 = (f w).2.
Proof. unfold etcd_reply. destruct (t_etcd t) as [[? []]|]; auto. destruct (f w); auto. Qed.
Lemma db_reply_world {A} t (w : world E) (q : query A) :
  (db_reply t w q).2 = w \/
  exists a d, q (w_now w) (w_db w) = Ok (a, d) /\
    (db_reply t w q).2 = World (w_etcd w) d (w_now w) (w_done w) (AQuery (w_db w) d :: w_log w).
Proof.
  unfold db_reply. destruct (q (w_now w) (w_db w)) as [[a d]|e] eqn:Hq; [|by left; destruct (t_db t)].
  destruct (t_db t) as [[? []]|]; eauto.
Qed.

(** The worlds an own call can lead to. *)
Inductive effect (w : world E) : world E -> Prop :=
| EffNone : effect w w
| EffTxn g o : check (w_etcd w) g = true -> effect w (with_etcd w (do_op (w_etcd w) o) (ATxn (w_etcd w) g o))
| EffConflict g o : check (w_etcd w) g = false -> effect w (with_etcd w (w_etcd w) (AConflict (w_etcd w) g o))
| EffPut k v ttl : effect w (with_etcd w (et_put (w_etcd w) k v) (APut (w_etcd w) k v ttl))
| EffDelete k : effect w (with_etcd w (et_del (w_etcd w) k) (ADelete (w_etcd w) k))
| EffQuery A (q : query A) a d : q (w_now w) (w_db w) = Ok (a, d) ->
    effect w (World (w_etcd w) d (w_now w) (w_done w) (AQuery (w_db w) d :: w_log w))
| EffSleep d : effect w (World (w_etcd w) (w_db w) (w_now w + Z.max 0 d) (w_done w) (ASleep d :: w_log w))
| EffCommit m : effect w (World (w_etcd w) (w_db w) (w_now w) (w_done w) (ACommit (w_db w) (w_etcd w) m :: w_log w)).

Lemma perform_effect {X} (e : eff X) t (w : world E) : effect w (perform e t w).2.
Proof.
  destruct e as [k|k r|p|g o|k v ttl|k|A q| |d b| |m]; cbn [perform];
    try match goal with |- effect _ (etcd_reply ?t ?w ?f).2 =>
      destruct (etcd_reply_world t w f) as [-> | ->]; [constructor|] end; try by constructor.
  - destruct (t_etcd t) as [[]|]; constructor.
  - destruct (check (w_etcd w) g) eqn:?; by constructor.
  - destruct (db_reply_world t w q) as [-> | (a & d' & Hq & ->)]; [constructor|by econstructor].
  - destruct (t_kafka t); constructor.
Qed.

Lemma stable_effect (I : world E -> Prop) :
  (forall t w, I w -> I (interfere t w)) -> (forall w w', I w -> effect w w' -> I w') -> stable I.
Proof. intros Hi He. split; [done|]. intros X e t w Hw. eapply He, perform_effect. done. Qed.

Lemma world_wf_stable : stable world_wf.
Proof.
  apply stable_effect.
  - intros t w Hw. unfold world_wf. rewrite interfere_etcd. by apply wf_envs.
  - intros w w' Hw []; simpl; auto using wf_do_op, wf_put, wf_del; by apply wf_do_op || apply wf_put || apply wf_del.
Qed.
Lemma run_wf {A} (p : prog A) w ts : world_wf w -> world_wf (final p w ts).
Proof. apply run_stable, world_wf_stable. Qed.

(** The log only grows. *)
Lemma log_stable (l : list (act E)) : stable (fun w => exists l', w_log w = (l' ++ l)%list).
Proof.
  apply stable_effect; [done|]. intros w w' [l' Hl] Heff.
  assert (w_log w' = w_log w \/ exists a, w_log w' = a :: w_log w) as [-> | [a ->]]
    by (destruct Heff; simpl; eauto).
  - eauto.
  - exists (a :: l'). by rewrite Hl.
Qed.
End laws.

(** ** What a stretch of execution did to the outside *)

Section drift.
Context `{EtcdLaws E}.

(** The etcd writes this process made, newest first. *)
Definition own_write (a : act E) : option (E * etcdop) :=
  match a with
  | ATxn s _ o => Some (s, o)
  | APut s k v _ => Some (s, OpPut k v)
  | ADelete s k => Some (s, OpDelete k)
  | _ => None
  end.
Definition own_writes (w : world E) : list (E * etcdop) := omap own_write (w_log w).

(** The statements it ran, newest first, with the tables before and after. *)
Definition own_query (a : act E) : option (db * db) := match a with AQuery d d' => Some (d, d') | _ => None end.
Definition own_queries (w : world E) : list (db * db) := omap own_query (w_log w).

(** The world moved on without the process writing to etcd or PostgreSQL. *)
Definition drift (w w' : world E) : Prop :=
  (exists l, w_etcd w' = apply_envs (w_etcd w) l) /\ (db_env (w_db w) (w_db w') /\ own_queries w' = own_queries w) /\
  w_now w <= w_now w' /\ own_writes w' = own_writes w.

#[export] Instance drift_refl : Reflexive drift.
Proof. intros w. split_and!; try done. by exists []. Qed.
#[export] Instance drift_trans : Transitive drift.
Proof.
  intros w1 w2 w3 ((l1 & E1) & [D1 Q1] & N1 & O1) ((l2 & E2) & [D2 Q2] & N2 & O2).
  split_and!; [|by etransitivity|congruence|lia|congruence]. exists (l1 ++ l2)%list. unfold apply_envs in *. rewrite fold_left_app. congruence.
Qed.

Lemma drift_wf w w' : drift w w' -> world_wf w -> world_wf w'.
Proof. intros ((l & El) & _) Hw. unfold world_wf. rewrite El. by apply wf_envs. Qed.

Lemma interfere_drift t w : drift w (interfere t w).
Proof. split_and!; simpl; try done; [by exists (t_env t)|apply db_env_fold|lia]. Qed.

(** Requests that only read. *)
Inductive reads : forall X, eff X -> Prop :=
| ReadGet k : reads _ (EGet k)
| ReadGetRev k r : reads _ (EGetRev k r)
| ReadRange p : reads _ (ERange p)
| ReadNow : reads _ ENow
| ReadSleep d b : reads _ (ESleep d b)
| ReadCtx : reads _ ECtx.

Lemma log_drift w d a :
  own_write a = None -> own_query a = None -> 0 <= d ->
  drift w (World (w_etcd w) (w_db w) (w_now w + d) (w_done w) (a :: w_log w)).
Proof.
  intros Ha Hq Hd. split_and!; simpl; try done; [by exists []| |lia|].
  - unfold own_queries. simpl. by rewrite Hq.
  - unfold own_writes. simpl. by rewrite Ha.
Qed.

Lemma read_drift {X} (e : eff X) w ts : reads X e -> drift w (step_eff e w ts).2.
Proof.
  intros He. unfold step_eff. etransitivity; [apply (interfere_drift (hd quiet ts))|].
  generalize (interfere (hd quiet ts) w). intros w1. generalize (hd quiet ts). intros t.
  destruct He; cbn [perform];
    try (destruct (etcd_reply_world t w1 (fun w => (et_get (w_etcd w) k, w))) as [-> | ->]; reflexivity);
    try (destruct (etcd_reply_world t w1 (fun w => (et_range (w_etcd w) p, et_rev (w_etcd w), w))) as [-> | ->]; reflexivity);
    try reflexivity.
  - destruct (t_etcd t) as [[]|]; reflexivity.
  - apply log_drift; [done..|lia].
Qed.

(** A read's reply is the store it finds when it is served. *)
Lemma get_inv k w ts r w' :
  step_eff (EGet k) w ts = (r, w') ->
  drift w w' /\ (r = Ok (et_get (w_etcd w') k) \/ exists e, r = Err e).
Proof.
  intros Hs. split; [change w' with (r, w').2; rewrite <-Hs; by apply read_drift, ReadGet|].
  revert Hs. unfold step_eff. cbn [perform]. unfold etcd_reply.
  destruct (t_etcd (hd quiet ts)) as [[e []]|]; intros [= <- <-]; eauto.
Qed.

(** A read answers from the state it found. *)
Lemma get_met k w ts o w' ts' :
  run (call (EGet k)) w ts = (Ok o, w', ts') -> exists s, s ∈ met (call (EGet k)) w ts /\ o = et_get s k.
Proof.
  rewrite run_call. unfold step_eff. cbn [perform]. unfold etcd_reply.
  destruct (t_etcd (hd quiet ts)) as [[e b]|]; intros [= <- _ _]. eexists. split; [by left|done].
Qed.
Lemma getrev_met k r w ts o w' ts' :
  run (call (EGetRev k r)) w ts = (Ok o, w', ts') -> exists s, s ∈ met (call (EGetRev k r)) w ts /\ et_at s k r = Ok o.
Proof.
  rewrite run_call. unfold step_eff. cbn [perform].
  destruct (t_etcd (hd quiet ts)) as [[e b]|]; intros [= Ho _ _]. eexists. split; [by left|done].
Qed.

Lemma now_inv w ts n w' : step_eff ENow w ts = (n, w') -> drift w w' /\ n = w_now w'.
Proof.
  intros Hs. split; [change w' with (n, w').2; rewrite <-Hs; by apply read_drift, ReadNow|].
  revert Hs. unfold step_eff. cbn [perform]. by intros [= <- <-].
Qed.

(** A guarded transaction commits on a store that passes the guard, or leaves
    no trace; an error hides which of the two happened. *)
Lemma txn_inv g o w ts r w' :
  step_eff (ETxn g o) w ts = (r, w') ->
  (exists w1, drift w w1 /\ check (w_etcd w1) g = true /\ (r = Ok true \/ exists e, r = Err e) /\
     w' = with_etcd w1 (do_op (w_etcd w1) o) (ATxn (w_etcd w1) g o)) \/
  (drift w w' /\ ((r = Ok false /\ check (w_etcd w') g = false) \/ exists e, r = Err e)).
Proof.
  unfold step_eff. cbn [perform]. unfold etcd_reply. pose proof (interfere_drift (hd quiet ts) w) as Hd.
  set (w1 := interfere (hd quiet ts) w) in *.
  assert (Hc : drift w1 (with_etcd w1 (w_etcd w1) (AConflict (w_etcd w1) g o))).
  { split_and!; simpl; try done. by exists []. }
  destruct (check (w_etcd w1) g) eqn:Hg, (t_etcd (hd quiet ts)) as [[e []]|]; intros [= <- <-]; simpl.
  - left. exists w1. eauto 7.
  - right. eauto.
  - left. exists w1. eauto 7.
  - right. split; [by transitivity w1|eauto].
  - right. eauto.
  - right. split; [by transitivity w1|eauto].
Qed.
End drift.
#[export] Hint Resolve drift_refl drift_wf : etcd.
#[export] Hint Constructors reads : etcd.

(** ** Programs restricted to some requests *)

Section uses.
Context `{EtcdLaws E}.

(** Which requests a program may make. *)
Definition allowed : Type := forall X, eff X -> bool.
Fixpoint uses (ok : allowed) {A} (p : prog A) : Prop :=
  match p with
  | Ret _ => True
  | Vis e k => ok _ e = true /\ forall x, uses ok (k x)
  end.

Lemma uses_bind ok {A B} (p : prog A) (f : A -> prog B) :
  uses ok p -> (forall a, uses ok (f a)) -> uses ok (bind p f).
Proof. intros Hp Hf. induction p as [a|X e k IH]; simpl; [apply Hf|]. destruct Hp. auto. Qed.
Lemma uses_call ok {X} (e : eff X) : ok X e = true -> uses ok (call e).
Proof. done. Qed.

(** What allowed requests and interference keep, the program keeps. *)
Lemma uses_keeps ok (I : world E -> Prop) {A} (p : prog A) w ts :
  uses ok p -> (forall t w, I w -> I (interfere t w)) ->
  (forall X (e : eff X) t w, ok X e = true -> I w -> I (perform e t w).2) ->
  I w -> I (final p w ts).
Proof.
  intros Hu Hi Hp. unfold final. revert w ts. induction p as [a|X e k IH]; intros w ts Hw; cbn [run]; [done|].
  destruct Hu as [He Hk]. unfold step_eff.
  pose proof (Hp X e (hd quiet ts) _ He (Hi (hd quiet ts) _ Hw)) as Hx.
  destruct (perform e (hd quiet ts) (interfere (hd quiet ts) w)) as [x w']. by apply IH.
Qed.

(** Requests that touch neither tables nor the broker. *)
Definition no_sql : allowed := fun X e => match e with EDb _ | ECommit _ => false | _ => true end.
Definition no_broker : allowed := fun X e => match e with ECommit _ => false | _ => true end.

Definition commit_of (a : act E) : option (db * list message) :=
  match a with ACommit d _ m => Some (d, m) | _ => None end.
(** The offsets committed, newest first, with the tables at that moment. *)
Definition commits (w : world E) : list (db * list message) := omap commit_of (w_log w).

Lemma no_broker_commits {A} (p : prog A) w ts : uses no_broker p -> commits (final p w ts) = commits w.
Proof.
  intros Hu. apply (uses_keeps no_broker (fun w' => commits w' = commits w)); [done|done| |done].
  intros X e t w' He Hw'. rewrite <-Hw'. destruct e as [k|k r|q|g o|k v ttl|k|B q| |d b| |m]; try done; cbn [perform];
    try match goal with |- context [etcd_reply ?t ?w ?f] => destruct (etcd_reply_world t w f) as [-> | ->]; [done|] end; try done.
  - by destruct (t_etcd t) as [[]|].
  - simpl. by destruct (check _ _).
  - destruct (db_reply_world t w' q) as [-> | (a & d & _ & ->)]; done.
Qed.

Lemma perform_no_sql {X} (e : eff X) t (w : world E) : no_sql X e = true -> w_db (perform e t w).2 = w_db w.
Proof.
  intros He. destruct e as [k|k r|q|g o|k v ttl|k|B q| |d b| |m]; try done; cbn [perform];
    try match goal with |- context [etcd_reply ?t ?w ?f] => destruct (etcd_reply_world t w f) as [-> | ->]; [done|] end; try done.
  - by destruct (t_etcd t) as [[]|].
  - simpl. by destruct (check _ _).
Qed.
(** ** Reading a run backwards *)

Lemma run_bind_inv {A B} (p : prog A) (f : A -> prog B) (w : world E) ts b w' ts' :
  run (bind p f) w ts = (b, w', ts') ->
  exists a w1 ts1, run p w ts = (a, w1, ts1) /\ run (f a) w1 ts1 = (b, w', ts').
Proof. rewrite run_bind. destruct (run p w ts) as [[a w1] ts1]. eauto. Qed.

(** What the statements of other replicas keep, when they are [ok]: without
    statements of its own, a program moves the tables along it; with one, it
    starts from there. *)
Section relation.
Context (R : db -> db -> Prop) {HR : PreOrder R} (ok : turn -> bool).
Hypothesis R_turn : forall t now d, ok t = true -> R d (fold_left (apply_sql now) (t_sql t) d).
Lemma rel_interfere ts (w : world E) : forallb ok ts = true -> R (w_db w) (w_db (interfere (hd quiet ts) w)).
Proof using HR R_turn. destruct ts as [|t ts]; simpl; [reflexivity|]. intros [Ht _]%andb_true_iff. by apply R_turn. Qed.
Lemma ok_tl ts : forallb ok ts = true -> forallb ok (tl ts) = true.
Proof using Type. destruct ts as [|t ts]; [done|]. simpl. by intros [_ ?]%andb_true_iff. Qed.
Lemma run_ok {A} (p : prog A) (w : world E) ts a w' ts' : forallb ok ts = true -> run p w ts = (a, w', ts') -> forallb ok ts' = true.
Proof using Type.
  revert w ts. induction p as [b|X e k IH]; intros w ts Ht; cbn [run]; [intros; by simplify_eq|].
  destruct (step_eff e w ts) as [x w1]. apply IH. by apply ok_tl.
Qed.
Lemma rel_no_sql {A} (p : prog A) (w : world E) ts a w' ts' :
  forallb ok ts = true -> uses no_sql p -> run p w ts = (a, w', ts') -> R (w_db w) (w_db w').
Proof using HR R_turn.
  revert w ts. induction p as [b|X e k IH]; intros w ts Ht; cbn [run uses]; [intros _ [= _ <- _]; reflexivity|]. intros [He Hk].
  destruct (step_eff e w ts) as [x w1] eqn:Es. intros Hr. etransitivity; [|eapply (IH x w1 (tl ts)); [by apply ok_tl|done|done]].
  change w1 with (x, w1).2. rewrite <-Es. unfold step_eff. rewrite perform_no_sql by done. by apply rel_interfere.
Qed.
(** A statement was run on tables reached along [R], or was not run. *)
Lemma rel_db {A} (q : query A) (w : world E) ts r w' ts' :
  forallb ok ts = true -> run (call (EDb q)) w ts = (r, w', ts') -> exists d, R (w_db w) d /\
    ((exists a now, q now d = Ok (a, w_db w') /\ own_queries w' = (d, w_db w') :: own_queries w /\ (r = Ok a \/ exists e, r = Err e)) \/
     (w_db w' = d /\ own_queries w' = own_queries w /\ exists e, r = Err e)).
Proof using HR R_turn.
  intros Ht. rewrite run_call. intros [= Hs _]. revert Hs. unfold step_eff. cbn [perform]. unfold db_reply.
  pose proof (rel_interfere _ w Ht) as Hr. set (t := hd quiet ts) in *. exists (w_db (interfere t w)). split; [done|]. revert Hs.
  destruct (q (w_now (interfere t w)) (w_db (interfere t w))) as [[a d]|e] eqn:Hq.
  - destruct (t_db t) as [[e []]|]; intros [= <- <-]; [left|right|left]; simpl; eauto 8.
  - intros [= <- <-]. right. eauto.
Qed.
End relation.

Lemma all_turns (ts : list turn) : forallb (fun _ => true) ts = true.
Proof. by induction ts. Qed.
Lemma run_no_sql {A} (p : prog A) (w : world E) ts a w' ts' :
  uses no_sql p -> run p w ts = (a, w', ts') -> db_env (w_db w) (w_db w').
Proof. apply (rel_no_sql db_env (fun _ => true)); [intros; apply db_env_fold|apply all_turns]. Qed.
(** A program without statements of its own makes none. *)
Lemma run_no_sql_queries {A} (p : prog A) (w : world E) ts a w' ts' :
  uses no_sql p -> run p w ts = (a, w', ts') -> own_queries w' = own_queries w.
Proof.
  intros Hu Hr. change w' with (a, w', ts').1.2. rewrite <-Hr. change (run p w ts).1.2 with (final p w ts).
  apply (uses_keeps no_sql (fun w' => own_queries w' = own_queries w)); [done|done| |done].
  intros X e t w1 He Hw1. rewrite <-Hw1. destruct e as [k|k r|q|g o|k v ttl|k|B q| |d b| |m]; try done; cbn [perform];
    try match goal with |- context [etcd_reply ?t ?w ?f] => destruct (etcd_reply_world t w f) as [-> | ->]; [done|] end; try done.
  - by destruct (t_etcd t) as [[]|].
  - simpl. by destruct (check _ _).
Qed.
(** Nobody else writes to the tables. *)
Definition alone (t : turn) : bool := match t_sql t with [] => true | _ => false end.
Lemma alone_same t now d : alone t = true -> d = fold_left (apply_sql now) (t_sql t) d.
Proof. unfold alone. by destruct (t_sql t). Qed.
Lemma run_no_sql_alone {A} (p : prog A) (w : world E) ts a w' ts' :
  forallb alone ts = true -> uses no_sql p -> run p w ts = (a, w', ts') -> w_db w' = w_db w.
Proof. intros Ht Hu Hr. symmetry. revert Ht Hu Hr. apply (rel_no_sql eq alone). intros. by apply alone_same. Qed.
Lemma run_no_broker {A} (p : prog A) (w : world E) ts a w' ts' :
  uses no_broker p -> run p w ts = (a, w', ts') -> commits w' = commits w.
Proof. intros Hu Hr. pose proof (no_broker_commits p w ts Hu) as Hd. unfold final in Hd. by rewrite Hr in Hd. Qed.

(** A statement's answer comes with the tables it leaves. *)
Lemma run_db_inv {A} (q : query A) (w : world E) ts r w' ts' :
  run (call (EDb q)) w ts = (r, w', ts') ->
  (exists a now d, db_env (w_db w) d /\ r = Ok a /\ q now d = Ok (a, w_db w')) \/ exists e, r = Err e.
Proof.
  rewrite run_call. intros [= Hs _]. revert Hs. unfold step_eff. cbn [perform]. unfold db_reply.
  set (t := hd quiet ts). assert (Henv : db_env (w_db w) (w_db (interfere t w))) by apply db_env_fold.
  destruct (q (w_now (interfere t w)) (w_db (interfere t w))) as [[a d]|e] eqn:Hq.
  - destruct (t_db t) as [[e applied]|]; intros [= <- <-]; [right; eauto|left]. by eexists _, _, _.
  - intros [= <- <-]. right. eauto.
Qed.

(** The process context, once ended, is seen ended. *)
Lemma run_ctx_inv (w : world E) ts b w' ts' :
  run (call ECtx) w ts = (b, w', ts') ->
  b = w_done w' /\ (w_done w = true -> b = true) /\ db_env (w_db w) (w_db w') /\ commits w' = commits w.
Proof.
  rewrite run_call. unfold step_eff. cbn [perform]. intros [= <- <- _].
  split_and!; try done; [simpl; by intros ->|apply db_env_fold].
Qed.

Lemma run_commit_inv m (w : world E) ts r w' ts' :
  run (call (ECommit m)) w ts = (r, w', ts') ->
  db_env (w_db w) (w_db w') /\ (commits w' = commits w \/ commits w' = (w_db w', m) :: commits w).
Proof.
  rewrite run_call. intros [= Hs _]. revert Hs. unfold step_eff. cbn [perform].
  destruct (t_kafka _); intros [= <- <-]; (split; [apply db_env_fold|]); [by left|by right].
Qed.
End uses.
#[export] Hint Resolve uses_bind uses_call : etcd.

(** Walk through a program, leaving the calls of named subprograms. *)
Ltac solve_uses :=
  repeat first
    [ done
    | assumption
    | apply uses_call; done
    | apply uses_bind; [|intros ?]
    | progress (cbn [uses])
    | match goal with |- uses _ (match ?x with _ => _ end) => destruct x end
    | match goal with |- uses _ (if ?x then _ else _) => destruct x end ].

(** A first world for the examples: an empty store and empty tables in 2025. *)
Definition world0 : world mem := World mem_empty db_empty (1740000000 * 1000000000) false [].
Lemma world0_wf : world_wf world0.
Proof. apply mem_empty_wf. Qed.
#[export] Hint Resolve world0_wf : etcd.
(** Other clients write just before one call. *)
Definition busy (l : list envop) : turn := Turn l 0 None None None false false [].
