(* ===== verification/Grows.v ===== *)
(** * What no statement undoes

    The consumers of all replicas write to one database.  Their statements only
    add: rows of the event, history and dead-letter tables stay, and the state of
    a subscriber only becomes newer.  So what one replica has stored stays
    stored, whatever the others do. *)

From S2P Require Import Prelude GoStrings Etcd Db DbProps Effects.
Local Open Scope string_scope.
Local Open Scope Z_scope.

(** ** What a statement leaves *)

Record db_grows (d d' : db) : Prop := {
  grows_status k st : pppoe_status d !! k = Some st ->
    exists st', pppoe_status d' !! k = Some st' /\ st_event st <= st_event st';
  grows_events row : event_recorded row d -> event_recorded row d';
  grows_history row status :
    existsb (same_history row status) (hsi_config_history d) = true ->
    existsb (same_history row status) (hsi_config_history d') = true;
  grows_dlq t p o : in_dlq t p o d -> in_dlq t p o d';
  grows_current k r : hsi_config_current d !! k = Some r ->
    exists r', hsi_config_current d' !! k = Some r' /\ ModRevision r <= ModRevision r' }.

Lemma db_grows_same d d' :
  pppoe_status d' = pppoe_status d -> node_events d' = node_events d -> hsi_config_history d' = hsi_config_history d ->
  kafka_dlq d' = kafka_dlq d -> hsi_config_current d' = hsi_config_current d -> db_grows d d'.
Proof.
  intros H1 H2 H3 H4 H5. split; unfold event_recorded, in_dlq; rewrite ?H1, ?H2, ?H3, ?H4, ?H5; try done.
  - intros k st Hk. exists st. split; [done|lia].
  - intros k r Hk. exists r. split; [done|lia].
Qed.
#[export] Instance db_grows_preorder : PreOrder db_grows.
Proof.
  split; [intros d; by apply db_grows_same|]. intros d1 d2 d3 [A1 A2 A3 A4 A5] [B1 B2 B3 B4 B5]. split; auto.
  - intros k st Hk. destruct (A1 _ _ Hk) as (st2 & Hk2 & L2). destruct (B1 _ _ Hk2) as (st3 & Hk3 & L3).
    exists st3. split; [done|lia].
  - intros k r Hk. destruct (A5 _ _ Hk) as (r2 & Hk2 & L2). destruct (B5 _ _ Hk2) as (r3 & Hk3 & L3).
    exists r3. split; [done|lia].
Qed.
Lemma db_grows_rows d d' :
  pppoe_status d' = pppoe_status d -> hsi_config_current d' = hsi_config_current d ->
  (forall row, event_recorded row d -> event_recorded row d') ->
  (forall row status, existsb (same_history row status) (hsi_config_history d) = true ->
     existsb (same_history row status) (hsi_config_history d') = true) ->
  (forall t p o, in_dlq t p o d -> in_dlq t p o d') -> db_grows d d'.
Proof.
  intros H1 H2 He Hh Hd. split; rewrite ?H1, ?H2; try done.
  - intros k st Hk. exists st. split; [done|lia].
  - intros k r Hk. exists r. split; [done|lia].
Qed.

(** A statement only adds. *)
Definition grows {A} (q : query A) : Prop := forall now d a d', q now d = Ok (a, d') -> db_grows d d'.

Section statements.
Context {J : Jsonb}.

Lemma grows_status_table now rows : grows (fun _ d => Ok (tt, set_pppoe (fold_left (upsert_status now) rows (pppoe_status d)) d)).
Proof.
  intros now' d a d' [= _ <-]. split; try done; [intros k st Hk; by apply upsert_statuses_mono|].
  intros k r Hk. exists r. split; [done|lia].
Qed.
Lemma UpsertPPPoEStatus_grows row : grows (UpsertPPPoEStatus row).
Proof. intros now d a d' Hq. by eapply (grows_status_table now [row]). Qed.
Lemma UpsertPPPoEStatusBatch_grows rows : grows (UpsertPPPoEStatusBatch rows).
Proof.
  intros now d a d'. unfold UpsertPPPoEStatusBatch. destruct (decide _); [|done]. intros Hq. by eapply (grows_status_table now rows now).
Qed.
Lemma InsertNodeEvent_grows row : grows (InsertNodeEvent row).
Proof.
  intros now d a d'. unfold InsertNodeEvent. destruct (existsb _ _); intros [= _ <-]; [by apply db_grows_same|].
  apply db_grows_rows; try done.
  unfold event_recorded. simpl. intros r Hr. by rewrite existsb_app, Hr.
Qed.
Lemma appendHistory_grows row status : grows (appendHistoryWithStatus row status).
Proof.
  intros now d a d'. unfold appendHistoryWithStatus. destruct (jsonb_param _); [|done].
  destruct (existsb _ _); intros [= _ <-]; [by apply db_grows_same|].
  apply db_grows_rows; try done.
  simpl. intros r s Hr. by rewrite existsb_app, Hr.
Qed.
Lemma upsertCurrent_grows row : grows (upsertCurrent row).
Proof.
  intros now d [] d' Hq.
  assert (Ho : pppoe_status d' = pppoe_status d /\ node_events d' = node_events d /\
    hsi_config_history d' = hsi_config_history d /\ kafka_dlq d' = kafka_dlq d).
  { revert Hq. unfold upsertCurrent. destruct (jsonb_param _) as [[c|]|]; [|done|done].
    destruct (_ !! _) as [old|]; [destruct (_ <? _)|]; by intros [= <-]. }
  destruct Ho as (H1 & H2 & H3 & H4). split; unfold event_recorded, in_dlq; rewrite ?H1, ?H2, ?H3, ?H4; try done.
  - intros k st Hk. exists st. split; [done|lia].
  - intros k r. by eapply upsertCurrent_mono.
Qed.
Lemma UpsertCurrentWithHistory_grows row status : grows (UpsertCurrentWithHistory row status).
Proof.
  intros now d a d'. unfold UpsertCurrentWithHistory. destruct (upsertCurrent row now d) as [[u d1]|] eqn:E; [|done].
  intros Ha. etrans; [by eapply upsertCurrent_grows|by eapply appendHistory_grows].
Qed.
Lemma RollbackToLastSuccessful_grows node user reason : grows (RollbackToLastSuccessful node user reason).
Proof. intros now d a d' Hq. exact (appendHistory_grows _ _ _ _ _ _ Hq). Qed.
Lemma GetLastSuccessfulConfig_grows node user : grows (GetLastSuccessfulConfig node user).
Proof. intros now d a d' [= _ <-]. done. Qed.
Lemma SendToDLQ_grows topic p o v e : grows (SendToDLQ topic p o v e).
Proof.
  intros now d a d'. unfold SendToDLQ. destruct (List.find _ _) as [r|]; intros [= _ <-].
  - apply db_grows_rows; try done.
    unfold in_dlq. simpl. intros t p' o' (x & Hin & Hx)%existsb_exists. apply existsb_exists.
    exists (if same_message topic p o x then bump_dlq now e x else x). split; [|by destruct (same_message topic p o x)].
    apply list_elem_of_In, list_elem_of_fmap. exists x. split; [done|]. by apply list_elem_of_In.
  - apply db_grows_rows; try done.
    unfold in_dlq. simpl. intros t p' o' Hr. by rewrite existsb_app, Hr.
Qed.
Lemma SetWatchProgress_grows watcher rev : grows (SetWatchProgress watcher rev).
Proof. intros now d a d' [= _ <-]. by apply db_grows_same. Qed.
End statements.
#[export] Hint Resolve UpsertPPPoEStatus_grows UpsertPPPoEStatusBatch_grows InsertNodeEvent_grows
  UpsertCurrentWithHistory_grows RollbackToLastSuccessful_grows GetLastSuccessfulConfig_grows SendToDLQ_grows appendHistory_grows SetWatchProgress_grows : grows.

(** The statements of other replicas. *)
Lemma after_grows {A} (q : query A) now d : grows q -> db_grows d (after q now d).
Proof. intros Hq. unfold after. destruct (q now d) as [[a d']|] eqn:E; [by eapply Hq|done]. Qed.
Lemma apply_sql_grows now d o : db_grows d (apply_sql now d o).
Proof. destruct o; apply after_grows; auto with grows nocore. Qed.
Lemma env_grows d d' : db_env d d' -> db_grows d d'.
Proof. induction 1 as [|x y z (now & o & ->) _ IH]; [done|]. etrans; [apply apply_sql_grows|done]. Qed.

(** The checkpoint moves only by the statement for it. *)
Definition progress_of (o : sqlop) : option string := match o with SqlProgress watcher _ => Some watcher | _ => None end.
Lemma apply_sql_progress now d o name :
  progress_of o <> Some name -> etcd_watch_progress (apply_sql now d o) !! name = etcd_watch_progress d !! name.
Proof.
  destruct o; intros Hn; [| | | | |cbn; rewrite lookup_insert_ne by (intros ->; done); done];
    cbn [apply_sql after UpsertPPPoEStatus]; try done; unfold after, InsertNodeEvent, UpsertCurrentWithHistory, upsertCurrent,
    appendHistoryWithStatus, SendToDLQ, jsonb_param, stored_json; repeat (case_match; simplify_eq; try done).
Qed.

(** ** Programs whose statements only add *)

Section sql.
Context `{EtcdLaws E}.

Fixpoint sql_grows {A} (p : prog A) : Prop :=
  match p with
  | Ret _ => True
  | Vis e k => (match e with EDb q => grows q | _ => True end) /\ forall x, sql_grows (k x)
  end.
Lemma sql_bind {A B} (p : prog A) (f : A -> prog B) : sql_grows p -> (forall a, sql_grows (f a)) -> sql_grows (bind p f).
Proof using. intros Hp Hf. induction p as [a|X e k IH]; simpl; [apply Hf|]. destruct Hp. auto. Qed.
Lemma sql_call {X} (e : eff X) : (match e with EDb q => grows q | _ => True end) -> sql_grows (call e).
Proof using. done. Qed.
Lemma sql_none {A} (p : prog A) : uses no_sql p -> sql_grows p.
Proof using. induction p as [a|X e k IH]; simpl; [done|]. intros [He Hk]. split; [by destruct e|]. auto. Qed.

Lemma step_grows {X} (e : eff X) (w : world E) ts :
  (match e with EDb q => grows q | _ => True end) -> db_grows (w_db w) (w_db (step_eff e w ts).2).
Proof using.
  unfold step_eff. set (t := hd quiet ts). intros He. transitivity (w_db (interfere t w)); [apply env_grows, db_env_fold|].
  generalize (interfere t w). clear w. intros w.
  destruct e as [k|k r|q|g o|k v ttl|k|B q| |d b| |m]; try by rewrite perform_no_sql.
  - cbn [perform]. destruct (db_reply_world t w q) as [-> | (a & d & Hq & ->)]; [done|]. by eapply He.
  - cbn [perform]. by destruct (t_kafka t).
Qed.
Lemma run_grows {A} (p : prog A) (w : world E) ts a w' ts' :
  sql_grows p -> run p w ts = (a, w', ts') -> db_grows (w_db w) (w_db w').
Proof using.
  revert w ts. induction p as [a0|X e k IH]; intros w ts Hp Hrun; cbn [run] in Hrun.
  { by simplify_eq. }
  destruct Hp as [He Hk]. pose proof (step_grows e w ts He) as Hs. destruct (step_eff e w ts) as [x w1]. simpl in Hs.
  etrans; [exact Hs|]. by eapply IH.
Qed.
End sql.
