(* ===== verification/Cas.v ===== *)
(** * Compare-and-swap ([internal/storage/etcd.go])

    [EtcdClient.CAS] and [CASWithRevision]: read a key, run the caller's
    [mutate], commit under a guard on the revision read, retry on conflict.  The
    abstract contract [cas_spec] says that such a call is one atomic
    read-modify-write; every handler that mutates etcd is proved against it. *)

From S2P Require Import Prelude GoStrings Etcd Db Effects.
Local Open Scope string_scope.
Local Open Scope Z_scope.
Local Open Scope go_scope.

Definition casMaxRetries : nat := 5.
Definition casInitialBackoff : Z := 50 * 1000000.

Record CASResult := MkCAS { cas_value : string; cas_delete : bool }.
#[export] Instance CASResult_eq_dec : EqDecision CASResult.
Proof. solve_decision. Defined.
Definition cas_put (v : string) : CASResult := MkCAS v false.
Definition cas_remove : CASResult := MkCAS "" true.

(** What a CAS call returns instead of [nil]: the error of [mutate],
    [ErrCASConflict], a failed request, or [ctx.Err()]. *)
Inductive caserr (X : Type) := CasMutate (x : X) | CasConflict (key : string) | CasEtcd (e : eerr) | CasCtx.
Arguments CasMutate {X} x.
Arguments CasConflict {X} key.
Arguments CasEtcd {X} e.
Arguments CasCtx {X}.

(** The bytes of a value as the client sees them: an empty value travels as an
    absent field and reads as [nil]. *)
Definition kv_bytes (v : string) : option string := if String.eqb v "" then None else Some v.

Section cas.
Context {X Y : Type}.

(** [mutate] sees the value, its ModRevision and the clock; besides the result
    it returns what its closure captures for the caller. *)
Definition mutator : Type := option string -> Z -> Z -> result X (CASResult * Y).

Definition cas_current (o : option kv) : option string :=
  match o with Some e => kv_bytes (kv_value e) | None => None end.
Definition cas_revision (o : option kv) : Z := match o with Some e => kv_mod e | None => 0 end.
Definition cas_guard (key : string) (modRevision : Z) : guard :=
  if modRevision =? 0 then Version0 key else ModRevEq key modRevision.
Definition cas_op (key : string) (res : CASResult) : etcdop :=
  if cas_delete res then OpDelete key else OpPut key (cas_value res).

Fixpoint cas_loop (attempts : nat) (backoff : Z) (key : string) (mutate : mutator)
  : prog (result (caserr X) Y) :=
  match attempts with
  | O => Ret (Err (CasConflict key))
  | S attempts =>
      do! resp := call (EGet key) in
      match resp with
      | Err e => Ret (Err (CasEtcd e))
      | Ok o =>
          do! now := call ENow in
          match mutate (cas_current o) (cas_revision o) now with
          | Err x => Ret (Err (CasMutate x))
          | Ok (res, y) =>
              do! txnResp := call (ETxn (cas_guard key (cas_revision o)) (cas_op key res)) in
              match txnResp with
              | Err e => Ret (Err (CasEtcd e))
              | Ok true => Ret (Ok y)
              | Ok false =>
                  do! ended := call (ESleep backoff true) in
                  if ended : bool then Ret (Err CasCtx)
                  else cas_loop attempts (backoff * 2) key mutate
              end
          end
      end
  end.
Definition CASWithRevision (key : string) (mutate : mutator) : prog (result (caserr X) Y) :=
  cas_loop casMaxRetries casInitialBackoff key mutate.

(** [CAS] ignores the revision. *)
Definition CAS (key : string) (mutate : option string -> Z -> result X (CASResult * Y))
  : prog (result (caserr X) Y) :=
  CASWithRevision key (fun current _ now => mutate current now).

Lemma cas_loop_uses (ok : allowed) n backoff key (mutate : mutator) :
  (forall k, ok _ (EGet k) = true) -> ok _ ENow = true -> (forall g o, ok _ (ETxn g o) = true) ->
  (forall d, ok _ (ESleep d true) = true) -> uses ok (cas_loop n backoff key mutate).
Proof.
  intros Hg Hn Ht Hs. revert backoff. induction n as [|n IH]; intros backoff; cbn [cas_loop]; [done|].
  solve_uses; auto using uses_call.
Qed.

(** ** The abstract contract *)

Section spec.
Context `{EtcdLaws E}.

Definition sees (key : string) (mutate : mutator) (s : E) (now : Z) : result X (CASResult * Y) :=
  mutate (cas_current (et_get s key)) (cas_revision (et_get s key)) now.

(** [w1] is the world at the instant the operation takes effect. *)
Inductive cas_spec (key : string) (mutate : mutator) (w : world E)
  : result (caserr X) Y -> world E -> Prop :=
| CasCommitted w1 now res y :
    drift w w1 -> w_now w <= now <= w_now w1 ->
    sees key mutate (w_etcd w1) now = Ok (res, y) ->
    cas_spec key mutate w (Ok y)
      (with_etcd w1 (do_op (w_etcd w1) (cas_op key res))
         (ATxn (w_etcd w1) (cas_guard key (cas_revision (et_get (w_etcd w1) key))) (cas_op key res)))
| CasRefused w1 now x w' :
    drift w w1 -> w_now w <= now <= w_now w' ->
    sees key mutate (w_etcd w1) now = Err x -> drift w1 w' ->
    cas_spec key mutate w (Err (CasMutate x)) w'
| CasGaveUp w' : drift w w' -> cas_spec key mutate w (Err (CasConflict key)) w'
| CasCancelled w' : drift w w' -> cas_spec key mutate w (Err CasCtx) w'
| CasFailed e w' : drift w w' -> cas_spec key mutate w (Err (CasEtcd e)) w'
(* the request's answer was lost after it committed *)
| CasUnknown e w1 now res y :
    drift w w1 -> w_now w <= now <= w_now w1 ->
    sees key mutate (w_etcd w1) now = Ok (res, y) ->
    cas_spec key mutate w (Err (CasEtcd e))
      (with_etcd w1 (do_op (w_etcd w1) (cas_op key res))
         (ATxn (w_etcd w1) (cas_guard key (cas_revision (et_get (w_etcd w1) key))) (cas_op key res))).

(** The guard passes only on the entry that was read. *)
Lemma guard_identifies (w w1 : world E) key :
  world_wf w -> drift w w1 ->
  check (w_etcd w1) (cas_guard key (cas_revision (et_get (w_etcd w) key))) = true ->
  et_get (w_etcd w1) key = et_get (w_etcd w) key.
Proof.
  intros Hw ((l & El) & _) Hc. unfold cas_guard, cas_revision in Hc.
  destruct (et_get (w_etcd w) key) as [e|] eqn:He.
  - pose proof (mod_bound _ _ _ Hw He). destruct (Z.eqb_spec (kv_mod e) 0); [lia|]. cbn [check] in Hc.
    destruct (et_get (w_etcd w1) key) as [e'|] eqn:He'.
    + apply Z.eqb_eq in Hc. rewrite El in He'. f_equal. eapply mod_identifies; eauto.
    + apply Z.eqb_eq in Hc. lia.
  - simpl in Hc. by destruct (et_get (w_etcd w1) key).
Qed.

Lemma cas_spec_drift key mutate w w0 r w' :
  drift w w0 -> cas_spec key mutate w0 r w' -> cas_spec key mutate w r w'.
Proof.
  intros Hd Hs. pose proof Hd as (_ & _ & Hn & _). destruct Hs.
  - apply (CasCommitted _ _ _ w1 now); [by etransitivity|lia|done].
  - apply (CasRefused _ _ _ w1 now); [by etransitivity|lia|done|done].
  - apply CasGaveUp. by etransitivity.
  - apply CasCancelled. by etransitivity.
  - apply CasFailed. by etransitivity.
  - apply (CasUnknown _ _ _ e w1 now res y); [by etransitivity|lia|done].
Qed.

(** One attempt. *)
Lemma cas_loop_refines n : forall backoff key mutate w ts r w' ts',
  world_wf w -> run (cas_loop n backoff key mutate) w ts = (r, w', ts') -> cas_spec key mutate w r w'.
Proof.
  induction n as [|n IH]; intros backoff key mutate w ts r w' ts' Hwf; cbn [cas_loop].
  { cbn [run]. intros [= <- <- _]. apply CasGaveUp. reflexivity. }
  rewrite run_call_bind. destruct (step_eff (EGet key) w ts) as [resp wg] eqn:Eg.
  apply get_inv in Eg as [Dg Hresp].
  destruct resp as [o|e]; [|cbn [run]; intros [= <- <- _]; by apply CasFailed].
  assert (o = et_get (w_etcd wg) key) as -> by (destruct Hresp as [[= ->]|[? ?]]; done).
  rewrite run_call_bind. destruct (step_eff ENow wg (tl ts)) as [now wn] eqn:En.
  apply now_inv in En as [Dn ->].
  pose proof Dg as (_ & _ & Ng & _). pose proof Dn as (_ & _ & Nn & _).
  destruct (mutate _ _ (w_now wn)) as [[res y]|x] eqn:Em; cycle 1.
  { cbn [run]. intros [= <- <- _]. apply (CasRefused _ _ _ wg (w_now wn)); [done|lia|done|done]. }
  rewrite run_call_bind.
  destruct (step_eff (ETxn _ _) wn _) as [txn wt] eqn:Et.
  apply txn_inv in Et as [(w1 & D1 & Hc & Htxn & ->)|[Dt Htxn]].
  - assert (Hent : et_get (w_etcd w1) key = et_get (w_etcd wg) key).
    { apply guard_identifies; [by eapply drift_wf|by etransitivity|done]. }
    assert (Hs : sees key mutate (w_etcd w1) (w_now wn) = Ok (res, y)).
    { unfold sees. by rewrite Hent. }
    assert (D : drift w w1) by (etransitivity; [exact Dg|]; by etransitivity).
    pose proof D1 as (_ & _ & N1 & _). rewrite <-Hent.
    destruct Htxn as [-> | [e ->]]; cbn [run]; intros [= <- <- _].
    + apply (CasCommitted _ _ _ w1 (w_now wn)); [done|lia|done].
    + apply (CasUnknown _ _ _ e w1 (w_now wn) res y); [done|lia|done].
  - assert (D : drift w wt) by (etransitivity; [exact Dg|]; by etransitivity).
    destruct Htxn as [[-> _]|[e ->]]; [|cbn [run]; intros [= <- <- _]; by apply CasFailed].
    rewrite run_call_bind. destruct (step_eff (ESleep backoff true) wt _) as [ended ws] eqn:Es.
    assert (Ds : drift wt ws).
    { change ws with (ended, ws).2. rewrite <-Es. apply read_drift. auto with etcd. }
    destruct ended.
    + cbn [run]. intros [= <- <- _]. apply CasCancelled. by etransitivity.
    + intros Hrun. eapply cas_spec_drift; [by etransitivity|].
      eapply IH; [|exact Hrun]. eapply drift_wf; [|exact Hwf]. by etransitivity.
Qed.
(** A refusal was decided on an entry the loop read. *)
Lemma cas_loop_refused n : forall backoff key mutate (w : world E) ts x w' ts',
  run (cas_loop n backoff key mutate) w ts = (Err (CasMutate x), w', ts') ->
  exists s now, s ∈ met (cas_loop n backoff key mutate) w ts /\ sees key mutate s now = Err x.
Proof.
  induction n as [|n IH]; intros backoff key mutate w ts x w' ts' Hrun; cbn [cas_loop] in *; [done|].
  apply run_bind_inv in Hrun as (o & w1 & ts1 & H1 & Hrun). destruct o as [o|]; [|done].
  destruct (get_met _ _ _ _ _ _ H1) as (s & Hs & ->). rewrite (met_bind _ _ _ _ _ _ _ H1).
  apply run_bind_inv in Hrun as (now & w2 & ts2 & H2 & Hrun). rewrite (met_bind _ _ _ _ _ _ _ H2).
  destruct (mutate _ _ now) as [[res y]|x'] eqn:Em.
  - apply run_bind_inv in Hrun as (txn & w3 & ts3 & H3 & Hrun). rewrite (met_bind _ _ _ _ _ _ _ H3). destruct txn as [[]|]; [done| |done].
    apply run_bind_inv in Hrun as (ended & w4 & ts4 & H4 & Hrun). rewrite (met_bind _ _ _ _ _ _ _ H4). destruct ended; [done|].
    destruct (IH _ _ _ _ _ _ _ _ Hrun) as (s' & now' & Hs' & He). exists s', now'. split; [|done]. rewrite !elem_of_app. auto.
  - cbn [run] in Hrun. simplify_eq. exists s, now. split; [|done]. rewrite elem_of_app. by left.
Qed.
Lemma call_step {A} (e : eff A) (w : world E) ts x w' ts' : run (call e) w ts = (x, w', ts') -> step_eff e w ts = (x, w').
Proof. rewrite run_call. congruence. Qed.
(** A success is the one write of what was decided on an entry the loop read. *)
Lemma cas_loop_made n : forall backoff key mutate (w : world E) ts y w' ts',
  run (cas_loop n backoff key mutate) w ts = (Ok y, w', ts') ->
  exists s now res s', s ∈ met (cas_loop n backoff key mutate) w ts /\ sees key mutate s now = Ok (res, y) /\
    own_writes w' = (s', cas_op key res) :: own_writes w.
Proof.
  induction n as [|n IH]; intros backoff key mutate w ts y w' ts' Hrun; cbn [cas_loop] in *; [done|].
  apply run_bind_inv in Hrun as (o & w1 & ts1 & H1 & Hrun). destruct o as [o|]; [|done].
  destruct (get_met _ _ _ _ _ _ H1) as (s & Hs & ->). rewrite (met_bind _ _ _ _ _ _ _ H1).
  apply call_step, get_inv, proj1 in H1 as (_ & _ & _ & D1).
  apply run_bind_inv in Hrun as (now & w2 & ts2 & H2 & Hrun). rewrite (met_bind _ _ _ _ _ _ _ H2).
  apply call_step, now_inv, proj1 in H2 as (_ & _ & _ & D2).
  destruct (mutate _ _ now) as [[res y0]|x'] eqn:Em; [|done].
  apply run_bind_inv in Hrun as (txn & w3 & ts3 & H3 & Hrun). rewrite (met_bind _ _ _ _ _ _ _ H3).
  apply call_step, txn_inv in H3 as [(w0 & (_ & _ & _ & D0) & _ & Htxn & ->)|[(_ & _ & _ & D3) Htxn]].
  - destruct Htxn as [-> | [e ->]]; [|done]. cbn [run] in Hrun. simplify_eq. exists s, now, res, (w_etcd w0).
    split_and!; [rewrite elem_of_app; by left|done|]. rewrite <-D1, <-D2, <-D0. done.
  - destruct Htxn as [[-> _]|[e ->]]; [|done]. apply run_bind_inv in Hrun as (ended & w4 & ts4 & H4 & Hrun).
    rewrite (met_bind _ _ _ _ _ _ _ H4). apply call_step in H4.
    assert (D4 : own_writes w4 = own_writes w3). { change w4 with (ended, w4).2. rewrite <-H4. by apply read_drift, ReadSleep. }
    destruct ended; [done|]. destruct (IH _ _ _ _ _ _ _ _ Hrun) as (s1 & now1 & r1 & s1' & Hs1 & He & Ho). exists s1, now1, r1, s1'.
    split_and!; [rewrite !elem_of_app; auto|done|]. rewrite Ho. congruence.
Qed.
(** Nothing was written and the caller knows it did not succeed, or exactly one
    write was made, on the entry [mutate] decided on. *)
Lemma cas_spec_writes key mutate w r w' :
  cas_spec key mutate w r w' ->
  (own_writes w' = own_writes w /\ forall y, r <> Ok y) \/
  exists w1 now res y, drift w w1 /\ w_now w <= now <= w_now w' /\
    sees key mutate (w_etcd w1) now = Ok (res, y) /\
    own_writes w' = (w_etcd w1, cas_op key res) :: own_writes w /\
    w_etcd w' = do_op (w_etcd w1) (cas_op key res) /\
    (r = Ok y \/ exists e, r = Err (CasEtcd e)).
Proof.
  assert (Hown : forall w1 : world E, drift w w1 -> own_writes w1 = own_writes w) by (intros w1 Hd; apply Hd).
  destruct 1 as [w1 now res y D|w1 now x w' D ? ? D2|w' D|w' D|e w' D|e w1 now res y D].
  - right. exists w1, now, res, y. split_and!; try done; try (simpl; lia); [|by left].
    rewrite <-(Hown _ D). done.
  - left. split; [|done]. apply Hown. by etransitivity.
  - left. by rewrite (Hown _ D).
  - left. by rewrite (Hown _ D).
  - left. by rewrite (Hown _ D).
  - right. exists w1, now, res, y. split_and!; try done; try (simpl; lia); [|eauto].
    rewrite <-(Hown _ D). done.
Qed.

(** The value [mutate] saw is the stored one. *)
Lemma cas_current_some (o : option kv) v : cas_current o = Some v -> exists e, o = Some e /\ kv_value e = v.
Proof.
  destruct o as [e|]; simpl; [|done]. unfold kv_bytes. destruct (String.eqb_spec (kv_value e) ""); [done|].
  intros [= <-]. eauto.
Qed.
End spec.
End cas.
Arguments mutator : clear implicits.

(** ** Bounds and progress *)

Section progress.
Context `{EtcdLaws E} {X Y : Type}.

Definition is_txn (a : act E) : bool :=
  match a with ATxn _ _ _ | AConflict _ _ _ => true | _ => false end.
Definition slept (a : act E) : option Z := match a with ASleep d => Some d | _ => None end.
(** Transactions sent so far, and the pauses taken, newest first. *)
Definition tries (w : world E) : nat := length (List.filter is_txn (w_log w)).
Definition pauses (w : world E) : list Z := omap slept (w_log w).

Lemma read_log {Z'} (e : eff Z') (w : world E) ts :
  match e with EGet _ | ENow => w_log (step_eff e w ts).2 = w_log w | _ => True end.
Proof.
  unfold step_eff. destruct e; try done. cbn [perform].
  destruct (etcd_reply_world (hd quiet ts) (interfere (hd quiet ts) w) (fun w => (et_get (w_etcd w) k, w))) as [-> | ->]; done.
Qed.

Lemma txn_tries g o (w : world E) ts :
  (tries (step_eff (ETxn g o) w ts).2 <= S (tries w))%nat /\
  pauses (step_eff (ETxn g o) w ts).2 = pauses w.
Proof.
  unfold step_eff. cbn [perform].
  match goal with |- context [etcd_reply ?t ?w ?f] => destruct (etcd_reply_world t w f) as [-> | ->] end;
    [unfold tries; simpl; split; [lia|done]|].
  simpl. destruct (check _ _); unfold tries, pauses; simpl; (split; [lia|done]).
Qed.

(** The pauses of [n] conflicting attempts, newest first. *)
Fixpoint backoffs (n : nat) (backoff : Z) : list Z :=
  match n with O => [] | S n => (backoffs n (backoff * 2) ++ [backoff])%list end.

Lemma cas_loop_bounds n : forall backoff key (mutate : mutator X Y) (w : world E) ts r w' ts',
  run (cas_loop n backoff key mutate) w ts = (r, w', ts') ->
  (tries w' <= tries w + n)%nat /\
  (exists k, (k <= n)%nat /\ pauses w' = (backoffs k backoff ++ pauses w)%list /\
     (r = Err (CasConflict key) -> k = n)).
Proof.
  induction n as [|n IH]; intros backoff key mutate w ts r w' ts'; cbn [cas_loop].
  { cbn [run]. intros [= <- <- _]. split; [lia|]. exists 0%nat. done. }
  rewrite run_call_bind. pose proof (read_log (EGet key) w ts) as Hg.
  destruct (step_eff (EGet key) w ts) as [resp wg]. cbn in Hg.
  assert (Hsame : forall w0 : world E, w_log w0 = w_log w -> tries w0 = tries w /\ pauses w0 = pauses w).
  { intros w0 Hl. unfold tries, pauses. by rewrite Hl. }
  assert (Hstop : forall w0 : world E, (tries w0 <= tries w + S n)%nat -> pauses w0 = pauses w ->
    forall r0 : result (caserr X) Y, r0 <> Err (CasConflict key) ->
    (tries w0 <= tries w + S n)%nat /\ exists k, (k <= S n)%nat /\
      pauses w0 = (backoffs k backoff ++ pauses w)%list /\ (r0 = Err (CasConflict key) -> k = S n)).
  { intros w0 Ht Hp r0 Hr. split; [done|]. exists 0%nat. split_and!; [lia|done|done]. }
  destruct (Hsame wg Hg) as [Tg Pg].
  destruct resp as [o|e]; [|cbn [run]; intros [= <- <- _]; apply Hstop; done || lia].
  rewrite run_call_bind. pose proof (read_log ENow wg (tl ts)) as Hn.
  destruct (step_eff ENow wg (tl ts)) as [now wn]. cbn in Hn.
  destruct (Hsame wn) as [Tn Pn]; [congruence|].
  destruct (mutate _ _ now) as [[res y]|x]; [|cbn [run]; intros [= <- <- _]; apply Hstop; done || lia].
  rewrite run_call_bind.
  match goal with |- context [step_eff (ETxn ?g ?o) wn ?t] => pose proof (txn_tries g o wn t) as [Ht Hp] end.
  destruct (step_eff (ETxn _ _) wn _) as [txn wt]. simpl in Ht, Hp.
  destruct txn as [[]|e]; try (cbn [run]; intros [= <- <- _]; apply Hstop; done || lia || congruence).
  rewrite run_call_bind.
  destruct (step_eff (ESleep backoff true) wt _) as [ended ws] eqn:Es.
  assert (Hs : tries ws = tries wt /\ pauses ws = backoff :: pauses wt).
  { revert Es. unfold step_eff. cbn [perform]. intros [= _ <-]. done. }
  destruct Hs as [Ts Ps]. destruct ended.
  - cbn [run]. intros [= <- <- _]. split; [lia|]. exists 1%nat. split_and!; [lia|simpl; congruence|done].
  - intros Hrun. apply IH in Hrun as [Hb (k & Hk & Hpk & Hc)]. split; [lia|].
    exists (S k). split_and!; [lia| |intros Hr; f_equal; auto].
    rewrite Hpk, Ps. simpl. rewrite <-app_assoc. simpl. congruence.
Qed.

(** The guard of an entry holds while the entry is current. *)
Lemma guard_current (w : world E) key :
  world_wf w -> check (w_etcd w) (cas_guard key (cas_revision (et_get (w_etcd w) key))) = true.
Proof.
  intros Hw. unfold cas_guard, cas_revision. destruct (et_get (w_etcd w) key) as [e|] eqn:He.
  - pose proof (mod_bound _ _ _ Hw He). destruct (Z.eqb_spec (kv_mod e) 0); [lia|].
    cbn [check]. rewrite He. lia.
  - simpl. by rewrite He.
Qed.

(** No failure, and nobody else writes [key]. *)
Definition calm (key : string) (t : turn) : bool :=
  match t_etcd t with None => forallb (fun o => negb (touches key o)) (t_env t) | Some _ => false end.

Lemma calm_head key ts : forallb (calm key) ts = true -> calm key (hd quiet ts) = true.
Proof. destruct ts; simpl; [done|]. intros Ht. by bool_split. Qed.
Lemma calm_tail key ts : forallb (calm key) ts = true -> forallb (calm key) (tl ts) = true.
Proof. destruct ts; simpl; [done|]. intros Ht. by bool_split. Qed.
Lemma calm_turn key t (w : world E) :
  calm key t = true -> t_etcd t = None /\ et_get (w_etcd (interfere t w)) key = et_get (w_etcd w) key.
Proof.
  unfold calm. destruct (t_etcd t); [done|]. intros Ht. split; [done|].
  rewrite interfere_etcd. by apply envs_untouched.
Qed.

Lemma cas_loop_calm n backoff key (mutate : mutator X Y) (w : world E) ts :
  world_wf w -> forallb (calm key) ts = true ->
  exists now, w_now w <= now /\
  outcome (cas_loop (S n) backoff key mutate) w ts =
    match sees key mutate (w_etcd w) now with Ok (_, y) => Ok y | Err x => Err (CasMutate x) end.
Proof.
  intros Hwf H1. pose proof (calm_tail _ _ H1) as H2. pose proof (calm_tail _ _ H2) as H3.
  destruct (calm_turn _ _ w (calm_head _ _ H1)) as [F1 G1].
  pose proof (calm_turn _ _ (interfere (hd quiet ts) w) (calm_head _ _ H2)) as [F2 G2].
  pose proof (calm_turn _ _ (interfere (hd quiet (tl ts)) (interfere (hd quiet ts) w)) (calm_head _ _ H3)) as [F3 G3].
  unfold outcome. cbn [cas_loop]. rewrite run_call_bind. unfold step_eff. cbn [perform]. unfold etcd_reply.
  rewrite F1. rewrite run_call_bind. unfold step_eff. cbn [perform].
  set (w1 := interfere (hd quiet ts) w) in *. set (w2 := interfere (hd quiet (tl ts)) w1) in *.
  exists (w_now w2). split; [simpl; lia|]. unfold sees. rewrite G1.
  destruct (mutate _ _ (w_now w2)) as [[res y]|x]; [|done].
  rewrite run_call_bind. unfold step_eff. cbn [perform]. unfold etcd_reply. rewrite F3.
  set (w3 := interfere (hd quiet (tl (tl ts))) w2) in *.
  assert (check (w_etcd w3) (cas_guard key (cas_revision (et_get (w_etcd w) key))) = true) as ->; [|done].
  assert (world_wf w3) as Hw3 by (repeat (eapply drift_wf; [apply interfere_drift|]); done).
  rewrite <-G1, <-G2, <-G3. clearbody w3. apply guard_current, Hw3.
Qed.
End progress.

Lemma cas_refines `{EtcdLaws E} {X Y} key (mutate : mutator X Y) (w : world E) ts :
  world_wf w ->
  cas_spec key mutate w (outcome (CASWithRevision key mutate) w ts) (final (CASWithRevision key mutate) w ts).
Proof.
  intros Hw. unfold outcome, final. destruct (run _ w ts) as [[r w'] ts'] eqn:Hr. by eapply cas_loop_refines.
Qed.

(** ** Properties *)

Definition append_x (current : option string) (_ _ : Z) : result unit (CASResult * string) :=
  match current with Some v => Ok (cas_put (v ++ "x"), v) | None => Err tt end.
Definition world_a : world mem := World (et_put mem_empty "k" "a") db_empty 0 false [].
Lemma world_a_wf : world_wf world_a.
Proof. apply wf_put, mem_empty_wf. Qed.

(** C2: whatever other clients do between its calls, and whichever requests fail,
    a compare-and-swap is one atomic read-modify-write: it commits what [mutate]
    computes from the entry that is current at the commit, or writes nothing;
    only a lost answer leaves open which of the two happened. *)
Theorem CASWithRevision_refines `{EtcdLaws E} {X Y} key (mutate : mutator X Y) (w : world E) ts :
  world_wf w ->
  cas_spec key mutate w (outcome (CASWithRevision key mutate) w ts) (final (CASWithRevision key mutate) w ts).
Proof. apply cas_refines. Qed.
Lemma CASWithRevision_refines_witness :
  let ts := [quiet; quiet; busy [EvPut "k" "b"]] in
  cas_spec "k" append_x world_a (outcome (CASWithRevision "k" append_x) world_a ts)
    (final (CASWithRevision "k" append_x) world_a ts)
  /\ outcome (CASWithRevision "k" append_x) world_a ts = Ok "b".
Proof. split; [apply CASWithRevision_refines, world_a_wf|vm_compute; reflexivity]. Defined.

(** A call sends at most five transactions, pausing 50 ms after the first
    conflict and twice as long after each further one; the conflict error is
    returned only after all five pauses. *)
Theorem CASWithRevision_attempts `{EtcdLaws E} {X Y} key (mutate : mutator X Y) (w : world E) ts :
  (tries (final (CASWithRevision key mutate) w ts) <= tries w + 5)%nat /\
  exists k, (k <= 5)%nat /\
    pauses (final (CASWithRevision key mutate) w ts) =
      (reverse (take k [50000000; 100000000; 200000000; 400000000; 800000000]) ++ pauses w)%list /\
    (outcome (CASWithRevision key mutate) w ts = Err (CasConflict key) -> k = 5%nat).
Proof.
  unfold outcome, final. destruct (run _ w ts) as [[r w'] ts'] eqn:Hr. simpl.
  apply cas_loop_bounds in Hr as [Ht (k & Hk & Hp & Hc)]. split; [done|]. exists k. split; [done|].
  split; [|done]. rewrite Hp. do 6 (destruct k as [|k]; [done|]). unfold casMaxRetries in Hk. lia.
Qed.

Lemma CASWithRevision_attempts_witness :
  let ts := [quiet; quiet; busy [EvPut "k" "b"]] in
  (tries (final (CASWithRevision "k" append_x) world_a ts) <= tries world_a + 5)%nat /\
  exists k, (k <= 5)%nat /\
    pauses (final (CASWithRevision "k" append_x) world_a ts) =
      (reverse (take k [50000000; 100000000; 200000000; 400000000; 800000000]) ++ pauses world_a)%list /\
    (outcome (CASWithRevision "k" append_x) world_a ts = Err (CasConflict "k") -> k = 5%nat).
Proof. apply CASWithRevision_attempts. Defined.

(** When no request fails and no other client writes the key, the first
    attempt decides: the call returns what [mutate] answers on the stored entry. *)
Theorem CASWithRevision_undisturbed `{EtcdLaws E} {X Y} key (mutate : mutator X Y) (w : world E) ts :
  world_wf w -> forallb (calm key) ts = true ->
  exists now, w_now w <= now /\
    outcome (CASWithRevision key mutate) w ts =
      match sees key mutate (w_etcd w) now with Ok (_, y) => Ok y | Err x => Err (CasMutate x) end.
Proof. apply cas_loop_calm. Qed.
Lemma CASWithRevision_undisturbed_witness :
  exists now, w_now world_a <= now /\
    outcome (CASWithRevision "k" append_x) world_a [busy [EvPut "other" "z"]] =
      match sees "k" append_x (w_etcd world_a) now with Ok (_, y) => Ok y | Err x => Err (CasMutate x) end.
Proof. apply CASWithRevision_undisturbed; [apply world_a_wf|vm_compute; reflexivity]. Defined.
