(* ===== verification/Storage.v ===== *)
(** * The etcd client wrapper ([internal/storage])

    Listing and watching the [configs/] prefix, the DNS cascade, and the
    closures the API servers hand to [CAS].  Both servers write the same
    closures; each is one definition here. *)

From S2P Require Import Prelude GoStrings Json JsonNormal Decode GoTime ConfigDoc Validation Etcd Db Effects Cas HsiConfig.
Local Open Scope string_scope.
Local Open Scope Z_scope.
Local Open Scope go_scope.

(** ** Listing and watching *)

Record ConfigEvent := MkConfigEvent { ce_Key : string; ce_Value : option string; ce_ModRevision : Z; ce_IsDelete : bool }.

Definition ListConfigs : prog (result eerr (list ConfigEvent * Z)) :=
  do? resp := call (ERange "configs/") in
  let '(kvs, revision) := resp in
  Ret (Ok ((fun kv : string * Etcd.kv => MkConfigEvent kv.1 (kv_bytes (kv_value kv.2)) (kv_mod kv.2) false) <$> kvs, revision)).

(** What the watch channel of the client delivers: responses with the events
    (put with its value, or delete), a compaction notice, or an error; a closed
    channel is the end of the list.  The channel is the client's, so the list is
    an argument. *)
Record watchEvent := MkWatchEvent { we_key : string; we_put : option string; we_mod : Z }.
Record watchResponse := MkWatch { CompactRevision : Z; watch_Err : option eerr; wr_Events : list watchEvent }.

Definition config_event (e : watchEvent) : ConfigEvent :=
  MkConfigEvent (we_key e) (we_put e ≫= kv_bytes) (we_mod e) (match we_put e with None => true | Some _ => false end).

Inductive watchEnd (X : Type) := WatchCompacted | WatchErr (e : eerr) | WatchHandler (x : X) | WatchCtx | WatchNil.
Arguments WatchCompacted {X}.
Arguments WatchErr {X} e.
Arguments WatchHandler {X} x.
Arguments WatchCtx {X}.
Arguments WatchNil {X}.

Section watch.
Context {X : Type} (handler : ConfigEvent -> prog (result X unit)).

Fixpoint handle_events (l : list watchEvent) : prog (result X unit) :=
  match l with
  | [] => Ret (Ok tt)
  | e :: l => do? _ := handler (config_event e) in handle_events l
  end.
Fixpoint WatchConfigs (watchChan : list watchResponse) : prog (watchEnd X) :=
  match watchChan with
  | [] => do! done := call ECtx in Ret (if done : bool then WatchCtx else WatchNil)
  | watchResp :: rest =>
      if negb (CompactRevision watchResp =? 0) then Ret WatchCompacted
      else match watch_Err watchResp with
           | Some e => Ret (WatchErr e)
           | None =>
               do! r := handle_events (wr_Events watchResp) in
               match r with Err x => Ret (WatchHandler x) | Ok _ => WatchConfigs rest end
           end
  end.
End watch.

Definition DeleteSubscriberDNS (nodeID userID : string) : prog (result eerr unit) :=
  do! r := call (EDelete (dnsKey nodeID userID)) in
  Ret (match r with Ok _ => Ok tt | Err e => Err e end).

(** ** The closures handed to [CAS] *)

(** [errParseHSI] stands for the two parse errors of [setDesireStatus]. *)
Inductive sentinel :=
| errHSIConfigExists | errHSIConfigNotFound | errDNSRecordNotFound | errDNSRecordLimit | errParseHSI.
#[export] Instance sentinel_eq_dec : EqDecision sentinel.
Proof. solve_decision. Defined.
Definition sentinel_text (e : sentinel) : string :=
  match e with
  | errHSIConfigExists => "HSI config already exists for this user"
  | errHSIConfigNotFound => "HSI config not found"
  | errDNSRecordNotFound => "DNS record not found"
  | errDNSRecordLimit => "DNS record limit reached: maximum 64 records allowed"
  | errParseHSI => "parse HSI config"
  end.

(** The metadata a writer stamps. *)
Definition stamp (nodeID caller : string) (current : option string) (now : Z) : hsiMetaInner :=
  MkHMeta nodeID (nextResourceVersion current) caller (format_rfc3339 now).

Definition create_mutate (nodeID caller : string) (inner : hsiConfigInner) (current : option string) (now : Z)
  : result sentinel (CASResult * string) :=
  match current with
  | Some _ => Err errHSIConfigExists
  | None => Ok (cas_put (encode (cwm_json (MkCwm inner (stamp nodeID caller current now)))), nextResourceVersion current)
  end.

Definition current_config (current : option string) : option hsiConfigInner :=
  letopt cur := current in letopt existing := read_cwm cur in Some (Config existing).
Definition update_mutate (nodeID caller : string) (merge : option hsiConfigInner -> hsiConfigInner)
    (current : option string) (now : Z) : result sentinel (CASResult * (hsiConfigInner * hsiMetaInner)) :=
  let merged := merge (current_config current) in
  let meta := stamp nodeID caller current now in
  Ok (cas_put (encode (cwm_json (MkCwm merged meta))), (merged, meta)).

Definition delete_mutate (current : option string) (now : Z) : result sentinel (CASResult * unit) :=
  match current with None => Err errHSIConfigNotFound | Some _ => Ok (cas_remove, tt) end.

Definition desire_mutate (username desire : string) (current : option string) (now : Z)
  : result sentinel (CASResult * unit) :=
  match current with
  | None => Err errHSIConfigNotFound
  | Some cur =>
      match read_cwm cur with
      | None => Err errParseHSI
      | Some cwm =>
          if String.eqb (UserID (Config cwm)) "" then Err errParseHSI
          else Ok (cas_put (encode (cwm_json
                     (MkCwm (set_DesireStatus desire (Config cwm))
                            (stamp (Node (Metadata cwm)) username current now)))), tt)
      end
  end.

(** [as_json] is the printer of the server's own struct. *)
Definition count_mutate (as_json : subscriberCountData -> json) (nodeID caller : string) (count : Z)
    (current : option string) (now : Z) : result sentinel (CASResult * unit) :=
  Ok (cas_put (encode (as_json (MkCount (format_int count) (stamp nodeID caller current now)))), tt).

(** Returns [isUpdate]. *)
Definition dns_put_mutate (nodeID caller : string) (newRec : dnsRecordInner) (current : option string) (now : Z)
  : result sentinel (CASResult * bool) :=
  match put_record newRec (decodeDNSRecords current) with
  | None => Err errDNSRecordLimit
  | Some (records, isUpdate) =>
      Ok (cas_put (encode (records_json (MkRecords (Some records) (stamp nodeID caller current now)))), isUpdate)
  end.
Definition dns_delete_mutate (nodeID caller domain : string) (current : option string) (now : Z)
  : result sentinel (CASResult * unit) :=
  match current with
  | None => Err errDNSRecordNotFound
  | Some _ =>
      match remove_record domain (decodeDNSRecords current) with
      | None => Err errDNSRecordNotFound
      | Some [] => Ok (cas_remove, tt)
      | Some kept =>
          Ok (cas_put (encode (records_json (MkRecords (Some kept) (stamp nodeID caller current now)))), tt)
      end
  end.

(** ** Reads the servers share *)

(** [fmt.Sprintf("configs/%s/hsi/", nodeID)] *)
Definition hsiPrefix (nodeID : string) : string := "configs/" +:+ nodeID +:+ "/hsi/".

(** Values that do not decode are skipped. *)
Definition owners_of (kvs : list (string * kv)) : list VlanOwner :=
  omap (fun e => letopt cwm := read_cwm (kv_value e.2) in Some (MkOwner (UserID (Config cwm)) (VlanID (Config cwm)))) kvs.
Definition fetchVlanOwners (nodeID : string) : prog (result eerr (list VlanOwner)) :=
  do? resp := call (ERange (hsiPrefix nodeID)) in
  Ret (Ok (owners_of resp.1)).
(** The REST copy. *)
Definition listVlanOwners (nodeId : string) : prog (result eerr (list VlanOwner)) := fetchVlanOwners nodeId.

(** [setDesireStatus] of [rest_server.go], which the gRPC server borrows. *)
Definition setDesireStatus (nodeId userId username desire : string) : prog (result (caserr sentinel) unit) :=
  CAS (hsiKey nodeId userId) (desire_mutate username desire).
