(* ===== verification/Hoare.v ===== *)
(** * Reasoning about handlers call by call

    [ensures p w Q]: whatever the other clients do and whichever requests fail,
    running [p] from [w] ends in an outcome and a world that satisfy [Q].  One
    rule per request, so that the proof of a handler walks along its code. *)

From S2P Require Import Prelude GoStrings Etcd Db Effects Cas ConfigDoc Storage.
Local Open Scope string_scope.
Local Open Scope Z_scope.
Local Open Scope go_scope.

Section hoare.
Context `{EtcdLaws E}.

Definition ensures {A} (p : prog A) (w : world E) (Q : A -> world E -> Prop) : Prop :=
  forall ts, Q (outcome p w ts) (final p w ts).

Lemma ensures_run {A} (p : prog A) w Q : ensures p w Q <-> forall ts a w' ts', run p w ts = (a, w', ts') -> Q a w'.
Proof.
  unfold ensures, outcome, final. split.
  - intros Hq ts a w' ts' Hr. specialize (Hq ts). by rewrite Hr in Hq.
  - intros Hq ts. destruct (run p w ts) as [[a w'] ts'] eqn:Hr. by eapply Hq.
Qed.
Lemma ensures_ret {A} (a : A) w Q : Q a w -> ensures (Ret a) w Q.
Proof. by intros Hq ts. Qed.
Lemma ensures_bind {A B} (p : prog A) (f : A -> prog B) w Q :
  ensures p w (fun a w' => ensures (f a) w' Q) -> ensures (bind p f) w Q.
Proof.
  intros Hp ts. unfold outcome, final. rewrite run_bind. specialize (Hp ts). unfold outcome, final in Hp.
  destruct (run p w ts) as [[a w'] ts']. apply Hp.
Qed.
Lemma ensures_mono {A} (p : prog A) w (Q R : A -> world E -> Prop) :
  (forall a w', Q a w' -> R a w') -> ensures p w Q -> ensures p w R.
Proof. intros Hqr Hq ts. apply Hqr, Hq. Qed.
Lemma ensures_call {X} (e : eff X) w (Q : X -> world E -> Prop) :
  (forall ts x w', step_eff e w ts = (x, w') -> Q x w') -> ensures (call e) w Q.
Proof.
  intros Hq. apply ensures_run. intros ts a w' ts'. rewrite run_call. intros [= Hs _]. by eapply Hq.
Qed.

(** ** One rule per request *)

Lemma ensures_get k w (Q : result eerr (option kv) -> world E -> Prop) :
  (forall w', drift w w' -> Q (Ok (et_get (w_etcd w') k)) w') ->
  (forall w' e, drift w w' -> Q (Err e) w') -> ensures (call (EGet k)) w Q.
Proof.
  intros Hok Herr. apply ensures_call. intros ts x w' Hs. apply get_inv in Hs as [Hd [-> | [e ->]]]; eauto.
Qed.
Lemma ensures_now w (Q : Z -> world E -> Prop) :
  (forall w', drift w w' -> Q (w_now w') w') -> ensures (call ENow) w Q.
Proof. intros Hq. apply ensures_call. intros ts x w' Hs. apply now_inv in Hs as [Hd ->]. eauto. Qed.
Lemma range_inv p w ts r w' :
  step_eff (ERange p) w ts = (r, w') ->
  drift w w' /\ (r = Ok (et_range (w_etcd w') p, et_rev (w_etcd w')) \/ exists e, r = Err e).
Proof.
  intros Hs. split; [change w' with (r, w').2; rewrite <-Hs; by apply read_drift, ReadRange|].
  revert Hs. unfold step_eff. cbn [perform]. unfold etcd_reply.
  destruct (t_etcd (hd quiet ts)) as [[e []]|]; intros [= <- <-]; eauto.
Qed.
Lemma ensures_range p w (Q : result eerr (list (string * kv) * Z) -> world E -> Prop) :
  (forall w', drift w w' -> Q (Ok (et_range (w_etcd w') p, et_rev (w_etcd w'))) w') ->
  (forall w' e, drift w w' -> Q (Err e) w') -> ensures (call (ERange p)) w Q.
Proof.
  intros Hok Herr. apply ensures_call. intros ts x w' Hs. apply range_inv in Hs as [Hd [-> | [e ->]]]; eauto.
Qed.

(** A delete reaches the store, or fails without a trace, or is carried out
    although its answer is lost. *)
Definition deleted (w1 : world E) (k : string) : world E :=
  with_etcd w1 (et_del (w_etcd w1) k) (ADelete (w_etcd w1) k).
Lemma ensures_delete k w (Q : result eerr Z -> world E -> Prop) :
  (forall w1, drift w w1 ->
     Q (Ok (match et_get (w_etcd w1) k with Some _ => 1 | None => 0 end)) (deleted w1 k)) ->
  (forall w1 e, drift w w1 -> Q (Err e) w1 /\ Q (Err e) (deleted w1 k)) ->
  ensures (call (EDelete k)) w Q.
Proof.
  intros Hok Herr. apply ensures_call. intros ts x w'. unfold step_eff. cbn [perform]. unfold etcd_reply.
  pose proof (interfere_drift (hd quiet ts) w) as Hd. set (w1 := interfere (hd quiet ts) w) in *.
  destruct (t_etcd (hd quiet ts)) as [[e []]|]; intros [= <- <-];
    [exact (proj2 (Herr w1 e Hd))|exact (proj1 (Herr w1 e Hd))|exact (Hok w1 Hd)].
Qed.
Lemma ensures_put_lease k v ttl w (Q : result eerr unit -> world E -> Prop) :
  (forall w1, drift w w1 -> Q (Ok tt) (with_etcd w1 (et_put (w_etcd w1) k v) (APut (w_etcd w1) k v ttl))) ->
  (forall w1 e, drift w w1 -> Q (Err e) w1 /\
     Q (Err e) (with_etcd w1 (et_put (w_etcd w1) k v) (APut (w_etcd w1) k v ttl))) ->
  ensures (call (EPutLease k v ttl)) w Q.
Proof.
  intros Hok Herr. apply ensures_call. intros ts x w'. unfold step_eff. cbn [perform]. unfold etcd_reply.
  pose proof (interfere_drift (hd quiet ts) w) as Hd. set (w1 := interfere (hd quiet ts) w) in *.
  destruct (t_etcd (hd quiet ts)) as [[e []]|]; intros [= <- <-];
    [exact (proj2 (Herr w1 e Hd))|exact (proj1 (Herr w1 e Hd))|exact (Hok w1 Hd)].
Qed.
Lemma ensures_txn g o w (Q : result eerr bool -> world E -> Prop) :
  (forall w1, drift w w1 -> check (w_etcd w1) g = true ->
     let w' := with_etcd w1 (do_op (w_etcd w1) o) (ATxn (w_etcd w1) g o) in
     Q (Ok true) w' /\ forall e, Q (Err e) w') ->
  (forall w', drift w w' -> check (w_etcd w') g = false -> Q (Ok false) w') ->
  (forall w' e, drift w w' -> Q (Err e) w') ->
  ensures (call (ETxn g o)) w Q.
Proof.
  intros Hok Hno Herr. apply ensures_call. intros ts x w' Hs.
  apply txn_inv in Hs as [(w1 & Hd & Hg & [-> | [e ->]] & ->)|[Hd [[-> Hg]|[e ->]]]]; eauto; by apply Hok.
Qed.
(** A statement leaves etcd alone. *)
Lemma ensures_db {A} (q : query A) w (Q : result dberr A -> world E -> Prop) :
  (forall w' r, (exists l, w_etcd w' = apply_envs (w_etcd w) l) -> own_writes w' = own_writes w -> Q r w') ->
  ensures (call (EDb q)) w Q.
Proof.
  intros Hq. apply ensures_call. intros ts x w'. unfold step_eff. cbn [perform]. intros Hs.
  apply (Hq w' x); change w' with (x, w').2; rewrite <-Hs.
  - exists (t_env (hd quiet ts)). by destruct (db_reply_world (hd quiet ts) (interfere (hd quiet ts) w) q)
      as [-> | (a & d & _ & ->)].
  - by destruct (db_reply_world (hd quiet ts) (interfere (hd quiet ts) w) q) as [-> | (a & d & _ & ->)].
Qed.

(** A statement that answers was run, on tables other replicas may have added
    to; one that fails was not, or was although its answer is lost. *)
Lemma ensures_query {A} (q : query A) w (Q : result dberr A -> world E -> Prop) :
  (forall w' a now d, db_env (w_db w) d -> q now d = Ok (a, w_db w') -> Q (Ok a) w' /\ forall e, Q (Err e) w') ->
  (forall w' e, db_env (w_db w) (w_db w') -> Q (Err e) w') ->
  ensures (call (EDb q)) w Q.
Proof.
  intros Hok Herr. apply ensures_call. intros ts x w'. unfold step_eff. cbn [perform]. unfold db_reply.
  set (t := hd quiet ts). assert (Henv : db_env (w_db w) (w_db (interfere t w))) by apply db_env_fold.
  destruct (q (w_now (interfere t w)) (w_db (interfere t w))) as [[a d]|e] eqn:Hq.
  - destruct (t_db t) as [[e []]|]; intros [= <- <-].
    + by eapply Hok.
    + by apply Herr.
    + by eapply Hok.
  - intros [= <- <-]. by apply Herr.
Qed.
Lemma ensures_no_sql {A} (p : prog A) w (Q : A -> world E -> Prop) :
  uses no_sql p -> (forall a w', db_env (w_db w) (w_db w') -> Q a w') -> ensures p w Q.
Proof. intros Hu Hq. apply ensures_run. intros ts a w' ts' Hr. apply Hq. by eapply run_no_sql. Qed.

(** ** Compare-and-swap *)

(** Nothing was written and the caller knows it did not succeed; or one write
    was made on the entry that [mutate] decided on, and only a lost answer
    keeps the caller from knowing. *)
Inductive cas_result {X Y} (key : string) (mutate : option string -> Z -> result X (CASResult * Y)) (w : world E)
  : result (caserr X) Y -> world E -> Prop :=
| CasNone e w' : own_writes w' = own_writes w -> w_now w <= w_now w' -> (exists l, w_etcd w' = apply_envs (w_etcd w) l) ->
    cas_result key mutate w (Err e) w'
| CasWrote w1 now res y r w' :
    drift w w1 -> w_now w <= now <= w_now w' -> mutate (cas_current (et_get (w_etcd w1) key)) now = Ok (res, y) ->
    own_writes w' = (w_etcd w1, cas_op key res) :: own_writes w ->
    w_etcd w' = do_op (w_etcd w1) (cas_op key res) ->
    r = Ok y \/ (exists e, r = Err (CasEtcd e)) -> cas_result key mutate w r w'.

Lemma ensures_CAS {X Y} key (mutate : option string -> Z -> result X (CASResult * Y)) w
    (Q : result (caserr X) Y -> world E -> Prop) :
  world_wf w -> (forall r w', cas_result key mutate w r w' -> Q r w') -> ensures (CAS key mutate) w Q.
Proof.
  intros Hw Hq ts. apply Hq. pose proof (cas_refines key (fun cur _ now => mutate cur now) w ts Hw) as Hs.
  unfold CAS. revert Hs. generalize (final (CASWithRevision key (fun cur _ now => mutate cur now)) w ts).
  generalize (outcome (CASWithRevision key (fun cur _ now => mutate cur now)) w ts). intros r w' Hs.
  assert (Hd : forall e w', drift w w' -> cas_result key mutate w (Err e) w').
  { intros e w2 (Hl & _ & Hn & Ho). by apply CasNone. }
  destruct (cas_spec_writes _ _ _ _ _ Hs) as [_|(w1 & now & res & y & D & Hn & Hm & Ho & He & Hr)].
  - destruct Hs as [w1 now res y D Hn Hm|w1 now x w' D Hn Hm D2|w' D|w' D|e w' D|e w1 now res y D Hn Hm]; auto.
    + eapply (CasWrote _ _ _ w1 now res y); [done|simpl; lia|done| |done|by left].
      destruct D as (_ & _ & _ & D). by rewrite <-D.
    + apply Hd. by transitivity w1.
    + eapply (CasWrote _ _ _ w1 now res y); [done|simpl; lia|done| |done|right; eauto].
      destruct D as (_ & _ & _ & D). by rewrite <-D.
  - by eapply (CasWrote _ _ _ w1 now res y).
Qed.

(** ** What a program may write *)

(** Every write satisfies [P] on the store it was made on. *)
Definition writes_only {A} (P : E -> etcdop -> Prop) (p : prog A) : Prop :=
  forall w, world_wf w -> ensures p w (fun _ w' =>
    world_wf w' /\ exists l, own_writes w' = (l ++ own_writes w)%list /\ Forall (fun so => P so.1 so.2) l).

Lemma writes_ret {A} P (a : A) : writes_only P (Ret a).
Proof. intros w Hw. apply ensures_ret. split; [done|]. by exists []. Qed.
Lemma writes_bind {A B} P (p : prog A) (f : A -> prog B) :
  writes_only P p -> (forall a, writes_only P (f a)) -> writes_only P (bind p f).
Proof.
  intros Hp Hf w Hw. apply ensures_bind. eapply ensures_mono; [|by apply Hp]. intros a w1 (Hw1 & l1 & E1 & F1).
  eapply ensures_mono; [|by apply Hf]. intros b w2 (Hw2 & l2 & E2 & F2). split; [done|].
  exists (l2 ++ l1)%list. rewrite E2, E1, app_assoc. split; [done|by apply Forall_app].
Qed.
Lemma writes_if {A} P (b : bool) (p q : prog A) :
  writes_only P p -> writes_only P q -> writes_only P (if b then p else q).
Proof. by destruct b. Qed.
Lemma writes_final {A} P (p : prog A) w :
  (forall ts, own_writes (final p w ts) = own_writes w) ->
  world_wf w -> ensures p w (fun _ w' => world_wf w' /\ exists l, own_writes w' = (l ++ own_writes w)%list /\ Forall (fun so => P so.1 so.2) l).
Proof. intros Ho Hw ts. split; [by apply run_wf|]. exists []. split; [apply Ho|constructor]. Qed.
Lemma writes_read {X} P (e : eff X) : reads X e -> writes_only P (call e).
Proof.
  intros He w Hw. apply writes_final; [|done]. intros ts. unfold final. rewrite run_call. by apply read_drift.
Qed.
Lemma writes_db {A} P (q : query A) : writes_only P (call (EDb q)).
Proof.
  intros w Hw. apply writes_final; [|done]. intros ts.
  apply (ensures_db q w (fun _ w' => own_writes w' = own_writes w)). done.
Qed.
Lemma writes_CAS {X Y} (P : E -> etcdop -> Prop) key (mutate : option string -> Z -> result X (CASResult * Y)) :
  (forall s now res y, et_wf s -> mutate (cas_current (et_get s key)) now = Ok (res, y) -> P s (cas_op key res)) ->
  writes_only P (CAS key mutate).
Proof.
  intros Hm w Hw ts. split; [by apply run_wf|].
  apply (ensures_CAS key mutate w (fun _ w' => exists l, own_writes w' = (l ++ own_writes w)%list /\ Forall _ l)); [done|].
  intros r w' [e w2 Ho|w1 now res y r0 w2 D Hn Hok Ho]; [by exists []|].
  exists [(w_etcd w1, cas_op key res)]. split; [done|]. constructor; [|done]. simpl. eapply Hm; [|done].
  by eapply drift_wf.
Qed.
Lemma writes_delete (P : E -> etcdop -> Prop) key :
  (forall s, et_wf s -> P s (OpDelete key)) -> writes_only P (call (EDelete key)).
Proof.
  intros Hp w Hw ts. split; [by apply run_wf|].
  assert (Hlog : forall w1, drift w w1 -> exists l, own_writes (deleted w1 key) = (l ++ own_writes w)%list /\
    Forall (fun so => P so.1 so.2) l).
  { intros w1 D. exists [(w_etcd w1, OpDelete key)]. pose proof D as (_ & _ & _ & Ho).
    rewrite <-Ho. split; [done|]. constructor; [|done]. apply Hp. by eapply drift_wf. }
  apply (ensures_delete key w (fun _ w' => exists l, own_writes w' = (l ++ own_writes w)%list /\ Forall _ l)).
  - intros w1 D. by apply Hlog.
  - intros w1 e D. split; [|by apply Hlog]. exists []. split; [apply D|done].
Qed.
Lemma writes_put_lease (P : E -> etcdop -> Prop) k v ttl :
  (forall s, et_wf s -> P s (OpPut k v)) -> writes_only P (call (EPutLease k v ttl)).
Proof.
  intros Hp w Hw ts. split; [by apply run_wf|].
  assert (Hlog : forall w1, drift w w1 -> exists l,
    own_writes (with_etcd w1 (et_put (w_etcd w1) k v) (APut (w_etcd w1) k v ttl)) = (l ++ own_writes w)%list /\
    Forall (fun so => P so.1 so.2) l).
  { intros w1 D. exists [(w_etcd w1, OpPut k v)]. pose proof D as (_ & _ & _ & Ho).
    rewrite <-Ho. split; [done|]. constructor; [|done]. apply Hp. by eapply drift_wf. }
  apply (ensures_put_lease k v ttl w (fun _ w' => exists l, own_writes w' = (l ++ own_writes w)%list /\ Forall _ l)).
  - intros w1 D. by apply Hlog.
  - intros w1 e D. split; [|by apply Hlog]. exists []. split; [apply D|done].
Qed.
Lemma writes_txn (P : E -> etcdop -> Prop) g o :
  (forall s, et_wf s -> check s g = true -> P s o) -> writes_only P (call (ETxn g o)).
Proof.
  intros Hp w Hw ts. split; [by apply run_wf|].
  apply (ensures_txn g o w (fun _ w' => exists l, own_writes w' = (l ++ own_writes w)%list /\ Forall _ l)).
  - intros w1 D Hg. assert (Hex : exists l, own_writes (with_etcd w1 (do_op (w_etcd w1) o) (ATxn (w_etcd w1) g o)) =
      (l ++ own_writes w)%list /\ Forall (fun so => P so.1 so.2) l); [|done].
    exists [(w_etcd w1, o)]. pose proof D as (_ & _ & _ & Ho). rewrite <-Ho.
    split; [done|]. constructor; [|done]. apply Hp; [|done]. by eapply drift_wf.
  - intros w1 D _. exists []. split; [apply D|done].
  - intros w1 e D. exists []. split; [apply D|done].
Qed.

(** What every outcome satisfies. *)
Definition returns {A} (R : A -> Prop) (p : prog A) : Prop := forall (w : world E) ts, R (outcome p w ts).
Lemma returns_ret {A} (R : A -> Prop) a : R a -> returns R (Ret a).
Proof. by intros Ha w ts. Qed.
Lemma returns_bind {A B} (R : B -> Prop) (p : prog A) f : (forall a, returns R (f a)) -> returns R (bind p f).
Proof.
  intros Hf w ts. unfold outcome. rewrite run_bind. destruct (run p w ts) as [[a w'] ts']. apply Hf.
Qed.
(** Sequencing with a fact about the first part's outcome. *)
Lemma writes_bind_returns {A B} P (R : A -> Prop) (p : prog A) (f : A -> prog B) :
  returns R p -> writes_only P p -> (forall a, R a -> writes_only P (f a)) -> writes_only P (bind p f).
Proof.
  intros Hr Hp Hf w Hw. apply ensures_bind. intros ts. destruct (Hp w Hw ts) as (Hw1 & l1 & E1 & F1).
  eapply ensures_mono; [|apply Hf; [apply Hr|done]]. intros b w2 (Hw2 & l2 & E2 & F2). split; [done|].
  exists (l2 ++ l1)%list. rewrite E2, E1, app_assoc. split; [done|by apply Forall_app].
Qed.
(** The prefix of the keys a range read returns. *)
Lemma range_keys p : returns (fun r : result eerr (list (string * kv) * Z) =>
  match r with Ok (kvs, _) => Forall (fun e => has_prefix p e.1 = true) kvs | Err _ => True end) (call (ERange p)).
Proof.
  intros w ts. unfold outcome. rewrite run_call. destruct (step_eff (ERange p) w ts) as [r w'] eqn:Es.
  apply range_inv in Es as [_ [-> | [e ->]]]; [|done]. cbn [fst]. apply Forall_forall. intros [k e] Hin.
  by apply range_spec in Hin as [? _].
Qed.
End hoare.
#[export] Hint Resolve writes_ret writes_db : writes.
#[export] Hint Constructors reads : writes.

(** Walks a program that reads between its writes. *)
Ltac solve_writes :=
  repeat match goal with
  | |- writes_only _ (Ret _) => apply writes_ret
  | |- writes_only _ (bind (call (EDb _)) _) => apply writes_bind; [apply writes_db|intros ?]
  | |- writes_only _ (bind (call (ETxn _ _)) _) => apply writes_bind; [|intros ?]
  | |- writes_only _ (bind (call (EDelete _)) _) => apply writes_bind; [|intros ?]
  | |- writes_only _ (bind (call (EPutLease _ _ _)) _) => apply writes_bind; [|intros ?]
  | |- writes_only _ (bind (call _) _) => apply writes_bind; [apply writes_read; constructor|intros ?]
  | |- writes_only _ (match ?x with _ => _ end) => destruct x eqn:?
  | |- writes_only _ (let '(_, _) := ?x in _) => destruct x eqn:?
  end.
