(* ===== verification/Rely.v ===== *)
(** * Programs among others who keep a promise

    The proof rules of [Hoare] hold whatever other replicas do.  Some invariants
    of the tables only hold when the others respect them too; then each of them is
    promised what the others promise.  [relied] says that along a run every
    statement of another replica kept the promise when it was made, and that every
    call found etcd in a state that was [shown]; the rules carry an invariant that
    such statements keep. *)

From S2P Require Import Prelude GoStrings Etcd Db Effects Grows Hoare.
Local Open Scope Z_scope.

(** When nothing is asked of etcd. *)
Definition anything {E : Type} (s : E) : Prop := True.

Section rely.
Context `{EtcdLaws E} (promise : db -> sqlop -> Prop) (shown : E -> Prop).
Implicit Types (w : world E) (ts : list turn).

Fixpoint kept (now : Z) (l : list sqlop) (d : db) : Prop :=
  match l with [] => True | o :: l => promise d o /\ kept now l (apply_sql now d o) end.
Fixpoint relied {A} (p : prog A) w ts : Prop :=
  match p with
  | Ret _ => True
  | Vis e k =>
      (kept (w_now (interfere (hd quiet ts) w)) (t_sql (hd quiet ts)) (w_db w) /\
       shown (w_etcd (interfere (hd quiet ts) w))) /\
      let '(x, w') := step_eff e w ts in relied (k x) w' (tl ts)
  end.
Definition under {A} (p : prog A) w (Q : A -> world E -> Prop) : Prop :=
  forall ts a w' ts', relied p w ts -> run p w ts = (a, w', ts') -> Q a w'.

Lemma relied_bind {A B} (p : prog A) (f : A -> prog B) w ts a w' ts' :
  relied (bind p f) w ts -> run p w ts = (a, w', ts') -> relied p w ts /\ relied (f a) w' ts'.
Proof.
  revert w ts. induction p as [b|X e k IH]; intros w ts; cbn [bind relied run]; [intros Hr [= <- <- <-]; by split|].
  destruct (step_eff e w ts) as [x w1]. intros [Hk Hr] Hrun. destruct (IH _ _ _ Hr Hrun). by split.
Qed.
(** A run nobody interrupts relies on nobody. *)
Lemma relied_alone {A} (p : prog A) w ts : (forall s, shown s) -> forallb alone ts = true -> relied p w ts.
Proof.
  intros Hs. revert w ts. induction p as [b|X e k IH]; intros w ts Ht; cbn [relied]; [done|]. split; [split; [|done]|].
  - destruct ts as [|t ts]; [done|]. cbn [hd forallb] in *. apply andb_true_iff in Ht as [Ht _]. unfold alone in Ht. by destruct (t_sql t).
  - destruct (step_eff e w ts) as [x w1]. apply IH. by apply ok_tl.
Qed.
Lemma under_final {A} (p : prog A) w (Q : A -> world E -> Prop) ts :
  under p w Q -> relied p w ts -> Q (run p w ts).1.1 (final p w ts).
Proof. intros Hq Hr. unfold final. destruct (run p w ts) as [[a w'] ts'] eqn:E0. by eapply Hq. Qed.

Lemma under_ret {A} (a : A) w (Q : A -> world E -> Prop) : Q a w -> under (Ret a) w Q.
Proof. intros Hq ts b w' ts' _ [= <- <- _]. done. Qed.
Lemma under_bind {A B} (p : prog A) (f : A -> prog B) w Q :
  under p w (fun a w' => under (f a) w' Q) -> under (bind p f) w Q.
Proof.
  intros Hp ts b w' ts' Hr Hrun. apply run_bind_inv in Hrun as (a & w1 & ts1 & H1 & H2).
  destruct (relied_bind _ _ _ _ _ _ _ Hr H1) as [R1 R2]. exact (Hp _ _ _ _ R1 H1 _ _ _ _ R2 H2).
Qed.
Lemma under_mono {A} (p : prog A) w (Q R : A -> world E -> Prop) :
  (forall a w', Q a w' -> R a w') -> under p w Q -> under p w R.
Proof. intros Hqr Hq ts a w' ts' Hr Hrun. eapply Hqr, Hq; done. Qed.

Context (Inv : db -> Prop).
Hypothesis Inv_promised : forall now d o, Inv d -> promise d o -> Inv (apply_sql now d o).

Lemma Inv_kept now l d : Inv d -> kept now l d -> Inv (fold_left (apply_sql now) l d).
Proof using Inv_promised.
  revert d. induction l as [|o l IH]; intros d Hd; [done|]. cbn [kept fold_left]. intros [Ho Hl]. apply IH; [by apply Inv_promised|done].
Qed.
Lemma under_no_sql {A} (p : prog A) w (Q : A -> world E -> Prop) :
  uses no_sql p -> Inv (w_db w) ->
  (forall a w', Inv (w_db w') -> db_env (w_db w) (w_db w') -> own_queries w' = own_queries w -> Q a w') -> under p w Q.
Proof using Type* Inv_promised.
  intros Hu Hi Hq ts a w' ts' Hr Hrun. apply Hq; [|by eapply run_no_sql|by eapply run_no_sql_queries]. clear Q Hq.
  revert w ts Hi Hr Hrun Hu. induction p as [b|X e k IH]; intros w ts Hi; cbn [relied run uses]; [intros _ [= _ <- _] _; done|].
  destruct (step_eff e w ts) as [x w1] eqn:Es. intros [[Hk _] Hr] Hrun [He Hu]. eapply (IH x w1); [|done..|apply Hu].
  change w1 with (x, w1).2. rewrite <-Es. unfold step_eff. rewrite perform_no_sql by done. by apply Inv_kept.
Qed.
(** A statement was run on tables satisfying the invariant, or was not run. *)
Lemma under_query {A} (q : query A) w (Q : result dberr A -> world E -> Prop) :
  Inv (w_db w) ->
  (forall d, Inv d -> db_env (w_db w) d ->
     (forall w' a now, q now d = Ok (a, w_db w') -> own_queries w' = (d, w_db w') :: own_queries w -> Q (Ok a) w' /\ forall e, Q (Err e) w') /\
     (forall w' e, w_db w' = d -> own_queries w' = own_queries w -> Q (Err e) w')) ->
  under (call (EDb q)) w Q.
Proof using Inv_promised.
  intros Hi Hq ts r w' ts' Hr. unfold call in Hr. cbn [relied] in Hr. destruct Hr as [[Hk _] _]. rewrite run_call. intros [= Hs _]. revert Hs.
  unfold step_eff. cbn [perform]. unfold db_reply. set (t := hd quiet ts) in *.
  destruct (Hq (w_db (interfere t w))) as [Hok Herr]; [by apply Inv_kept|apply db_env_fold|].
  destruct (q (w_now (interfere t w)) (w_db (interfere t w))) as [[a d]|e] eqn:E0.
  - destruct (t_db t) as [[e []]|]; intros [= <- <-].
    + eapply Hok; done.
    + by apply Herr.
    + eapply Hok; done.
  - intros [= <- <-]. by apply Herr.
Qed.
(** A list of keys is the one of a state that was shown. *)
Lemma under_range pre w (Q : result eerr (list (string * kv) * Z) -> world E -> Prop) :
  Inv (w_db w) ->
  (forall r w', Inv (w_db w') -> db_env (w_db w) (w_db w') -> own_queries w' = own_queries w ->
     (exists s, shown s /\ r = Ok (et_range s pre, et_rev s)) \/ (exists e, r = Err e) -> Q r w') ->
  under (call (ERange pre)) w Q.
Proof using Type* Inv_promised.
  intros Hi Hq ts r w' ts' Hr Hrun.
  assert (Hw : Inv (w_db w') /\ db_env (w_db w) (w_db w') /\ own_queries w' = own_queries w).
  { eapply (under_no_sql (call (ERange pre)) w (fun _ w' => Inv (w_db w') /\ db_env (w_db w) (w_db w') /\ own_queries w' = own_queries w));
      [by split|done|by intros|exact Hr|exact Hrun]. }
  destruct Hw as (H1 & H2 & H3). apply Hq; [done..|]. unfold call in Hr. cbn [relied] in Hr. destruct Hr as [[_ Hs] _].
  rewrite run_call in Hrun. injection Hrun as Hrun _. revert Hrun. unfold step_eff. cbn [perform]. unfold etcd_reply.
  destruct (t_etcd (hd quiet ts)) as [[e []]|]; intros [= <- <-]; eauto.
Qed.
End rely.

(** A stronger promise serves as well. *)
Lemma kept_mono (P Q : db -> sqlop -> Prop) now l d : (forall d o, P d o -> Q d o) -> kept P now l d -> kept Q now l d.
Proof. intros Hpq. revert d. induction l as [|o l IH]; intros d; cbn [kept]; [done|]. intros [Ho Hl]. split; [by apply Hpq|by apply IH]. Qed.
Lemma relied_mono `{EtcdLaws E} (P Q : db -> sqlop -> Prop) (shown : E -> Prop) {A} (p : prog A) (w : world E) ts :
  (forall d o, P d o -> Q d o) -> relied P shown p w ts -> relied Q shown p w ts.
Proof.
  intros Hpq. revert w ts. induction p as [a|X e k IH]; intros w ts; cbn [relied]; [done|].
  destruct (step_eff e w ts) as [x w1]. intros [[Hk Hs] Hr]. split; [split; [by eapply kept_mono|done]|by apply IH].
Qed.
