(* ===== verification/ConfigLog.v ===== *)
(** * The changes of the configs

    What the writes of other clients make of the keys under [configs/]: the
    sequence of changes a watch delivers, and its relation to what a listing
    finds.  A store is the outcome of the changes so far. *)

From Stdlib Require Import Sorted.
From S2P Require Import Prelude GoStrings Etcd Db Effects Grows Hoare Rely Storage.
Local Open Scope string_scope.
Local Open Scope Z_scope.

Definition earlier (a b : watchEvent) : Prop := we_mod a < we_mod b.
(** The last change of its key. *)
Definition newest (l : list watchEvent) (x : watchEvent) : Prop :=
  x ∈ l /\ forall y, y ∈ l -> we_key y = we_key x -> we_mod y <= we_mod x.

Section log.
Context `{EtcdLaws E}.

Definition change_of (s : E) (o : envop) : list watchEvent :=
  match o with
  | EvPut k v => if has_prefix "configs/" k then [MkWatchEvent k (Some v) (et_rev s + 1)] else []
  | EvDel k =>
      match et_get s k with
      | Some _ => if has_prefix "configs/" k then [MkWatchEvent k None (et_rev s + 1)] else []
      | None => []
      end
  | EvCompact _ => []
  end.
Fixpoint changes_of (s : E) (l : list envop) : list watchEvent :=
  match l with
  | [] => []
  | o :: l => (change_of s o ++ changes_of (apply_env s o) l)%list
  end.

(** The entry a change leaves. *)
Definition leaves_entry (s : E) (x : watchEvent) : Prop :=
  match we_put x with
  | Some v => exists e, et_get s (we_key x) = Some e /\ kv_value e = v /\ kv_mod e = we_mod x
  | None => et_get s (we_key x) = None
  end.
Record log_of (past : list watchEvent) (s : E) : Prop := {
  log_sorted : StronglySorted earlier past;
  log_bound x : x ∈ past -> we_mod x <= et_rev s;
  log_configs x : x ∈ past -> has_prefix "configs/" (we_key x) = true;
  log_newest x : newest past x -> leaves_entry s x }.
(** The changes of a whole run, at a moment of it. *)
Definition shows (changes : list watchEvent) (s : E) : Prop :=
  exists past future, changes = (past ++ future)%list /\ log_of past s /\ forall x, x ∈ future -> et_rev s < we_mod x.

(** ** One write *)

Lemma change_mod s o x : x ∈ change_of s o -> we_mod x = et_rev s + 1 /\ et_rev (apply_env s o) = et_rev s + 1.
Proof.
  destruct o as [k v|k|r]; simpl; [| |by intros ?%elem_of_nil].
  - destruct (has_prefix _ k); [|by intros ?%elem_of_nil]. intros ->%list_elem_of_singleton. by rewrite rev_put.
  - rewrite rev_del. destruct (et_get s k); [|by intros ?%elem_of_nil]. destruct (has_prefix _ k); [|by intros ?%elem_of_nil].
    by intros ->%list_elem_of_singleton.
Qed.
Lemma changes_later s l x : x ∈ changes_of s l -> et_rev s < we_mod x.
Proof.
  revert s. induction l as [|o l IH]; intros s; simpl; [by intros ?%elem_of_nil|].
  intros [Hx|Hx]%elem_of_app; [apply change_mod in Hx; lia|]. apply IH in Hx. pose proof (rev_env s o). lia.
Qed.
Lemma changes_app s l1 l2 : changes_of s (l1 ++ l2) = (changes_of s l1 ++ changes_of (apply_envs s l1) l2)%list.
Proof.
  revert s. induction l1 as [|o l1 IH]; intros s; [done|]. simpl. by rewrite IH, app_assoc.
Qed.

Lemma sorted_snoc (l r : list watchEvent) :
  StronglySorted earlier l -> StronglySorted earlier r -> (forall x y, x ∈ l -> y ∈ r -> earlier x y) -> StronglySorted earlier (l ++ r).
Proof.
  intros Hl Hr Hlr. induction Hl as [|x l Hl IH Hx]; [done|]. cbn [app]. constructor.
  - apply IH. intros a b Ha. apply Hlr. by right.
  - apply Forall_app. split; [done|]. apply Forall_forall. intros y Hy. apply Hlr; [by left|done].
Qed.
Lemma change_sorted s o : StronglySorted earlier (change_of s o).
Proof. destruct o as [k v|k|r]; simpl; repeat case_match; repeat constructor. Qed.

(** What a write leaves in place. *)
Lemma untouched_entry s o x : touches (we_key x) o = false -> leaves_entry s x -> leaves_entry (apply_env s o) x.
Proof.
  unfold leaves_entry. destruct o as [k v|k|r]; simpl; intros Ht.
  - rewrite get_put_other; [done|]. intros ->. by rewrite String.eqb_refl in Ht.
  - rewrite get_del_other; [done|]. intros ->. by rewrite String.eqb_refl in Ht.
  - by rewrite get_compact.
Qed.
(** A write to a config key is a change of it, unless it deletes nothing. *)
Lemma touched_entry s o k :
  et_wf s -> touches k o = true -> has_prefix "configs/" k = true ->
  (exists x, change_of s o = [x] /\ we_key x = k /\ leaves_entry (apply_env s o) x) \/
  (change_of s o = [] /\ et_get s k = None /\ et_get (apply_env s o) k = None).
Proof.
  destruct o as [k' v|k'|r]; simpl; [| |done]; intros Hs ->%String.eqb_eq Hk; rewrite Hk.
  - left. eexists. split; [done|]. split; [done|]. unfold leaves_entry. simpl. rewrite get_put_same by done.
    eexists. split; [done|]. by destruct (et_get s k').
  - destruct (et_get s k') as [e|] eqn:Hg.
    + left. eexists. split; [done|]. split; [done|]. unfold leaves_entry. simpl. by rewrite get_del_same.
    + right. by rewrite get_del_same.
Qed.

Lemma change_key s o x : x ∈ change_of s o -> touches (we_key x) o = true /\ has_prefix "configs/" (we_key x) = true.
Proof.
  destruct o as [k v|k|r]; simpl; repeat case_match; try by intros ?%elem_of_nil.
  all: intros ->%list_elem_of_singleton; simpl; by rewrite String.eqb_refl.
Qed.

Lemma log_step past s o : et_wf s -> log_of past s -> log_of (past ++ change_of s o) (apply_env s o).
Proof.
  intros Hs [Hsort Hb Hc Hn]. split.
  - apply sorted_snoc; [done|apply change_sorted|]. intros x y Hx [Hy _]%change_mod. specialize (Hb x Hx). unfold earlier. lia.
  - intros x [Hx|Hx]%elem_of_app; [|apply change_mod in Hx; lia]. specialize (Hb x Hx). pose proof (rev_env s o). lia.
  - intros x [Hx|Hx]%elem_of_app; [by apply Hc|by eapply change_key].
  - intros x [Hx Hmax].
    assert (Hold : x ∈ past -> newest past x) by (intros Hp; split; [done|]; intros y Hy; apply Hmax, elem_of_app; by left).
    destruct (touches (we_key x) o) eqn:Ht.
    + assert (Hk : has_prefix "configs/" (we_key x) = true) by (apply elem_of_app in Hx as [Hx|Hx]; [by apply Hc|by eapply change_key]).
      destruct (touched_entry s o (we_key x) Hs Ht Hk) as [(y & Hy & Hkey & Hl)|(Hnil & Hg & Hg')].
      * rewrite Hy in Hx, Hmax. apply elem_of_app in Hx as [Hx| ->%list_elem_of_singleton]; [|done].
        specialize (Hmax y ltac:(apply elem_of_app; right; by left) Hkey). specialize (Hb x Hx).
        destruct (change_mod s o y) as [Hm _]; [rewrite Hy; by left|]. lia.
      * rewrite Hnil, app_nil_r in Hx. specialize (Hn x (Hold Hx)). unfold leaves_entry in *.
        destruct (we_put x); [|done]. destruct Hn as (e & He & _). congruence.
    + apply untouched_entry; [done|]. apply elem_of_app in Hx as [Hx|Hx]; [by apply Hn, Hold|]. apply change_key in Hx as [Hx _]. congruence.
Qed.
Lemma log_steps past s l : et_wf s -> log_of past s -> log_of (past ++ changes_of s l) (apply_envs s l).
Proof.
  unfold apply_envs. revert past s. induction l as [|o l IH]; intros past s Hs Hl; simpl; [by rewrite app_nil_r|].
  rewrite app_assoc. apply IH; [by apply wf_env|by apply log_step].
Qed.
Lemma log_shows past s l : log_of past s -> shows (past ++ changes_of s l) s.
Proof. intros Hl. exists past, (changes_of s l). split_and!; [done..|]. intros x. apply changes_later. Qed.

(** ** A run that only reads etcd *)

Definition reads_etcd : allowed :=
  fun X e => match e with ETxn _ _ | EPutLease _ _ _ | EDelete _ => false | _ => true end.
Lemma reading_step {X} (e : eff X) (w : world E) ts :
  reads_etcd X e = true -> w_etcd (step_eff e w ts).2 = w_etcd (interfere (hd quiet ts) w).
Proof.
  unfold step_eff. generalize (hd quiet ts). intros t. generalize (interfere t w). clear w. intros w He.
  destruct e as [k|k r|q|g o|k v ttl|k|B q| |d b| |m]; try done; cbn [perform];
    try match goal with |- context [etcd_reply ?t ?w ?f] => destruct (etcd_reply_world t w f) as [-> | ->]; done end.
  - by destruct (t_etcd t) as [[]|].
  - destruct (db_reply_world t w q) as [-> | (a & d & _ & ->)]; done.
  - by destruct (t_kafka t).
Qed.
Definition env_of (ts : list turn) : list envop := concat (t_env <$> ts).
Lemma env_of_hd ts : env_of ts = (t_env (hd quiet ts) ++ env_of (tl ts))%list.
Proof using. by destruct ts. Qed.
(** The store after all writes that are still to come. *)
Definition in_the_end (w : world E) (ts : list turn) : E := apply_envs (w_etcd w) (env_of ts).
Lemma in_the_end_now (w : world E) ts : in_the_end w ts = apply_envs (w_etcd (interfere (hd quiet ts) w)) (env_of (tl ts)).
Proof. unfold in_the_end. rewrite env_of_hd, interfere_etcd. unfold apply_envs. by rewrite fold_left_app. Qed.
Lemma reading_run {A} (p : prog A) (w : world E) ts a w' ts' :
  uses reads_etcd p -> run p w ts = (a, w', ts') -> in_the_end w' ts' = in_the_end w ts.
Proof.
  revert w ts. induction p as [b|X e k IH]; intros w ts; cbn [uses run]; [intros _ [= _ <- <-]; done|].
  intros [He Hu]. destruct (step_eff e w ts) as [x w1] eqn:Es. intros Hr. rewrite (IH _ _ _ (Hu x) Hr), (in_the_end_now w).
  unfold in_the_end. rewrite <-(reading_step e w ts He). by rewrite Es.
Qed.
(** Every moment of it shows the changes of the whole. *)
Lemma relied_shows (P : db -> sqlop -> Prop) {A} (p : prog A) past (w : world E) ts :
  uses reads_etcd p -> et_wf (w_etcd w) -> log_of past (w_etcd w) -> relied P anything p w ts ->
  relied P (shows (past ++ changes_of (w_etcd w) (env_of ts))) p w ts.
Proof.
  revert past w ts. induction p as [a|X e k IH]; intros past w ts; cbn [relied uses]; [done|]. intros [He Hu] Hwf Hl.
  pose proof (reading_step e w ts He) as Hs. rewrite interfere_etcd in *.
  rewrite env_of_hd, changes_app, app_assoc. set (s := apply_envs (w_etcd w) (t_env (hd quiet ts))) in *.
  assert (Hl1 : log_of (past ++ changes_of (w_etcd w) (t_env (hd quiet ts))) s) by (by apply log_steps).
  destruct (step_eff e w ts) as [x w1]. cbn [snd] in Hs. intros [[Hk _] Hr]. split; [split; [done|by apply log_shows]|].
  rewrite <-Hs in *. apply IH; [by apply Hu| |done..]. rewrite Hs. by apply wf_envs.
Qed.
End log.
