(* ===== verification/Auth.v ===== *)
(** * Tokens and sessions ([internal/server/rest_server.go], auth parts)

    Token checks, the blacklist, login and logout, and the response shapes of
    the REST server.  The JWT and bcrypt packages and gin's request binding are
    third-party: they are the classes [Jwt], [Bcrypt] and [Gin]. *)

From S2P Require Import Prelude GoStrings Json JsonNormal Decode ConfigDoc Validation Etcd Db Effects Cas HsiConfig Storage.
Local Open Scope string_scope.
Local Open Scope Z_scope.
Local Open Scope go_scope.

(** [jwt.Parse] under HS256 with a secret at a time: [None] is its error,
    otherwise [token.Valid] and the claims; and [SignedString]. *)
Class Jwt := {
  jwt_parse : string -> Z -> string -> option (bool * list (string * any));
  jwt_sign : string -> list (string * any) -> option string }.
(** [GenerateFromPassword] draws a salt. *)
Class Bcrypt := {
  bcrypt_compare : string -> string -> bool;
  bcrypt_generate : string -> string -> option string }.
(** [ShouldBindJSON] decodes the first JSON value of the body. *)
Class Gin := { bind_json : string -> option json }.

(** ** Requests and responses *)

(** The parts of [gin.Context] the handlers read; an absent header or
    parameter is empty. *)
Record Context := MkContext {
  Authorization : string; RequestBody : string;
  Param_nodeId : string; Param_userId : string; Param_username : string; Param_domain : string;
  Query_event_type : string }.
(** No body after a recovered panic. *)
Record response := Resp { StatusCode : Z; ResponseBody : option json }.
Definition JSON (code : Z) (body : json) : response := Resp code (Some body).
Definition error_json (msg : string) : json := JObj [("error", JStr msg)].
Definition message_json (msg : string) : json := JObj [("message", JStr msg)].
Definition fail_with (code : Z) (msg : string) : response := JSON code (error_json msg).
Definition StatusOK : Z := 200.
Definition StatusBadRequest : Z := 400.
Definition StatusUnauthorized : Z := 401.
Definition StatusNotFound : Z := 404.
Definition StatusConflict : Z := 409.
Definition StatusUnprocessableEntity : Z := 422.
Definition StatusInternalServerError : Z := 500.
Definition StatusServiceUnavailable : Z := 503.

Definition respondValidationError (e : Error) : response :=
  if Conflict e then fail_with StatusConflict (Validation.Msg e) else fail_with StatusBadRequest (Validation.Msg e).

(** [if err := rule; err != nil { respondValidationError(c, err); return }] *)
Definition require (rule : option Error) (k : prog response) : prog response :=
  match rule with Some e => Ret (respondValidationError e) | None => k end.

Section auth.
Context {JW : Jwt} {BC : Bcrypt} {GN : Gin}.

Definition ShouldBindJSON {A} (d : dec A) (zero : A) (c : Context) : option A :=
  letopt j := bind_json (RequestBody c) in d zero j.

(** ** Tokens *)

Definition bearerToken (header : string) : string :=
  let prefix := "bearer " in
  if (String.length prefix <=? String.length header)%nat &&
     equal_fold (stake (String.length prefix) header) prefix
  then trim_space (sdrop (String.length prefix) header)
  else header.

Definition generateToken (jwtSecret username : string) (now : Z) : option string :=
  jwt_sign jwtSecret [("exp", AInt ((now + 2 * 3600 * 1000000000) / 1000000000)); ("username", AStr username)].

(** [validateToken] and the [token.Valid] test that follows each call. *)
Definition validateToken (jwtSecret tokenString : string) (now : Z) : option (list (string * any)) :=
  match jwt_parse jwtSecret now tokenString with
  | Some (true, claims) => Some claims
  | _ => None
  end.
Definition getUserFromToken (jwtSecret tokenString : string) (now : Z) : option string :=
  letopt claims := validateToken jwtSecret tokenString now in
  match kget "username" claims with Some (AStr username) => Some username | _ => None end.

Definition blacklistKey (tokenString : string) : string := "token_blacklist/" +:+ tokenString.

(** The username of the header's token, or the 401 the handlers answer. *)
Definition caller_of (jwtSecret : string) (c : Context) (k : string -> prog response) : prog response :=
  do! now := call ENow in
  match getUserFromToken jwtSecret (bearerToken (Authorization c)) now with
  | Some username => k username
  | None => Ret (fail_with StatusUnauthorized "Failed to get user from token")
  end.

(** ** Middleware: [None] is [c.Next()] *)

Definition validatePathIDs (c : Context) : option response :=
  let node := if String.eqb (Param_nodeId c) "" then None else ValidateNodeID (Param_nodeId c) in
  match node with
  | Some e => Some (respondValidationError e)
  | None =>
      let user := if String.eqb (Param_userId c) "" then None else ValidateUserID (Param_userId c) in
      match user with Some e => Some (respondValidationError e) | None => None end
  end.

Definition AuthMiddlewareWithBlacklist (jwtSecret : string) (c : Context) : prog (option response) :=
  if String.eqb (Authorization c) "" then Ret (Some (fail_with StatusUnauthorized "Missing Authorization header"))
  else
    let tokenString := bearerToken (Authorization c) in
    do! now := call ENow in
    match validateToken jwtSecret tokenString now with
    | None => Ret (Some (fail_with StatusUnauthorized "Invalid token"))
    | Some _ =>
        do! resp := call (EGet (blacklistKey tokenString)) in
        match resp with
        | Err _ => Ret (Some (fail_with StatusInternalServerError "Authentication service unavailable"))
        | Ok (Some _) => Ret (Some (fail_with StatusUnauthorized "Token has been revoked"))
        | Ok None => Ret None
        end
    end.

(** ** Sessions *)

Definition userKey (username : string) : string := "users/" +:+ username.
(** An absent user reads as the empty hash. *)
Definition getUserPassword (username : string) : prog (result eerr string) :=
  do? resp := call (EGet (userKey username)) in
  Ret (Ok (match resp with Some e => kv_value e | None => "" end)).

Record credentials := MkCred { cr_Username : string; cr_Password : string }.
Definition d_credentials : dec credentials := d_struct
  [fld "username" cr_Username (fun v c => MkCred v (cr_Password c)) d_string;
   fld "password" cr_Password (fun v c => MkCred (cr_Username c) v) d_string].

(** The comparison with [dummyPasswordHash] only takes time. *)
Definition Login (jwtSecret : string) (c : Context) : prog response :=
  match ShouldBindJSON d_credentials (MkCred "" "") c with
  | None => Ret (fail_with StatusBadRequest "Invalid request")
  | Some req =>
      do! stored := getUserPassword (cr_Username req) in
      match stored with
      | Err _ => Ret (fail_with StatusInternalServerError "Failed to read from etcd")
      | Ok hashedPassword =>
          if String.eqb hashedPassword "" then Ret (fail_with StatusUnauthorized "Invalid credentials")
          else if negb (bcrypt_compare hashedPassword (cr_Password req))
          then Ret (fail_with StatusUnauthorized "Invalid credentials")
          else
            do! now := call ENow in
            match generateToken jwtSecret (cr_Username req) now with
            | None => Ret (fail_with StatusInternalServerError "Failed to generate token")
            | Some token => Ret (JSON StatusOK (JObj [("token", JStr token)]))
            end
      end
  end.

Definition VerifyPassword (jwtSecret : string) (c : Context) : prog response :=
  match ShouldBindJSON (d_struct [fld "password" (fun p => p) (fun v _ => v) d_string]) "" c with
  | None => Ret (fail_with StatusBadRequest "Invalid request")
  | Some password =>
      if String.eqb password "" then Ret (fail_with StatusBadRequest "Password is required")
      else
        do! now := call ENow in
        match getUserFromToken jwtSecret (bearerToken (Authorization c)) now with
        | None => Ret (fail_with StatusUnauthorized "Invalid token")
        | Some username =>
            do! stored := getUserPassword username in
            match stored with
            | Err _ => Ret (fail_with StatusInternalServerError "Failed to read from etcd")
            | Ok hashedPassword =>
                if String.eqb hashedPassword "" then Ret (fail_with StatusBadRequest "User not found")
                else if negb (bcrypt_compare hashedPassword password)
                then Ret (fail_with StatusBadRequest "Invalid password")
                else Ret (JSON StatusOK (message_json "Password verified"))
            end
        end
  end.

(** Slicing the header for the log panics when it is shorter than 20 bytes;
    gin's recovery answers 500. *)
Definition Logout (jwtSecret : string) (c : Context) : prog response :=
  if String.eqb (Authorization c) "" then Ret (fail_with StatusBadRequest "No token provided")
  else
    let tokenString := bearerToken (Authorization c) in
    do! now := call ENow in
    match validateToken jwtSecret tokenString now with
    | None => Ret (fail_with StatusUnauthorized "Invalid token")
    | Some claims =>
        match kget "exp" claims with
        | Some (ANum expVal) =>
            do! now := call ENow in
            let ttl := wrap64 (float_to_int64 expVal - now / 1000000000) in
            if 0 <? ttl then
              do! put := call (EPutLease (blacklistKey tokenString) "revoked" ttl) in
              match put with
              | Err _ => Ret (fail_with StatusInternalServerError "Failed to logout")
              | Ok _ => if (String.length (Authorization c) <? 20)%nat then Ret (Resp StatusInternalServerError None)
                        else Ret (JSON StatusOK (message_json "Logged out successfully"))
              end
            else Ret (JSON StatusOK (message_json "Logged out successfully"))
        | _ => Ret (fail_with StatusUnauthorized "Invalid token")
        end
    end.
End auth.

(** ** Documented behaviour of the packages, and instances for examples *)

(** The claims of a parsed token are decoded JSON, whose strings are UTF-8. *)
Class JwtLaws `{Jwt} : Prop :=
  jwt_username_valid : forall secret now token ok claims u,
    jwt_parse secret now token = Some (ok, claims) -> kget "username" claims = Some (AStr u) -> valid_utf8 u = true.
(** Binding decodes JSON. *)
Class GinLaws `{Gin} : Prop := bind_json_wf : forall body j, bind_json body = Some j -> wf_json j = true.

(** Tokens that spell secret, dot, username, all with one expiry. *)
Definition plain_parse (secret : string) (now : Z) (token : string) : option (bool * list (string * any)) :=
  letopt user := strip_prefix (secret +:+ ".") token in
  if valid_utf8 user && (now <? 1900000000 * 1000000000) then Some (true, [("exp", ANum (FInt 1900000000)); ("username", AStr user)]) else None.
Definition plain_jwt : Jwt := {|
  jwt_parse := plain_parse;
  jwt_sign secret claims := match kget "username" claims with Some (AStr u) => Some (secret +:+ "." +:+ u) | _ => None end |}.
Lemma plain_jwt_laws : @JwtLaws plain_jwt.
Proof.
  intros secret now token ok claims u. simpl. unfold plain_parse. destruct (strip_prefix _ token) as [user|]; [|done].
  destruct (valid_utf8 user) eqn:E; [|done]. destruct (now <? _); [|done]. intros [= <- <-]. cbn. by intros [= <-].
Qed.
Definition plain_gin : Gin := {| bind_json := decode |}.
Lemma plain_gin_laws : @GinLaws plain_gin.
Proof. intros body j. apply decode_wf. Qed.
Definition plain_bcrypt : Bcrypt := {|
  bcrypt_compare hash password := String.eqb hash ("#" +:+ password);
  bcrypt_generate salt password := Some ("#" +:+ password) |}.
