(* ===== verification/NetIP.v ===== *)
(** * IP addresses ([internal/utils])

    [net.ParseIP] as the standard library defines it (dotted quads and IPv6
    with an embedded quad), [ParseIPRange] and [IPv4toInt], and the size of an
    address pool computed from them. *)

From S2P Require Import Prelude GoStrings Json.
Local Open Scope string_scope.
Local Open Scope Z_scope.
Local Open Scope go_scope.

(** ** [netip.ParseAddr] *)

(** One field of a quad: one to three digits without a leading zero, at most
    255. *)
Definition quad_field (w : string) : option Z :=
  match w with
  | EmptyString => None
  | String c r =>
      if negb (all_digits w) then None
      else if Ascii.eqb c "0" && negb (String.eqb r "") then None
      else letopt v := parse_digits w 0 in if 255 <? v then None else Some v
  end.
Definition parse_quad (s : string) : option (list Z) :=
  letopt fields := mapM quad_field (split_on "." s) in
  if (length fields =? 4)%nat then Some fields else None.

(** The leading hexadecimal digits: at most four; the rest starts with another
    byte. *)
Fixpoint hex_group (n : nat) (acc : Z) (s : string) : option (Z * string) :=
  match s with
  | EmptyString => Some (acc, "")
  | String c r =>
      match hex_val c, n with
      | None, _ => Some (acc, s)
      | Some v, S n => hex_group n (acc * 16 + v) r
      | Some _, O => None
      end
  end.

(** The groups from byte [length done] on; [ell] is where an ellipsis was met.
    Returns the bytes and the ellipsis.  Eight groups at most: the fuel is the
    number of groups left. *)
Fixpoint v6_groups (groups : nat) (s : string) (done : list Z) (ell : option nat) : option (list Z * option nat) :=
  match groups with
  | O => None
  | S groups =>
      letopt (acc, r) := hex_group 4 0 s in
      if String.eqb r s then None else
      match r with
      | EmptyString => Some ((done ++ [acc / 256; acc mod 256])%list, ell)
      | String c r1 =>
          if Ascii.eqb c "." then
            if (match ell with None => negb (length done =? 12)%nat | Some _ => false end) || (12 <? length done)%nat then None
            else letopt q := parse_quad s in Some ((done ++ q)%list, ell)
          else if negb (Ascii.eqb c ":") then None
          else
            let done := (done ++ [acc / 256; acc mod 256])%list in
            match r1 with
            | EmptyString => None
            | String c2 r2 =>
                if Ascii.eqb c2 ":" then
                  match ell with
                  | Some _ => None
                  | None => if String.eqb r2 "" then Some (done, Some (length done))
                            else v6_groups groups r2 done (Some (length done))
                  end
                else v6_groups groups r1 done ell
            end
      end
  end.
Definition expand (bs : list Z) (ell : option nat) : option (list Z) :=
  match ell with
  | None => if (length bs =? 16)%nat then Some bs else None
  | Some e => if (length bs <? 16)%nat
              then Some (take e bs ++ replicate (16 - length bs) 0 ++ drop e bs)%list else None
  end.
(** A zone makes [net.ParseIP] fail. *)
Definition parse_v6 (s : string) : option (list Z) :=
  if has_byte "%" s then None
  else match strip_prefix "::" s with
       | Some "" => Some (replicate 16 0)
       | Some r => letopt (bs, ell) := v6_groups 8 r [] (Some 0%nat) in expand bs ell
       | None => letopt (bs, ell) := v6_groups 8 s [] None in expand bs ell
       end.
Definition v4_in_v6 (q : list Z) : list Z := (replicate 10 0 ++ [255; 255] ++ q)%list.
Fixpoint first_of (s : string) : option ascii :=
  match s with
  | EmptyString => None
  | String c r => if Ascii.eqb c "." || Ascii.eqb c ":" || Ascii.eqb c "%" then Some c else first_of r
  end.
(** The 16 bytes of [net.ParseIP]; [None] is its nil. *)
Definition ParseIP (s : string) : option (list Z) :=
  match first_of s with
  | Some c => if Ascii.eqb c "." then v4_in_v6 <$> parse_quad s
              else if Ascii.eqb c ":" then parse_v6 s else None
  | None => None
  end.
Definition To4 (ip : list Z) : option (list Z) :=
  if bool_decide (take 12 ip = replicate 10 0 ++ [255; 255])%list then Some (drop 12 ip) else None.

(** ** [utils.go] *)

(** The two ends may be nil. *)
Definition ParseIPRange (ipRange : string) : option (option (list Z) * option (list Z)) :=
  match split_on "-" (trim_space ipRange) with
  | [p0; p1] => Some (ParseIP (trim_space p0), ParseIP (trim_space p1))
  | _ => None
  end.
Definition big_endian (bs : list Z) : Z := fold_left (fun acc b => acc * 256 + b) bs 0.
Definition IPv4toInt (ip : option (list Z)) : option Z :=
  letopt ip := ip in letopt q := To4 ip in Some (big_endian q).

Example parse_v4_sample : ParseIP "192.168.3.100" = Some (v4_in_v6 [192; 168; 3; 100]). Proof. vm_compute. done. Qed.
Example parse_leading_zero : ParseIP "192.168.03.1" = None /\ ParseIP "1.2.3.256" = None /\ ParseIP "1.2.3" = None.
Proof. vm_compute. done. Qed.
Example parse_v6_sample : ParseIP "2001:db8::1:0" = Some [32; 1; 13; 184; 0; 0; 0; 0; 0; 0; 0; 0; 0; 1; 0; 0].
Proof. vm_compute. done. Qed.
Example parse_mapped : IPv4toInt (ParseIP "::ffff:10.0.0.7") = Some (10 * 2 ^ 24 + 7) /\ IPv4toInt (ParseIP "::1") = None.
Proof. vm_compute. done. Qed.
Example parse_v6_bad : ParseIP "1::2::3" = None /\ ParseIP "1:2:3" = None /\ ParseIP "fe80::1%eth0" = None /\ ParseIP "12345::" = None.
Proof. vm_compute. done. Qed.

(** ** Bounds *)

Definition byte_ok (b : Z) : Prop := 0 <= b < 256.
Lemma quad_field_ok w b : quad_field w = Some b -> byte_ok b.
Proof.
  unfold quad_field. destruct w as [|c r]; [done|]. destruct (negb _) eqn:Ed; [done|]. destruct (_ && _); [done|].
  destruct (parse_digits (String c r) 0) as [v|] eqn:Ep; [|done]. destruct (Z.ltb_spec 255 v); [done|]. intros [= <-].
  apply negb_false_iff in Ed. pose proof (parse_digits_mono (String c r) 0 v ltac:(lia) Ep). unfold byte_ok. lia.
Qed.
Lemma parse_quad_ok s q : parse_quad s = Some q -> length q = 4%nat /\ Forall byte_ok q.
Proof.
  unfold parse_quad. destruct (mapM quad_field (split_on "." s)) as [l|] eqn:Em; [|done].
  destruct (Nat.eqb_spec (length l) 4); [|done]. intros [= <-]. split; [done|]. apply mapM_Some in Em.
  clear -Em. induction Em as [|w b ws bs Hw _ IH]; [constructor|]. constructor; [by eapply quad_field_ok|done].
Qed.
Lemma hex_group_ok n acc s v r : 0 <= acc -> hex_group n acc s = Some (v, r) -> 0 <= v < (acc + 1) * 16 ^ Z.of_nat n.
Proof.
  revert acc s. induction n as [|n IH]; intros acc [|c s] Ha; cbn [hex_group]; try (intros [= <- <-]; lia).
  - destruct (hex_val c); [done|]. intros [= <- <-]. lia.
  - intros [= <- <-]. pose proof (Z.pow_pos_nonneg 16 (Z.of_nat (S n)) ltac:(lia) ltac:(lia)). nia.
  - destruct (hex_val c) as [d|] eqn:Ed.
    + intros Hh. assert (0 <= d < 16) by (revert Ed; unfold hex_val; repeat case_match; intros [= <-]; bool_hyps; unfold between in *; bool_hyps; lia).
      apply IH in Hh; [|lia]. replace (Z.of_nat (S n)) with (1 + Z.of_nat n) by lia. rewrite Z.pow_add_r by lia.
      pose proof (Z.pow_pos_nonneg 16 (Z.of_nat n) ltac:(lia) ltac:(lia)). nia.
    + intros [= <- <-]. pose proof (Z.pow_pos_nonneg 16 (Z.of_nat (S n)) ltac:(lia) ltac:(lia)). nia.
Qed.
Lemma group_bytes s v r : hex_group 4 0 s = Some (v, r) -> Forall byte_ok [v / 256; v mod 256].
Proof.
  intros Hh. apply hex_group_ok in Hh; [|lia]. unfold byte_ok.
  repeat constructor; Z.to_euclidean_division_equations; lia.
Qed.
Lemma v6_groups_ok g s bs ell out : Forall byte_ok bs -> v6_groups g s bs ell = Some out -> Forall byte_ok out.1.
Proof.
  revert s bs ell. induction g as [|g IH]; intros s bs ell Hb; cbn [v6_groups]; [done|].
  destruct (hex_group 4 0 s) as [[v r]|] eqn:Eh; [|done]. destruct (String.eqb r s); [done|].
  pose proof (group_bytes _ _ _ Eh) as Hg.
  assert (Hgo : Forall byte_ok (bs ++ [v / 256; v mod 256])) by (by apply Forall_app).
  destruct r as [|c r1]; [by intros [= <-]|]. destruct (Ascii.eqb c ".").
  - destruct (_ || _); [done|]. destruct (parse_quad s) as [q|] eqn:Eq; [|done]. intros [= <-].
    apply parse_quad_ok in Eq as [_ Hq]. by apply Forall_app.
  - destruct (negb _); [done|]. destruct r1 as [|c2 r2]; [done|]. destruct (Ascii.eqb c2 ":"); [|by apply IH].
    destruct ell; [done|]. destruct (String.eqb r2 ""); [by intros [= <-]|by apply IH].
Qed.
Lemma expand_ok bs ell out : Forall byte_ok bs -> expand bs ell = Some out -> length out = 16%nat /\ Forall byte_ok out.
Proof.
  intros Hb. unfold expand. destruct ell as [e|].
  - destruct (Nat.ltb_spec (length bs) 16); [|done]. intros [= <-].
    rewrite !length_app, length_take, length_replicate, length_drop. split; [lia|].
    rewrite !Forall_app. split_and!; [by apply Forall_take|by apply Forall_replicate|by apply Forall_drop].
  - destruct (Nat.eqb_spec (length bs) 16); [|done]. by intros [= <-].
Qed.
Lemma ParseIP_ok s ip : ParseIP s = Some ip -> length ip = 16%nat /\ Forall byte_ok ip.
Proof.
  unfold ParseIP. destruct (first_of s) as [c|]; [|done]. destruct (Ascii.eqb c ".").
  - destruct (parse_quad s) as [q|] eqn:Eq; [|done]. intros [= <-]. apply parse_quad_ok in Eq as [Hl Hq].
    unfold v4_in_v6. simpl. rewrite Hl. split; [done|]. by repeat (constructor; [unfold byte_ok; lia|]).
  - destruct (Ascii.eqb c ":"); [|done]. unfold parse_v6. destruct (has_byte "%" s); [done|].
    assert (Hgo : forall r ell, (letopt (bs, ell) := v6_groups 8 r [] ell in expand bs ell) = Some ip ->
      length ip = 16%nat /\ Forall byte_ok ip).
    { intros r ell. destruct (v6_groups 8 r [] ell) as [[bs e]|] eqn:Eg; [|done]. intros He.
      eapply expand_ok; [|exact He]. change bs with (bs, e).1. by eapply v6_groups_ok; [|exact Eg]. }
    destruct (strip_prefix "::" s) as [[|d r]|]; [|apply Hgo..].
    intros [= <-]. split; [done|]. by repeat constructor.
Qed.
Lemma IPv4toInt_range s v : IPv4toInt (ParseIP s) = Some v -> 0 <= v < 2 ^ 32.
Proof.
  unfold IPv4toInt. destruct (ParseIP s) as [ip|] eqn:Ep; [|done]. apply ParseIP_ok in Ep as [Hl Hb].
  unfold To4. destruct (bool_decide _); [|done]. intros [= <-].
  do 16 (destruct ip as [|? ip]; [done|]). destruct ip; [|done]. repeat rewrite Forall_cons in Hb.
  unfold byte_ok in Hb. unfold big_endian. simpl. lia.
Qed.
