(* ===== verification/NodeMonitor.v ===== *)
(** * The node monitor manager ([internal/server/node_monitor.go])

    The table of node connections, the NIC-model fetch, the republish targets
    and the config-confirmation sweep.  Every operation on the manager holds its
    mutex, so it is one function on the manager's state; what the node answers
    to a remote call is an argument. *)

From S2P Require Import Prelude GoStrings Json JsonNormal Decode GoTime ConfigDoc Etcd Db Effects Cas Storage.
Local Open Scope string_scope.
Local Open Scope Z_scope.
Local Open Scope go_scope.

(** ** State *)

(** [nm_conn] names the connection of the monitor. *)
Record NodeMonitor := MkMonitor { nm_nodeUUID : string; nm_nodeIP : string; nm_nodeGRPCPort : Z; nm_conn : nat }.
#[export] Instance NodeMonitor_eq_dec : EqDecision NodeMonitor.
Proof. solve_decision. Defined.
Record configConfirmState := MkConfirm { unconfirmedSince : Z; nextNudge : Z; cs_backoff : Z }.

(** [conns] counts the connections dialled so far and [closed] lists the closed
    ones. *)
Record NodeMonitorManager := MkManager {
  monitors : gmap string NodeMonitor;
  nicFetchInFlight : gset string;
  mgr_leader : bool;
  mgr_database : bool;
  confirmState : gmap string configConfirmState;
  conns : nat;
  closed : list nat }.
Definition NewNodeMonitorManager (database : bool) : NodeMonitorManager := MkManager ∅ ∅ false database ∅ 0 [].

Definition set_monitors (t : gmap string NodeMonitor) (n : nat) (c : list nat) (m : NodeMonitorManager) : NodeMonitorManager :=
  MkManager t (nicFetchInFlight m) (mgr_leader m) (mgr_database m) (confirmState m) n c.
Definition set_in_flight (s : gset string) (m : NodeMonitorManager) : NodeMonitorManager :=
  MkManager (monitors m) s (mgr_leader m) (mgr_database m) (confirmState m) (conns m) (closed m).
Definition set_confirm (s : gmap string configConfirmState) (m : NodeMonitorManager) : NodeMonitorManager :=
  MkManager (monitors m) (nicFetchInFlight m) (mgr_leader m) (mgr_database m) s (conns m) (closed m).
Definition SetLeader (v : bool) (m : NodeMonitorManager) : NodeMonitorManager :=
  MkManager (monitors m) (nicFetchInFlight m) v (mgr_database m) (confirmState m) (conns m) (closed m).
Definition SetDatabase (v : bool) (m : NodeMonitorManager) : NodeMonitorManager :=
  MkManager (monitors m) (nicFetchInFlight m) (mgr_leader m) v (confirmState m) (conns m) (closed m).
Definition IsLeader (m : NodeMonitorManager) : bool := mgr_leader m.

(** ** Monitors *)

(** Does [grpc.NewClient] accept the address?  It parses its target and does
    not connect. *)
Class NodeDial := dial : string -> bool.

Definition DefaultNodeGRPCPort : Z := 50052.
Definition resolveNodeGRPCPort (reported : Z) : Z := if reported =? 0 then DefaultNodeGRPCPort else reported.

Definition stopMonitoringLocked (nodeUUID : string) (m : NodeMonitorManager) : NodeMonitorManager :=
  match monitors m !! nodeUUID with
  | None => m
  | Some monitor => set_monitors (delete nodeUUID (monitors m)) (conns m) (nm_conn monitor :: closed m) m
  end.
Definition StopMonitoring (nodeUUID : string) (m : NodeMonitorManager) : NodeMonitorManager := stopMonitoringLocked nodeUUID m.

Section start.
Context {D : NodeDial}.

Definition open_monitor (nodeUUID nodeIP : string) (port : Z) (m : NodeMonitorManager) : bool * NodeMonitorManager :=
  if dial (nodeIP +:+ ":" +:+ format_uint port)
  then (true, set_monitors (<[nodeUUID := MkMonitor nodeUUID nodeIP port (conns m)]> (monitors m)) (S (conns m)) (closed m) m)
  else (false, m).
(** The flag is [err == nil]. *)
Definition StartMonitoring (nodeUUID nodeIP : string) (grpcPort : Z) (m : NodeMonitorManager) : bool * NodeMonitorManager :=
  let port := resolveNodeGRPCPort grpcPort in
  match monitors m !! nodeUUID with
  | Some existing =>
      if String.eqb (nm_nodeIP existing) nodeIP && (nm_nodeGRPCPort existing =? port) then (true, m)
      else open_monitor nodeUUID nodeIP port (stopMonitoringLocked nodeUUID m)
  | None => open_monitor nodeUUID nodeIP port m
  end.
End start.

(** ** NIC models *)

Definition beginNicFetch (nodeUUID : string) (m : NodeMonitorManager) : bool * NodeMonitorManager :=
  if bool_decide (nodeUUID ∈ nicFetchInFlight m) then (false, m)
  else (true, set_in_flight ({[nodeUUID]} ∪ nicFetchInFlight m) m).
Definition endNicFetch (nodeUUID : string) (m : NodeMonitorManager) : NodeMonitorManager :=
  set_in_flight (nicFetchInFlight m ∖ {[nodeUUID]}) m.

(** The errors of the node closures; the last is the panic of an assignment to
    the nil map a JSON [null] decodes to. *)
Inductive nodeerr := errNodeNotRegistered | errNodeNoLongerStale | errInvalidNodeData | NilMapPanic.
#[export] Instance nodeerr_eq_dec : EqDecision nodeerr.
Proof. solve_decision. Defined.

Definition node_key (nodeUUID : string) : string := "nodes/" +:+ nodeUUID.
(** The map a closure goes on to write. *)
Definition node_map (current : option string) : result nodeerr (list (string * any)) :=
  match current with
  | None => Err errNodeNotRegistered
  | Some cur => match unmarshal_map cur with
                | None => Err errInvalidNodeData
                | Some None => Err NilMapPanic
                | Some (Some nodeData) => Ok nodeData
                end
  end.
Definition nicModels_mutate (wanModel lanModel : string) (current : option string) (now : Z)
  : result nodeerr (CASResult * unit) :=
  let? nodeData := node_map current in
  Ok (cas_put (marshal_map (kset "nic_model_lan" (AStr lanModel) (kset "nic_model_wan" (AStr wanModel) nodeData))), tt).
Definition doWriteNicModels (nodeUUID wanModel lanModel : string) : prog (result (caserr nodeerr) unit) :=
  CAS (node_key nodeUUID) (nicModels_mutate wanModel lanModel).

(** A panic ends the process, so it is not retried. *)
Fixpoint writeNicModels_loop (retries : nat) (nodeUUID wanModel lanModel : string) : prog (result (caserr nodeerr) unit) :=
  do! r := doWriteNicModels nodeUUID wanModel lanModel in
  match r, retries with
  | Err (CasMutate NilMapPanic), _ | Ok _, _ | Err _, O => Ret r
  | Err _, S retries =>
      do! _ := call (ESleep (2 * second) false) in
      writeNicModels_loop retries nodeUUID wanModel lanModel
  end.
Definition writeNicModelsToEtcd := writeNicModels_loop 2.

(** What one attempt sees: no monitor any more, a failed call, or the models of
    the node's ports. *)
Inductive statsAnswer := NotMonitored | StatsErr | Stats (nics : list string).
(** [None]: given up because the node is not monitored; [Some []] also stands
    for no answer at all. *)
Fixpoint fetch_stats (retries : nat) (answers : nat -> statsAnswer) (attempt : nat) : prog (option (list string)) :=
  match answers attempt, retries with
  | NotMonitored, _ => Ret None
  | Stats nics, _ => Ret (Some nics)
  | StatsErr, O => Ret (Some [])
  | StatsErr, S retries =>
      do! _ := call (ESleep (3 * second) false) in
      fetch_stats retries answers (S attempt)
  end.
Definition model_of (nic : option string) : string :=
  match nic with Some model => if String.eqb model "" then "unknown" else model | None => "unknown" end.
(** Runs between [beginNicFetch] and [endNicFetch]; returns whether anything was
    written. *)
Definition FetchInitialNicModel (nodeUUID : string) (answers : nat -> statsAnswer) : prog (result (caserr nodeerr) bool) :=
  do! nics := fetch_stats 4 answers 0 in
  match nics with
  | None => Ret (Ok false)
  | Some nics =>
      do! r := writeNicModelsToEtcd nodeUUID (model_of (nics !! 0%nat)) (model_of (nics !! 1%nat)) in
      match r with
      | Ok _ => Ret (Ok true)
      | Err (CasMutate NilMapPanic) => Ret (Err (CasMutate NilMapPanic))
      | Err _ =>
          do! r2 := writeNicModelsToEtcd nodeUUID "unknown" "unknown" in
          Ret (match r2 with Ok _ => Ok true | Err e => Err e end)
      end
  end.

(** ** Republishing *)

Definition nodeKeyPrefix : string := "nodes/".
Definition republishConcurrency : nat := 16.
Record republishTarget := MkTarget { tg_nodeUUID : string; tg_nodeIP : string; tg_grpcPort : Z }.
#[export] Instance republishTarget_eq_dec : EqDecision republishTarget.
Proof. solve_decision. Defined.

(** [nodeData[k].(string)] with its zero value. *)
Definition string_at (k : string) (m : list (string * any)) : string :=
  match kget k m with Some (AStr s) => s | _ => "" end.
Definition port_at (m : list (string * any)) : Z :=
  match kget "grpc_port" m with
  | Some (ANum port) => if float_pos port then float_to_uint32 port else 0
  | _ => 0
  end.
Definition parseRepublishTarget (key value : string) : option republishTarget :=
  let nodeUUID := trim_prefix nodeKeyPrefix key in
  if String.eqb nodeUUID "" then None
  else
    letopt decoded := unmarshal_map value in
    let nodeData := default [] decoded in
    if negb (String.eqb (string_at "status" nodeData) "active") then None
    else if String.eqb (string_at "node_ip" nodeData) "" then None
    else Some (MkTarget nodeUUID (string_at "node_ip" nodeData) (port_at nodeData)).

(** What [RepublishPPPoEStatus] and [RepublishConfigStatus] answer: the
    [errNodeNotMonitored] of a node without a monitor, or what the node says. *)
Inductive republishReply := RepNotMonitored | RepErr | RepOk.
Definition RepublishPPPoEStatus (answer : bool) (nodeUUID : string) (m : NodeMonitorManager) : republishReply :=
  match monitors m !! nodeUUID with None => RepNotMonitored | Some _ => if answer then RepOk else RepErr end.
Definition RepublishConfigStatus (answer : bool) (nodeUUID : string) (m : NodeMonitorManager) : republishReply :=
  match monitors m !! nodeUUID with None => RepNotMonitored | Some _ => if answer then RepOk else RepErr end.
(** The node's answers to the two calls; the replies are only logged. *)
Definition republishNode {D : NodeDial} (answers : bool * bool) (target : republishTarget) (m : NodeMonitorManager)
  : NodeMonitorManager * list republishReply :=
  let '(ok, m) := StartMonitoring (tg_nodeUUID target) (tg_nodeIP target) (tg_grpcPort target) m in
  if ok then (m, [RepublishPPPoEStatus answers.1 (tg_nodeUUID target) m; RepublishConfigStatus answers.2 (tg_nodeUUID target) m])
  else (m, []).

Definition targets_of (kvs : list (string * kv)) : list republishTarget :=
  omap (fun e : string * kv => parseRepublishTarget e.1 (kv_value e.2)) kvs.
(** The nodes [RepublishAll] hands to [runBounded]. *)
Definition RepublishAll_targets : prog (result eerr (list republishTarget)) :=
  do? resp := call (ERange nodeKeyPrefix) in
  Ret (Ok (targets_of resp.1)).

(** ** The config-confirmation sweep *)

Definition configConfirmTimeout : Z := 60 * second.
Definition configConfirmBackoffMax : Z := 15 * 60 * second.
Definition configKeyPrefix : string := "configs/".

Definition parseHSIConfigKey (text : string) : option ConfigKey :=
  if negb (has_prefix configKeyPrefix text) then None
  else match split_on "/" (trim_prefix configKeyPrefix text) with
       | [p0; p1; p2] => if negb (String.eqb p1 "hsi") || String.eqb p0 "" || String.eqb p2 "" then None
                         else Some (p0, p2)
       | _ => None
       end.

Definition unconfirmedFromRevisions (active : gmap string republishTarget) (confirmed pushed : gmap ConfigKey Z)
  : gmap string republishTarget :=
  map_fold (fun configKey pushedRevision pending =>
    match active !! configKey.1 with
    | None => pending
    | Some target => if pushedRevision <=? default 0 (confirmed !! configKey) then pending
                     else <[configKey.1 := target]> pending
    end) ∅ pushed.

Definition active_nodes (kvs : list (string * kv)) : gmap string republishTarget :=
  list_to_map (reverse ((fun t => (tg_nodeUUID t, t)) <$> targets_of kvs)).
Definition pushed_revisions (kvs : list (string * kv)) : gmap ConfigKey Z :=
  list_to_map (reverse (omap (fun e : string * kv => letopt k := parseHSIConfigKey e.1 in Some (k, kv_mod e.2)) kvs)).

Inductive sweeperr := SweepEtcd (e : eerr) | SweepDb (e : dberr).
Definition unconfirmedNodes : prog (result sweeperr (gmap string republishTarget)) :=
  do! nodesResp := call (ERange nodeKeyPrefix) in
  match nodesResp with
  | Err e => Ret (Err (SweepEtcd e))
  | Ok (nodes, _) =>
      let active := active_nodes nodes in
      if bool_decide (active = ∅) then Ret (Ok ∅)
      else
        do! confirmed := call (EDb ListCurrentModRevisions) in
        match confirmed with
        | Err e => Ret (Err (SweepDb e))
        | Ok confirmed =>
            do! configsResp := call (ERange configKeyPrefix) in
            match configsResp with
            | Err e => Ret (Err (SweepEtcd e))
            | Ok (configs, _) => Ret (Ok (unconfirmedFromRevisions active confirmed (pushed_revisions configs)))
            end
        end
  end.

(** One pending node in [dueForNudge]: its new state and whether it is asked. *)
Definition nudge_node (now : Z) (state : option configConfirmState) : configConfirmState * bool :=
  match state with
  | None => (MkConfirm now (now + configConfirmTimeout) configConfirmTimeout, false)
  | Some state =>
      if now <? nextNudge state then (state, false)
      else let backoff := Z.min (cs_backoff state * 2) configConfirmBackoffMax in
           (MkConfirm (unconfirmedSince state) (now + backoff) backoff, true)
  end.
(** States of nodes that are not pending any more are dropped, and every pending
    node has one; the order of the result is the one of Go's map iteration, which
    nothing depends on. *)
Definition dueForNudge (pending : gmap string republishTarget) (now : Z) (m : NodeMonitorManager)
  : list republishTarget * NodeMonitorManager :=
  (omap (fun e : string * republishTarget => if (nudge_node now (confirmState m !! e.1)).2 then Some e.2 else None)
        (map_to_list pending),
   set_confirm (map_imap (fun nodeUUID _ => Some (nudge_node now (confirmState m !! nodeUUID)).1) pending) m).

(** One sweep up to the calls: when it is, and the nodes to ask. *)
Definition SweepConfigConfirmations (m : NodeMonitorManager) : prog (option (Z * list republishTarget) * NodeMonitorManager) :=
  if negb (mgr_database m) then Ret (None, m)
  else
    do! pending := unconfirmedNodes in
    match pending with
    | Err _ => Ret (None, m)
    | Ok pending =>
        do! now := call ENow in
        let '(due, m) := dueForNudge pending now m in Ret (Some (now, due), m)
    end.
(** What the sweep does with one of them. *)
Definition sweepNode {D : NodeDial} (answer : bool) (target : republishTarget) (m : NodeMonitorManager)
  : NodeMonitorManager * list republishReply :=
  let '(ok, m) := StartMonitoring (tg_nodeUUID target) (tg_nodeIP target) (tg_grpcPort target) m in
  if ok then (m, [RepublishConfigStatus answer (tg_nodeUUID target) m]) else (m, []).
Definition configConfirmSweepInterval : Z := 30 * second.
(** The nodes of a sweep with what they replied, until the context ends.  The
    calls of one sweep go to different nodes, so how they overlap does not matter
    here; [Pool] has the pool they run in. *)
Definition sweepCall {D : NodeDial} (answers : string -> bool) (acc : NodeMonitorManager * list (string * list republishReply))
    (target : republishTarget) : NodeMonitorManager * list (string * list republishReply) :=
  let '(m, replies) := sweepNode (answers (tg_nodeUUID target)) target acc.1 in (m, acc.2 ++ [(tg_nodeUUID target, replies)])%list.
Fixpoint sweep_from {D : NodeDial} (answers : string -> bool) (due : list republishTarget)
    (acc : NodeMonitorManager * list (string * list republishReply)) : prog (NodeMonitorManager * list (string * list republishReply)) :=
  match due with
  | [] => Ret acc
  | target :: due =>
      do! ended := call ECtx in
      if ended : bool then Ret acc else sweep_from answers due (sweepCall answers acc target)
  end.
Definition sweepAll {D : NodeDial} (answers : string -> bool) (due : list republishTarget) (m : NodeMonitorManager)
  : prog (NodeMonitorManager * list (string * list republishReply)) :=
  sweep_from answers due (m, []).
(** The sweep at every tick until the context ends, with the time and the calls
    of each. Each tick comes with the time until the ticker fires, which is never
    more than its period (less after a slow sweep), and with the nodes that
    answer. *)
Fixpoint RunConfigConfirmationSweep {D : NodeDial} (ticks : list (Z * (string -> bool))) (m : NodeMonitorManager)
  : prog (NodeMonitorManager * list (Z * list (string * list republishReply))) :=
  match ticks with
  | [] => Ret (m, [])
  | (wait, answers) :: ticks =>
      do! ended := call (ESleep (Z.min configConfirmSweepInterval wait) false) in
      if ended : bool then Ret (m, [])
      else
        do! swept := SweepConfigConfirmations m in
        match swept.1 with
        | None => RunConfigConfirmationSweep ticks swept.2
        | Some (now, due) =>
            do! called := sweepAll answers due swept.2 in
            let '(m, replies) := called in
            do! rest := RunConfigConfirmationSweep ticks m in
            Ret (rest.1, (now, replies) :: rest.2)
        end
  end.
