(* ===== verification/LiveQueries.v ===== *)
(** * Live node queries

    The queries of [node_monitor.go] that ask a node directly (DHCP, ARP, DNS
    cache, PPPoE session) and the REST handlers that answer with them.  The node's
    messages are generated code; the records below are the fields the queries
    read, and the node's answer is an argument. *)

From S2P Require Import Prelude GoStrings Json Decode Validation Auth NetIP NodeMonitor.
Local Open Scope string_scope.
Local Open Scope Z_scope.
Local Open Scope go_scope.

Record dhcpInfo := MkDhcp {
  di_UserId : Z; di_Status : string; di_IpRange : string; di_SubnetMask : string; di_Gateway : string; di_InuseIps : list string }.
Record arpEntry := MkArp { ae_EntryId : Z; ae_Ip : string; ae_Mac : string }.
Record arpReply := MkArpReply { ar_UserId : Z; ar_TotalCount : Z; ar_Entries : list arpEntry }.
Record dnsCacheEntry := MkDnsEntry { de_Domain : string; de_Qtype : Z; de_Ttl : Z; de_RemainingTtl : Z; de_HitCount : Z }.
Record dnsCacheReply := MkDnsReply { dr_UserId : Z; dr_TotalEntries : Z; dr_Entries : list dnsCacheEntry }.
Record hsiInfo := MkHsiInfo {
  hi_UserId : Z; hi_SessionId : Z; hi_IpAddr : string; hi_Gateway : string; hi_Dnss : list string; hi_Status : string }.
#[export] Instance dhcpInfo_eq_dec : EqDecision dhcpInfo.
Proof. solve_decision. Defined.
#[export] Instance arpReply_eq_dec : EqDecision arpReply.
Proof. assert (EqDecision arpEntry) by solve_decision. solve_decision. Defined.
#[export] Instance dnsCacheReply_eq_dec : EqDecision dnsCacheReply.
Proof. assert (EqDecision dnsCacheEntry) by solve_decision. solve_decision. Defined.
#[export] Instance hsiInfo_eq_dec : EqDecision hsiInfo.
Proof. solve_decision. Defined.

(** The code of a failed call, as far as it is looked at. *)
Inductive rpcerr := RpcInvalidArgument | RpcFailed.
#[export] Instance rpcerr_eq_dec : EqDecision rpcerr.
Proof. solve_decision. Defined.

(** [(result, found, err)]: an error, a node that is not monitored, a nil result
    of a node that is, or a result. *)
Inductive queried (R : Type) := QueryErr | NotFound | NoResult | Found (r : R).
Arguments QueryErr {R}.
Arguments NotFound {R}.
Arguments NoResult {R}.
Arguments Found {R} r.

Definition parse_uid (userID : string) : option Z := parse_uint 32 userID.

(** [int(endUint-startUint) + 1], the subtraction on 32 bits. *)
Definition max_leases (ipRange : string) : Z :=
  if negb (String.eqb ipRange "") && negb (String.eqb ipRange "Not configured") then
    match ParseIPRange ipRange with
    | None => 0
    | Some (ipStart, ipEnd) =>
        match IPv4toInt ipStart, IPv4toInt ipEnd with
        | Some startUint, Some endUint => wrapu32 (endUint - startUint) + 1
        | _, _ => 0
        end
    end
  else 0.

Record DhcpLeaseResult := MkLease { CurLeaseCount : Z; MaxLeaseCount : Z; InuseIps : list string; LeaseStatus : string }.
Definition lease_result (info : dhcpInfo) : DhcpLeaseResult :=
  MkLease (Z.of_nat (length (di_InuseIps info))) (max_leases (di_IpRange info)) (di_InuseIps info) (di_Status info).

Section queries.
(** Whether the manager has a monitor for the node. *)
Context (exists_ : bool).

Definition find_dhcp {R} (f : dhcpInfo -> R) (reply : result rpcerr (list dhcpInfo)) (userID : string) : queried R :=
  if negb exists_ then NotFound else
  match parse_uid userID with
  | None => QueryErr
  | Some uid =>
      match reply with
      | Err RpcInvalidArgument => NoResult
      | Err RpcFailed => QueryErr
      | Ok infos => match List.find (fun info => di_UserId info =? uid) infos with
                    | Some info => Found (f info)
                    | None => NoResult
                    end
      end
  end.
Definition GetNodeDhcpLease : result rpcerr (list dhcpInfo) -> string -> queried DhcpLeaseResult := find_dhcp lease_result.
(** The config carries the counts next to the texts of the node. *)
Definition GetNodeDhcpConfig : result rpcerr (list dhcpInfo) -> string -> queried (dhcpInfo * DhcpLeaseResult) :=
  find_dhcp (fun info => (info, lease_result info)).
Definition GetNodeArpTable (reply : result rpcerr arpReply) (userID : string) : queried arpReply :=
  if negb exists_ then NotFound else
  match parse_uid userID, reply with Some _, Ok r => Found r | _, _ => QueryErr end.
Definition GetNodeDnsCache (reply : result rpcerr dnsCacheReply) (userID : string) : queried dnsCacheReply :=
  if negb exists_ then NotFound else
  match parse_uid userID, reply with Some _, Ok r => Found r | _, _ => QueryErr end.
Definition GetNodePPPoEInfo (reply : result rpcerr (list hsiInfo)) (userID : string) : queried hsiInfo :=
  if negb exists_ then NotFound else
  match parse_uid userID, reply with
  | Some uid, Ok infos => match List.find (fun info => hi_UserId info =? uid) infos with
                          | Some info => Found info
                          | None => NoResult
                          end
  | _, _ => QueryErr
  end.
End queries.

(** ** The REST handlers *)

(** A nil slice, which an empty repeated field decodes to, prints as [null]. *)
Definition strings_json (l : list string) : json := match l with [] => JNull | _ => JArr (JStr <$> l) end.
Definition int_json (z : Z) : json := JNum (format_int z).
Definition lease_json (r : DhcpLeaseResult) : json :=
  JObj [("cur_lease_count", int_json (CurLeaseCount r)); ("inuse_ips", strings_json (InuseIps r));
        ("max_lease_count", int_json (MaxLeaseCount r)); ("status", JStr (LeaseStatus r))].
Definition dhcp_config_json (r : dhcpInfo * DhcpLeaseResult) : json :=
  let '(info, lease) := r in
  JObj [("user_id", int_json (di_UserId info)); ("status", JStr (di_Status info)); ("ip_range", JStr (di_IpRange info));
        ("subnet_mask", JStr (di_SubnetMask info)); ("gateway", JStr (di_Gateway info)); ("inuse_ips", strings_json (di_InuseIps info));
        ("cur_lease_count", int_json (CurLeaseCount lease)); ("max_lease_count", int_json (MaxLeaseCount lease))].
Definition arp_json (r : arpReply) : json :=
  JObj [("user_id", int_json (ar_UserId r)); ("total_count", int_json (ar_TotalCount r));
        ("entries", JArr ((fun e => JObj [("entry_id", int_json (ae_EntryId e)); ("ip", JStr (ae_Ip e)); ("mac", JStr (ae_Mac e))])
                          <$> ar_Entries r))].
Definition dns_cache_json (r : dnsCacheReply) : json :=
  JObj [("user_id", int_json (dr_UserId r)); ("total_entries", int_json (dr_TotalEntries r));
        ("entries", JArr ((fun e => JObj [("domain", JStr (de_Domain e)); ("qtype", int_json (de_Qtype e)); ("ttl", int_json (de_Ttl e));
                                          ("remaining_ttl", int_json (de_RemainingTtl e)); ("hit_count", int_json (de_HitCount e))])
                          <$> dr_Entries r))].
Definition pppoe_json (r : hsiInfo) : json :=
  JObj [("user_id", int_json (hi_UserId r)); ("session_id", int_json (hi_SessionId r)); ("client_ip", JStr (hi_IpAddr r));
        ("server_ip", JStr (hi_Gateway r)); ("dns_servers", strings_json (hi_Dnss r)); ("status", JStr (hi_Status r))].

(** The answers the five handlers share; [missing] is the text for a nil
    result, which the ARP and DNS cache queries never give. *)
Definition live_reply {R} (failed missing : string) (as_json : R -> json) (q : queried R) : response :=
  match q with
  | QueryErr => fail_with StatusInternalServerError failed
  | NotFound => fail_with StatusNotFound "Node not found or not connected"
  | NoResult => fail_with StatusNotFound missing
  | Found r => JSON StatusOK (as_json r)
  end.

(** One live request: the query, and what the node would answer. *)
Inductive live_query :=
| LiveLease (reply : result rpcerr (list dhcpInfo))
| LiveArp (reply : result rpcerr arpReply)
| LiveDnsCache (reply : result rpcerr dnsCacheReply)
| LivePPPoE (reply : result rpcerr (list hsiInfo))
| LiveDhcpConfig (reply : result rpcerr (list dhcpInfo)).
#[export] Instance live_query_eq_dec : EqDecision live_query.
Proof. solve_decision. Defined.

Definition GetDhcpLeaseCount (exists_ : bool) reply (c : Context) : response :=
  live_reply "Failed to get DHCP lease info" "DHCP lease not found for user" lease_json (GetNodeDhcpLease exists_ reply (Param_userId c)).
Definition GetArpTable (exists_ : bool) reply (c : Context) : response :=
  live_reply "Failed to get ARP table" "" arp_json (GetNodeArpTable exists_ reply (Param_userId c)).
Definition GetDnsCache (exists_ : bool) reply (c : Context) : response :=
  live_reply "Failed to get DNS cache" "" dns_cache_json (GetNodeDnsCache exists_ reply (Param_userId c)).
Definition GetPPPoEInfo (exists_ : bool) reply (c : Context) : response :=
  live_reply "Failed to get PPPoE info" "PPPoE session not found for user" pppoe_json (GetNodePPPoEInfo exists_ reply (Param_userId c)).
Definition GetDhcpConfig (exists_ : bool) reply (c : Context) : response :=
  live_reply "Failed to get DHCP config" "DHCP config not found for user" dhcp_config_json (GetNodeDhcpConfig exists_ reply (Param_userId c)).
(** [exists_] is [None] when there is no monitor manager. *)
Definition live_handler (exists_ : option bool) (q : live_query) (c : Context) : response :=
  match exists_ with
  | None => fail_with StatusServiceUnavailable "Node monitor not available"
  | Some b => match q with
              | LiveLease reply => GetDhcpLeaseCount b reply c
              | LiveArp reply => GetArpTable b reply c
              | LiveDnsCache reply => GetDnsCache b reply c
              | LivePPPoE reply => GetPPPoEInfo b reply c
              | LiveDhcpConfig reply => GetDhcpConfig b reply c
              end
  end.
(** The lookup of the manager that decides it. *)
Definition is_monitored (nodeUUID : string) (m : NodeMonitorManager) : bool :=
  match monitors m !! nodeUUID with Some _ => true | None => false end.

(** ** Pool sizes *)

(** The lease capacity reported for a pool [a-b] of IPv4 addresses is the
    number of addresses from [a] to [b] when [a <= b]; for a reversed pool the
    subtraction wraps around and the capacity is what is missing to 2^32; it
    always lies between 1 and 2^32. *)
Theorem max_leases_bounds r a b x y :
  r <> "" -> r <> "Not configured" -> ParseIPRange r = Some (ParseIP a, ParseIP b) ->
  IPv4toInt (ParseIP a) = Some x -> IPv4toInt (ParseIP b) = Some y ->
  1 <= max_leases r <= 2 ^ 32 /\
  (x <= y -> max_leases r = y - x + 1) /\
  (y < x -> max_leases r = 2 ^ 32 - (x - y) + 1).
Proof.
  intros H1 H2 Hr Hx Hy. unfold max_leases. destruct (String.eqb_spec r ""), (String.eqb_spec r "Not configured"); try done.
  simpl (negb _ && _). rewrite Hr, Hx, Hy. apply IPv4toInt_range in Hx, Hy. unfold wrapu32.
  pose proof (Z.mod_pos_bound (y - x) (2 ^ 32) ltac:(lia)). split_and!; [lia|lia| |].
  - intros Hle. rewrite Z.mod_small by lia. done.
  - intros Hlt. replace (y - x) with (2 ^ 32 - (x - y) + (-1) * 2 ^ 32) by lia. rewrite Z.mod_add, Z.mod_small by lia. done.
Qed.

Definition reversed_pool : string := "192.168.3.200 - 192.168.3.100".
Lemma max_leases_bounds_witness :
  ParseIPRange reversed_pool = Some (ParseIP "192.168.3.200", ParseIP "192.168.3.100") /\
  1 <= max_leases reversed_pool <= 2 ^ 32 /\
  (3232236488 <= 3232236388 -> max_leases reversed_pool = 3232236388 - 3232236488 + 1) /\
  (3232236388 < 3232236488 -> max_leases reversed_pool = 2 ^ 32 - (3232236488 - 3232236388) + 1).
Proof.
  split; [vm_compute; reflexivity|].
  apply (max_leases_bounds reversed_pool "192.168.3.200" "192.168.3.100"); try done; vm_compute; reflexivity.
Defined.
Example pool_sizes :
  max_leases "192.168.3.100-192.168.3.200" = 101 /\ max_leases reversed_pool = 4294967197 /\
  max_leases "192.168.3.100" = 0 /\ max_leases "::1-::2" = 0.
Proof. vm_compute. done. Qed.
