(* ===== verification/ConfigGrpc.v ===== *)
(** * The gRPC config service ([internal/server/config_grpc_server.go])

    Every method of [ConfigGrpcServer], from its token check to the status code
    it answers.  [serve] dispatches a request to its method. *)

From S2P Require Import Prelude GoStrings Json Decode GoTime ConfigDoc Validation Etcd Db Effects Cas HsiConfig Storage Auth.
Local Open Scope string_scope.
Local Open Scope Z_scope.
Local Open Scope go_scope.

(** ** Statuses and messages *)

Inductive code :=
| InvalidArgument | NotFound | AlreadyExists | ResourceExhausted | Aborted | Internal | Unavailable | Unauthenticated.
#[export] Instance code_eq_dec : EqDecision code.
Proof. solve_decision. Defined.
Record status := StatusError { st_code : code; st_msg : string }.

(** [controllerpb.HSIConfig]: optional fields are options. *)
Record pbPortMapping := MkPbPM { pb_Index : string; pb_Dip : string; pb_Dport : string; pb_Eport : string }.
Record pbHSIConfig := MkPb {
  pb_UserId : string; pb_VlanId : string; pb_AccountName : string; pb_Password : string;
  pb_DhcpAddrPool : string; pb_DhcpSubnet : string; pb_DhcpGateway : string;
  pb_DnsProxyEnable : option bool; pb_TcpConntrackEnable : option bool; pb_Ipv6Enable : option bool;
  pb_PortMappings : list pbPortMapping; pb_DesireStatus : string }.
Record HSIConfigResponse := MkResponse { rs_Config : pbHSIConfig; rs_Metadata : hsiMetaInner }.

Definition derefBool (b : option bool) : bool := default false b.

(** No mapping leaves the slice nil. *)
Definition protoToInner (p : pbHSIConfig) : hsiConfigInner :=
  MkHsi (pb_UserId p) (pb_VlanId p) (pb_AccountName p) (pb_Password p) (pb_DhcpAddrPool p) (pb_DhcpSubnet p)
    (pb_DhcpGateway p) (pb_DnsProxyEnable p) (pb_TcpConntrackEnable p) (pb_Ipv6Enable p)
    (match (fun pm => MkPM (pb_Index pm) (pb_Dip pm) (pb_Dport pm) (pb_Eport pm)) <$> pb_PortMappings p with
     | [] => None | l => Some l end)
    (pb_DesireStatus p).
Definition innerToProto (c : hsiConfigInner) (m : hsiMetaInner) : HSIConfigResponse :=
  MkResponse
    (MkPb (UserID c) (VlanID c) (AccountName c) (Password c) (DHCPAddrPool c) (DHCPSubnet c) (DHCPGateway c)
       (Some (derefBool (DNSProxyEnable c))) (Some (derefBool (TCPConntrackEnable c))) (Some (derefBool (IPv6Enable c)))
       ((fun pm => MkPbPM (pm_Index pm) (pm_DIP pm) (pm_DPort pm) (pm_EPort pm)) <$> default [] (PortMappings c))
       (DesireStatus c)) m.

(** ** Error mapping *)

(** [None] is nil. *)
Definition validationToStatus (err : option Error) : option status :=
  match err with
  | None => None
  | Some e => Some (StatusError (if Conflict e then AlreadyExists else InvalidArgument) (Validation.Msg e))
  end.
Definition validateNodeIDToStatus (nodeID : string) : option status := validationToStatus (ValidateNodeID nodeID).
Definition validateNodeAndUserIDsToStatus (nodeID userID : string) : option status :=
  match validateNodeIDToStatus nodeID with
  | Some e => Some e
  | None => validationToStatus (ValidateUserID userID)
  end.
Definition casToStatus (err : caserr sentinel) : status :=
  match err with
  | CasConflict _ => StatusError Aborted "concurrent update conflict, please retry"
  | _ => StatusError Internal "internal storage error"
  end.

(** [if err := check; err != nil { return nil, err }] *)
Definition guard_status {A} (err : option status) (k : prog (result status A)) : prog (result status A) :=
  match err with Some e => Ret (Err e) | None => k end.

Section service.
Context {JW : Jwt}.
(** The server's [jwtSecret] and the values of the call's [authorization]
    metadata; [None] when the context has no metadata. *)
Context (jwtSecret : string) (md : option (list string)).

Definition callerFromCtx : prog (result status string) :=
  match md with
  | None => Ret (Err (StatusError Unauthenticated "missing metadata"))
  | Some [] => Ret (Err (StatusError Unauthenticated "authorization token required"))
  | Some (header :: _) =>
      let tokenString := bearerToken header in
      do! now := call ENow in
      match getUserFromToken jwtSecret tokenString now with
      | None => Ret (Err (StatusError Unauthenticated "invalid token"))
      | Some user =>
          do! resp := call (EGet (blacklistKey tokenString)) in
          match resp with
          | Err _ => Ret (Err (StatusError Unavailable "authentication service unavailable"))
          | Ok (Some _) => Ret (Err (StatusError Unauthenticated "token has been revoked"))
          | Ok None => Ret (Ok user)
          end
      end
  end.

(** -1 when absent, unreadable or outside int32. *)
Definition fetchSubscriberCount (nodeID : string) : prog Z :=
  do! resp := call (EGet (subscriberCountKey nodeID)) in
  Ret (match resp with
       | Ok (Some e) => match read_count (kv_value e) with
                        | Some d => default (-1) (parse_int 32 (SubscriberCount d))
                        | None => -1
                        end
       | _ => -1
       end).

Definition hsi_input (p : pbHSIConfig) : HSIConfigInput :=
  MkInput (pb_UserId p) (pb_VlanId p) (pb_AccountName p) (pb_Password p) (pb_DhcpAddrPool p) (pb_DhcpSubnet p) (pb_DhcpGateway p).

(** The toggles and status a new config starts with. *)
Definition initial_inner (inner : hsiConfigInner) : hsiConfigInner :=
  set_toggles (Some true) (Some true) (Some (default false (IPv6Enable inner)))
    (set_DesireStatus desireStatusDisconnect inner).

Definition CreateHSIConfig (nodeId : string) (config : option pbHSIConfig) : prog (result status HSIConfigResponse) :=
  do? caller := callerFromCtx in
  guard_status (validateNodeIDToStatus nodeId) (
  match config with
  | None => Ret (Err (StatusError InvalidArgument "config is required"))
  | Some p =>
      guard_status (validationToStatus (ValidateHSIConfig (hsi_input p))) (
      guard_status (validationToStatus (ValidateUserID (pb_UserId p))) (
      do! count := fetchSubscriberCount nodeId in
      guard_status (validationToStatus (CheckSubscriberCount (pb_UserId p) count)) (
      do! owners := fetchVlanOwners nodeId in
      match owners with
      | Err _ => Ret (Err (StatusError Internal "failed to check VLAN availability"))
      | Ok owners =>
          guard_status (validationToStatus (CheckVlanUnique (pb_VlanId p) (pb_UserId p) owners)) (
          let inner := initial_inner (protoToInner p) in
          do! casErr := CAS (hsiKey nodeId (UserID inner)) (create_mutate nodeId caller inner) in
          match casErr with
          | Err (CasMutate errHSIConfigExists) =>
              Ret (Err (StatusError AlreadyExists (sentinel_text errHSIConfigExists)))
          | Err err => Ret (Err (casToStatus err))
          | Ok rv =>
              do! now := call ENow in
              Ret (Ok (innerToProto inner (MkHMeta nodeId rv caller (format_rfc3339 now))))
          end)
      end)))
  end).

Definition UpdateHSIConfig (nodeId userId : string) (config : option pbHSIConfig) (clearPortMappings : bool)
  : prog (result status HSIConfigResponse) :=
  do? caller := callerFromCtx in
  guard_status (validateNodeAndUserIDsToStatus nodeId userId) (
  match config with
  | None => Ret (Err (StatusError InvalidArgument "config is required"))
  | Some p =>
      let inner := protoToInner p in
      if validateGRPCPortMappingUpdate inner clearPortMappings
      then Ret (Err (StatusError InvalidArgument "port_mappings and clear_port_mappings cannot be used together"))
      else
      guard_status (validationToStatus (ValidateHSIConfig (hsi_input p))) (
      guard_status (validationToStatus (ValidateUserID (pb_UserId p))) (
      guard_status (validationToStatus (ValidateUserIDMatch userId (pb_UserId p))) (
      do! count := fetchSubscriberCount nodeId in
      guard_status (validationToStatus (CheckSubscriberCount (pb_UserId p) count)) (
      do! owners := fetchVlanOwners nodeId in
      match owners with
      | Err _ => Ret (Err (StatusError Internal "failed to check VLAN availability"))
      | Ok owners =>
          guard_status (validationToStatus (CheckVlanUnique (pb_VlanId p) userId owners)) (
          do! casErr := CAS (hsiKey nodeId userId)
            (update_mutate nodeId caller (fun current => mergeGRPCHSIConfigUpdate inner current clearPortMappings)) in
          match casErr with
          | Err err => Ret (Err (casToStatus err))
          | Ok (responseInner, meta) => Ret (Ok (innerToProto responseInner meta))
          end)
      end))))
  end).

Definition DeleteHSIConfig (nodeId userId : string) : prog (result status unit) :=
  do? _ := callerFromCtx in
  guard_status (validateNodeAndUserIDsToStatus nodeId userId) (
  do! casErr := CAS (hsiKey nodeId userId) delete_mutate in
  match casErr with
  | Err (CasMutate errHSIConfigNotFound) => Ret (Err (StatusError NotFound (sentinel_text errHSIConfigNotFound)))
  | Err err => Ret (Err (casToStatus err))
  | Ok _ =>
      do! dns := DeleteSubscriberDNS nodeId userId in
      match dns with
      | Err _ => Ret (Err (StatusError Internal "failed to delete subscriber DNS records"))
      | Ok _ => Ret (Ok tt)
      end
  end).

Definition GetHSIConfig (nodeId userId : string) : prog (result status HSIConfigResponse) :=
  do? _ := callerFromCtx in
  guard_status (validateNodeAndUserIDsToStatus nodeId userId) (
  do! resp := call (EGet (hsiKey nodeId userId)) in
  Ret (match resp with
       | Err _ => Err (StatusError Internal "failed to read HSI config")
       | Ok None => Err (StatusError NotFound "HSI config not found")
       | Ok (Some e) => match read_cwm (kv_value e) with
                        | None => Err (StatusError Internal "failed to parse HSI config")
                        | Some cwm => Ok (innerToProto (Config cwm) (Metadata cwm))
                        end
       end)).

Definition ListHSIConfigs (nodeId : string) : prog (result status (list HSIConfigResponse)) :=
  do? _ := callerFromCtx in
  guard_status (validateNodeIDToStatus nodeId) (
  do! resp := call (ERange (hsiPrefix nodeId)) in
  Ret (match resp with
       | Err _ => Err (StatusError Internal "failed to list HSI configs")
       | Ok (kvs, _) => Ok (omap (fun e : string * kv =>
                              (fun cwm => innerToProto (Config cwm) (Metadata cwm)) <$> read_cwm (kv_value e.2)) kvs)
       end)).

(** [DialPPPoE] and [HangupPPPoE] differ in the status they set. *)
Definition set_desire (desire nodeId userId : string) : prog (result status unit) :=
  do? caller := callerFromCtx in
  guard_status (validateNodeAndUserIDsToStatus nodeId userId) (
  do! err := setDesireStatus nodeId userId caller desire in
  Ret (match err with
       | Err (CasMutate errHSIConfigNotFound) => Err (StatusError NotFound (sentinel_text errHSIConfigNotFound))
       | Err err => Err (casToStatus err)
       | Ok _ => Ok tt
       end)).
Definition DialPPPoE : string -> string -> prog (result status unit) := set_desire desireStatusConnect.
Definition HangupPPPoE : string -> string -> prog (result status unit) := set_desire desireStatusDisconnect.

(** The count arrives as an int32. *)
Definition SetSubscriberCount (nodeId : string) (count : Z) : prog (result status unit) :=
  do? caller := callerFromCtx in
  guard_status (validateNodeIDToStatus nodeId) (
  guard_status (validationToStatus (ValidateSubscriberCount count)) (
  do! casErr := CAS (subscriberCountKey nodeId) (count_mutate count_json nodeId caller count) in
  Ret (match casErr with Err err => Err (casToStatus err) | Ok _ => Ok tt end))).

Definition GetSubscriberCount (nodeId : string) : prog (result status Z) :=
  do? _ := callerFromCtx in
  guard_status (validateNodeIDToStatus nodeId) (
  do! n := fetchSubscriberCount nodeId in
  Ret (if n <? 0 then Err (StatusError NotFound "subscriber count not set for this node") else Ok n)).

Definition AddOrUpdateDNSRecord (nodeId userId : string) (record : option dnsRecordInner) : prog (result status unit) :=
  do? caller := callerFromCtx in
  guard_status (validateNodeAndUserIDsToStatus nodeId userId) (
  match record with
  | None => Ret (Err (StatusError InvalidArgument "record is required"))
  | Some newRec =>
      guard_status (validationToStatus (ValidateDnsRecord (Domain newRec) (IP newRec) (TTL newRec))) (
      do! casErr := CAS (dnsKey nodeId userId) (dns_put_mutate nodeId caller newRec) in
      Ret (match casErr with
           | Err (CasMutate errDNSRecordLimit) => Err (StatusError ResourceExhausted (sentinel_text errDNSRecordLimit))
           | Err err => Err (casToStatus err)
           | Ok _ => Ok tt
           end))
  end).

Definition DeleteDNSRecord (nodeId userId domain : string) : prog (result status unit) :=
  do? caller := callerFromCtx in
  guard_status (validateNodeAndUserIDsToStatus nodeId userId) (
  if String.eqb domain "" then Ret (Err (StatusError InvalidArgument "domain is required"))
  else
    do! casErr := CAS (dnsKey nodeId userId) (dns_delete_mutate nodeId caller domain) in
    Ret (match casErr with
         | Err (CasMutate errDNSRecordNotFound) => Err (StatusError NotFound (sentinel_text errDNSRecordNotFound))
         | Err err => Err (casToStatus err)
         | Ok _ => Ok tt
         end)).

Definition ListDNSRecords (nodeId userId : string) : prog (result status (list dnsRecordInner)) :=
  do? _ := callerFromCtx in
  guard_status (validateNodeAndUserIDsToStatus nodeId userId) (
  do! resp := call (EGet (dnsKey nodeId userId)) in
  Ret (match resp with
       | Err _ => Err (StatusError Internal "failed to read DNS records")
       | Ok None => Ok []
       | Ok (Some e) => Ok (decodeDNSRecords (Some (kv_value e)))
       end)).

(** ** The service *)

Inductive rpc :=
| RpcCreate (nodeId : string) (config : option pbHSIConfig)
| RpcUpdate (nodeId userId : string) (config : option pbHSIConfig) (clearPortMappings : bool)
| RpcDelete (nodeId userId : string)
| RpcGet (nodeId userId : string)
| RpcList (nodeId : string)
| RpcDial (nodeId userId : string)
| RpcHangup (nodeId userId : string)
| RpcSetCount (nodeId : string) (count : Z)
| RpcGetCount (nodeId : string)
| RpcPutDNS (nodeId userId : string) (record : option dnsRecordInner)
| RpcDeleteDNS (nodeId userId domain : string)
| RpcListDNS (nodeId userId : string).
Inductive reply :=
| ReplyEmpty
| ReplyConfig (c : HSIConfigResponse)
| ReplyConfigs (l : list HSIConfigResponse)
| ReplyCount (n : Z)
| ReplyRecords (l : list dnsRecordInner).

Definition answer {A} (f : A -> reply) (p : prog (result status A)) : prog (result status reply) :=
  do? a := p in Ret (Ok (f a)).
Definition serve (r : rpc) : prog (result status reply) :=
  match r with
  | RpcCreate n c => answer ReplyConfig (CreateHSIConfig n c)
  | RpcUpdate n u c clear => answer ReplyConfig (UpdateHSIConfig n u c clear)
  | RpcDelete n u => answer (fun _ => ReplyEmpty) (DeleteHSIConfig n u)
  | RpcGet n u => answer ReplyConfig (GetHSIConfig n u)
  | RpcList n => answer ReplyConfigs (ListHSIConfigs n)
  | RpcDial n u => answer (fun _ => ReplyEmpty) (DialPPPoE n u)
  | RpcHangup n u => answer (fun _ => ReplyEmpty) (HangupPPPoE n u)
  | RpcSetCount n c => answer (fun _ => ReplyEmpty) (SetSubscriberCount n c)
  | RpcGetCount n => answer ReplyCount (GetSubscriberCount n)
  | RpcPutDNS n u r => answer (fun _ => ReplyEmpty) (AddOrUpdateDNSRecord n u r)
  | RpcDeleteDNS n u d => answer (fun _ => ReplyEmpty) (DeleteDNSRecord n u d)
  | RpcListDNS n u => answer ReplyRecords (ListDNSRecords n u)
  end.
End service.
