(* ===== verification/RestServer.v ===== *)
(** * The REST API ([internal/server/rest_server.go])

    The handlers that read and write etcd and PostgreSQL, and the routing table:
    which middleware guards which handler.  The handlers of the live node queries
    are those of [LiveQueries]. *)

From S2P Require Import Prelude GoStrings Json Decode GoTime ConfigDoc Validation Etcd Db Events Effects Cas HsiConfig Storage Auth LiveQueries.
Local Open Scope string_scope.
Local Open Scope Z_scope.
Local Open Scope go_scope.

Section rest.
Context {JW : Jwt} {BC : Bcrypt} {GN : Gin}.
(** The signing secret, and whether a database is connected. *)
Context (jwtSecret : string) (database : bool).

(** ** Health and nodes *)

Definition EtcdHealthCheck (c : Context) : prog response :=
  do! r := call (EGet "health-check") in
  match r with
  | Err _ => Ret (JSON StatusServiceUnavailable (JObj [("error", JStr "etcd connection failed"); ("status", JStr "unhealthy")]))
  | Ok _ =>
      do! now := call ENow in
      Ret (JSON StatusOK (JObj [("status", JStr "healthy"); ("timestamp", JNum (format_int (now / 1000000000)))]))
  end.

Definition ListNodes (c : Context) : prog response :=
  do! resp := call (ERange "nodes/") in
  Ret (match resp with
       | Err _ => fail_with StatusInternalServerError "Failed to list nodes"
       | Ok (kvs, _) => JSON StatusOK (JArr ((fun e : string * kv =>
                          JObj [("key", JStr e.1); ("value", JStr (kv_value e.2))]) <$> kvs))
       end).

Definition nodeKey (nodeUuid : string) : string := "nodes/" +:+ nodeUuid.

Definition UnregisterNode (c : Context) : prog response :=
  let nodeUuid := Param_nodeId c in
  if String.eqb nodeUuid "" then Ret (fail_with StatusBadRequest "Node UUID is required")
  else
    do! resp := call (EGet (nodeKey nodeUuid)) in
    match resp with
    | Err _ => Ret (fail_with StatusInternalServerError "Failed to check node existence")
    | Ok None => Ret (fail_with StatusNotFound "Node not found")
    | Ok (Some _) =>
        do! del := call (EDelete (nodeKey nodeUuid)) in
        Ret (match del with
             | Err _ => fail_with StatusInternalServerError "Failed to unregister node"
             | Ok _ => JSON StatusOK (message_json "Node unregistered successfully")
             end)
    end.

(** Whether the loop of [ClearInactiveNodes] goes on to delete a node.  A JSON
    [null] value is a nil map, whose status is absent. *)
Definition listed_inactive (value : string) : bool :=
  match unmarshal_map value with
  | None => false
  | Some nodeData => match kget "status" (default [] nodeData) with
                     | Some (AStr status) => String.eqb status "inactive"
                     | _ => false
                     end
  end.
(** The [node_uuid] whose monitor is stopped. *)
Definition monitored (value : string) : list string :=
  match unmarshal_map value with
  | Some nodeData => match kget "node_uuid" (default [] nodeData) with
                     | Some (AStr nodeUUID) => if String.eqb nodeUUID "" then [] else [nodeUUID]
                     | _ => []
                     end
  | None => []
  end.
(** Returns the count and the nodes whose monitor was stopped, in order. *)
Fixpoint clear_loop (kvs : list (string * kv)) (deleted : Z) (stopped : list string) : prog (Z * list string) :=
  match kvs with
  | [] => Ret (deleted, stopped)
  | (key, e) :: rest =>
      if negb (listed_inactive (kv_value e)) then clear_loop rest deleted stopped
      else
        do! del := call (EDelete key) in
        match del with
        | Err _ => clear_loop rest deleted stopped
        | Ok _ => clear_loop rest (deleted + 1) (stopped ++ monitored (kv_value e))%list
        end
  end.
(** The second component lists the [StopMonitoring] calls. *)
Definition ClearInactiveNodes (c : Context) : prog (response * list string) :=
  do! resp := call (ERange "nodes/") in
  match resp with
  | Err _ => Ret (fail_with StatusInternalServerError "Failed to list nodes", [])
  | Ok (kvs, _) =>
      do! r := clear_loop kvs 0 [] in
      Ret (JSON StatusOK (JObj [("deleted", JNum (format_int r.1)); ("message", JStr "Inactive nodes cleared")]), r.2)
  end.

(** ** Users *)

Definition ListUsers (c : Context) : prog response :=
  do! resp := call (ERange "users/") in
  Ret (match resp with
       | Err _ => fail_with StatusInternalServerError "Failed to list users"
       | Ok (kvs, _) => JSON StatusOK (JObj [("users", JArr ((fun e : string * kv => JStr (sdrop 6 e.1)) <$> kvs))])
       end).

(** [salt] is what bcrypt draws; the guard compares the create revision with 0,
    which holds exactly for an absent key. *)
Definition AddUser (salt : string) (c : Context) : prog response :=
  match ShouldBindJSON d_credentials (MkCred "" "") c with
  | None => Ret (fail_with StatusBadRequest "Invalid request")
  | Some req =>
      if String.eqb (cr_Username req) "" || String.eqb (cr_Password req) ""
      then Ret (fail_with StatusBadRequest "Username and password are required")
      else match bcrypt_generate salt (cr_Password req) with
           | None => Ret (fail_with StatusInternalServerError "Failed to hash password")
           | Some hash =>
               do! txnResp := call (ETxn (Version0 (userKey (cr_Username req))) (OpPut (userKey (cr_Username req)) hash)) in
               Ret (match txnResp with
                    | Err _ => fail_with StatusInternalServerError "Failed to save user"
                    | Ok false => fail_with StatusConflict "User already exists"
                    | Ok true => JSON StatusOK (message_json "User created")
                    end)
           end
  end.

Definition DeleteUser (c : Context) : prog response :=
  let key := userKey (Param_username c) in
  do! userResp := call (EGet key) in
  match userResp with
  | Err _ => Ret (fail_with StatusInternalServerError "Failed to read user")
  | Ok None => Ret (fail_with StatusNotFound "User not found")
  | Ok (Some _) =>
      do! countResp := call (ERange "users/") in
      match countResp with
      | Err _ => Ret (fail_with StatusInternalServerError "Failed to count users")
      | Ok (kvs, _) =>
          if Z.of_nat (length kvs) =? 1 then Ret (fail_with StatusConflict "Cannot delete the last user")
          else
            do! deleteResp := call (EDelete key) in
            Ret (match deleteResp with
                 | Err _ => fail_with StatusInternalServerError "Failed to delete user"
                 | Ok n => if n =? 0 then fail_with StatusNotFound "User not found"
                           else JSON StatusOK (message_json "User deleted")
                 end)
      end
  end.

(** ** HSI configs *)

(** -1 when absent or unreadable; unlike the gRPC copy it accepts 64 bits. *)
Definition GetSubscriberCount (nodeId : string) : prog Z :=
  do! resp := call (EGet (subscriberCountKey nodeId)) in
  Ret (match resp with
       | Ok (Some e) => match read_count (kv_value e) with
                        | Some d => default (-1) (atoi (SubscriberCount d))
                        | None => -1
                        end
       | _ => -1
       end).

(** The user ids under the prefix, without those above the count. *)
Definition listed_users (etcdHSIConfigKey : string) (subscriberCount : Z) (kvs : list (string * kv)) : list string :=
  omap (fun e : string * kv =>
    if (String.length etcdHSIConfigKey <? String.length e.1)%nat then
      let userId := sdrop (String.length etcdHSIConfigKey) e.1 in
      if 0 <=? subscriberCount then
        match atoi userId with
        | Some uidNum => if subscriberCount <? uidNum then None else Some userId
        | None => Some userId
        end
      else Some userId
    else None) kvs.
Definition GetHSIUserIds (c : Context) : prog response :=
  let nodeId := Param_nodeId c in
  if String.eqb nodeId "" then Ret (fail_with StatusBadRequest "Node ID is required")
  else
    do! resp := call (ERange (hsiPrefix nodeId)) in
    match resp with
    | Err _ => Ret (fail_with StatusInternalServerError "Failed to get HSI user IDs")
    | Ok (kvs, _) =>
        do! subscriberCount := GetSubscriberCount nodeId in
        Ret (JSON StatusOK (JObj [("user_ids", JArr (JStr <$> listed_users (hsiPrefix nodeId) subscriberCount kvs))]))
    end.

(** The two path parameters, or the 400 the handlers answer without them. *)
Definition with_ids (c : Context) (k : string -> string -> prog response) : prog response :=
  if String.eqb (Param_nodeId c) "" || String.eqb (Param_userId c) ""
  then Ret (fail_with StatusBadRequest "Node ID and User ID are required")
  else k (Param_nodeId c) (Param_userId c).

Definition GetHSIConfig (c : Context) : prog response :=
  with_ids c (fun nodeId userId =>
    do! subscriberCount := GetSubscriberCount nodeId in
    require (CheckSubscriberCount userId subscriberCount) (
    do! resp := call (EGet (hsiKey nodeId userId)) in
    Ret (match resp with
         | Err _ => fail_with StatusInternalServerError "Failed to get HSI config"
         | Ok None => fail_with StatusNotFound "HSI config not found"
         | Ok (Some e) => match read_cwm (kv_value e) with
                          | Some configWithMetadata => JSON StatusOK (cwm_json configWithMetadata)
                          | None => fail_with StatusInternalServerError "Failed to parse HSI config"
                          end
         end))).

Definition hsiConfigInput (config : HSIConfig) : HSIConfigInput :=
  MkInput (UserID config) (VlanID config) (AccountName config) (Password config)
    (DHCPAddrPool config) (DHCPSubnet config) (DHCPGateway config).

(** Conflicts the handlers report alike. *)
Definition cas_failure (msg : string) (err : caserr sentinel) : response :=
  match err with
  | CasConflict _ => fail_with StatusConflict "Concurrent update conflict, please retry"
  | _ => fail_with StatusInternalServerError msg
  end.

Definition CreateHSIConfig (c : Context) : prog response :=
  let nodeId := Param_nodeId c in
  if String.eqb nodeId "" then Ret (fail_with StatusBadRequest "Node ID is required")
  else match ShouldBindJSON d_hsi hsi_zero c with
  | None => Ret (fail_with StatusBadRequest "Invalid request")
  | Some config =>
      require (ValidateHSIConfig (hsiConfigInput config)) (
      require (ValidateUserID (UserID config)) (
      do! subscriberCount := GetSubscriberCount nodeId in
      require (CheckSubscriberCount (UserID config) subscriberCount) (
      do! owners := listVlanOwners nodeId in
      match owners with
      | Err _ => Ret (fail_with StatusInternalServerError "Failed to check VLAN availability")
      | Ok owners =>
          require (CheckVlanUnique (VlanID config) (UserID config) owners) (
          let config := set_DesireStatus desireStatusDisconnect
                          (set_toggles (Some true) (Some true) (Some (default false (IPv6Enable config))) config) in
          caller_of jwtSecret c (fun username =>
          do! err := CAS (hsiKey nodeId (UserID config)) (create_mutate nodeId username config) in
          Ret (match err with
               | Err (CasMutate errHSIConfigExists) => fail_with StatusConflict (sentinel_text errHSIConfigExists)
               | Err err => cas_failure "Failed to save HSI config" err
               | Ok _ => JSON StatusOK (message_json "HSI config created successfully")
               end)))
      end)))
  end.

Definition UpdateHSIConfig (c : Context) : prog response :=
  with_ids c (fun nodeId userId =>
  match ShouldBindJSON d_hsi hsi_zero c with
  | None => Ret (fail_with StatusBadRequest "Invalid request")
  | Some config =>
      require (ValidateHSIConfig (hsiConfigInput config)) (
      require (ValidateUserID (UserID config)) (
      require (ValidateUserIDMatch userId (UserID config)) (
      do! subscriberCount := GetSubscriberCount nodeId in
      require (CheckSubscriberCount (UserID config) subscriberCount) (
      do! owners := listVlanOwners nodeId in
      match owners with
      | Err _ => Ret (fail_with StatusInternalServerError "Failed to check VLAN availability")
      | Ok owners =>
          require (CheckVlanUnique (VlanID config) userId owners) (
          caller_of jwtSecret c (fun username =>
          do! err := CAS (hsiKey nodeId userId) (update_mutate nodeId username (mergeRESTHSIConfigUpdate config)) in
          Ret (match err with
               | Err err => cas_failure "Failed to update HSI config" err
               | Ok _ => JSON StatusOK (message_json "HSI config updated successfully")
               end)))
      end))))
  end).

Definition DeleteHSIConfig (c : Context) : prog response :=
  with_ids c (fun nodeId userId =>
    do! subscriberCount := GetSubscriberCount nodeId in
    require (CheckSubscriberCount userId subscriberCount) (
    do! err := CAS (hsiKey nodeId userId) delete_mutate in
    match err with
    | Err (CasMutate errHSIConfigNotFound) => Ret (fail_with StatusNotFound (sentinel_text errHSIConfigNotFound))
    | Err err => Ret (cas_failure "Failed to delete HSI config" err)
    | Ok _ =>
        do! dns := DeleteSubscriberDNS nodeId userId in
        Ret (match dns with
             | Err _ => fail_with StatusInternalServerError "Failed to delete subscriber DNS records"
             | Ok _ => JSON StatusOK (message_json "HSI config deleted successfully")
             end)
    end)).

(** ** PPPoE dial and hangup *)

Definition respondDesireStatusError (err : caserr sentinel) : response :=
  match err with
  | CasMutate errHSIConfigNotFound => fail_with StatusNotFound (sentinel_text errHSIConfigNotFound)
  | err => cas_failure "Failed to update PPPoE desire status" err
  end.

Record HSIActionRequest := MkAction { act_NodeID : string; act_UserID : string }.
Definition d_action : dec HSIActionRequest := d_struct
  [fld "node_id" act_NodeID (fun v a => MkAction v (act_UserID a)) d_string;
   fld "user_id" act_UserID (fun v a => MkAction (act_NodeID a) v) d_string].

(** [DialPPPoE] and [HangupPPPoE] differ in the status and the message. *)
Definition desire_handler (desire msg : string) (c : Context) : prog response :=
  match ShouldBindJSON d_action (MkAction "" "") c with
  | None => Ret (fail_with StatusBadRequest "Invalid request")
  | Some req =>
      require (ValidateNodeID (act_NodeID req)) (
      require (ValidateUserID (act_UserID req)) (
      do! subscriberCount := GetSubscriberCount (act_NodeID req) in
      require (CheckSubscriberCount (act_UserID req) subscriberCount) (
      caller_of jwtSecret c (fun username =>
      do! err := setDesireStatus (act_NodeID req) (act_UserID req) username desire in
      Ret (match err with
           | Err err => respondDesireStatusError err
           | Ok _ => JSON StatusOK (message_json msg)
           end)))))
  end.
Definition DialPPPoE : Context -> prog response :=
  desire_handler desireStatusConnect "PPPoE dial request accepted".
Definition HangupPPPoE : Context -> prog response :=
  desire_handler desireStatusDisconnect "PPPoE hangup request accepted".

(** ** Subscriber counts *)

(** The body's integer, an [int]. *)
Definition d_int : dec Z := fun cur j =>
  match j with JNull => Some cur | JNum lit => parse_int 64 lit | _ => None end.

Definition UpdateNodeSubscriberCount (c : Context) : prog response :=
  let nodeId := Param_nodeId c in
  if String.eqb nodeId "" then Ret (fail_with StatusBadRequest "Node ID is required")
  else match ShouldBindJSON (one_field "subscriber_count" d_int) 0 c with
  | None => Ret (fail_with StatusBadRequest "Invalid request")
  | Some count =>
      require (ValidateSubscriberCount count) (
      caller_of jwtSecret c (fun username =>
      do! err := CAS (subscriberCountKey nodeId) (count_mutate SubscriberCountData_json nodeId username count) in
      Ret (match err with
           | Err err => cas_failure "Failed to update subscriber count" err
           | Ok _ => JSON StatusOK (JObj [("message", JStr "Subscriber count updated successfully");
                       ("node_id", JStr nodeId); ("subscriber_count", JNum (format_int count))])
           end)))
  end.

Definition GetNodeSubscriberCount (c : Context) : prog response :=
  let nodeId := Param_nodeId c in
  if String.eqb nodeId "" then Ret (fail_with StatusBadRequest "Node ID is required")
  else
    do! resp := call (EGet (subscriberCountKey nodeId)) in
    Ret (match resp with
         | Err _ => fail_with StatusInternalServerError "Failed to get subscriber count"
         | Ok None => fail_with StatusNotFound "Subscriber count not found"
         | Ok (Some e) =>
             match (letopt d := read_count (kv_value e) in sscanf_d (SubscriberCount d)) with
             | None => fail_with StatusInternalServerError "Failed to parse subscriber count"
             | Some count => JSON StatusOK (JObj [("node_id", JStr nodeId); ("subscriber_count", JNum (format_int count))])
             end
         end).

(** ** PostgreSQL reads *)

(** How rows print: their times are in the server's local zone. *)
Context (events_json : list (Z * NodeEventRow) -> json) (status_json : PPPoEStatusRow -> json).

(** [requireDB] *)
Definition requireDB (k : prog response) : prog response :=
  if database then k else Ret (fail_with StatusServiceUnavailable "Database not configured").

Definition list_events (nodeId : string) (c : Context) : prog response :=
  requireDB (
    do! r := call (EDb (ListNodeEvents nodeId (Query_event_type c) 0)) in
    Ret (match r with
         | Err _ => fail_with StatusInternalServerError "Failed to get node events"
         | Ok events => JSON StatusOK (JObj [("events", events_json events)])
         end)).
Definition GetFailedEvents (c : Context) : prog response :=
  if String.eqb (Param_nodeId c) "" then Ret (fail_with StatusBadRequest "Node ID is required")
  else list_events (Param_nodeId c) c.
Definition GetAllFailedEvents : Context -> prog response := list_events "".

(** [binding:"required"]: an absent or null list does not bind. *)
Definition DeleteFailedEvents (c : Context) : prog response :=
  match (letopt ids := ShouldBindJSON (one_field "ids" (d_slice 0 d_int)) None c in ids) with
  | None => Ret (fail_with StatusBadRequest "Invalid request body")
  | Some [] => Ret (fail_with StatusBadRequest "No ids provided")
  | Some ids =>
      requireDB (
        do! r := call (EDb (DeleteNodeEvents ids)) in
        Ret (match r with
             | Err _ => fail_with StatusInternalServerError "Failed to delete node events"
             | Ok deleted => JSON StatusOK (JObj [("deleted", JNum (format_int deleted))])
             end))
  end.

Definition GetPPPoEStatus (c : Context) : prog response :=
  with_ids c (fun nodeId userId =>
    requireDB (
      do! r := call (EDb (Db.GetPPPoEStatus nodeId userId)) in
      Ret (match r with
           | Err _ => fail_with StatusInternalServerError "Failed to get PPPoE status"
           | Ok None => fail_with StatusNotFound "No PPPoE status recorded for this user"
           | Ok (Some status) => JSON StatusOK (status_json status)
           end))).

(** ** Static DNS records *)

Definition GetDnsRecords (c : Context) : prog response :=
  with_ids c (fun nodeId userId =>
    do! resp := call (EGet (dnsKey nodeId userId)) in
    Ret (match resp with
         | Err _ => fail_with StatusInternalServerError "Failed to get DNS records"
         | Ok o => JSON StatusOK (JObj [("records", JArr (dns_json <$> decodeDnsRecords (kv_value <$> o)))])
         end)).

(** The three path parameters. *)
Definition with_domain (c : Context) (k : string -> string -> string -> prog response) : prog response :=
  if String.eqb (Param_nodeId c) "" || String.eqb (Param_userId c) "" || String.eqb (Param_domain c) ""
  then Ret (fail_with StatusBadRequest "Node ID, User ID and Domain are required")
  else k (Param_nodeId c) (Param_userId c) (Param_domain c).

Definition GetDnsRecord (c : Context) : prog response :=
  with_domain c (fun nodeId userId domain =>
    do! resp := call (EGet (dnsKey nodeId userId)) in
    Ret (match resp with
         | Err _ => fail_with StatusInternalServerError "Failed to get DNS records"
         | Ok None => fail_with StatusNotFound "DNS record not found"
         | Ok (Some e) =>
             match List.find (fun r => String.eqb (Domain r) domain) (decodeDnsRecords (Some (kv_value e))) with
             | Some r => JSON StatusOK (dns_json r)
             | None => fail_with StatusNotFound "DNS record not found"
             end
         end)).

Definition AddOrUpdateDnsRecord (c : Context) : prog response :=
  with_ids c (fun nodeId userId =>
  match ShouldBindJSON d_dns (MkDns "" "" 0) c with
  | None => Ret (fail_with StatusBadRequest "Invalid request")
  | Some newRecord =>
      require (ValidateDnsRecord (Domain newRecord) (IP newRecord) (TTL newRecord)) (
      caller_of jwtSecret c (fun username =>
      do! err := CAS (dnsKey nodeId userId) (dns_put_mutate nodeId username newRecord) in
      Ret (match err with
           | Err (CasMutate errDNSRecordLimit) => fail_with StatusUnprocessableEntity (sentinel_text errDNSRecordLimit)
           | Err err => cas_failure "Failed to save DNS records" err
           | Ok isUpdate =>
               let done := if isUpdate : bool then "updated" else "added" in
               JSON StatusOK (JObj [("action", JStr done); ("message", JStr ("DNS record " +:+ done +:+ " successfully"))])
           end)))
  end).

Definition DeleteDnsRecord (c : Context) : prog response :=
  with_domain c (fun nodeId userId domain =>
  caller_of jwtSecret c (fun username =>
  do! err := CAS (dnsKey nodeId userId) (dns_delete_mutate nodeId username domain) in
  Ret (match err with
       | Err (CasMutate errDNSRecordNotFound) => fail_with StatusNotFound (sentinel_text errDNSRecordNotFound)
       | Err err => cas_failure "Failed to save DNS records" err
       | Ok _ => JSON StatusOK (message_json "DNS record deleted successfully")
       end))).

(** ** Routes *)

(** The routes of [newRouter] under [/api].  Matching a path to its route is
    gin's.  A live query carries what the monitor table and the node have to say
    ([None]: there is no monitor manager). *)
Inductive route :=
| GET_health | POST_login | POST_logout | POST_verify_password
| GET_nodes | DELETE_nodes_inactive | DELETE_node | GET_subscriber_count | PUT_subscriber_count
| POST_users | DELETE_user | GET_users
| GET_hsi_users | GET_hsi | POST_hsi | PUT_hsi | DELETE_hsi
| POST_dial | POST_hangup | GET_pppoe_status
| GET_dns_records | GET_dns_record | POST_dns | DELETE_dns
| GET_all_events | DELETE_events | GET_events
| GET_live (exists_ : option bool) (q : live_query).
#[export] Instance route_eq_dec : EqDecision route.
Proof. solve_decision. Defined.

(** Which routes carry [AuthMiddlewareWithBlacklist]. *)
Definition authenticated (r : route) : bool :=
  match r with GET_health | POST_login => false | _ => true end.
Definition handler (salt : string) (r : route) : Context -> prog response :=
  match r with
  | GET_health => EtcdHealthCheck
  | POST_login => Login jwtSecret
  | POST_logout => Logout jwtSecret
  | POST_verify_password => VerifyPassword jwtSecret
  | GET_nodes => ListNodes
  | DELETE_nodes_inactive => fun c => do! r := ClearInactiveNodes c in Ret r.1
  | DELETE_node => UnregisterNode
  | GET_subscriber_count => GetNodeSubscriberCount
  | PUT_subscriber_count => UpdateNodeSubscriberCount
  | POST_users => AddUser salt
  | DELETE_user => DeleteUser
  | GET_users => ListUsers
  | GET_hsi_users => GetHSIUserIds
  | GET_hsi => GetHSIConfig
  | POST_hsi => CreateHSIConfig
  | PUT_hsi => UpdateHSIConfig
  | DELETE_hsi => DeleteHSIConfig
  | POST_dial => DialPPPoE
  | POST_hangup => HangupPPPoE
  | GET_pppoe_status => GetPPPoEStatus
  | GET_dns_records => GetDnsRecords
  | GET_dns_record => GetDnsRecord
  | POST_dns => AddOrUpdateDnsRecord
  | DELETE_dns => DeleteDnsRecord
  | GET_all_events => GetAllFailedEvents
  | DELETE_events => DeleteFailedEvents
  | GET_events => GetFailedEvents
  | GET_live exists_ q => fun c => Ret (live_handler exists_ q c)
  end.

(** The middleware chain of a route. *)
Definition newRouter (salt : string) (r : route) (c : Context) : prog response :=
  match validatePathIDs c with
  | Some resp => Ret resp
  | None =>
      if authenticated r then
        do! mw := AuthMiddlewareWithBlacklist jwtSecret c in
        match mw with Some resp => Ret resp | None => handler salt r c end
      else handler salt r c
  end.
End rest.
