(* ===== verification/Rollback.v ===== *)
(** * Rolling back a config a node failed to apply ([internal/kafka/consumer.go])

    The decision that runs inside the rollback's compare-and-swap: is the failed
    version still the current one, and what value restores the last successful
    payload.  The texts of the skip reasons go to the log only; they are the
    constructors of [rollbackSkip]. *)

From S2P Require Import Prelude GoStrings Json JsonNormal Decode GoTime ConfigDoc Etcd Db Effects Cas.
Local Open Scope string_scope.
Local Open Scope Z_scope.
Local Open Scope go_scope.

Definition rollbackUpdatedBy : string := "controller-rollback".
Definition offlineEditUpdatedBy : string := "node-offline-edit".

(** [configMetadata]; the fields marshal in this order. *)
Record configMetadata := MkMeta { md_node : string; md_rv : string; md_by : string; md_at : string }.
Definition meta_zero : configMetadata := MkMeta "" "" "" "".
Definition meta_json (m : configMetadata) : json :=
  JObj [("node", JStr (md_node m)); ("resourceVersion", JStr (md_rv m));
        ("updatedBy", JStr (md_by m)); ("updatedAt", JStr (md_at m))].
Definition d_meta : dec configMetadata := d_struct
  [fld "node" md_node (fun v m => MkMeta v (md_rv m) (md_by m) (md_at m)) d_string;
   fld "resourceVersion" md_rv (fun v m => MkMeta (md_node m) v (md_by m) (md_at m)) d_string;
   fld "updatedBy" md_by (fun v m => MkMeta (md_node m) (md_rv m) v (md_at m)) d_string;
   fld "updatedAt" md_at (fun v m => MkMeta (md_node m) (md_rv m) (md_by m) v) d_string].

(** [None] is any of its errors: not JSON, no metadata, an empty or malformed
    version. *)
Definition configResourceVersion (value : string) : option Z :=
  letopt metadata := unmarshal (one_field "metadata" (d_ptr "" (one_field "resourceVersion" d_string))) None value in
  letopt resourceVersion := metadata in
  if String.eqb resourceVersion "" then None else parse_uint 64 resourceVersion.

(** The value the rollback commits: the old payload under fresh metadata. *)
Definition rollback_doc (payload : json) (node : string) (curRV now : Z) : json :=
  JObj [("config", payload);
        ("metadata", meta_json (MkMeta node (format_uint (wrapu64 (curRV + 1))) rollbackUpdatedBy (format_rfc3339 now)))].
Definition rollbackConfigValue (prevJSON current : string) (curRV now : Z) : option string :=
  letopt prev := unmarshal (one_field "config" d_raw) None prevJSON in
  letopt payload := prev in
  letopt node := unmarshal (one_field "metadata" (one_field "node" d_string)) "" current in
  Some (encode (rollback_doc payload node curRV now)).

Inductive rollbackSkip :=
| KeyGone
| CurrentRVUnusable
| OkRVUnusable
| NotSuccessor (curRV okRV : Z)
| AppliedRVUnusable (appliedRV : string)
| VersionMoved (curRV appliedRV : Z)
| RevisionMoved (current applied : Z)
| CannotRebuild.
Definition skip_warn (r : rollbackSkip) : bool :=
  match r with
  | CurrentRVUnusable | OkRVUnusable | AppliedRVUnusable _ | CannotRebuild => true
  | _ => false
  end.

Record rollbackGuardInputs := MkGuard { currentModRevision : Z; appliedRV : string; correlationID : string }.

(** The columns of the previous row: a NULL config reads as no bytes. *)
Definition config_bytes (r : HSIConfigRow) : string := default "" (ConfigJSON r).

Definition guardedRollbackMutation (prevConfig : option HSIConfigRow) (current : option string)
    (guard : rollbackGuardInputs) (now : Z) : result rollbackSkip CASResult :=
  match current with
  | None => Err KeyGone
  | Some cur =>
      match configResourceVersion cur with
      | None => Err CurrentRVUnusable
      | Some curRV =>
          let? _ :=
            if String.eqb (appliedRV guard) "" then
              let? okRV := match prevConfig with
                           | None => Ok 0
                           | Some p => match configResourceVersion (config_bytes p) with
                                       | Some v => Ok v
                                       | None => Err OkRVUnusable
                                       end
                           end in
              if (okRV <? curRV) && (wrapu64 (curRV - okRV) =? 1) then Ok tt else Err (NotSuccessor curRV okRV)
            else match parse_uint 64 (appliedRV guard) with
                 | None => Err (AppliedRVUnusable (appliedRV guard))
                 | Some applied =>
                     if negb (curRV =? applied) then Err (VersionMoved curRV applied)
                     else if negb (String.eqb (correlationID guard) "") then
                       match parse_int 64 (correlationID guard) with
                       | Some m => if negb (m =? currentModRevision guard)
                                   then Err (RevisionMoved (currentModRevision guard) m) else Ok tt
                       | None => Ok tt
                       end
                     else Ok tt
                 end in
          match prevConfig with
          | None => Ok cas_remove
          | Some p => match rollbackConfigValue (config_bytes p) cur curRV now with
                      | Some value => Ok (cas_put value)
                      | None => Err CannotRebuild
                      end
          end
      end
  end.

(** The closure handed to [CASWithRevision]. *)
Definition rollback_mutate (prev : option HSIConfigRow) (applied correlation : string) : mutator rollbackSkip unit :=
  fun current modRevision now =>
    match guardedRollbackMutation prev current (MkGuard modRevision applied correlation) now with
    | Ok res => Ok (res, tt)
    | Err x => Err x
    end.

(** ** What the decision means *)

(** The failed version is the one in [current]. *)
Definition still_failed (prev : option HSIConfigRow) (guard : rollbackGuardInputs) (curRV : Z) : Prop :=
  if String.eqb (appliedRV guard) "" then
    exists okRV, match prev with
                 | None => okRV = 0
                 | Some p => configResourceVersion (config_bytes p) = Some okRV
                 end /\ curRV = okRV + 1
  else
    parse_uint 64 (appliedRV guard) = Some curRV /\
    forall m, correlationID guard <> "" -> parse_int 64 (correlationID guard) = Some m -> m = currentModRevision guard.

Lemma parse_uint_range bits s n : parse_uint bits s = Some n -> 0 <= n < 2 ^ bits.
Proof.
  unfold parse_uint. destruct s as [|c r]; [done|]. destruct (parse_digits (String c r) 0) as [v|] eqn:E; [|done].
  destruct (Z.ltb_spec v (2 ^ bits)); [|done]. intros [= <-]. split; [by eapply parse_digits_mono|done].
Qed.

Lemma configResourceVersion_range v rv : configResourceVersion v = Some rv -> 0 <= rv < 2 ^ 64.
Proof.
  unfold configResourceVersion. destruct (unmarshal _ _ _) as [[s|]|]; [|done..].
  destruct (String.eqb s ""); [done|]. apply parse_uint_range.
Qed.

Lemma successor_iff a b : 0 <= a < 2 ^ 64 -> 0 <= b < 2 ^ 64 ->
  (a <? b) && (wrapu64 (b - a) =? 1) = true <-> b = a + 1.
Proof.
  intros Ha Hb. rewrite andb_true_iff, Z.ltb_lt, Z.eqb_eq. split.
  - intros [Hlt Hw]. rewrite wrapu64_id in Hw; unfold max_uint64; lia.
  - intros ->. rewrite wrapu64_id; unfold max_uint64; lia.
Qed.

Lemma guard_accepts prev current guard now res :
  guardedRollbackMutation prev current guard now = Ok res ->
  exists cur curRV, current = Some cur /\ configResourceVersion cur = Some curRV /\
    still_failed prev guard curRV /\
    match prev with
    | None => res = cas_remove
    | Some p => exists value, rollbackConfigValue (config_bytes p) cur curRV now = Some value /\ res = cas_put value
    end.
Proof.
  unfold guardedRollbackMutation. destruct current as [cur|]; [|done].
  destruct (configResourceVersion cur) as [curRV|] eqn:Ecur; [|done].
  intros Hres. exists cur, curRV. split_and!; [done..| |].
  - unfold still_failed. destruct (String.eqb_spec (appliedRV guard) "") as [Ha|Ha].
    + destruct prev as [p|].
      * destruct (configResourceVersion (config_bytes p)) as [okRV|] eqn:Ep; [|done].
        exists okRV. split; [done|]. apply successor_iff; eauto using configResourceVersion_range.
        by destruct (_ && _).
      * exists 0. split; [done|]. apply successor_iff; eauto using configResourceVersion_range; [lia|].
        by destruct (_ && _).
    + destruct (parse_uint 64 (appliedRV guard)) as [applied|]; [|done].
      destruct (Z.eqb_spec curRV applied) as [->|]; [|done]. split; [done|]. intros m Hc Hm.
      apply String.eqb_neq in Hc. simpl in Hres. rewrite Hc, Hm in Hres. simpl in Hres.
      by destruct (Z.eqb_spec m (currentModRevision guard)).
  - destruct (if String.eqb (appliedRV guard) "" then _ else _) as [u|e]; [|done].
    destruct prev as [p|]; [|congruence].
    destruct (rollbackConfigValue _ _ _ _) as [value|]; [|done]. exists value. split; congruence.
Qed.

(** ... and conversely. *)
Lemma guard_complete prev cur curRV guard now :
  configResourceVersion cur = Some curRV -> still_failed prev guard curRV ->
  guardedRollbackMutation prev (Some cur) guard now =
    match prev with
    | None => Ok cas_remove
    | Some p => match rollbackConfigValue (config_bytes p) cur curRV now with
                | Some value => Ok (cas_put value)
                | None => Err CannotRebuild
                end
    end.
Proof.
  unfold guardedRollbackMutation, still_failed. intros Hcur. pose proof (configResourceVersion_range _ _ Hcur) as Hr.
  rewrite Hcur. destruct (String.eqb (appliedRV guard) "").
  - intros (okRV & Hp & Hs). destruct prev as [p|].
    + rewrite Hp. pose proof (configResourceVersion_range _ _ Hp).
      apply successor_iff in Hs as ->; done.
    + subst okRV. apply successor_iff in Hs as ->; done || lia.
  - intros (-> & Hm). rewrite Z.eqb_refl. simpl.
    destruct (String.eqb_spec (correlationID guard) "") as [|Hc]; [done|]. simpl.
    destruct (parse_int 64 (correlationID guard)) as [m|]; [|done].
    rewrite (Hm m) by done. by rewrite Z.eqb_refl.
Qed.

(** ** The value written *)

Lemma rollbackConfigValue_inv prevJSON cur curRV now value :
  rollbackConfigValue prevJSON cur curRV now = Some value ->
  exists payload node,
    unmarshal (one_field "config" d_raw) None prevJSON = Some (Some payload) /\
    wf_json payload = true /\ valid_utf8 node = true /\
    unmarshal (one_field "metadata" (one_field "node" d_string)) "" cur = Some node /\
    value = encode (rollback_doc payload node curRV now).
Proof.
  unfold rollbackConfigValue. destruct (unmarshal (one_field "config" d_raw) None prevJSON) as [[payload|]|] eqn:Ep; [|done..].
  destruct (unmarshal _ "" cur) as [node|] eqn:En; [|done].
  intros Hv. apply (inj Some) in Hv. exists payload, node. split_and!; [done| | |done|done].
  - unfold unmarshal in Ep. destruct (decode prevJSON) as [j|] eqn:Ej; [|done].
    assert (Hp : default true (wf_json <$> Some payload) = true); [|done].
    revert Ep. apply (d_struct_inv (fun o => default true (wf_json <$> o) = true)); [|by eapply decode_wf|done].
    intros f c j' c' Hf _ Hj'. apply list_elem_of_singleton in Hf as ->. simpl. by intros [= <-].
  - unfold unmarshal in En. destruct (decode cur) as [j|] eqn:Ej; [|done].
    revert En. apply (d_struct_inv (fun s => valid_utf8 s = true)); [|by eapply decode_wf|done].
    intros f c j' c' Hf Hc Hj'. apply list_elem_of_singleton in Hf as ->. simpl.
    destruct (one_field "node" d_string c j') as [c1|] eqn:E1; [|done]. intros [= <-]. revert E1.
    apply (d_struct_inv (fun s => valid_utf8 s = true)); [|done|done].
    intros f c2 j2 c2' Hf Hc2 Hj2. apply list_elem_of_singleton in Hf as ->. simpl.
    destruct (d_string c2 j2) as [c3|] eqn:E3; [|done]. intros [= <-]. by eapply d_string_valid.
Qed.

Lemma rollback_doc_wf payload node curRV now :
  wf_json payload = true -> valid_utf8 node = true -> 0 <= curRV ->
  wf_json (rollback_doc payload node curRV now) = true.
Proof.
  intros Hp Hn Hr. unfold rollback_doc, meta_json. rewrite wf_obj. cbn [forallb fst snd].
  change (valid_utf8 "config") with true. change (valid_utf8 "metadata") with true.
  rewrite Hp, wf_obj. cbn [forallb fst snd wf_json md_node md_rv md_by md_at].
  rewrite Hn, format_rfc3339_valid, format_uint_valid by apply wrapu64_range. done.
Qed.

(** What later readers find in a stored value. *)
Definition payload_of (value : string) : option json :=
  letopt config := unmarshal (one_field "config" d_raw) None value in config.

Lemma rollback_reads payload node curRV now :
  wf_json payload = true -> valid_utf8 node = true -> 0 <= curRV ->
  payload_of (encode (rollback_doc payload node curRV now)) = Some payload /\
  configResourceVersion (encode (rollback_doc payload node curRV now)) = Some (wrapu64 (curRV + 1)).
Proof.
  intros Hp Hn Hr. pose proof (rollback_doc_wf payload node curRV now Hp Hn Hr) as Hw.
  unfold payload_of, configResourceVersion, unmarshal. rewrite decode_encode by done. split; [done|].
  set (rv := format_uint (wrapu64 (curRV + 1))).
  assert (Hd : one_field "metadata" (d_ptr "" (one_field "resourceVersion" d_string)) None
     (rollback_doc payload node curRV now) = Some (Some rv)) by done.
  rewrite Hd. destruct (String.eqb_spec rv "") as [E|_]; [by apply format_uint_nonempty in E|].
  apply parse_format_uint. pose proof (wrapu64_range (curRV + 1)). split; [done|].
  unfold wrapu64. apply Z.mod_pos_bound. lia.
Qed.

(** The write that undoes a failed config. *)
Definition restores (prev : option HSIConfigRow) (key : string) (curRV : Z) (op : etcdop) : Prop :=
  match prev with
  | None => op = OpDelete key
  | Some p => exists value payload, op = OpPut key value /\
      payload_of (config_bytes p) = Some payload /\ payload_of value = Some payload /\
      configResourceVersion value = Some (wrapu64 (curRV + 1))
  end.

Lemma rollback_sees `{EtcdLaws E} prev applied correlation key (s : E) now res y :
  sees key (rollback_mutate prev applied correlation) s now = Ok (res, y) ->
  exists e curRV, et_get s key = Some e /\ configResourceVersion (kv_value e) = Some curRV /\
    still_failed prev (MkGuard (kv_mod e) applied correlation) curRV /\
    restores prev key curRV (cas_op key res).
Proof.
  unfold sees, rollback_mutate. destruct (guardedRollbackMutation _ _ _ _) as [r|] eqn:Eg; [|done].
  intros [= -> _]. apply guard_accepts in Eg as (cur & curRV & Hcur & Hrv & Hs & Hres).
  apply cas_current_some in Hcur as (e & He & <-). rewrite He in Hs. simpl in Hs.
  exists e, curRV. split_and!; try done. unfold restores. destruct prev as [p|].
  - destruct Hres as (value & Hv & ->). exists value.
    apply rollbackConfigValue_inv in Hv as (payload & node & Hp & Hwp & Hn & _ & ->). exists payload.
    pose proof (configResourceVersion_range _ _ Hrv).
    destruct (rollback_reads payload node curRV now Hwp Hn) as [Hrd1 Hrd2]; [lia|].
    split_and!; [done| |done|done]. unfold payload_of. by rewrite Hp.
  - by subst.
Qed.

(** ** Properties *)

(** C4: under every interleaving with other writers, a rollback writes only to an
    entry that still holds the version the node failed to apply (the reported
    version and ModRevision, or the successor of the last good one), and what it
    writes is the last good payload with the version advanced by one, or a
    delete when there is none. *)
Theorem rollback_only_failed_version `{EtcdLaws E} key prev applied correlation (w : world E) ts :
  world_wf w ->
  let p := CASWithRevision key (rollback_mutate prev applied correlation) in
  (own_writes (final p w ts) = own_writes w /\ outcome p w ts <> Ok tt) \/
  exists s op e curRV, own_writes (final p w ts) = (s, op) :: own_writes w /\
    et_get s key = Some e /\ configResourceVersion (kv_value e) = Some curRV /\
    still_failed prev (MkGuard (kv_mod e) applied correlation) curRV /\
    restores prev key curRV op.
Proof.
  intros Hw p. destruct (cas_spec_writes _ _ _ _ _ (cas_refines key (rollback_mutate prev applied correlation) w ts Hw))
    as [[Ho Hr]|(w1 & now & res & y & _ & _ & Hs & Ho & _)]; [by left|right].
  apply rollback_sees in Hs as (e & curRV & He & Hrv & Hf & Hres).
  by exists (w_etcd w1), (cas_op key res), e, curRV.
Qed.

Definition doc_at (config rv : string) : string :=
  encode (JObj [("config", JStr config); ("metadata", meta_json (MkMeta "n" rv "u" "2025-01-01T00:00:00Z"))]).
Definition good_row : HSIConfigRow := MkRow "n" "2" "upsert" (Some (doc_at "good" "3")) "" 7 "" "node" None.
Definition world_failed : world mem := World (et_put mem_empty (hsiKey "n" "2") (doc_at "bad" "4")) db_empty 0 false [].
Lemma world_failed_wf : world_wf world_failed.
Proof. apply wf_put, mem_empty_wf. Qed.

Lemma rollback_only_failed_version_witness :
  let p := CASWithRevision (hsiKey "n" "2") (rollback_mutate (Some good_row) "4" "2") in
  ((own_writes (final p world_failed []) = own_writes world_failed /\ outcome p world_failed [] <> Ok tt) \/
  exists s op e curRV, own_writes (final p world_failed []) = (s, op) :: own_writes world_failed /\
    et_get s (hsiKey "n" "2") = Some e /\ configResourceVersion (kv_value e) = Some curRV /\
    still_failed (Some good_row) (MkGuard (kv_mod e) "4" "2") curRV /\
    restores (Some good_row) (hsiKey "n" "2") curRV op) /\ outcome p world_failed [] = Ok tt.
Proof.
  split; [apply (rollback_only_failed_version (hsiKey "n" "2") (Some good_row) "4" "2" world_failed []), world_failed_wf
         |vm_compute; reflexivity].
Defined.

(** The decision accepts exactly when the current value still carries the
    failed version; it then fails only if the last good row has no payload or
    the current metadata cannot be read. *)
Theorem guardedRollbackMutation_accepts prev cur curRV guard now :
  configResourceVersion cur = Some curRV ->
  still_failed prev guard curRV <->
  (exists res, guardedRollbackMutation prev (Some cur) guard now = Ok res) \/
  guardedRollbackMutation prev (Some cur) guard now = Err CannotRebuild.
Proof.
  intros Hcur. split.
  - intros Hf. rewrite (guard_complete _ _ _ _ _ Hcur Hf). destruct prev as [p|]; [|eauto].
    destruct (rollbackConfigValue _ _ _ _); eauto.
  - intros [[res Hr]|Hr].
    + apply guard_accepts in Hr as (c & rv & [= <-] & Hrv & Hs & _). congruence.
    + revert Hr. unfold guardedRollbackMutation, still_failed. rewrite Hcur.
      pose proof (configResourceVersion_range _ _ Hcur).
      destruct (String.eqb (appliedRV guard) "").
      * destruct prev as [p|].
        -- destruct (configResourceVersion (config_bytes p)) as [okRV|] eqn:Ep; [|done].
           pose proof (configResourceVersion_range _ _ Ep).
           destruct (_ && _) eqn:Es; [|done]. apply successor_iff in Es; eauto.
        -- destruct (_ && _) eqn:Es; [|done]. apply successor_iff in Es; [eauto|lia|lia].
      * destruct (parse_uint 64 (appliedRV guard)) as [a|]; [|done].
        destruct (Z.eqb_spec curRV a) as [->|]; [|done]. simpl. intros Hr. split; [done|].
        intros m Hc Hm. apply String.eqb_neq in Hc. rewrite Hc, Hm in Hr. simpl in Hr.
        by destruct (Z.eqb_spec m (currentModRevision guard)).
Qed.
Lemma guardedRollbackMutation_accepts_witness :
  still_failed (Some good_row) (MkGuard 9 "" "") 4 <->
  (exists res, guardedRollbackMutation (Some good_row) (Some (doc_at "bad" "4")) (MkGuard 9 "" "") 0 = Ok res) \/
  guardedRollbackMutation (Some good_row) (Some (doc_at "bad" "4")) (MkGuard 9 "" "") 0 = Err CannotRebuild.
Proof. apply guardedRollbackMutation_accepts. vm_compute. reflexivity. Defined.
