(* ===== verification/HsiDocs.v ===== *)
(** * Facts about the subscriber documents

    Round trips through JSON, the version chain that every writer maintains, the
    DNS record list, and the agreement of the two update rules. *)

From S2P Require Import Prelude GoStrings Json JsonNormal Decode GoTime ConfigDoc Validation HsiConfig Rollback.
Local Open Scope string_scope.
Local Open Scope Z_scope.
Local Open Scope go_scope.

(** ** Round trips *)

(** Decoding a [omitempty] slice that was left out gives the nil slice. *)
Definition normal_hsi (c : hsiConfigInner) : hsiConfigInner :=
  set_PortMappings (match PortMappings c with Some [] => None | l => l end) c.

Lemma mapM_fmap {A} (to : A -> json) (d : json -> option A) l :
  (forall x, d (to x) = Some x) -> mapM d (to <$> l) = Some l.
Proof. intros Hd. induction l as [|x l IH]; [done|].
  change (to <$> x :: l) with (to x :: (to <$> l)). cbn [mapM]. rewrite Hd, IH. done.
Qed.

Lemma d_pm_json p cur : d_pm cur (pm_json p) = Some p.
Proof. by destruct p. Qed.
Lemma d_members_app {A} (fs : list (field A)) l1 l2 cur :
  d_members fs (l1 ++ l2) cur = letopt c := d_members fs l1 cur in d_members fs l2 c.
Proof.
  revert cur. induction l1 as [|[k j] l1 IH]; intros cur; simpl; [done|].
  destruct (find_field fs k) as [d|]; [|done]. by destruct (d cur j).
Qed.

Lemma d_hsi_json c : d_hsi hsi_zero (hsi_json c) = Some (normal_hsi c).
Proof.
  destruct c as [u v a p dp ds dg [dx|] [tc|] [v6|] [[|q l]|] w]; try reflexivity;
    cbn -[mapM]; pose proof (mapM_fmap pm_json (d_pm pm_zero) l (fun x => d_pm_json x pm_zero)) as Hm;
    cbn [mapM]; rewrite d_pm_json; cbn [mbind option_bind]; rewrite Hm; reflexivity.
Qed.

Lemma d_hmeta_json m : d_hmeta hmeta_zero (hmeta_json m) = Some m.
Proof. by destruct m. Qed.
Lemma read_cwm_json d : wf_json (cwm_json d) = true ->
  read_cwm (encode (cwm_json d)) = Some (MkCwm (normal_hsi (Config d)) (Metadata d)).
Proof.
  intros Hw. unfold read_cwm, unmarshal. rewrite decode_encode by done. unfold d_cwm, cwm_json.
  cbn -[d_hsi hsi_json d_hmeta hmeta_json].
  rewrite d_hsi_json. cbn -[d_hmeta hmeta_json]. by rewrite d_hmeta_json.
Qed.

Lemma d_dns_json r cur : 0 <= TTL r < 2 ^ 32 -> d_dns cur (dns_json r) = Some r.
Proof. intros Hr. destruct r as [d i t]. cbn -[parse_uint format_uint]. by rewrite parse_format_uint. Qed.
Definition ttls_ok (l : list dnsRecordInner) : Prop := Forall (fun r => 0 <= TTL r < 2 ^ 32) l.
Lemma mapM_dns l : ttls_ok l -> mapM (d_dns (MkDns "" "" 0)) (dns_json <$> l) = Some l.
Proof.
  induction 1 as [|r l Hr Hl IH]; [done|].
  change (dns_json <$> r :: l) with (dns_json r :: (dns_json <$> l)). cbn [mapM].
  rewrite d_dns_json by done. by rewrite IH.
Qed.
Lemma decodeDNS_json l m : wf_json (records_json (MkRecords (Some l) m)) = true -> ttls_ok l ->
  decodeDNSRecords (Some (encode (records_json (MkRecords (Some l) m)))) = l.
Proof.
  intros Hw Hl. unfold decodeDNSRecords.
  destruct (String.eqb_spec (encode (records_json (MkRecords (Some l) m))) "") as [E|_].
  { unfold records_json in E. rewrite encode_obj in E. done. }
  unfold unmarshal. rewrite decode_encode by done. unfold d_records, records_json. cbn [Records rec_Metadata].
  cbn -[mapM d_dns dns_json d_hmeta hmeta_json fmap]. rewrite mapM_dns by done.
  cbn -[d_hmeta hmeta_json]. by rewrite d_hmeta_json.
Qed.
(** Decoded records have 32-bit TTLs. *)
Lemma d_dns_ttl cur j r : wf_json j = true -> 0 <= TTL cur < 2 ^ 32 -> d_dns cur j = Some r -> 0 <= TTL r < 2 ^ 32.
Proof.
  apply (d_struct_keeps (fun r => 0 <= TTL r < 2 ^ 32)). repeat (apply Forall_cons_2; [apply keeps_fld|]); [..|constructor];
    intros c x b Hc _; [done..|]. unfold d_uint32. destruct x; try done; [by intros [= <-]|].
  unfold parse_uint. destruct (String.eqb _ _); [done|]. destruct (parse_digits lit 0) as [n|] eqn:En; [|done].
  destruct (Z.ltb_spec n (2 ^ 32)); [|done]. intros [= <-]. apply parse_digits_mono in En; simpl; lia.
Qed.
Lemma d_slice_inv {A} (P : A -> Prop) zero (d : dec A) cur j o :
  (forall x a, wf_json x = true -> d zero x = Some a -> P a) -> wf_json j = true ->
  d_slice zero d cur j = Some o -> Forall P (default [] o).
Proof.
  intros Hd Hj. destruct j; cbn [d_slice]; try done; [by intros [= <-]|].
  destruct (mapM _ l) as [rs|] eqn:Em; [|done]. intros [= <-]. apply mapM_Some in Em. rewrite wf_arr in Hj. simpl.
  induction Em as [|y r l' rs' Hy _ IH]; [constructor|]. simpl in Hj. bool_split. constructor; eauto.
Qed.
Lemma decodeDNS_inv (P : list dnsRecordInner -> Prop) current :
  P [] -> (forall env j, wf_json j = true -> d_records (MkRecords None hmeta_zero) j = Some env -> P (default [] (Records env))) ->
  P (decodeDNSRecords current).
Proof.
  intros H0 Hd. destruct current as [cur|]; [|done]. unfold decodeDNSRecords, unmarshal. destruct (String.eqb cur ""); [done|].
  destruct (decode cur) as [j|] eqn:Ej; [|done]. apply decode_wf in Ej.
  destruct (d_records _ j) as [env|] eqn:Ed; eauto.
Qed.
Lemma decodeDNS_ttls current : ttls_ok (decodeDNSRecords current).
Proof.
  apply decodeDNS_inv; [constructor|]. intros env j Hj. 
  apply (d_struct_keeps (fun e => ttls_ok (default [] (Records e)))); [|done|constructor].
  repeat (apply Forall_cons_2; [apply keeps_fld|]); [..|constructor]; intros c x b Hc Hx; [|done].
  apply d_slice_inv; [|done]. intros y a Hy. apply d_dns_ttl; simpl; [done|lia].
Qed.
(** ... and valid texts. *)
Definition texts_ok (l : list dnsRecordInner) : Prop :=
  Forall (fun r => valid_utf8 (Domain r) = true /\ valid_utf8 (IP r) = true) l.
Lemma decodeDNS_texts current : texts_ok (decodeDNSRecords current).
Proof.
  apply decodeDNS_inv; [constructor|]. intros env j Hj.
  apply (d_struct_keeps (fun e => texts_ok (default [] (Records e)))); [|done|constructor].
  repeat (apply Forall_cons_2; [apply keeps_fld|]); [..|constructor]; intros c x b Hc Hx; [|done].
  apply d_slice_inv; [|done]. intros y a Hy.
  apply (d_struct_keeps (fun r => valid_utf8 (Domain r) = true /\ valid_utf8 (IP r) = true)); [|done..].
  repeat (apply Forall_cons_2; [apply keeps_fld|]); [..|constructor]; intros r z b' [? ?] Hz Hd; simpl; split; try done;
    (eapply d_string_valid; [| |exact Hd]; done).
Qed.

(** ** The version chain *)

(** Reading the version through a pointer and in place agree once it is set. *)
Lemma rv_struct_start (c1 : string) j r : one_field "resourceVersion" d_string c1 j = Some r ->
  (forall c2, one_field "resourceVersion" d_string c2 j = Some r) \/
  (r = c1 /\ forall c2, one_field "resourceVersion" d_string c2 j = Some c2).
Proof.
  unfold one_field. destruct j as [|b|s|s|l|l]; cbn [d_struct]; try done.
  { intros [= <-]. right. done. }
  revert c1. induction l as [|[k x] l IH]; intros c1; cbn [d_members].
  { intros [= <-]. right. done. }
  destruct (find_field _ k) as [d|] eqn:Ef; [|apply IH].
  assert (d = (fun cur j => letopt b := d_string cur j in Some b)) as ->.
  { unfold find_field in Ef. cbn [List.find fst snd fld] in Ef.
    destruct (String.eqb _ _); [by injection Ef|]. destruct (String.eqb _ _); [by injection Ef|done]. }
  destruct x as [|b|s|s|l'|l']; cbn [d_string]; try done; [apply IH|]. intros Hr. left. intros c2.
  cbn [d_members] in Hr. exact Hr.
Qed.
Lemma rv_in_place j s :
  one_field "metadata" (d_ptr "" (one_field "resourceVersion" d_string)) None j = Some (Some s) -> s <> "" ->
  one_field "metadata" (one_field "resourceVersion" d_string) "" j = Some s.
Proof.
  destruct j as [|b|t|t|l|l]; try done. unfold one_field at 1 3. cbn [d_struct]. intros Hd Hs.
  assert (Hinv : forall (p : option string) q, (forall t, p = Some t -> t <> "" -> q = t) ->
    d_members [fld "metadata" (fun a => a) (fun v _ => v) (d_ptr "" (one_field "resourceVersion" d_string))] l p = Some (Some s) ->
    d_members [fld "metadata" (fun a => a) (fun v _ => v) (one_field "resourceVersion" d_string)] l q = Some s);
    [|by apply (Hinv None)]. clear Hd. induction l as [|[k x] l IH]; intros p q Hpq; cbn [d_members].
  { intros [= ->]. by rewrite (Hpq s). }
  unfold find_field. cbn [List.find fst snd fld fmap option_fmap option_map].
  assert (Hstep : (letopt c := d_ptr "" (one_field "resourceVersion" d_string) p x in
                   d_members [fld "metadata" (fun a => a) (fun v _ => v) (d_ptr "" (one_field "resourceVersion" d_string))] l c) = Some (Some s) ->
                  (letopt c := one_field "resourceVersion" d_string q x in
                   d_members [fld "metadata" (fun a => a) (fun v _ => v) (one_field "resourceVersion" d_string)] l c) = Some s).
  { destruct (d_ptr _ _ p x) as [p'|] eqn:Ep; [|done]. unfold d_ptr in Ep.
    assert (Hx : x = JNull /\ p' = None \/
      exists r, one_field "resourceVersion" d_string (default "" p) x = Some r /\ p' = Some r).
    { destruct x; [by injection Ep as <-; left|..]; right;
        (destruct (one_field _ _ _ _) as [r|]; [|done]); injection Ep as <-; eauto. }
    destruct Hx as [[-> ->] | (r & Er & ->)]; [by apply IH|].
    apply rv_struct_start in Er as [Hr | [-> Hr]]; rewrite Hr.
    - apply IH. by intros t [= ->].
    - apply IH. intros t [= Ht] Hne. apply Hpq; [|done]. destruct p; simpl in Ht; congruence. }
  assert (Hfld : forall k', (letopt c := (fld k' (fun a => a) (fun v _ => v) (d_ptr "" (one_field "resourceVersion" d_string))).2 p x in
                   d_members [fld "metadata" (fun a => a) (fun v _ => v) (d_ptr "" (one_field "resourceVersion" d_string))] l c) = Some (Some s) ->
                  (letopt c := (fld k' (fun a => a) (fun v _ => v) (one_field "resourceVersion" d_string)).2 q x in
                   d_members [fld "metadata" (fun a => a) (fun v _ => v) (one_field "resourceVersion" d_string)] l c) = Some s).
  { intros k'. cbn [fld snd]. revert Hstep.
    destruct (d_ptr _ _ p x), (one_field "resourceVersion" d_string q x); exact (fun h => h). }
  destruct (String.eqb "metadata" k); [exact (Hfld "metadata")|].
  destruct (String.eqb _ (fold_name k)); [exact (Hfld "metadata")|].
  by apply IH.
Qed.

Lemma nextResourceVersion_next cur n : configResourceVersion cur = Some n -> n < max_int64 ->
  nextResourceVersion (Some cur) = format_uint (n + 1).
Proof.
  unfold configResourceVersion, nextResourceVersion. intros Hc Hn.
  destruct (unmarshal _ None cur) as [[s|]|] eqn:Eu; [|done..]. unfold unmarshal in *.
  destruct (decode cur) as [j|] eqn:Ej; [|done].
  destruct (String.eqb_spec cur "") as [->|_]; [done|].
  destruct (String.eqb_spec s "") as [->|Hs]; [done|]. rewrite (rv_in_place j s) by done.
  destruct (String.eqb_spec s ""); [done|]. unfold parse_uint in Hc. destruct (String.eqb s ""); [done|].
  destruct (parse_digits s 0) as [m|] eqn:Em; [|done]. destruct (_ <? _) eqn:?; [|done]. injection Hc as ->.
  rewrite (sscanf_digits s n) by (done || lia). apply parse_digits_mono in Em; [|lia].
  rewrite wrap64_id by (unfold min_int64, max_int64 in *; lia). unfold format_int.
  destruct (Z.ltb_spec (n + 1) 0); [lia|done].
Qed.

(** A version that was stamped on a document is the one read back. *)
Lemma version_of_doc l : wf_json (JObj l) = true ->
  configResourceVersion (encode (JObj l)) =
    letopt metadata := one_field "metadata" (d_ptr "" (one_field "resourceVersion" d_string)) None (JObj l) in
    letopt rv := metadata in if String.eqb rv "" then None else parse_uint 64 rv.
Proof. intros Hw. unfold configResourceVersion, unmarshal. by rewrite decode_encode. Qed.
Lemma version_cwm d : wf_json (cwm_json d) = true ->
  configResourceVersion (encode (cwm_json d)) =
    if String.eqb (ResourceVersion (Metadata d)) "" then None else parse_uint 64 (ResourceVersion (Metadata d)).
Proof. intros Hw. unfold cwm_json in *. by rewrite version_of_doc. Qed.
Lemma version_count d : wf_json (count_json d) = true ->
  configResourceVersion (encode (count_json d)) =
    if String.eqb (ResourceVersion (cnt_Metadata d)) "" then None else parse_uint 64 (ResourceVersion (cnt_Metadata d)).
Proof. intros Hw. unfold count_json in *. by rewrite version_of_doc. Qed.
Lemma version_records d : wf_json (records_json d) = true ->
  configResourceVersion (encode (records_json d)) =
    if String.eqb (ResourceVersion (rec_Metadata d)) "" then None else parse_uint 64 (ResourceVersion (rec_Metadata d)).
Proof. intros Hw. unfold records_json in *. by rewrite version_of_doc. Qed.

Lemma format_int_valid z : valid_utf8 (format_int z) = true.
Proof.
  unfold format_int. destruct (Z.ltb_spec z 0); [|by apply format_uint_valid].
  apply ascii_valid. simpl. apply digits_ascii, format_uint_all_digits. lia.
Qed.
Lemma nextResourceVersion_valid current : valid_utf8 (nextResourceVersion current) = true.
Proof. unfold nextResourceVersion. repeat case_match; try done; apply format_int_valid. Qed.

(** ** The DNS record list *)

Definition find_record (domain : string) (l : list dnsRecordInner) : option dnsRecordInner :=
  List.find (fun r => String.eqb (Domain r) domain) l.
(** At most one record per domain. *)
Definition one_per_domain (l : list dnsRecordInner) : Prop := NoDup (Domain <$> l).

Lemma find_record_none d l : find_record d l = None <-> d ∉ Domain <$> l.
Proof.
  unfold find_record. induction l as [|r l IH]; simpl; [split; [intros _; apply not_elem_of_nil|done]|].
  change (Domain <$> r :: l) with (Domain r :: (Domain <$> l)). rewrite not_elem_of_cons.
  destruct (String.eqb_spec (Domain r) d) as [E|E]; [split; [done|by intros [? _]]|]. rewrite IH. naive_solver.
Qed.

Lemma replace_record_spec r l : 
  match replace_record r l with
  | Some l' => (Domain <$> l') = (Domain <$> l) /\ is_Some (find_record (Domain r) l) /\
      forall d, find_record d l' = if String.eqb d (Domain r) then Some r else find_record d l
  | None => find_record (Domain r) l = None
  end.
Proof.
  induction l as [|a l IH]; [done|]. cbn [replace_record]. unfold find_record. cbn [List.find].
  destruct (String.eqb_spec (Domain a) (Domain r)) as [E|E].
  - split_and!; [cbn; by rewrite E|done|]. intros d. cbn [List.find]. rewrite <-E.
    destruct (String.eqb_spec (Domain a) d) as [<-|Hd]; [by rewrite String.eqb_refl|].
    destruct (String.eqb_spec d (Domain a)); [congruence|done].
  - destruct (replace_record r l) as [l'|]; cbn [fmap option_fmap option_map]; [|done].
    destruct IH as (Hd & Hf & Hl). split_and!; [cbn; by f_equal|done|]. intros d. cbn [List.find].
    destruct (String.eqb_spec (Domain a) d) as [<-|Hd']; [|apply Hl].
    destruct (String.eqb_spec (Domain a) (Domain r)); [done|done].
Qed.

Lemma find_record_app d l1 l2 : find_record d (l1 ++ l2)%list =
  match find_record d l1 with Some r => Some r | None => find_record d l2 end.
Proof. unfold find_record. induction l1 as [|a l1 IH]; simpl; [done|]. by destruct (String.eqb _ _). Qed.

Lemma put_record_spec r l :
  match put_record r l with
  | Some (l', upd) =>
      (forall d, find_record d l' = if String.eqb d (Domain r) then Some r else find_record d l) /\
      (one_per_domain l -> one_per_domain l') /\ (length l' <= Nat.max dns_limit (length l))%nat /\
      (upd = true <-> is_Some (find_record (Domain r) l))
  | None => find_record (Domain r) l = None /\ (dns_limit <= length l)%nat
  end.
Proof.
  unfold put_record. pose proof (replace_record_spec r l) as Hr. destruct (replace_record r l) as [l'|].
  - destruct Hr as (Hd & Hf & Hl). split_and!; [done| | |done].
    + unfold one_per_domain. by rewrite Hd.
    + apply (f_equal length) in Hd. rewrite !length_fmap in Hd. rewrite Hd. apply Nat.le_max_r.
  - destruct (Nat.leb_spec dns_limit (length l)) as [Hn|Hn]; [done|]. split_and!.
    + intros d. rewrite find_record_app. destruct (String.eqb_spec d (Domain r)) as [->|E].
      * rewrite Hr. unfold find_record. simpl. by rewrite String.eqb_refl.
      * unfold find_record at 2. simpl. destruct (String.eqb_spec (Domain r) d); [congruence|].
        by destruct (find_record d l).
    + unfold one_per_domain. rewrite fmap_app. intros Hl. apply NoDup_app. split_and!; [done| |apply NoDup_singleton].
      intros d Hd ->%list_elem_of_singleton. by apply find_record_none in Hr.
    + rewrite length_app. simpl. lia.
    + rewrite Hr. split; [done|by intros []].
Qed.

Lemma remove_record_spec domain l :
  match remove_record domain l with
  | Some l' =>
      is_Some (find_record domain l) /\
      (forall d, find_record d l' = if String.eqb d domain then None else find_record d l) /\
      (one_per_domain l -> one_per_domain l') /\ (length l' < length l)%nat
  | None => find_record domain l = None
  end.
Proof.
  unfold remove_record, find_record. induction l as [|a l IH]; [done|]. cbn [existsb List.filter List.find].
  destruct (String.eqb_spec (Domain a) domain) as [E|E]; cbn [orb negb].
  - assert (Hlen : (length (List.filter (fun rec => negb (String.eqb (Domain rec) domain)) l) <= length l)%nat).
    { clear. induction l as [|b l IH]; simpl; [done|]. destruct (negb _); simpl; lia. }
    split_and!; [done| | |simpl; lia].
    + intros d. rewrite E. destruct (String.eqb_spec domain d) as [<-|Hd].
      * rewrite String.eqb_refl. clear. induction l as [|b l IH]; simpl; [done|].
        destruct (String.eqb (Domain b) domain) eqn:Eb; simpl; [done|by rewrite Eb].
      * destruct (String.eqb_spec d domain); [congruence|]. clear IH Hlen.
        induction l as [|b l IH]; simpl; [done|].
        destruct (String.eqb_spec (Domain b) domain) as [Eb|Eb]; simpl; [|by rewrite IH].
        destruct (String.eqb_spec (Domain b) d); [congruence|done].
    + unfold one_per_domain. intros [_ Hl]%NoDup_cons. clear -Hl.
      induction l as [|b l IH]; simpl; [done|]. apply NoDup_cons in Hl as [Hb Hl].
      destruct (negb _); [|by apply IH]. apply NoDup_cons. split; [|by apply IH].
      intros Hin. apply Hb. clear -Hin. apply list_elem_of_fmap in Hin as (x & -> & Hx).
      apply list_elem_of_fmap. exists x. split; [done|]. apply list_elem_of_In, filter_In in Hx as [Hx _]. by apply list_elem_of_In.
  - destruct (existsb _ l); [|done]. destruct IH as (Hs & Hf & Hn & Hl). split_and!; [done| | |simpl; lia].
    + intros d. cbn [List.find]. destruct (String.eqb_spec (Domain a) d) as [<-|]; [|done].
      by destruct (String.eqb_spec (Domain a) domain).
    + unfold one_per_domain in *. intros [Ha Hl']%NoDup_cons. apply NoDup_cons. split; [|by apply Hn].
      intros Hin. apply Ha. apply list_elem_of_fmap in Hin as (x & Ex & Hx). rewrite Ex.
      apply list_elem_of_fmap. exists x. split; [done|]. apply list_elem_of_In, filter_In in Hx as [Hx _]. by apply list_elem_of_In.
Qed.

Lemma put_record_forall (P : dnsRecordInner -> Prop) r l l' upd :
  P r -> Forall P l -> put_record r l = Some (l', upd) -> Forall P l'.
Proof.
  intros Hr Hl. unfold put_record. assert (Hrep : forall l, Forall P l -> default True (Forall P <$> replace_record r l)).
  { clear l l' Hl. induction 1 as [|a l Ha Hl IH]; [done|]. cbn [replace_record]. destruct (String.eqb _ _); [by constructor|].
    destruct (replace_record r l); [by constructor|done]. }
  specialize (Hrep l Hl). destruct (replace_record r l) as [l2|]; [by intros [= <- _]|].
  destruct (_ <=? _)%nat; [done|]. intros [= <- _]. apply Forall_app. by split; [|constructor].
Qed.
Lemma remove_record_forall (P : dnsRecordInner -> Prop) d l l' : Forall P l -> remove_record d l = Some l' -> Forall P l'.
Proof.
  unfold remove_record. intros Hl. destruct (existsb _ l); [|done]. intros [= <-].
  induction Hl as [|a l Ha Hl IH]; simpl; [done|]. destruct (negb _); [by constructor|done].
Qed.
