(* ===== verification/ApiDocs.v ===== *)
(** * What the API servers write

    Facts about the documents the [CAS] closures produce: they are well-formed
    JSON whose version is the successor of the one they replace, and what they
    keep of it. *)

From Stdlib Require Import Btauto.
From S2P Require Import Prelude GoStrings Json JsonNormal Decode GoTime ConfigDoc Validation Etcd Db Effects Cas Rollback HsiConfig HsiDocs Storage Hoare.
Local Open Scope string_scope.
Local Open Scope Z_scope.
Local Open Scope go_scope.

(** ** Well-formed documents *)

Definition pm_texts (p : portMapping) : list string := [pm_Index p; pm_DIP p; pm_DPort p; pm_EPort p].
Definition hsi_texts (c : hsiConfigInner) : list string :=
  [UserID c; VlanID c; AccountName c; Password c; DHCPAddrPool c; DHCPSubnet c; DHCPGateway c].
Definition hmeta_texts (m : hsiMetaInner) : list string := [Node m; ResourceVersion m; UpdatedBy m; UpdatedAt m].
Definition ports_valid (l : option (list portMapping)) : bool := forallb (fun p => forallb valid_utf8 (pm_texts p)) (default [] l).
(** The texts of a config are valid UTF-8, which protobuf and JSON decoding
    guarantee of every request. *)
Definition hsi_valid (c : hsiConfigInner) : bool :=
  forallb valid_utf8 (hsi_texts c) && ports_valid (PortMappings c) && valid_utf8 (DesireStatus c).

Lemma wf_pm p : wf_json (pm_json p) = forallb valid_utf8 (pm_texts p).
Proof. done. Qed.
Lemma forallb_fmap {A B} (f : A -> B) (p : B -> bool) l : forallb p (f <$> l) = forallb (fun x => p (f x)) l.
Proof. induction l as [|x l IH]; [done|]. simpl. by rewrite <-IH. Qed.
Lemma wf_hsi c : wf_json (hsi_json c) = hsi_valid c.
Proof.
  unfold hsi_json. rewrite wf_obj, !forallb_app.
  assert (Hb : forall n b, valid_utf8 n = true ->
    forallb (fun kv : string * json => valid_utf8 kv.1 && wf_json kv.2) (omit_bool n b) = true).
  { intros n [b|] Hn; [|done]. simpl. by rewrite Hn. }
  rewrite !Hb by done.
  assert (Hp : forallb (fun kv : string * json => valid_utf8 kv.1 && wf_json kv.2) (omit_ports (PortMappings c)) =
               ports_valid (PortMappings c)).
  { unfold ports_valid. destruct (PortMappings c) as [[|p l]|]; [done| |done]. unfold omit_ports, default.
    cbn [forallb fst snd id]. rewrite wf_arr, forallb_fmap. cbn [forallb].
    change (valid_utf8 "port-mapping") with true. by rewrite andb_true_l, andb_true_r. }
  rewrite Hp. unfold hsi_valid, hsi_texts. cbn [forallb fst snd wf_json].
  repeat match goal with |- context [valid_utf8 (String ?a ?b)] => change (valid_utf8 (String a b)) with true end.
  btauto.
Qed.
Lemma wf_hmeta m : wf_json (hmeta_json m) = forallb valid_utf8 (hmeta_texts m).
Proof. done. Qed.
Lemma wf_cwm d : wf_json (cwm_json d) = hsi_valid (Config d) && forallb valid_utf8 (hmeta_texts (Metadata d)).
Proof.
  unfold cwm_json. rewrite wf_obj. cbn [forallb fst snd]. rewrite wf_hsi, wf_hmeta.
  change (valid_utf8 "config") with true. change (valid_utf8 "metadata") with true. btauto.
Qed.
Definition dns_texts (r : dnsRecordInner) : list string := [Domain r; IP r].
Lemma wf_dns r : 0 <= TTL r -> wf_json (dns_json r) = forallb valid_utf8 (dns_texts r).
Proof.
  intros Ht. unfold dns_json. rewrite wf_obj. cbn [forallb fst snd wf_json dns_texts].
  rewrite format_uint_lit by done.
  repeat match goal with |- context [valid_utf8 (String ?a ?b)] => change (valid_utf8 (String a b)) with true end.
  btauto.
Qed.
Lemma wf_records l m : ttls_ok l -> texts_ok l -> forallb valid_utf8 (hmeta_texts m) = true ->
  wf_json (records_json (MkRecords (Some l) m)) = true.
Proof.
  intros Hl Ht Hm. unfold records_json. rewrite wf_obj. cbn [forallb fst snd Records rec_Metadata].
  rewrite wf_arr, forallb_fmap, wf_hmeta, Hm. rewrite !andb_true_iff. split_and!; try done.
  apply forallb_forall. intros r Hr%list_elem_of_In. unfold ttls_ok, texts_ok in *. rewrite Forall_forall in Hl, Ht.
  rewrite wf_dns by (by apply Hl). simpl. destruct (Ht _ Hr) as [-> ->]. done.
Qed.
Lemma wf_count d : wf_json (count_json d) = valid_utf8 (SubscriberCount d) && forallb valid_utf8 (hmeta_texts (cnt_Metadata d)).
Proof.
  unfold count_json, cmeta_json. rewrite !wf_obj. cbn [forallb fst snd wf_json hmeta_texts].
  repeat match goal with |- context [valid_utf8 (String ?a ?b)] => change (valid_utf8 (String a b)) with true end.
  btauto.
Qed.

(** ** Decoded documents are valid *)

Ltac each_field := repeat (apply Forall_cons_2; [apply keeps_fld|]); try apply Forall_nil_2.

Lemma d_pm_valid cur j p : wf_json j = true -> forallb valid_utf8 (pm_texts cur) = true ->
  d_pm cur j = Some p -> forallb valid_utf8 (pm_texts p) = true.
Proof.
  apply (d_struct_keeps (fun p => forallb valid_utf8 (pm_texts p) = true)). each_field;
    intros c x b Hc Hx Hd; simpl in *; bool_split; (apply d_string_valid in Hd; [|done..]);
    rewrite !andb_true_iff; split_and!; done.
Qed.
Lemma d_hsi_valid cur j c : wf_json j = true -> hsi_valid cur = true -> d_hsi cur j = Some c -> hsi_valid c = true.
Proof.
  apply (d_struct_keeps (fun c => hsi_valid c = true)). each_field;
    intros c0 x b Hc Hx Hd; unfold hsi_valid in *; simpl in *; bool_split;
    try (apply d_string_valid in Hd; [|done..]); rewrite !andb_true_iff; split_and!; try done.
  unfold ports_valid. apply forallb_forall. apply (d_slice_inv (fun p => forallb valid_utf8 (pm_texts p) = true)) in Hd; [|
    intros y a Hy; by apply d_pm_valid|done].
  rewrite Forall_forall in Hd. intros p Hp%list_elem_of_In. by apply Hd.
Qed.
Lemma d_hmeta_valid cur j m : wf_json j = true -> forallb valid_utf8 (hmeta_texts cur) = true ->
  d_hmeta cur j = Some m -> forallb valid_utf8 (hmeta_texts m) = true.
Proof.
  apply (d_struct_keeps (fun m => forallb valid_utf8 (hmeta_texts m) = true)). each_field;
    intros c x b Hc Hx Hd; simpl in *; bool_split; (apply d_string_valid in Hd; [|done..]);
    rewrite !andb_true_iff; split_and!; done.
Qed.
Lemma read_cwm_valid cur d : read_cwm cur = Some d ->
  hsi_valid (Config d) = true /\ forallb valid_utf8 (hmeta_texts (Metadata d)) = true.
Proof.
  unfold read_cwm, unmarshal. destruct (decode cur) as [j|] eqn:Ej; [|done]. apply decode_wf in Ej.
  apply (d_struct_keeps (fun d => hsi_valid (Config d) = true /\ forallb valid_utf8 (hmeta_texts (Metadata d)) = true));
    [|done..]. each_field; intros c x b [H1 H2] Hx Hd; simpl; split; try done.
  - by eapply d_hsi_valid.
  - by eapply d_hmeta_valid.
Qed.
Lemma current_config_valid current c : current_config current = Some c -> hsi_valid c = true.
Proof.
  unfold current_config. destruct current as [cur|]; [|done]. destruct (read_cwm cur) as [d|] eqn:Er; [|done].
  intros [= <-]. by apply read_cwm_valid in Er as [].
Qed.

Lemma stamp_valid nodeID caller current now :
  valid_utf8 nodeID = true -> valid_utf8 caller = true ->
  forallb valid_utf8 (hmeta_texts (stamp nodeID caller current now)) = true.
Proof.
  intros Hn Hc. simpl. by rewrite Hn, nextResourceVersion_valid, Hc, format_rfc3339_valid.
Qed.

(** ** The version chain *)

(** The version of [v] follows on the one of the value it replaces; a new
    value starts the chain at 1. *)
Definition follows (current : option string) (v : string) : Prop :=
  match current with
  | None => configResourceVersion v = Some 1
  | Some cur => forall n, configResourceVersion cur = Some n -> n < max_int64 -> configResourceVersion v = Some (n + 1)
  end.

Lemma follows_stamp current v :
  (forall cur, current = Some cur -> cur <> "") ->
  configResourceVersion v = (if String.eqb (nextResourceVersion current) "" then None else parse_uint 64 (nextResourceVersion current)) ->
  follows current v.
Proof.
  intros Hc Hv. destruct current as [cur|]; simpl.
  - intros n Hn Hb. rewrite (nextResourceVersion_next cur n) in Hv by done.
    pose proof (configResourceVersion_range _ _ Hn) as H0. rewrite Hv.
    destruct (String.eqb_spec (format_uint (n + 1)) "") as [E|_]; [by apply format_uint_nonempty in E|].
    apply parse_format_uint. unfold max_int64 in Hb. lia.
  - by rewrite Hv.
Qed.
Lemma kv_current_nonempty o cur : cas_current o = Some cur -> cur <> "".
Proof. unfold cas_current, kv_bytes. destruct o as [e|]; [|done]. destruct (String.eqb_spec (kv_value e) ""); [done|]. by intros [= <-]. Qed.

(** ** What each closure writes *)

Section closures.
Context (nodeID caller : string) (Hn : valid_utf8 nodeID = true) (Hc : valid_utf8 caller = true).
Implicit Types (o : option kv) (now : Z) (res : CASResult).

Lemma follows_cwm o c now : hsi_valid c = true ->
  follows (cas_current o) (encode (cwm_json (MkCwm c (stamp nodeID caller (cas_current o) now)))).
Proof using Hn Hc.
  intros Hv. apply follows_stamp; [intros cur; apply kv_current_nonempty|]. rewrite version_cwm; [done|].
  rewrite wf_cwm. simpl Config. simpl Metadata. by rewrite Hv, stamp_valid.
Qed.
Lemma follows_records o l now : ttls_ok l -> texts_ok l ->
  follows (cas_current o) (encode (records_json (MkRecords (Some l) (stamp nodeID caller (cas_current o) now)))).
Proof using Hn Hc.
  intros Ht Hl. apply follows_stamp; [intros cur; apply kv_current_nonempty|]. rewrite version_records; [done|].
  apply wf_records; [done..|by apply stamp_valid].
Qed.
Lemma follows_count o n now :
  follows (cas_current o) (encode (count_json (MkCount (format_int n) (stamp nodeID caller (cas_current o) now)))).
Proof using Hn Hc.
  apply follows_stamp; [intros cur; apply kv_current_nonempty|]. rewrite version_count; [done|].
  rewrite wf_count. simpl SubscriberCount. simpl cnt_Metadata. by rewrite format_int_valid, stamp_valid.
Qed.
End closures.

Lemma d_dns_valid cur j r : wf_json j = true -> forallb valid_utf8 (dns_texts cur) = true ->
  d_dns cur j = Some r -> forallb valid_utf8 (dns_texts r) = true.
Proof.
  apply (d_struct_keeps (fun r => forallb valid_utf8 (dns_texts r) = true)). each_field;
    intros c x b Hc Hx Hd; simpl in *; bool_split; try (apply d_string_valid in Hd; [|done..]);
    rewrite !andb_true_iff; split_and!; done.
Qed.
