(* ===== verification/ApiSpec.v ===== *)
(** * The abstract specification of the config API

    [api_write s op]: a write the API may make on a store [s].  It says, without
    the servers' code, what a create, an edit, a dial, a delete, a count update
    and a DNS change may do to the entry they find.  The gRPC and the REST
    server are both proved to make no other writes, whatever interferes; what
    is derived here from the specification therefore holds of both. *)

From S2P Require Import Prelude GoStrings Json JsonNormal Decode GoTime ConfigDoc Validation Etcd Db Effects Cas Rollback HsiConfig HsiDocs Storage Hoare ApiDocs.
Local Open Scope string_scope.
Local Open Scope Z_scope.
Local Open Scope go_scope.

Section spec.
Context `{EtcdLaws E}.

Definition valid_ids (nodeID userID : string) : Prop := ValidateNodeID nodeID = None /\ ValidateUserID userID = None.

(** [desires]: the statuses the request may set; empty for all but dial and
    hangup. *)
Inductive api_write (desires : list string) (s : E) : etcdop -> Prop :=
| WriteCreate n u by_ now c :
    valid_ids n u -> valid_utf8 by_ = true -> hsi_valid c = true -> UserID c = u ->
    cas_current (et_get s (hsiKey n u)) = None -> DesireStatus c = desireStatusDisconnect ->
    api_write desires s (OpPut (hsiKey n u) (encode (cwm_json (MkCwm c (stamp n by_ None now)))))
| WriteEdit n u by_ now c :
    valid_ids n u -> valid_utf8 by_ = true -> hsi_valid c = true -> UserID c = u ->
    let current := cas_current (et_get s (hsiKey n u)) in
    DesireStatus c = merge_desire (current_config current) ->
    api_write desires s (OpPut (hsiKey n u) (encode (cwm_json (MkCwm c (stamp n by_ current now)))))
| WriteDesire n u by_ now d cwm cur :
    valid_ids n u -> valid_utf8 by_ = true -> d ∈ desires -> valid_utf8 d = true ->
    cas_current (et_get s (hsiKey n u)) = Some cur -> read_cwm cur = Some cwm ->
    api_write desires s (OpPut (hsiKey n u)
      (encode (cwm_json (MkCwm (set_DesireStatus d (Config cwm)) (stamp (Node (Metadata cwm)) by_ (Some cur) now)))))
| WriteDelete n u :
    valid_ids n u -> cas_current (et_get s (hsiKey n u)) <> None -> api_write desires s (OpDelete (hsiKey n u))
| WriteCascade n u : valid_ids n u -> api_write desires s (OpDelete (dnsKey n u))
| WriteCount n by_ now count printed :
    ValidateNodeID n = None -> valid_utf8 by_ = true -> 0 <= count ->
    let d := MkCount (format_int count) (stamp n by_ (cas_current (et_get s (subscriberCountKey n))) now) in
    printed = count_json d \/ printed = SubscriberCountData_json d ->
    api_write desires s (OpPut (subscriberCountKey n) (encode printed))
| WriteRecord n u by_ now r l upd :
    valid_ids n u -> valid_utf8 by_ = true -> forallb valid_utf8 (dns_texts r) = true -> 0 <= TTL r < 2 ^ 32 ->
    let current := cas_current (et_get s (dnsKey n u)) in
    put_record r (decodeDNSRecords current) = Some (l, upd) ->
    api_write desires s (OpPut (dnsKey n u) (encode (records_json (MkRecords (Some l) (stamp n by_ current now)))))
| WriteRemove n u by_ now domain l :
    valid_ids n u -> valid_utf8 by_ = true ->
    let current := cas_current (et_get s (dnsKey n u)) in
    remove_record domain (decodeDNSRecords current) = Some l -> l <> [] ->
    api_write desires s (OpPut (dnsKey n u) (encode (records_json (MkRecords (Some l) (stamp n by_ current now)))))
| WriteLast n u domain :
    valid_ids n u -> remove_record domain (decodeDNSRecords (cas_current (et_get s (dnsKey n u)))) = Some [] ->
    api_write desires s (OpDelete (dnsKey n u)).

(** ** The closures implement it *)

Context (n u by_ : string) (Hb : valid_utf8 by_ = true) (desires : list string).
Implicit Types (s : E) (now : Z) (res : CASResult).

Lemma create_writes s inner now res y :
  valid_ids n u -> hsi_valid inner = true -> UserID inner = u -> DesireStatus inner = desireStatusDisconnect ->
  create_mutate n by_ inner (cas_current (et_get s (hsiKey n u))) now = Ok (res, y) ->
  api_write desires s (cas_op (hsiKey n u) res).
Proof using Hb.
  unfold create_mutate. destruct (cas_current _) as [cur|] eqn:Ec; [done|]. intros ? ? ? ? Hr.
  apply Ok_inj, (f_equal fst) in Hr. cbn [fst] in Hr. subst res. by apply WriteCreate.
Qed.
Lemma update_writes s merge now res y :
  valid_ids n u -> (forall cur, hsi_valid (merge (current_config cur)) = true) -> (forall c, UserID (merge c) = u) ->
  (forall c, DesireStatus (merge c) = merge_desire c) ->
  update_mutate n by_ merge (cas_current (et_get s (hsiKey n u))) now = Ok (res, y) ->
  api_write desires s (cas_op (hsiKey n u) res).
Proof using Hb.
  unfold update_mutate. intros ? Hv Hu Hd Hr. apply Ok_inj, (f_equal fst) in Hr. cbn [fst] in Hr. subst res.
  apply WriteEdit; auto.
Qed.
Lemma delete_writes s now res y :
  valid_ids n u -> delete_mutate (cas_current (et_get s (hsiKey n u))) now = Ok (res, y) ->
  api_write desires s (cas_op (hsiKey n u) res).
Proof using.
  unfold delete_mutate. destruct (cas_current _) as [cur|] eqn:Ec; [|done]. intros ? [= <- _].
  apply WriteDelete; [done|by rewrite Ec].
Qed.
Lemma desire_writes s d now res y :
  valid_ids n u -> d ∈ desires -> valid_utf8 d = true ->
  desire_mutate by_ d (cas_current (et_get s (hsiKey n u))) now = Ok (res, y) ->
  api_write desires s (cas_op (hsiKey n u) res).
Proof using Hb.
  unfold desire_mutate. destruct (cas_current _) as [cur|] eqn:Ec; [|done]. intros ? ? ?.
  destruct (read_cwm cur) as [cwm|] eqn:Er; [|done]. destruct (String.eqb _ _); [done|]. intros Hr.
  apply Ok_inj, (f_equal fst) in Hr. cbn [fst] in Hr. subst res. by apply WriteDesire.
Qed.
Lemma count_writes s as_json count now res y :
  ValidateNodeID n = None -> 0 <= count -> as_json = count_json \/ as_json = SubscriberCountData_json ->
  count_mutate as_json n by_ count (cas_current (et_get s (subscriberCountKey n))) now = Ok (res, y) ->
  api_write desires s (cas_op (subscriberCountKey n) res).
Proof using Hb.
  unfold count_mutate. intros ? ? Hj Hr. apply Ok_inj, (f_equal fst) in Hr. cbn [fst] in Hr. subst res.
  eapply WriteCount; try done. destruct Hj as [-> | ->]; auto.
Qed.
Lemma dns_put_writes s r now res y :
  valid_ids n u -> forallb valid_utf8 (dns_texts r) = true -> 0 <= TTL r < 2 ^ 32 ->
  dns_put_mutate n by_ r (cas_current (et_get s (dnsKey n u))) now = Ok (res, y) ->
  api_write desires s (cas_op (dnsKey n u) res).
Proof using Hb.
  unfold dns_put_mutate. intros ? ? ?. destruct (put_record _ _) as [[l upd]|] eqn:Ep; [|done]. intros Hr.
  apply Ok_inj, (f_equal fst) in Hr. cbn [fst] in Hr. subst res. by eapply WriteRecord.
Qed.
Lemma dns_delete_writes s domain now res y :
  valid_ids n u -> dns_delete_mutate n by_ domain (cas_current (et_get s (dnsKey n u))) now = Ok (res, y) ->
  api_write desires s (cas_op (dnsKey n u) res).
Proof using Hb.
  unfold dns_delete_mutate. intros Hi. destruct (cas_current _) as [cur|] eqn:Ec; [|done]. rewrite <-Ec.
  destruct (remove_record _ _) as [[|r l]|] eqn:Er; [| |done]; intros Hr;
    apply Ok_inj, (f_equal fst) in Hr; cbn [fst] in Hr; subst res; [by eapply WriteLast|by eapply WriteRemove].
Qed.
End spec.
