(* ===== verification/GrpcProps.v ===== *)
(** * The gRPC service implements the API specification *)

From S2P Require Import Prelude GoStrings Json JsonNormal Decode GoTime ConfigDoc Validation Etcd Db Effects Cas Rollback HsiConfig HsiDocs Storage Hoare Auth ConfigGrpc ApiDocs ApiSpec.
Local Open Scope string_scope.
Local Open Scope Z_scope.
Local Open Scope go_scope.

(** ** Valid requests *)

(** protobuf only delivers valid UTF-8 and 32-bit numbers. *)
Definition pbpm_texts (p : pbPortMapping) : list string := [pb_Index p; pb_Dip p; pb_Dport p; pb_Eport p].
Definition pb_valid (p : pbHSIConfig) : bool :=
  forallb valid_utf8 [pb_UserId p; pb_VlanId p; pb_AccountName p; pb_Password p; pb_DhcpAddrPool p;
                      pb_DhcpSubnet p; pb_DhcpGateway p] &&
  forallb (fun pm => forallb valid_utf8 (pbpm_texts pm)) (pb_PortMappings p) && valid_utf8 (pb_DesireStatus p).
Definition record_valid (r : dnsRecordInner) : bool :=
  forallb valid_utf8 (dns_texts r) && (0 <=? TTL r) && (TTL r <? 2 ^ 32).
Definition rpc_valid (r : rpc) : bool :=
  match r with
  | RpcCreate _ (Some p) | RpcUpdate _ _ (Some p) _ => pb_valid p
  | RpcPutDNS _ _ (Some r) => record_valid r
  | _ => true
  end.

Lemma protoToInner_valid p : pb_valid p = true -> hsi_valid (protoToInner p) = true.
Proof.
  unfold pb_valid, hsi_valid. intros Hv. apply andb_true_iff in Hv as [Hv Hd]. apply andb_true_iff in Hv as [Ht Hp].
  rewrite !andb_true_iff. split_and!; [exact Ht| |exact Hd]. unfold ports_valid. simpl.
  destruct (pb_PortMappings p) as [|q l]; [done|]. cbn [fmap list_fmap default id].
  change (forallb (fun pm => forallb valid_utf8 (pm_texts pm))
    ((fun pm => MkPM (pb_Index pm) (pb_Dip pm) (pb_Dport pm) (pb_Eport pm)) <$> q :: l) = true).
  by rewrite forallb_fmap.
Qed.

Lemma initial_valid c : hsi_valid c = true -> hsi_valid (initial_inner c) = true.
Proof. unfold hsi_valid. intros Hv. apply andb_true_iff in Hv as [Hv _]. apply andb_true_iff. by split. Qed.
Lemma merge_desire_valid current : (forall c, current = Some c -> hsi_valid c = true) -> valid_utf8 (merge_desire current) = true.
Proof.
  intros Hc. destruct current as [c|]; [|done]. simpl. destruct (String.eqb (DesireStatus c) ""); [done|].
  specialize (Hc c eq_refl). unfold hsi_valid in Hc. by bool_split.
Qed.
Lemma merge_grpc_valid inner current clear :
  hsi_valid inner = true -> (forall c, current = Some c -> hsi_valid c = true) ->
  hsi_valid (mergeGRPCHSIConfigUpdate inner current clear) = true.
Proof.
  intros Hi Hc. pose proof (merge_desire_valid _ Hc) as Hd. unfold hsi_valid in Hi.
  apply andb_true_iff in Hi as [Hi _]. apply andb_true_iff in Hi as [Ht Hp].
  unfold hsi_valid. rewrite !andb_true_iff. split_and!; [exact Ht| |exact Hd].
  unfold mergeGRPCHSIConfigUpdate. cbn [PortMappings set_DesireStatus set_PortMappings]. destruct clear; [done|].
  assert (Hcur : forall c, current = Some c -> ports_valid (PortMappings c) = true).
  { intros c E. specialize (Hc c E). unfold hsi_valid in Hc. by bool_split. }
  destruct (PortMappings inner) as [[|q l]|]; [|exact Hp|]; destruct current as [c|]; try done; by apply (Hcur c).
Qed.

(** ** The walk *)

Lemma status_none err : validationToStatus err = None -> err = None.
Proof. by destruct err. Qed.
Lemma ids_none n u : validateNodeAndUserIDsToStatus n u = None -> valid_ids n u.
Proof.
  unfold validateNodeAndUserIDsToStatus, validateNodeIDToStatus. destruct (validationToStatus (ValidateNodeID n)) eqn:En; [done|].
  intros Hu%status_none. split; [by apply status_none|done].
Qed.

Section grpc.
Context `{EtcdLaws E} `{JwtLaws}.
Context (jwtSecret : string) (md : option (list string)).

Lemma caller_valid : returns (fun r => forall u, r = Ok u -> valid_utf8 u = true) (callerFromCtx jwtSecret md) (E:=E).
Proof using All.
  unfold callerFromCtx. destruct md as [[|header rest]|]; try (apply returns_ret; by intros u).
  apply returns_bind. intros now. destruct (getUserFromToken _ _ _) as [user|] eqn:Eu; [|apply returns_ret; by intros u].
  assert (Hu : valid_utf8 user = true).
  { revert Eu. unfold getUserFromToken, validateToken. destruct (jwt_parse _ _ _) as [[[] claims]|] eqn:Ep; [|done..].
    destruct (kget "username" claims) as [[]|] eqn:Ek; try done. intros [= <-]. by eapply jwt_username_valid. }
  apply returns_bind. intros [[o|]|e]; apply returns_ret; intros u; [done| |done]. by intros [= <-].
Qed.
Lemma caller_reads P : writes_only P (callerFromCtx jwtSecret md) (E:=E).
Proof using All. unfold callerFromCtx. solve_writes. Qed.
Lemma count_reads P n : writes_only P (fetchSubscriberCount n) (E:=E).
Proof using All. unfold fetchSubscriberCount. solve_writes. Qed.
Lemma owners_reads P n : writes_only P (fetchVlanOwners n) (E:=E).
Proof using All. unfold fetchVlanOwners. solve_writes. Qed.

(** Every method starts with the token check. *)
Lemma with_caller {A} P (k : string -> prog (result status A)) :
  (forall u, valid_utf8 u = true -> writes_only P (k u) (E:=E)) ->
  writes_only P (do? caller := callerFromCtx jwtSecret md in k caller) (E:=E).
Proof using All.
  intros Hk. eapply writes_bind_returns; [apply caller_valid|apply caller_reads|].
  intros [u|e] Hu; [by apply Hk, Hu|apply writes_ret].
Qed.
Lemma guarded {A} P err (k : prog (result status A)) :
  (err = None -> writes_only P k (E:=E)) -> writes_only P (guard_status err k) (E:=E).
Proof using All. intros Hk. destruct err; simpl; [apply writes_ret|auto]. Qed.
(** The statuses a request may set. *)
Definition rpc_desires (r : rpc) : list string :=
  match r with RpcDial _ _ => [desireStatusConnect] | RpcHangup _ _ => [desireStatusDisconnect] | _ => [] end.

Lemma set_desire_writes d desires n u : d ∈ desires -> valid_utf8 d = true ->
  writes_only (api_write desires) (set_desire jwtSecret md d n u) (E:=E).
Proof using All.
  intros Hd Hv. apply with_caller. intros by_ Hb. apply guarded. intros Hi%ids_none. unfold setDesireStatus.
  apply writes_bind; [|intros; apply writes_ret]. apply writes_CAS. intros s now res y _. by apply desire_writes.
Qed.
Lemma serve_writes r : rpc_valid r = true ->
  writes_only (api_write (rpc_desires r)) (serve jwtSecret md r) (E:=E).
Proof using All.
  intros Hr. destruct r as [n c|n u c clear|n u|n u|n|n u|n u|n k|n|n u r|n u d|n u]; cbn [serve rpc_desires]; unfold answer;
    (apply writes_bind; [|intros []; apply writes_ret]).
  - apply with_caller. intros by_ Hb. apply guarded. intros Hn%status_none. destruct c as [p|]; [|apply writes_ret].
    apply guarded. intros _. apply guarded. intros Hu%status_none. apply writes_bind; [apply count_reads|intros k].
    apply guarded. intros _. apply writes_bind; [apply owners_reads|intros [owners|e]; [|apply writes_ret]].
    apply guarded. intros _. apply writes_bind; [|intros; solve_writes].
    apply writes_CAS. intros s now res y _. apply create_writes; [done|done| |done|done].
    by apply initial_valid, protoToInner_valid.
  - apply with_caller. intros by_ Hb. apply guarded. intros Hi%ids_none. destruct c as [p|]; [|apply writes_ret].
    apply writes_if; [apply writes_ret|]. apply guarded. intros _. apply guarded. intros Hu%status_none.
    apply guarded. intros Hm%status_none. apply writes_bind; [apply count_reads|intros k].
    apply guarded. intros _. apply writes_bind; [apply owners_reads|intros [owners|e]; [|apply writes_ret]].
    apply guarded. intros _. apply writes_bind; [|intros; solve_writes].
    apply writes_CAS. intros s now res y _. apply update_writes; [done|done| | |done].
    + intros cur. apply merge_grpc_valid; [by apply protoToInner_valid|]. intros c. apply current_config_valid.
    + intros c. unfold ValidateUserIDMatch in Hm. by destruct (String.eqb_spec u (pb_UserId p)) as [->|].
  - apply with_caller. intros by_ Hb. apply guarded. intros Hi%ids_none. apply writes_bind.
    + apply writes_CAS. intros s now res y _. by apply delete_writes.
    + intros [[]|e]; [|solve_writes]. unfold DeleteSubscriberDNS. repeat apply writes_bind; intros; solve_writes.
      apply writes_delete. intros s _. by apply WriteCascade.
  - apply with_caller. intros by_ Hb. apply guarded. intros _. solve_writes.
  - apply with_caller. intros by_ Hb. apply guarded. intros _. solve_writes.
  - apply set_desire_writes; [by apply list_elem_of_singleton|done].
  - apply set_desire_writes; [by apply list_elem_of_singleton|done].
  - apply with_caller. intros by_ Hb. apply guarded. intros Hn%status_none. apply guarded. intros Hk%status_none.
    apply writes_bind; [|intros; apply writes_ret]. apply writes_CAS. intros s now res y _.
    apply count_writes; [done|done| |by left]. unfold ValidateSubscriberCount in Hk. destruct (Z.ltb_spec k 0); [done|lia].
  - apply with_caller. intros by_ Hb. apply guarded. intros _. apply writes_bind; [apply count_reads|intros; apply writes_ret].
  - apply with_caller. intros by_ Hb. apply guarded. intros Hi%ids_none. destruct r as [r|]; [|apply writes_ret].
    apply guarded. intros _. apply writes_bind; [|intros; apply writes_ret]. apply writes_CAS. intros s now res y _.
    cbn [rpc_valid] in Hr. unfold record_valid in Hr. apply andb_true_iff in Hr as [Hr Hv3].
    apply andb_true_iff in Hr as [Hv1 Hv2]. apply dns_put_writes; [done|done|done|lia].
  - apply with_caller. intros by_ Hb. apply guarded. intros Hi%ids_none. apply writes_if; [apply writes_ret|].
    apply writes_bind; [|intros; apply writes_ret]. apply writes_CAS. intros s now res y _. by apply dns_delete_writes.
  - apply with_caller. intros by_ Hb. apply guarded. intros _. solve_writes.
Qed.
End grpc.
