(* ===== verification/RestProps.v ===== *)
(** * The REST API implements the API specification *)

From S2P Require Import Prelude GoStrings Json JsonNormal Decode GoTime ConfigDoc Validation Etcd Db Effects Cas Rollback HsiConfig HsiDocs Storage Hoare Auth RestServer ApiDocs ApiSpec GrpcProps.
Local Open Scope string_scope.
Local Open Scope Z_scope.
Local Open Scope go_scope.

(** ** Bound requests are valid *)

Lemma merge_rest_valid inner current :
  hsi_valid inner = true -> (forall c, current = Some c -> hsi_valid c = true) ->
  hsi_valid (mergeRESTHSIConfigUpdate inner current) = true.
Proof.
  intros Hi Hc. pose proof (merge_desire_valid _ Hc) as Hd. unfold hsi_valid in Hi.
  apply andb_true_iff in Hi as [Hi _]. apply andb_true_iff in Hi as [Ht Hp].
  unfold hsi_valid. rewrite !andb_true_iff. split_and!; [exact Ht| |exact Hd].
  unfold mergeRESTHSIConfigUpdate. cbn [PortMappings set_DesireStatus set_PortMappings].
  destruct (PortMappings inner) as [l|]; [exact Hp|]. destruct current as [c|]; [|done].
  specialize (Hc c eq_refl). unfold hsi_valid in Hc. by bool_split.
Qed.

(** [validatePathIDs] passed. *)
Definition paths_ok (c : Context) : Prop :=
  (Param_nodeId c <> "" -> ValidateNodeID (Param_nodeId c) = None) /\
  (Param_userId c <> "" -> ValidateUserID (Param_userId c) = None).
Lemma validatePathIDs_ok c : validatePathIDs c = None -> paths_ok c.
Proof.
  unfold validatePathIDs, paths_ok.
  destruct (String.eqb_spec (Param_nodeId c) ""); [|destruct (ValidateNodeID (Param_nodeId c)); [done|]];
    (destruct (String.eqb_spec (Param_userId c) ""); [|destruct (ValidateUserID (Param_userId c)); [done|]]); done.
Qed.

(** ** The writes beside the configuration ones *)

Section spec.
Context `{EtcdLaws E}.
Inductive rest_write (desires : list string) (s : E) : etcdop -> Prop :=
| RestConfig op : api_write desires s op -> rest_write desires s op
| RestAddUser name hash : et_get s (userKey name) = None -> rest_write desires s (OpPut (userKey name) hash)
| RestDeleteUser name : rest_write desires s (OpDelete (userKey name))
| RestDeleteNode key : has_prefix "nodes/" key = true -> rest_write desires s (OpDelete key)
| RestRevoke token : rest_write desires s (OpPut (blacklistKey token) "revoked").
End spec.

Definition route_desires (r : route) : list string :=
  match r with POST_dial => [desireStatusConnect] | POST_hangup => [desireStatusDisconnect] | _ => [] end.

(** ** The walk *)

Section rest.
Context `{EtcdLaws E} `{JwtLaws} {BC : Bcrypt} `{GinLaws}.
Context (jwtSecret : string) (database : bool).
Context (events_json : list (Z * NodeEventRow) -> json) (status_json : PPPoEStatusRow -> json).

Lemma bound_valid {A} (P : A -> Prop) (d : dec A) zero c a :
  (forall j a, wf_json j = true -> d zero j = Some a -> P a) -> ShouldBindJSON d zero c = Some a -> P a.
Proof using All.
  intros Hd. unfold ShouldBindJSON. destruct (bind_json _) as [j|] eqn:Ej; [|done]. apply bind_json_wf in Ej. by apply Hd.
Qed.
Lemma rest_caller P c (k : string -> prog response) :
  (forall u, valid_utf8 u = true -> writes_only P (k u) (E:=E)) -> writes_only P (caller_of jwtSecret c k) (E:=E).
Proof using All.
  intros Hk. unfold caller_of. apply writes_bind; [apply writes_read; constructor|intros now].
  destruct (getUserFromToken _ _ _) as [u|] eqn:Eu; [|apply writes_ret]. apply Hk. revert Eu.
  unfold getUserFromToken, validateToken. destruct (jwt_parse _ _ _) as [[[] claims]|] eqn:Ep; [|done..].
  destruct (kget "username" claims) as [[]|] eqn:Ek; try done. intros [= <-]. by eapply jwt_username_valid.
Qed.
Lemma required P rule (k : prog response) :
  (rule = None -> writes_only P k (E:=E)) -> writes_only P (require rule k) (E:=E).
Proof using All. intros Hk. destruct rule; simpl; [apply writes_ret|auto]. Qed.
Lemma rest_count_reads P n : writes_only P (GetSubscriberCount n) (E:=E).
Proof using All. unfold GetSubscriberCount. solve_writes. Qed.
Lemma rest_owners_reads P n : writes_only P (listVlanOwners n) (E:=E).
Proof using All. unfold listVlanOwners, fetchVlanOwners. solve_writes. Qed.
Lemma with_ids_writes P c (k : string -> string -> prog response) : paths_ok c ->
  (forall n u, valid_ids n u -> writes_only P (k n u) (E:=E)) -> writes_only P (with_ids c k) (E:=E).
Proof using All.
  intros [Hn Hu] Hk. unfold with_ids. destruct (String.eqb_spec (Param_nodeId c) ""); [apply writes_ret|].
  destruct (String.eqb_spec (Param_userId c) ""); [apply writes_ret|]. apply Hk. split; auto.
Qed.
Lemma with_domain_writes P c (k : string -> string -> string -> prog response) : paths_ok c ->
  (forall n u d, valid_ids n u -> writes_only P (k n u d) (E:=E)) -> writes_only P (with_domain c k) (E:=E).
Proof using All.
  intros [Hn Hu] Hk. unfold with_domain. destruct (String.eqb_spec (Param_nodeId c) ""); [apply writes_ret|].
  destruct (String.eqb_spec (Param_userId c) ""); [apply writes_ret|].
  destruct (String.eqb_spec (Param_domain c) ""); [apply writes_ret|]. apply Hk. split; auto.
Qed.

Lemma clear_writes ds kvs n stopped : Forall (fun e : string * kv => has_prefix "nodes/" e.1 = true) kvs ->
  writes_only (rest_write ds) (clear_loop kvs n stopped) (E:=E).
Proof using All.
  intros Hk. revert n stopped. induction Hk as [|[key e] kvs Hp _ IH]; intros n stopped; cbn [clear_loop]; [apply writes_ret|].
  apply writes_if; [apply IH|]. apply writes_bind; [|intros []; apply IH]. apply writes_delete.
  intros s _. by apply RestDeleteNode.
Qed.

Lemma create_rest_writes ds c : paths_ok c -> writes_only (rest_write ds) (CreateHSIConfig jwtSecret c) (E:=E).
Proof using All.
  intros [Hn _]. unfold CreateHSIConfig. destruct (String.eqb_spec (Param_nodeId c) ""); [apply writes_ret|].
  destruct (ShouldBindJSON _ _ c) as [config|] eqn:Eb; [|apply writes_ret].
  apply (bound_valid (fun c => hsi_valid c = true)) in Eb; [|intros j a Hj; by apply d_hsi_valid].
  apply required. intros _. apply required. intros Hu. apply writes_bind; [apply rest_count_reads|intros k].
  apply required. intros _. apply writes_bind; [apply rest_owners_reads|intros [owners|e]; [|apply writes_ret]].
  apply required. intros _. apply rest_caller. intros by_ Hb. apply writes_bind; [|intros; apply writes_ret].
  apply writes_CAS. intros s now res y _ Hm. apply RestConfig. revert Hm. apply create_writes; [done|split; auto| |done|done].
  exact (initial_valid config Eb).
Qed.
Lemma update_rest_writes ds c : paths_ok c -> writes_only (rest_write ds) (UpdateHSIConfig jwtSecret c) (E:=E).
Proof using All.
  intros Hp. apply with_ids_writes; [done|]. intros n u Hi.
  destruct (ShouldBindJSON _ _ c) as [config|] eqn:Eb; [|apply writes_ret].
  apply (bound_valid (fun c => hsi_valid c = true)) in Eb; [|intros j a Hj; by apply d_hsi_valid].
  apply required. intros _. apply required. intros Hu. apply required. intros Hm.
  apply writes_bind; [apply rest_count_reads|intros k].
  apply required. intros _. apply writes_bind; [apply rest_owners_reads|intros [owners|e]; [|apply writes_ret]].
  apply required. intros _. apply rest_caller. intros by_ Hb. apply writes_bind; [|intros; apply writes_ret].
  apply writes_CAS. intros s now res y _ Hw. apply RestConfig. revert Hw. apply update_writes; [done|done| | |done].
  - intros cur. apply merge_rest_valid; [done|]. intros c'. apply current_config_valid.
  - intros c'. unfold ValidateUserIDMatch in Hm. by destruct (String.eqb_spec u (UserID config)) as [->|].
Qed.
Lemma desire_rest_writes ds d msg c : d ∈ ds -> valid_utf8 d = true ->
  writes_only (rest_write ds) (desire_handler jwtSecret d msg c) (E:=E).
Proof using All.
  intros Hd Hv. unfold desire_handler. destruct (ShouldBindJSON _ _ c) as [req|]; [|apply writes_ret].
  apply required. intros Hn. apply required. intros Hu. apply writes_bind; [apply rest_count_reads|intros k].
  apply required. intros _. apply rest_caller. intros by_ Hb. unfold setDesireStatus.
  apply writes_bind; [|intros; apply writes_ret]. apply writes_CAS. intros s now res y _ Hm. apply RestConfig.
  revert Hm. by apply desire_writes.
Qed.
Lemma dns_rest_writes ds c : paths_ok c -> writes_only (rest_write ds) (AddOrUpdateDnsRecord jwtSecret c) (E:=E).
Proof using All.
  intros Hp. apply with_ids_writes; [done|]. intros n u Hi.
  destruct (ShouldBindJSON _ _ c) as [r|] eqn:Eb; [|apply writes_ret].
  assert (Hr : forallb valid_utf8 (dns_texts r) = true /\ 0 <= TTL r < 2 ^ 32).
  { revert Eb. apply (bound_valid (fun r => forallb valid_utf8 (dns_texts r) = true /\ 0 <= TTL r < 2 ^ 32)).
    intros j a Hj Ha. split; [|eapply d_dns_ttl; [done| |done]; simpl; lia]. revert Ha. by apply d_dns_valid. }
  destruct Hr. apply required. intros _. apply rest_caller. intros by_ Hb. apply writes_bind; [|intros; apply writes_ret].
  apply writes_CAS. intros s now res y _ Hm. apply RestConfig. revert Hm. by apply dns_put_writes.
Qed.
Lemma dns_delete_rest_writes ds c : paths_ok c -> writes_only (rest_write ds) (DeleteDnsRecord jwtSecret c) (E:=E).
Proof using All.
  intros Hp. apply with_domain_writes; [done|]. intros n u d Hi. apply rest_caller. intros by_ Hb.
  apply writes_bind; [|intros; apply writes_ret]. apply writes_CAS. intros s now res y _ Hm. apply RestConfig.
  revert Hm. by apply dns_delete_writes.
Qed.
Lemma delete_rest_writes ds c : paths_ok c -> writes_only (rest_write ds) (DeleteHSIConfig c) (E:=E).
Proof using All.
  intros Hp. apply with_ids_writes; [done|]. intros n u Hi. apply writes_bind; [apply rest_count_reads|intros k].
  apply required. intros _. apply writes_bind.
  - apply writes_CAS. intros s now res y _ Hm. apply RestConfig. revert Hm. by apply delete_writes.
  - intros [[]|e]; [|solve_writes]. unfold DeleteSubscriberDNS. repeat apply writes_bind; intros; solve_writes.
    apply writes_delete. intros s _. by apply RestConfig, WriteCascade.
Qed.
Lemma count_rest_writes ds c : paths_ok c -> writes_only (rest_write ds) (UpdateNodeSubscriberCount jwtSecret c) (E:=E).
Proof using All.
  intros [Hn _]. unfold UpdateNodeSubscriberCount. destruct (String.eqb_spec (Param_nodeId c) ""); [apply writes_ret|].
  destruct (ShouldBindJSON _ _ c) as [k|]; [|apply writes_ret]. apply required. intros Hk.
  apply rest_caller. intros by_ Hb. apply writes_bind; [|intros; apply writes_ret].
  apply writes_CAS. intros s now res y _ Hm. apply RestConfig. revert Hm. apply count_writes; auto.
  unfold ValidateSubscriberCount in Hk. destruct (Z.ltb_spec k 0); [done|lia].
Qed.
Lemma user_rest_writes ds salt c :
  writes_only (rest_write ds) (AddUser salt c) (E:=E) /\ writes_only (rest_write ds) (DeleteUser c) (E:=E).
Proof using All.
  split.
  - unfold AddUser. solve_writes. apply writes_txn. intros store _ Hg. apply RestAddUser. cbn [check] in Hg.
    by destruct (et_get store _).
  - unfold DeleteUser. solve_writes. apply writes_delete. intros store _. apply RestDeleteUser.
Qed.
Lemma node_rest_writes ds c :
  writes_only (rest_write ds) (UnregisterNode c) (E:=E) /\ writes_only (rest_write ds) (ClearInactiveNodes c) (E:=E).
Proof using All.
  split.
  - unfold UnregisterNode. solve_writes. apply writes_delete. intros store _. apply RestDeleteNode, has_prefix_iff. by eexists.
  - unfold ClearInactiveNodes. eapply writes_bind_returns; [apply range_keys|apply writes_read; constructor|].
    intros [[kvs r]|e] Hk; [|apply writes_ret]. apply writes_bind; [by apply clear_writes|intros; apply writes_ret].
Qed.
Lemma logout_rest_writes ds c : writes_only (rest_write ds) (Logout jwtSecret c) (E:=E).
Proof using All. unfold Logout. solve_writes. apply writes_put_lease. intros store _. apply RestRevoke. Qed.

Lemma router_writes salt r c :
  writes_only (rest_write (route_desires r)) (newRouter jwtSecret database events_json status_json salt r c) (E:=E).
Proof using All.
  unfold newRouter. destruct (validatePathIDs c) as [resp|] eqn:Ev; [apply writes_ret|]. apply validatePathIDs_ok in Ev.
  assert (Hh : writes_only (rest_write (route_desires r)) (handler jwtSecret database events_json status_json salt r c) (E:=E)).
  { destruct r; cbn [handler route_desires];
      try (by apply create_rest_writes || by apply update_rest_writes || by apply delete_rest_writes ||
           by apply dns_rest_writes || by apply dns_delete_rest_writes || by apply count_rest_writes ||
           apply logout_rest_writes || apply user_rest_writes || apply node_rest_writes);
      try (apply desire_rest_writes; [by apply list_elem_of_singleton|done]).
    - unfold EtcdHealthCheck. solve_writes.
    - unfold Login, getUserPassword. solve_writes. apply writes_bind; [|intros]; solve_writes.
    - unfold VerifyPassword, getUserPassword. solve_writes. apply writes_bind; [|intros]; solve_writes.
    - unfold ListNodes. solve_writes.
    - apply writes_bind; [apply node_rest_writes|intros; apply writes_ret].
    - unfold GetNodeSubscriberCount. solve_writes.
    - unfold ListUsers. solve_writes.
    - unfold GetHSIUserIds. solve_writes. apply writes_bind; [apply rest_count_reads|intros; apply writes_ret].
    - apply with_ids_writes; [done|]. intros n u _. apply writes_bind; [apply rest_count_reads|intros k].
      apply required. intros _. solve_writes.
    - apply with_ids_writes; [done|]. intros n u _. unfold requireDB. solve_writes.
    - apply with_ids_writes; [done|]. intros n u _. solve_writes.
    - apply with_domain_writes; [done|]. intros n u d _. solve_writes.
    - unfold GetAllFailedEvents, list_events, requireDB. solve_writes.
    - unfold DeleteFailedEvents, requireDB. solve_writes.
    - unfold GetFailedEvents, list_events, requireDB. solve_writes.
    - apply writes_ret. }
  apply writes_if; [|done]. unfold AuthMiddlewareWithBlacklist. apply writes_bind; [solve_writes|].
  intros []; [apply writes_ret|done].
Qed.
End rest.
