(* ===== verification/ApiProps.v ===== *)
(** * What holds of every API request

    Consequences of the API specification for both servers: [api] runs a request
    of either, and the theorems speak of all the writes it makes. *)

From S2P Require Import Prelude GoStrings Json JsonNormal Decode GoTime ConfigDoc Validation Etcd Db Effects Cas Rollback HsiConfig HsiDocs Storage Hoare Auth ConfigGrpc RestServer ApiDocs ApiSpec GrpcProps RestProps.
Local Open Scope string_scope.
Local Open Scope Z_scope.
Local Open Scope go_scope.

(** ** Keys *)

Lemma user_id_no_slash u : ValidateUserID u = None -> has_byte "/" u = false.
Proof. intros (n & Hn & ->)%user_id_canonical. apply all_digits_no_byte; [apply format_uint_all_digits; lia|done]. Qed.
Lemma split_key kind n u : has_byte "/" n = false -> has_byte "/" kind = false -> has_byte "/" u = false ->
  split_on "/" ("configs/" +:+ n +:+ String "/" (kind +:+ String "/" u)) = ["configs"; n; kind; u].
Proof.
  intros Hn Hk Hu. change ("configs/" +:+ ?x) with ("configs" +:+ String "/" x).
  rewrite split_on_app by done. rewrite split_on_app by done. rewrite split_on_app by done. by rewrite split_on_no_sep.
Qed.
Lemma hsiKey_parts n u : valid_ids n u -> split_on "/" (hsiKey n u) = ["configs"; n; "hsi"; u].
Proof.
  intros [[Hn _]%node_id_no_slash Hu%user_id_no_slash]. exact (split_key "hsi" n u Hn eq_refl Hu).
Qed.
Lemma dnsKey_parts n u : valid_ids n u -> split_on "/" (dnsKey n u) = ["configs"; n; "dns"; u].
Proof.
  intros [[Hn _]%node_id_no_slash Hu%user_id_no_slash]. exact (split_key "dns" n u Hn eq_refl Hu).
Qed.
Lemma countKey_parts n : ValidateNodeID n = None -> split_on "/" (subscriberCountKey n) = ["user_counts"; n; ""].
Proof.
  intros [Hn _]%node_id_no_slash. unfold subscriberCountKey.
  change ("user_counts/" +:+ ?x) with ("user_counts" +:+ String "/" x).
  rewrite split_on_app by done. by rewrite split_on_app.
Qed.
Lemma node_valid n : ValidateNodeID n = None -> valid_utf8 n = true.
Proof. apply node_id_valid. Qed.

Lemma put_inj k v k' v' : OpPut k v = OpPut k' v' -> k = k' /\ v = v'.
Proof. by injection 1. Qed.
Lemma record_list_valid current : ttls_ok (decodeDNSRecords current) /\ texts_ok (decodeDNSRecords current).
Proof. split; [apply decodeDNS_ttls|apply decodeDNS_texts]. Qed.

(** ** Consequences of the specification *)

Section spec.
Context `{EtcdLaws E}.

(** The keys of config documents. *)
Definition config_key (k : string) : Prop :=
  (exists n u, valid_ids n u /\ (k = hsiKey n u \/ k = dnsKey n u)) \/
  (exists n, ValidateNodeID n = None /\ k = subscriberCountKey n).
Definition op_key (op : etcdop) : string := match op with OpPut k _ => k | OpDelete k => k end.

Lemma api_write_key ds (s : E) op : api_write ds s op -> config_key (op_key op).
Proof using. unfold config_key. intros []; simpl; eauto 10. Qed.

Lemma rest_write_config ds (s : E) op : rest_write ds s op -> config_key (op_key op) -> api_write ds s op.
Proof using.
  intros Hw Hk. assert (Hhead : exists p r, split_on "/" (op_key op) = p :: r /\ (p = "configs" \/ p = "user_counts")).
  { destruct Hk as [(n & u & Hi & [Hk|Hk])|(n & Hn & Hk)]; rewrite Hk;
      [rewrite hsiKey_parts by done|rewrite dnsKey_parts by done|rewrite countKey_parts by done]; eauto. }
  destruct Hhead as (p & r & Hs & Hp).
  assert (Hno : forall q x, has_byte "/" q = false -> q <> "configs" -> q <> "user_counts" ->
    op_key op = q +:+ String "/" x -> api_write ds s op).
  { intros q x Hq H1 H2 Eq. rewrite Eq, split_on_app in Hs by done. injection Hs as <- <-. destruct Hp; congruence. }
  destruct Hw as [op Hop|name hash _|name|key Hpre|token]; [done|..]; simpl in Hno.
  - by apply (Hno "users" name).
  - by apply (Hno "users" name).
  - apply has_prefix_iff in Hpre as [t ->]. by apply (Hno "nodes" t).
  - by apply (Hno "token_blacklist" token).
Qed.

Lemma version_rest_count d : wf_json (SubscriberCountData_json d) = true ->
  configResourceVersion (encode (SubscriberCountData_json d)) =
    if String.eqb (ResourceVersion (cnt_Metadata d)) "" then None else parse_uint 64 (ResourceVersion (cnt_Metadata d)).
Proof using. intros Hw. unfold SubscriberCountData_json in *. by rewrite version_of_doc. Qed.
Lemma wf_rest_count d : wf_json (SubscriberCountData_json d) =
  valid_utf8 (SubscriberCount d) && forallb valid_utf8 (hmeta_texts (cnt_Metadata d)).
Proof using.
  rewrite <-wf_count. unfold SubscriberCountData_json, count_json. rewrite !wf_obj. cbn [forallb].
  rewrite !andb_true_r. apply andb_comm.
Qed.

Lemma api_write_follows ds (s : E) op : api_write ds s op ->
  match op with OpPut k v => follows (cas_current (et_get s k)) v | OpDelete _ => True end.
Proof using.
  intros [n u by_ now c [Hn _] Hb Hv _ Hc _|n u by_ now c [Hn _] Hb Hv _ cur _|n u by_ now d cwm cur [Hn _] Hb _ Hd Hc Hr
         |n u _ _|n u _|n by_ now count printed Hn Hb _ d Hp|n u by_ now r l upd [Hn _] Hb Hr Ht cur Hp
         |n u by_ now dom l [Hn _] Hb cur Hp _|n u dom _ _]; try done.
  - rewrite Hc. pose proof (follows_cwm n by_ (node_valid n Hn) Hb None c now Hv) as Hf. exact Hf.
  - apply follows_cwm; [by apply node_valid|done|done].
  - pose proof (read_cwm_valid _ _ Hr) as [Hcv Hmv]. rewrite <-Hc.
    apply follows_cwm; [|done|].
    + simpl in Hmv. by bool_split.
    + unfold hsi_valid in *. apply andb_true_iff in Hcv as [Hcv _]. apply andb_true_iff. by split.
  - destruct Hp as [-> | ->]; [by apply follows_count; [apply node_valid|]|].
    apply follows_stamp; [intros x; apply kv_current_nonempty|]. rewrite version_rest_count; [done|].
    rewrite wf_rest_count. simpl SubscriberCount. simpl cnt_Metadata.
    rewrite format_int_valid, stamp_valid; [done|by apply node_valid|done].
  - destruct (record_list_valid (cas_current (et_get s (dnsKey n u)))) as [Ht' Hx'].
    apply follows_records; [by apply node_valid|done| |].
    + eapply put_record_forall; [|exact Ht'|exact Hp]. done.
    + eapply put_record_forall; [|exact Hx'|exact Hp]. simpl in Hr. by bool_split.
  - destruct (record_list_valid (cas_current (et_get s (dnsKey n u)))) as [Ht' Hx'].
    apply follows_records; [by apply node_valid|done| |]; by eapply remove_record_forall.
Qed.

(** Only dial and hangup set a status. *)
Lemma api_write_desire (s : E) n u v : valid_ids n u -> api_write [] s (OpPut (hsiKey n u) v) ->
  exists d, read_cwm v = Some d /\ UserID (Config d) = u /\
    DesireStatus (Config d) = merge_desire (current_config (cas_current (et_get s (hsiKey n u)))).
Proof using.
  intros Hi Hw. remember (OpPut (hsiKey n u) v) as op eqn:Eop.
  destruct Hw as [n' u' by_ now c Hi' Hb Hv Hu Hc Hd|n' u' by_ now c Hi' Hb Hv Hu cur Hd|n' u' by_ now d cwm cur Hi' Hb Hin
         |n' u' _ _|n' u' _|n' by_ now count printed Hn Hb _ d Hp|n' u' by_ now r l upd Hi' Hb Hr Ht cur Hp
         |n' u' by_ now dom l Hi' Hb cur Hp _|n' u' dom _ _]; try done.
  - apply put_inj in Eop as [Ek <-]. apply (f_equal (split_on "/")) in Ek. rewrite !hsiKey_parts in Ek by done.
    injection Ek as -> ->. rewrite Hc. destruct Hi' as [Hn _].
    rewrite read_cwm_json; [|rewrite wf_cwm; simpl Config; simpl Metadata; rewrite Hv; apply stamp_valid; [by apply node_valid|done]].
    eexists. split; [reflexivity|]. split; [exact Hu|exact Hd].
  - apply put_inj in Eop as [Ek <-]. apply (f_equal (split_on "/")) in Ek. rewrite !hsiKey_parts in Ek by done.
    injection Ek as -> ->. destruct Hi' as [Hn _].
    rewrite read_cwm_json; [|rewrite wf_cwm; simpl Config; simpl Metadata; rewrite Hv; apply stamp_valid; [by apply node_valid|done]].
    eexists. split; [reflexivity|]. split; [exact Hu|exact Hd].
  - by apply not_elem_of_nil in Hin.
  - apply put_inj in Eop as [Ek <-]. apply (f_equal (split_on "/")) in Ek. rewrite hsiKey_parts, dnsKey_parts in Ek by done. done.
  - apply put_inj in Eop as [Ek <-]. apply (f_equal (split_on "/")) in Ek. rewrite hsiKey_parts, dnsKey_parts in Ek by done. done.
Qed.

(** The DNS records of a subscriber stay one per domain and at most 64. *)
Definition records_ok (current : option string) : Prop :=
  one_per_domain (decodeDNSRecords current) /\ (length (decodeDNSRecords current) <= dns_limit)%nat.
Lemma written_records n by_ current now l :
  ValidateNodeID n = None -> valid_utf8 by_ = true -> ttls_ok l -> texts_ok l ->
  decodeDNSRecords (Some (encode (records_json (MkRecords (Some l) (stamp n by_ current now))))) = l.
Proof using. intros Hn Hb Ht Hx. apply decodeDNS_json; [|done]. apply wf_records; [done..|]. apply stamp_valid; [by apply node_valid|done]. Qed.
Lemma api_write_records ds (s : E) n u v : valid_ids n u -> api_write ds s (OpPut (dnsKey n u) v) ->
  records_ok (cas_current (et_get s (dnsKey n u))) -> records_ok (Some v) /\ decodeDNSRecords (Some v) <> [].
Proof using.
  intros Hi Hw [Ho Hl]. remember (OpPut (dnsKey n u) v) as op eqn:Eop.
  destruct Hw as [n' u' by_ now c Hi' Hb Hv Hu Hc Hd|n' u' by_ now c Hi' Hb Hv Hu cur Hd|n' u' by_ now d cwm cur Hi' Hb Hin
         |n' u' _ _|n' u' _|n' by_ now count printed Hn Hb _ d Hp|n' u' by_ now r l upd Hi' Hb Hr Ht cur Hp
         |n' u' by_ now dom l Hi' Hb cur Hp Hne|n' u' dom _ _]; try done; apply put_inj in Eop as [Ek <-];
    apply (f_equal (split_on "/")) in Ek;
    try (rewrite hsiKey_parts, dnsKey_parts in Ek by done; done); try (rewrite countKey_parts, dnsKey_parts in Ek by done; done);
    rewrite !dnsKey_parts in Ek by done; injection Ek as -> ->; destruct Hi' as [Hn _];
    destruct (record_list_valid (cas_current (et_get s (dnsKey n u)))) as [Ht' Hx'].
  - assert (Hl1 : ttls_ok l) by (by eapply put_record_forall; [|exact Ht'|exact Hp]).
    assert (Hl2 : texts_ok l) by (eapply put_record_forall; [|exact Hx'|exact Hp]; simpl in Hr; by bool_split).
    unfold records_ok. rewrite written_records by done.
    pose proof (put_record_spec r (decodeDNSRecords cur)) as Hs. rewrite Hp in Hs. destruct Hs as (Hf & Hone & Hlen & _).
    split_and!; [by apply Hone|unfold cur in *; lia|]. intros ->. specialize (Hf (Domain r)).
    rewrite String.eqb_refl in Hf. done.
  - assert (Hl1 : ttls_ok l) by by eapply remove_record_forall.
    assert (Hl2 : texts_ok l) by by eapply remove_record_forall.
    unfold records_ok. rewrite written_records by done.
    pose proof (remove_record_spec dom (decodeDNSRecords cur)) as Hs. rewrite Hp in Hs. destruct Hs as (_ & _ & Hone & Hlen).
    split_and!; [by apply Hone|unfold cur in *; lia|done].
Qed.
End spec.

(** ** Requests to either server *)

Inductive request :=
| ViaGrpc (md : option (list string)) (r : rpc)
| ViaRest (r : route) (c : Context).
Definition request_valid (q : request) : bool := match q with ViaGrpc _ r => rpc_valid r | ViaRest _ _ => true end.
Definition desires_of (q : request) : list string :=
  match q with ViaGrpc _ r => rpc_desires r | ViaRest r _ => route_desires r end.

Section api.
Context `{EtcdLaws E} `{JwtLaws} {BC : Bcrypt} `{GinLaws}.
Context (jwtSecret : string) (database : bool) (salt : string).
Context (events_json : list (Z * NodeEventRow) -> json) (status_json : PPPoEStatusRow -> json).

Definition api (q : request) : prog (result status reply + response) :=
  match q with
  | ViaGrpc md r => do! a := serve jwtSecret md r in Ret (inl a)
  | ViaRest r c => do! a := newRouter jwtSecret database events_json status_json salt r c in Ret (inr a)
  end.

Lemma api_writes q : request_valid q = true -> writes_only (rest_write (desires_of q)) (api q) (E:=E).
Proof using All.
  destruct q as [md r|r c]; intros Hq; (apply writes_bind; [|intros; apply writes_ret]); [|apply router_writes].
  intros w Hw. eapply ensures_mono; [|by apply serve_writes]. intros a w' (Hw' & l & El & Hl). split; [done|].
  exists l. split; [done|]. eapply Forall_impl; [exact Hl|]. intros so. apply RestConfig.
Qed.
Lemma writes_weaken {A} (P Q : E -> etcdop -> Prop) (p : prog A) :
  (forall s o, P s o -> Q s o) -> writes_only P p -> writes_only Q p.
Proof using.
  intros Hpq Hp w Hw. eapply ensures_mono; [|by apply Hp]. intros a w' (Hw' & l & El & Hl). split; [done|].
  exists l. split; [done|]. eapply Forall_impl; [exact Hl|]. intros so. apply Hpq.
Qed.
End api.

(** ** Properties *)

(** Fixtures: a node with one subscriber, and requests that carry a valid token. *)
Definition sub7 : hsiConfigInner :=
  MkHsi "7" "100" "acc" "pw" "10.0.0.2-10.0.0.9" "255.255.255.0" "10.0.0.1" (Some false) (Some true) (Some false)
    (Some [MkPM "0" "10.0.0.5" "80" "8080"]) "connect".
Definition doc7 : string := encode (cwm_json (MkCwm sub7 (MkHMeta "node-1" "3" "admin" "2026-01-02T03:04:05Z"))).
Definition world7 : world mem :=
  World (et_put (et_put mem_empty (hsiKey "node-1" "7") doc7) "users/admin" "#pw") db_empty (1740000000 * 1000000000) false [].
Lemma world7_wf : world_wf world7.
Proof. apply wf_put, wf_put, mem_empty_wf. Qed.
Definition admin_header : string := "Bearer s3cret.operator".
Definition ctx_for (node user body : string) : Context := MkContext admin_header body node user "" "" "".
Definition no_events (l : list (Z * NodeEventRow)) : json := JNull.
Definition no_status (r : PPPoEStatusRow) : json := JNull.
Definition run_api (q : request) (ts : list turn) : world mem :=
  final (@api plain_jwt plain_bcrypt plain_gin "s3cret" true "salt" no_events no_status q) world7 ts.
Definition put7 : request :=
  ViaRest PUT_hsi (ctx_for "node-1" "7" (encode (hsi_json
    (MkHsi "7" "200" "acc2" "pw2" "10.0.0.2-10.0.0.9" "255.255.255.0" "10.0.0.1" None None (Some true) None "disconnect")))).
Definition dial7 : request :=
  ViaGrpc (Some [admin_header]) (RpcDial "node-1" "7").
Definition dns7 : request :=
  ViaRest POST_dns (ctx_for "node-1" "7" (encode (dns_json (MkDns "a.example" "10.0.0.8" 60)))).

(** C3: every write either server makes, for any request and under every
    interleaving and failure, is one the API specification allows on the store
    it is made on. *)
Theorem api_refines_spec `{EtcdLaws E} `{JwtLaws} {BC : Bcrypt} `{GinLaws} jwtSecret database salt events_json status_json q :
  request_valid q = true ->
  writes_only (rest_write (desires_of q)) (api jwtSecret database salt events_json status_json q) (E:=E).
Proof. apply api_writes. Qed.
Lemma api_refines_spec_witness :
  writes_only (rest_write []) (@api plain_jwt plain_bcrypt plain_gin "s3cret" true "salt" no_events no_status put7) (E:=mem)
  /\ length (own_writes (run_api put7 [])) = 1%nat.
Proof.
  split; [|vm_compute; reflexivity].
  apply (@api_refines_spec mem _ _ plain_jwt plain_jwt_laws plain_bcrypt plain_gin plain_gin_laws _ _ _ _ _ put7).
  vm_compute. reflexivity.
Defined.

(** C11: whatever request of either server writes a config, DNS or subscriber-count
    document, the version of the new document is the successor of the version of
    the one it replaces at the commit, and a new document starts at 1. *)
Theorem api_version_chain `{EtcdLaws E} `{JwtLaws} {BC : Bcrypt} `{GinLaws} jwtSecret database salt events_json status_json q :
  request_valid q = true ->
  writes_only (fun s op => forall k v, op = OpPut k v -> config_key k -> follows (cas_current (et_get s k)) v)
    (api jwtSecret database salt events_json status_json q) (E:=E).
Proof.
  intros Hq. eapply writes_weaken; [|by apply api_writes]. intros s op Hw k v -> Hk.
  apply rest_write_config in Hw; [|done]. by apply api_write_follows in Hw.
Qed.
Lemma api_version_chain_witness :
  writes_only (fun s op => forall k v, op = OpPut k v -> config_key k -> follows (cas_current (et_get s k)) v)
    (@api plain_jwt plain_bcrypt plain_gin "s3cret" true "salt" no_events no_status put7) (E:=mem)
  /\ (configResourceVersion <$> (cas_current (et_get (w_etcd (run_api put7 [])) (hsiKey "node-1" "7")))) = Some (Some 4).
Proof.
  split; [|vm_compute; reflexivity].
  apply (@api_version_chain mem _ _ plain_jwt plain_jwt_laws plain_bcrypt plain_gin plain_gin_laws _ _ _ _ _ put7).
  vm_compute. reflexivity.
Defined.

(** C19: no request but dial and hangup changes the status a subscriber's link is
    driven to: a created config starts disconnected, an edited one keeps the
    status of the config it replaces at the commit, whatever status the request
    asks for. *)
Theorem desire_status_owned `{EtcdLaws E} `{JwtLaws} {BC : Bcrypt} `{GinLaws} jwtSecret database salt events_json status_json q :
  request_valid q = true -> desires_of q = [] ->
  writes_only (fun s op => forall n u v, valid_ids n u -> op = OpPut (hsiKey n u) v ->
      exists d, read_cwm v = Some d /\ UserID (Config d) = u /\
        DesireStatus (Config d) = merge_desire (current_config (cas_current (et_get s (hsiKey n u)))))
    (api jwtSecret database salt events_json status_json q) (E:=E).
Proof.
  intros Hq Hd. eapply writes_weaken; [|by apply api_writes]. rewrite Hd. intros s op Hw n u v Hi ->.
  apply api_write_desire; [done|]. apply rest_write_config; [done|]. left. simpl. eauto 10.
Qed.
Lemma desire_status_owned_witness :
  writes_only (fun s op => forall n u v, valid_ids n u -> op = OpPut (hsiKey n u) v ->
      exists d, read_cwm v = Some d /\ UserID (Config d) = u /\
        DesireStatus (Config d) = merge_desire (current_config (cas_current (et_get s (hsiKey n u)))))
    (@api plain_jwt plain_bcrypt plain_gin "s3cret" true "salt" no_events no_status put7) (E:=mem)
  /\ (DesireStatus <$> current_config (cas_current (et_get (w_etcd (run_api put7 [])) (hsiKey "node-1" "7")))) = Some "connect".
Proof.
  split; [|vm_compute; reflexivity].
  apply (@desire_status_owned mem _ _ plain_jwt plain_jwt_laws plain_bcrypt plain_gin plain_gin_laws _ _ _ _ _ put7);
    vm_compute; reflexivity.
Defined.

(** C29: a subscriber's DNS records stay one per domain and at most 64, and the
    key is deleted rather than left without records: if the records a write of
    either server replaces are such, so are those it stores. *)
Theorem dns_records_bounded `{EtcdLaws E} `{JwtLaws} {BC : Bcrypt} `{GinLaws} jwtSecret database salt events_json status_json q :
  request_valid q = true ->
  writes_only (fun s op => forall n u v, valid_ids n u -> op = OpPut (dnsKey n u) v ->
      records_ok (cas_current (et_get s (dnsKey n u))) -> records_ok (Some v) /\ decodeDNSRecords (Some v) <> [])
    (api jwtSecret database salt events_json status_json q) (E:=E).
Proof.
  intros Hq. eapply writes_weaken; [|by apply api_writes]. intros s op Hw n u v Hi -> Hr.
  eapply api_write_records; [done| |done]. apply rest_write_config; [exact Hw|]. left. simpl. eauto 10.
Qed.
Lemma dns_records_bounded_witness :
  writes_only (fun s op => forall n u v, valid_ids n u -> op = OpPut (dnsKey n u) v ->
      records_ok (cas_current (et_get s (dnsKey n u))) -> records_ok (Some v) /\ decodeDNSRecords (Some v) <> [])
    (@api plain_jwt plain_bcrypt plain_gin "s3cret" true "salt" no_events no_status dns7) (E:=mem)
  /\ decodeDNSRecords (cas_current (et_get (w_etcd (run_api dns7 [])) (dnsKey "node-1" "7"))) = [MkDns "a.example" "10.0.0.8" 60].
Proof.
  split; [|vm_compute; reflexivity].
  apply (@dns_records_bounded mem _ _ plain_jwt plain_jwt_laws plain_bcrypt plain_gin plain_gin_laws _ _ _ _ _ dns7).
  vm_compute. reflexivity.
Defined.

(** The keys of validated ids never collide: two subscribers share a key only
    if node and user agree, and the three document families are disjoint. *)
Theorem config_keys_separate n u n' u' :
  valid_ids n u -> valid_ids n' u' ->
  (hsiKey n u = hsiKey n' u' -> n = n' /\ u = u') /\ (dnsKey n u = dnsKey n' u' -> n = n' /\ u = u') /\
  hsiKey n u <> dnsKey n' u' /\ hsiKey n u <> subscriberCountKey n' /\ dnsKey n u <> subscriberCountKey n'.
Proof.
  intros Hi Hi'. pose proof (hsiKey_parts n u Hi) as H1. pose proof (hsiKey_parts n' u' Hi') as H2.
  pose proof (dnsKey_parts n u Hi) as H3. pose proof (dnsKey_parts n' u' Hi') as H4.
  split_and!; try done.
  - intros E. rewrite E, H2 in H1. by injection H1.
  - intros E. rewrite E, H4 in H3. by injection H3.
  - intros E. rewrite E, H4 in H1. done.
Qed.
Lemma config_keys_separate_witness :
  (hsiKey "node-1" "7" = hsiKey "node-1" "8" -> "node-1" = "node-1" /\ "7" = "8") /\
  (dnsKey "node-1" "7" = dnsKey "node-1" "8" -> "node-1" = "node-1" /\ "7" = "8") /\
  hsiKey "node-1" "7" <> dnsKey "node-1" "8" /\ hsiKey "node-1" "7" <> subscriberCountKey "node-1" /\
  dnsKey "node-1" "7" <> subscriberCountKey "node-1".
Proof. apply config_keys_separate; split; vm_compute; reflexivity. Defined.
