(* ===== verification/HandlerProps.v ===== *)
(** * What each gRPC method does when it succeeds and when it fails

    Functional behaviour of the mutating methods under every interleaving and
    failure, and of the token check both servers share. *)

From S2P Require Import Prelude GoStrings Json JsonNormal Decode GoTime ConfigDoc Validation Etcd Db Effects Cas Rollback HsiConfig HsiDocs Storage Hoare Auth ConfigGrpc ApiDocs ApiSpec GrpcProps ApiProps.
Local Open Scope string_scope.
Local Open Scope Z_scope.
Local Open Scope go_scope.

Section grpc.
Context `{EtcdLaws E} `{JwtLaws}.
Context (jwtSecret : string) (md : option (list string)).

(** The call carries a token that was valid and not revoked when checked. *)
Definition authorised (w w' : world E) (caller : string) : Prop :=
  exists header others now, md = Some (header :: others) /\ w_now w <= now <= w_now w' /\
    getUserFromToken jwtSecret (bearerToken header) now = Some caller /\
    et_get (w_etcd w') (blacklistKey (bearerToken header)) = None.

Lemma authorised_valid w w' caller : authorised w w' caller -> valid_utf8 caller = true.
Proof using All.
  intros (h & o & now & _ & _ & Hu & _). revert Hu. unfold getUserFromToken, validateToken.
  destruct (jwt_parse _ _ _) as [[[] claims]|] eqn:Ep; [|done..].
  destruct (kget "username" claims) as [[]|] eqn:Ek; try done. intros [= <-]. by eapply jwt_username_valid.
Qed.
Lemma ensures_caller w (Q : result status string -> world E -> Prop) :
  (forall w' caller, drift w w' -> authorised w w' caller -> Q (Ok caller) w') ->
  (forall w' st, drift w w' -> st_code st = Unauthenticated \/ st_code st = Unavailable -> Q (Err st) w') ->
  ensures (callerFromCtx jwtSecret md) w Q.
Proof using All.
  intros Hok Herr. unfold callerFromCtx. destruct md as [[|header others]|] eqn:Emd;
    [apply ensures_ret, Herr; [done|by left]| |apply ensures_ret, Herr; [done|by left]].
  apply ensures_bind, ensures_now. intros w1 D1. destruct (getUserFromToken _ _ _) as [caller|] eqn:Eu;
    [|apply ensures_ret, Herr; [done|by left]].
  apply ensures_bind, ensures_get; intros w2 D2.
  - destruct (et_get (w_etcd w2) _) as [e|] eqn:Eb; apply ensures_ret.
    + apply Herr; [by etransitivity|by left].
    + apply Hok; [by etransitivity|]. exists header, others, (w_now w1). split_and!; try done; [apply D1|apply D2].
  - intros D. apply ensures_ret, Herr; [by etransitivity|by right].
Qed.
Lemma ensures_count n w (Q : Z -> world E -> Prop) :
  (forall w' z, drift w w' -> Q z w') -> ensures (fetchSubscriberCount n) w Q.
Proof using H0.
  intros Hq. unfold fetchSubscriberCount. apply ensures_bind, ensures_get; intros; apply ensures_ret; by apply Hq.
Qed.
Lemma ensures_owners n w (Q : result eerr (list VlanOwner) -> world E -> Prop) :
  (forall w', drift w w' -> Q (Ok (owners_of (et_range (w_etcd w') (hsiPrefix n)))) w') ->
  (forall w' e, drift w w' -> Q (Err e) w') -> ensures (fetchVlanOwners n) w Q.
Proof using H0.
  intros Hok Herr. unfold fetchVlanOwners. apply ensures_bind, ensures_range; intros; apply ensures_ret; [by apply Hok|by apply Herr].
Qed.
Lemma ensures_guard {A} err (k : prog (result status A)) w (Q : result status A -> world E -> Prop) :
  (forall st, err = Some st -> Q (Err st) w) -> (err = None -> ensures k w Q) -> ensures (guard_status err k) w Q.
Proof using. intros Hs Hn. destruct err; simpl; [apply ensures_ret; auto|auto]. Qed.

Lemma status_code err st : validationToStatus err = Some st -> st_code st = InvalidArgument \/ st_code st = AlreadyExists.
Proof using. destruct err as [e|]; [|done]. intros [= <-]. simpl. destruct (Conflict e); auto. Qed.

(** ** Creating a config *)

(** Either the config was stored, once, where there was none, and is what the
    answer says; or nothing was stored; or the answer of the commit was lost. *)
Definition created (n : string) (p : pbHSIConfig) (w w' : world E) (caller : string) : Prop :=
  exists (w1 : world E) now v, own_writes w' = (w_etcd w1, OpPut (hsiKey n (pb_UserId p)) v) :: own_writes w /\
    cas_current (et_get (w_etcd w1) (hsiKey n (pb_UserId p))) = None /\ w_now w <= now <= w_now w' /\
    read_cwm v = Some (MkCwm (normal_hsi (initial_inner (protoToInner p))) (MkHMeta n "1" caller (format_rfc3339 now))).
Definition create_outcome (n : string) (p : pbHSIConfig) (w : world E) (r : result status HSIConfigResponse) (w' : world E) : Prop :=
  match r with
  | Ok resp => exists caller now, created n p w w' caller /\
      resp = innerToProto (initial_inner (protoToInner p)) (MkHMeta n "1" caller (format_rfc3339 now)) /\ w_now w <= now <= w_now w'
  | Err st => own_writes w' = own_writes w \/ (st_code st = Internal /\ exists caller, created n p w w' caller)
  end.

Lemma drift_now (w w' : world E) : drift w w' -> w_now w <= w_now w' /\ own_writes w' = own_writes w.
Proof using. by intros (_ & _ & ? & ?). Qed.

Lemma create_ensures n p w : world_wf w -> pb_valid p = true ->
  ensures (CreateHSIConfig jwtSecret md n (Some p)) w (create_outcome n p w).
Proof using All.
  intros Hw Hp. assert (Hquiet : forall w' st, drift w w' -> create_outcome n p w (Err st) w') by (intros w' st D; left; apply D).
  unfold CreateHSIConfig. apply ensures_bind, ensures_caller; [|intros w1 st D _; apply ensures_ret; auto].
  intros w1 caller D1 Ha. pose proof (authorised_valid _ _ _ Ha) as Hcv.
  apply ensures_guard; [auto|]. intros Hn%status_none. apply ensures_guard; [auto|intros _].
  apply ensures_guard; [auto|intros Hu%status_none]. apply ensures_bind, ensures_count. intros w2 k D2.
  assert (D02 : drift w w2) by by etransitivity. apply ensures_guard; [auto|intros _].
  apply ensures_bind, ensures_owners; intros w3; [intros D3|intros e D3; apply ensures_ret, Hquiet; by etransitivity].
  assert (D03 : drift w w3) by by etransitivity. apply ensures_guard; [auto|intros _].
  pose proof (drift_now _ _ D03) as [Hn3 Ho3]. apply ensures_bind, ensures_CAS; [by eapply drift_wf|].
  intros r w4 Hc.
  destruct Hc as [e w4 Ho Hn4 _|w5 now res y r w4 D5 Hnow Hm Ho _ Hr].
  { assert (Hq : forall st, create_outcome n p w (Err st) w4) by (intros st; left; congruence).
    destruct e as [[]|key|e|]; apply ensures_ret; apply Hq. }
  unfold create_mutate in Hm. destruct (cas_current _) as [cur|] eqn:Ecur; [done|]. apply Ok_inj in Hm.
  pose proof (f_equal fst Hm) as Hres. pose proof (f_equal snd Hm) as Hy. cbn [fst snd] in Hres, Hy. subst res y. clear Hm.
  assert (Hcr : created n p w w4 caller).
  { exists w5, now, (encode (cwm_json (MkCwm (initial_inner (protoToInner p)) (stamp n caller None now)))).
    split; [rewrite Ho, Ho3; reflexivity|]. split; [exact Ecur|]. split; [lia|].
    rewrite read_cwm_json; [reflexivity|]. rewrite wf_cwm. simpl Config. simpl Metadata.
    rewrite (initial_valid _ (protoToInner_valid p Hp)). by apply stamp_valid; [apply node_valid|]. }
  destruct Hr as [-> | [e ->]].
  - apply ensures_bind, ensures_now. intros w6 D6. apply ensures_ret. pose proof (drift_now _ _ D6) as [Hn6 Ho6].
    exists caller, (w_now w6). split_and!; [|reflexivity|lia|lia].
    destruct Hcr as (wa & nw & v & H1' & H2' & H3' & H4'). exists wa, nw, v. split_and!; [congruence|done|lia|lia|done].
  - apply ensures_ret. right. split; [done|]. by exists caller.
Qed.

(** ** Updating a config *)

Definition updated (n u : string) (p : pbHSIConfig) (clear : bool) (w w' : world E) (caller : string)
    (merged : hsiConfigInner) (meta : hsiMetaInner) : Prop :=
  exists (w1 : world E) now v, own_writes w' = (w_etcd w1, OpPut (hsiKey n u) v) :: own_writes w /\
    w_now w <= now <= w_now w' /\
    let current := cas_current (et_get (w_etcd w1) (hsiKey n u)) in
    merged = mergeGRPCHSIConfigUpdate (protoToInner p) (current_config current) clear /\
    meta = MkHMeta n (nextResourceVersion current) caller (format_rfc3339 now) /\
    read_cwm v = Some (MkCwm (normal_hsi merged) meta).
Definition update_outcome n u p clear (w : world E) (r : result status HSIConfigResponse) (w' : world E) : Prop :=
  match r with
  | Ok resp => exists caller merged meta, updated n u p clear w w' caller merged meta /\ resp = innerToProto merged meta
  | Err st => own_writes w' = own_writes w \/
      (st_code st = Internal /\ exists caller merged meta, updated n u p clear w w' caller merged meta)
  end.

Lemma update_ensures n u p clear w : world_wf w -> pb_valid p = true ->
  ensures (UpdateHSIConfig jwtSecret md n u (Some p) clear) w (update_outcome n u p clear w).
Proof using All.
  intros Hw Hp.
  assert (Hquiet : forall w' st, drift w w' -> update_outcome n u p clear w (Err st) w') by (intros w' st D; left; apply D).
  unfold UpdateHSIConfig. apply ensures_bind, ensures_caller; [|intros w1 st D _; apply ensures_ret; auto].
  intros w1 caller D1 Ha. pose proof (authorised_valid _ _ _ Ha) as Hcv.
  apply ensures_guard; [auto|]. intros [Hn Hu]%ids_none.
  destruct (validateGRPCPortMappingUpdate _ _); [apply ensures_ret; auto|].
  do 3 (apply ensures_guard; [auto|intros _]). apply ensures_bind, ensures_count. intros w2 k D2.
  assert (D02 : drift w w2) by by etransitivity. apply ensures_guard; [auto|intros _].
  apply ensures_bind, ensures_owners; intros w3; [intros D3|intros e D3; apply ensures_ret, Hquiet; by etransitivity].
  assert (D03 : drift w w3) by by etransitivity. apply ensures_guard; [auto|intros _].
  pose proof (drift_now _ _ D03) as [Hn3 Ho3]. apply ensures_bind, ensures_CAS; [by eapply drift_wf|].
  intros r w4 [e w5 Ho Hn5 _|w5 now res y r0 w6 D5 Hnow Hm Ho _ Hr].
  { apply ensures_ret. left. congruence. }
  unfold update_mutate in Hm. apply Ok_inj in Hm.
  pose proof (f_equal fst Hm) as Hres. pose proof (f_equal snd Hm) as Hy. cbn [fst snd] in Hres, Hy. subst res y. clear Hm.
  set (cur := cas_current (et_get (w_etcd w5) (hsiKey n u))) in *.
  set (merged := mergeGRPCHSIConfigUpdate (protoToInner p) (current_config cur) clear) in *.
  assert (Hup : updated n u p clear w w6 caller merged (stamp n caller cur now)).
  { exists w5, now, (encode (cwm_json (MkCwm merged (stamp n caller cur now)))).
    split; [rewrite Ho, Ho3; reflexivity|]. split; [lia|]. split; [reflexivity|]. split; [reflexivity|].
    rewrite read_cwm_json; [reflexivity|]. rewrite wf_cwm. simpl Config. simpl Metadata.
    unfold merged. rewrite merge_grpc_valid; [|by apply protoToInner_valid|intros c; apply current_config_valid].
    by apply stamp_valid; [apply node_valid|]. }
  destruct Hr as [-> | [e ->]]; apply ensures_ret; [by exists caller, merged, (stamp n caller cur now)|].
  right. split; [done|]. by exists caller, merged, (stamp n caller cur now).
Qed.

(** ** Deleting a config and its DNS records *)

Definition hsi_deleted (n u : string) (w w1 w2 : world E) : Prop :=
  cas_current (et_get (w_etcd w1) (hsiKey n u)) <> None /\
  own_writes w2 = (w_etcd w1, OpDelete (hsiKey n u)) :: own_writes w.
(** Success deletes the config that was there and then the records; a request
    that finds no config writes nothing; failures say [Internal] when the config
    is already gone. *)
Definition delete_outcome (n u : string) (w : world E) (r : result status unit) (w' : world E) : Prop :=
  match r with
  | Ok _ => exists w1 w2 w3, hsi_deleted n u w w1 w2 /\ drift w2 w3 /\ et_get (w_etcd w') (dnsKey n u) = None /\
      own_writes w' = (w_etcd w3, OpDelete (dnsKey n u)) :: own_writes w2
  | Err st => own_writes w' = own_writes w \/
      (st_code st = Internal /\ exists w1 w2, hsi_deleted n u w w1 w2 /\
         (own_writes w' = own_writes w2 \/ exists w3, own_writes w' = (w_etcd w3, OpDelete (dnsKey n u)) :: own_writes w2))
  end.

Lemma deleted_writes (w1 : world E) k : own_writes (deleted w1 k) = (w_etcd w1, OpDelete k) :: own_writes w1.
Proof using. done. Qed.

Lemma delete_ensures n u w : world_wf w -> ensures (DeleteHSIConfig jwtSecret md n u) w (delete_outcome n u w).
Proof using All.
  intros Hw. unfold DeleteHSIConfig. apply ensures_bind, ensures_caller; [|intros w1 st D _; apply ensures_ret; left; apply D].
  intros w1 caller D1 _. apply ensures_guard; [intros st _; left; apply D1|intros Hi%ids_none].
  pose proof (drift_now _ _ D1) as [Hn1 Ho1]. apply ensures_bind, ensures_CAS; [by eapply drift_wf|].
  intros r w4 [e w5 Ho Hn5 _|w5 now res y r0 w6 D5 Hnow Hm Ho _ Hr].
  { assert (Hq : forall st, delete_outcome n u w (Err st) w5) by (intros st; left; congruence).
    destruct e as [[]|key|e|]; apply ensures_ret; apply Hq. }
  unfold delete_mutate in Hm. destruct (cas_current _) as [cur|] eqn:Ecur; [|done]. injection Hm as <- <-.
  assert (Hd : hsi_deleted n u w w5 w6) by (split; [congruence|by rewrite Ho, Ho1]).
  destruct Hr as [-> | [e ->]].
  - unfold DeleteSubscriberDNS. apply ensures_bind, ensures_bind, ensures_delete.
    + intros w7 D7. do 2 apply ensures_ret. exists w5, w6, w7. split; [done|]. split; [done|].
      split; [apply get_del_same|]. rewrite deleted_writes. f_equal. apply D7.
    + intros w7 e D7. split; do 2 apply ensures_ret; right; (split; [done|]); exists w5, w6; (split; [done|]);
        [left; apply D7|right; exists w7; rewrite deleted_writes; f_equal; apply D7].
  - apply ensures_ret. right. split; [done|]. exists w5, w6. split; [done|]. by left.
Qed.

(** ** Dial and hangup *)

(** The one write keeps everything but the status and the version stamp. *)
Definition desired (d n u : string) (w w' : world E) : Prop :=
  exists (w1 : world E) caller now cur cwm v,
    own_writes w' = (w_etcd w1, OpPut (hsiKey n u) v) :: own_writes w /\
    cas_current (et_get (w_etcd w1) (hsiKey n u)) = Some cur /\ read_cwm cur = Some cwm /\
    w_now w <= now <= w_now w' /\
    read_cwm v = Some (MkCwm (set_DesireStatus d (normal_hsi (Config cwm)))
      (MkHMeta (Node (Metadata cwm)) (nextResourceVersion (Some cur)) caller (format_rfc3339 now))).
Definition desire_outcome (d n u : string) (w : world E) (r : result status unit) (w' : world E) : Prop :=
  match r with
  | Ok _ => desired d n u w w'
  | Err st => own_writes w' = own_writes w \/ (st_code st = Internal /\ desired d n u w w')
  end.
Lemma desire_ensures d n u w : world_wf w -> valid_utf8 d = true ->
  ensures (set_desire jwtSecret md d n u) w (desire_outcome d n u w).
Proof using All.
  intros Hw Hd. unfold set_desire. apply ensures_bind, ensures_caller; [|intros w1 st D _; apply ensures_ret; left; apply D].
  intros w1 caller D1 Ha. pose proof (authorised_valid _ _ _ Ha) as Hcv.
  apply ensures_guard; [intros st _; left; apply D1|intros Hi%ids_none].
  pose proof (drift_now _ _ D1) as [Hn1 Ho1]. unfold setDesireStatus. apply ensures_bind, ensures_CAS; [by eapply drift_wf|].
  intros r w4 [e w5 Ho Hn5 _|w5 now res y r0 w6 D5 Hnow Hm Ho _ Hr].
  { assert (Hq : forall st, desire_outcome d n u w (Err st) w5) by (intros st; left; congruence).
    destruct e as [[]|key|e|]; apply ensures_ret; apply Hq. }
  unfold desire_mutate in Hm. destruct (cas_current _) as [cur|] eqn:Ecur; [|done].
  destruct (read_cwm cur) as [cwm|] eqn:Er; [|done]. destruct (String.eqb _ _); [done|]. apply Ok_inj in Hm.
  pose proof (f_equal fst Hm) as Hres. cbn [fst] in Hres. subst res.
  assert (Hdes : desired d n u w w6).
  { exists w5, caller, now, cur, cwm, (encode (cwm_json (MkCwm (set_DesireStatus d (Config cwm))
      (stamp (Node (Metadata cwm)) caller (Some cur) now)))).
    split; [rewrite Ho, Ho1; reflexivity|]. split_and!; [done|done|lia|lia|].
    pose proof (read_cwm_valid _ _ Er) as [Hv1 Hv2].
    rewrite read_cwm_json; [reflexivity|]. rewrite wf_cwm. simpl Config. simpl Metadata.
    apply andb_true_iff. split; [|apply stamp_valid; [simpl in Hv2; by bool_split|done]].
    unfold hsi_valid in *. apply andb_true_iff in Hv1 as [Hv1 _]. apply andb_true_iff. by split. }
  destruct Hr as [-> | [e ->]]; apply ensures_ret; [done|]. by right.
Qed.
End grpc.

(** ** Properties *)

Definition pb8 : pbHSIConfig :=
  MkPb "8" "300" "acc8" "pw8" "10.0.1.2-10.0.1.9" "255.255.255.0" "10.0.1.1" None None (Some true)
    [MkPbPM "0" "10.0.1.5" "22" "2222"] "connect".
Definition pb7 : pbHSIConfig :=
  MkPb "7" "100" "acc7" "pw7" "10.0.0.2-10.0.0.9" "255.255.255.0" "10.0.0.1" None (Some false) None [] "disconnect".
Definition admin_md : option (list string) := Some [admin_header].

(** C15: a create that answers OK stored the requested config exactly once, at a
    key that held none at the commit, with version 1, the caller's name, fresh
    toggles and the disconnected status, and answers with that config; a create
    that fails stored nothing, unless it failed with Internal because the answer
    of its commit was lost. *)
Theorem CreateHSIConfig_creates `{EtcdLaws E} `{JwtLaws} jwtSecret md n p (w : world E) :
  world_wf w -> pb_valid p = true ->
  ensures (CreateHSIConfig jwtSecret md n (Some p)) w (create_outcome n p w).
Proof. apply create_ensures. Qed.
Lemma CreateHSIConfig_creates_witness :
  ensures (@CreateHSIConfig plain_jwt "s3cret" admin_md "node-1" (Some pb8)) world7 (create_outcome "node-1" pb8 world7)
  /\ is_ok (outcome (@CreateHSIConfig plain_jwt "s3cret" admin_md "node-1" (Some pb8)) world7 []) = true.
Proof.
  split; [|vm_compute; reflexivity].
  apply (@CreateHSIConfig_creates mem _ _ plain_jwt plain_jwt_laws); [apply world7_wf|vm_compute; reflexivity].
Defined.

(** C26: an update that answers OK replaced the config current at the commit,
    once, by its merge with the request, stamped with the next version, and
    answers with what it stored; a failed one changed nothing, or answers
    Internal because the answer of its commit was lost. *)
Theorem UpdateHSIConfig_updates `{EtcdLaws E} `{JwtLaws} jwtSecret md n u p clear (w : world E) :
  world_wf w -> pb_valid p = true ->
  ensures (UpdateHSIConfig jwtSecret md n u (Some p) clear) w (update_outcome n u p clear w).
Proof. apply update_ensures. Qed.
Lemma UpdateHSIConfig_updates_witness :
  ensures (@UpdateHSIConfig plain_jwt "s3cret" admin_md "node-1" "7" (Some pb7) false) world7
    (update_outcome "node-1" "7" pb7 false world7)
  /\ is_ok (outcome (@UpdateHSIConfig plain_jwt "s3cret" admin_md "node-1" "7" (Some pb7) false) world7 []) = true.
Proof.
  split; [|vm_compute; reflexivity].
  apply (@UpdateHSIConfig_updates mem _ _ plain_jwt plain_jwt_laws); [apply world7_wf|vm_compute; reflexivity].
Defined.

(** C27: a delete that answers OK removed a config that was there and then its DNS
    records, leaving none; one that finds no config, or is refused, writes
    nothing; and one that fails after the config is gone answers Internal. *)
Theorem DeleteHSIConfig_deletes `{EtcdLaws E} `{JwtLaws} jwtSecret md n u (w : world E) :
  world_wf w -> ensures (DeleteHSIConfig jwtSecret md n u) w (delete_outcome n u w).
Proof. apply delete_ensures. Qed.
Lemma DeleteHSIConfig_deletes_witness :
  ensures (@DeleteHSIConfig plain_jwt "s3cret" admin_md "node-1" "7") world7 (delete_outcome "node-1" "7" world7)
  /\ outcome (@DeleteHSIConfig plain_jwt "s3cret" admin_md "node-1" "7") world7 [] = Ok tt.
Proof.
  split; [|vm_compute; reflexivity].
  apply (@DeleteHSIConfig_deletes mem _ _ plain_jwt plain_jwt_laws), world7_wf.
Defined.

(** Dialling and hanging up set the requested status on the config current at
    the commit, advance its version and record the caller, and change nothing
    else of it; a failed request changed nothing, or answers Internal because the
    answer of its commit was lost. *)
Theorem DialPPPoE_sets_status `{EtcdLaws E} `{JwtLaws} jwtSecret md n u (w : world E) :
  world_wf w ->
  ensures (DialPPPoE jwtSecret md n u) w (desire_outcome desireStatusConnect n u w) /\
  ensures (HangupPPPoE jwtSecret md n u) w (desire_outcome desireStatusDisconnect n u w).
Proof. intros Hw. split; by apply desire_ensures. Qed.
Lemma DialPPPoE_sets_status_witness :
  (ensures (@DialPPPoE plain_jwt "s3cret" admin_md "node-1" "7") world7 (desire_outcome desireStatusConnect "node-1" "7" world7) /\
   ensures (@HangupPPPoE plain_jwt "s3cret" admin_md "node-1" "7") world7 (desire_outcome desireStatusDisconnect "node-1" "7" world7))
  /\ outcome (@HangupPPPoE plain_jwt "s3cret" admin_md "node-1" "7") world7 [] = Ok tt.
Proof.
  split; [|vm_compute; reflexivity].
  apply (@DialPPPoE_sets_status mem _ _ plain_jwt plain_jwt_laws), world7_wf.
Defined.

(** The two servers merge an update into the stored config alike: the gRPC
    rule is the REST rule where an empty list of mappings counts as omitted and
    the clear flag as an explicitly empty list. *)
Theorem merge_rules_agree requested current clear :
  mergeGRPCHSIConfigUpdate requested current clear =
  mergeRESTHSIConfigUpdate
    (set_PortMappings (if clear then Some [] else match PortMappings requested with Some [] => None | l => l end) requested) current.
Proof.
  unfold mergeGRPCHSIConfigUpdate, mergeRESTHSIConfigUpdate. destruct clear; [done|].
  destruct (PortMappings requested) as [[|p l]|] eqn:E; cbn [PortMappings set_PortMappings]; rewrite ?E; done.
Qed.

(** A stored config document is read back as it was written, up to an empty
    list of mappings, which JSON leaves out and reads as nil. *)
Theorem hsi_document_roundtrip d : wf_json (cwm_json d) = true ->
  read_cwm (encode (cwm_json d)) = Some (MkCwm (normal_hsi (Config d)) (Metadata d)).
Proof. apply read_cwm_json. Qed.
Lemma hsi_document_roundtrip_witness :
  read_cwm (encode (cwm_json (MkCwm sub7 (MkHMeta "node-1" "3" "admin" "2026-01-02T03:04:05Z")))) =
  Some (MkCwm (normal_hsi sub7) (MkHMeta "node-1" "3" "admin" "2026-01-02T03:04:05Z")).
Proof. apply (hsi_document_roundtrip (MkCwm sub7 (MkHMeta "node-1" "3" "admin" "2026-01-02T03:04:05Z"))). vm_compute. reflexivity. Defined.

(** ** Observations *)

(** When the cascade's delete fails, the records outlive the config: the retry
    answers NotFound and never reaches them. *)
Definition world7d : world mem :=
  World (et_put (w_etcd world7) (dnsKey "node-1" "7") "x") db_empty (w_now world7) false [].
Definition dns_down : list turn := [quiet; quiet; quiet; quiet; quiet; Turn [] 0 (Some (EtcdUnavailable, false)) None None false false []].
Example delete_cascade_lost :
  let delete w ts := run (@DeleteHSIConfig plain_jwt "s3cret" admin_md "node-1" "7") w ts in
  let '(first, w1, _) := delete world7d dns_down in
  let '(second, w2, _) := delete w1 [] in
  first = Err (StatusError Internal "failed to delete subscriber DNS records") /\
  second = Err (StatusError NotFound "HSI config not found") /\
  et_get (w_etcd w2) (hsiKey "node-1" "7") = None /\ kv_value <$> et_get (w_etcd w2) (dnsKey "node-1" "7") = Some "x".
Proof. vm_compute. repeat split; reflexivity. Qed.
