(* ===== verification/AuthProps.v ===== *)
(** * Who gets through the token checks

    No request without a valid token has an effect, on either server; and a
    logout ends the token's life: what it was good for before, it is refused
    afterwards. *)

From S2P Require Import Prelude GoStrings Json JsonNormal Decode GoTime ConfigDoc Validation Etcd Db Events Effects Cas Rollback HsiConfig HsiDocs Storage Hoare Auth ConfigGrpc RestServer ApiDocs ApiSpec GrpcProps RestProps ApiProps.
Local Open Scope string_scope.
Local Open Scope Z_scope.
Local Open Scope go_scope.

(** golang-jwt checks [exp] against the clock, and the claims are the token's. *)
Class JwtExpiry `{Jwt} : Prop := {
  jwt_unexpired secret now token claims e :
    jwt_parse secret now token = Some (true, claims) -> kget "exp" claims = Some (ANum e) ->
    now < float_to_int64 e * 1000000000;
  jwt_claims_fixed secret now now' token claims claims' :
    jwt_parse secret now token = Some (true, claims) -> jwt_parse secret now' token = Some (true, claims') ->
    claims = claims' }.

(** The header a request presents its token in. *)
Definition header_of (q : request) : option string :=
  match q with
  | ViaGrpc (Some (header :: _)) _ => Some header
  | ViaGrpc _ _ => None
  | ViaRest _ c => if String.eqb (Authorization c) "" then None else Some (Authorization c)
  end.
Definition needs_token (q : request) : bool := match q with ViaGrpc _ _ => true | ViaRest r _ => authenticated r end.

(** The answers of a failed token check; a malformed path is refused before. *)
Definition refused (q : request) (a : result status reply + response) : Prop :=
  match a, q with
  | inl (Err st), _ => st_code st = Unauthenticated \/ st_code st = Unavailable
  | inl (Ok _), _ => False
  | inr resp, ViaRest _ c => StatusCode resp = 401 \/ StatusCode resp = 500 \/ validatePathIDs c = Some resp
  | inr resp, _ => False
  end.

Section auth.
Context `{EtcdLaws E} {JW : Jwt} {BC : Bcrypt} {GN : Gin}.
Context (jwtSecret : string) (database : bool) (salt : string).
Context (events_json : list (Z * NodeEventRow) -> json) (status_json : PPPoEStatusRow -> json).
Local Notation api := (api jwtSecret database salt events_json status_json).

(** The token is no good from [w] on: not valid any more, or on the blacklist,
    which none of the turns takes it off. *)
Definition token_dead (token : string) (w : world E) (ts : list turn) : Prop :=
  (forall now, w_now w <= now -> validateToken jwtSecret token now = None) \/
  (et_get (w_etcd w) (blacklistKey token) <> None /\
   forallb (fun t => forallb (fun o => negb (touches (blacklistKey token) o)) (t_env t)) ts = true).

Lemma drift_now' (w w' : world E) : drift w w' -> w_now w <= w_now w'.
Proof using. by intros (_ & _ & ? & _). Qed.
(** Reading the clock and then the blacklist. *)
Lemma dead_reads token (w : world E) ts now w1 r w2 :
  token_dead token w ts -> step_eff ENow w ts = (now, w1) ->
  step_eff (EGet (blacklistKey token)) w1 (tl ts) = (r, w2) ->
  drift w w1 /\ drift w1 w2 /\ (validateToken jwtSecret token now = None \/ (exists e, r = Ok (Some e)) \/ exists e, r = Err e).
Proof using H0.
  intros Hdead Hn Hg. assert (Hturn : w_etcd w1 = apply_envs (w_etcd w) (t_env (hd quiet ts))).
  { revert Hn. unfold step_eff. cbn [perform]. intros [= _ <-]. done. }
  assert (Hturn2 : w_etcd w2 = apply_envs (w_etcd w1) (t_env (hd quiet (tl ts)))).
  { pose proof (get_inv _ _ _ _ _ Hg) as [_ _]. revert Hg. unfold step_eff. cbn [perform]. unfold etcd_reply.
    by destruct (t_etcd (hd quiet (tl ts))) as [[e []]|]; intros [= _ <-]. }
  apply now_inv in Hn as [D1 ->]. apply get_inv in Hg as [D2 Hr]. split; [done|]. split; [done|].
  destruct Hdead as [Hv|[Hb Ht]]; [left; apply Hv, D1|]. right.
  assert (Hcalm : forall t, forallb (fun o => negb (touches (blacklistKey token) o)) (t_env (hd quiet t)) = true \/
     ~ forallb (fun t => forallb (fun o => negb (touches (blacklistKey token) o)) (t_env t)) t = true).
  { intros [|t l]; [by left|]. simpl. destruct (forallb _ (t_env t)); [by left|right; done]. }
  assert (Ht2 : forallb (fun t => forallb (fun o => negb (touches (blacklistKey token) o)) (t_env t)) (tl ts) = true).
  { destruct ts; [done|]. simpl in Ht. by bool_split. }
  destruct (Hcalm ts) as [C1|]; [|done]. destruct (Hcalm (tl ts)) as [C2|]; [|done].
  rewrite Hturn2, envs_untouched, Hturn, envs_untouched in Hr by done.
  destruct Hr as [-> |[e ->]]; [|by right; eauto]. left. destruct (et_get (w_etcd w) _) as [e|]; [eauto|done].
Qed.

Lemma dead_caller md header others (w : world E) ts r w' ts' :
  md = Some (header :: others) -> token_dead (bearerToken header) w ts ->
  run (callerFromCtx jwtSecret md) w ts = (r, w', ts') ->
  (exists st, r = Err st /\ (st_code st = Unauthenticated \/ st_code st = Unavailable)) /\ drift w w'.
Proof using H0.
  intros -> Hd. unfold callerFromCtx. rewrite run_call_bind.
  destruct (step_eff ENow w ts) as [now w1] eqn:En. destruct (step_eff (EGet (blacklistKey (bearerToken header))) w1 (tl ts)) as [g w2] eqn:Eg.
  pose proof (dead_reads _ _ _ _ _ _ _ Hd En Eg) as (D1 & D2 & Hg).
  destruct (getUserFromToken _ _ _) as [user|] eqn:Eu; [|cbn [run]; intros [= <- <- _]; split; [eauto|done]].
  rewrite run_call_bind, Eg. destruct Hg as [Hv|[[e ->] | [e ->]]].
  - unfold getUserFromToken in Eu. by rewrite Hv in Eu.
  - cbn [run]. intros [= <- <- _]. split; [eauto|by etransitivity].
  - cbn [run]. intros [= <- <- _]. split; [eauto|by etransitivity].
Qed.
Lemma dead_middleware c (w : world E) ts r w' ts' :
  Authorization c = "" \/ token_dead (bearerToken (Authorization c)) w ts ->
  run (AuthMiddlewareWithBlacklist jwtSecret c) w ts = (r, w', ts') ->
  (exists resp, r = Some resp /\ (StatusCode resp = 401 \/ StatusCode resp = 500)) /\ drift w w'.
Proof using H0.
  intros Hd. unfold AuthMiddlewareWithBlacklist. destruct (String.eqb_spec (Authorization c) "") as [|Hne].
  { cbn [run]. intros [= <- <- _]. split; [eauto|done]. }
  destruct Hd as [|Hd]; [done|]. rewrite run_call_bind.
  destruct (step_eff ENow w ts) as [now w1] eqn:En.
  destruct (step_eff (EGet (blacklistKey (bearerToken (Authorization c)))) w1 (tl ts)) as [g w2] eqn:Eg.
  pose proof (dead_reads _ _ _ _ _ _ _ Hd En Eg) as (D1 & D2 & Hg).
  destruct (validateToken _ _ _) as [claims|] eqn:Ev; [|cbn [run]; intros [= <- <- _]; split; [eauto|done]].
  rewrite run_call_bind, Eg. destruct Hg as [Hv|[[e ->] | [e ->]]]; [done| |];
    cbn [run]; intros [= <- <- _]; (split; [eauto|by etransitivity]).
Qed.

(** Every method begins with the check. *)
Lemma serve_dead md r (w : world E) ts :
  (forall header others, md = Some (header :: others) -> token_dead (bearerToken header) w ts) ->
  (exists st, outcome (serve jwtSecret md r) w ts = Err st /\ (st_code st = Unauthenticated \/ st_code st = Unavailable)) /\
  drift w (final (serve jwtSecret md r) w ts).
Proof using H0.
  intros Hd. unfold outcome, final.
  assert (Hb : forall A B (k : string -> prog (result status A)) (f : A -> B),
    (exists st, (run (do? a := (do? caller := callerFromCtx jwtSecret md in k caller) in Ret (Ok (f a))) w ts).1.1 = Err st /\
      (st_code st = Unauthenticated \/ st_code st = Unavailable)) /\
    drift w (run (do? a := (do? caller := callerFromCtx jwtSecret md in k caller) in Ret (Ok (f a))) w ts).1.2).
  { intros A B k f. rewrite !run_bind. destruct (run (callerFromCtx jwtSecret md) w ts) as [[r0 w0] ts0] eqn:Er.
    assert (Hr : (exists st, r0 = Err st /\ (st_code st = Unauthenticated \/ st_code st = Unavailable)) /\ drift w w0).
    { destruct md as [[|header others]|]; [|by eapply dead_caller; [reflexivity|by eapply Hd|exact Er]|];
        cbn [callerFromCtx run] in Er; injection Er as <- <- _; (split; [eauto|done]). }
    destruct Hr as [(st & -> & Hc) D]. cbn [run]. split; [by exists st|done]. }
  destruct r; cbn [serve]; unfold answer; apply Hb.
Qed.

(** So does every authenticated route, once the path is well formed. *)
Lemma dead_router r c (w : world E) ts :
  authenticated r = true -> (Authorization c <> "" -> token_dead (bearerToken (Authorization c)) w ts) ->
  exists resp w' ts', run (newRouter jwtSecret database events_json status_json salt r c) w ts = (resp, w', ts') /\
    (StatusCode resp = 401 \/ StatusCode resp = 500 \/ validatePathIDs c = Some resp) /\ drift w w'.
Proof using H0.
  intros Hq Hd. unfold newRouter. destruct (validatePathIDs c) as [resp|] eqn:Ev.
  { exists resp, w, ts. cbn [run]. split_and!; [done|by right; right|done]. }
  rewrite Hq, run_bind. destruct (run (AuthMiddlewareWithBlacklist jwtSecret c) w ts) as [[m w1] ts1] eqn:Em.
  apply dead_middleware in Em as [(resp & -> & Hs) D].
  - exists resp, w1, ts1. cbn [run]. split_and!; [done| |done]. destruct Hs; auto.
  - destruct (String.eqb_spec (Authorization c) ""); [by left|right; by apply Hd].
Qed.
Lemma dead_request q (w : world E) ts :
  needs_token q = true -> (forall h, header_of q = Some h -> token_dead (bearerToken h) w ts) ->
  refused q (outcome (api q) w ts) /\ drift w (final (api q) w ts).
Proof using H0.
  intros Hq Hd. unfold outcome, final. destruct q as [md r|r c]; cbn [api]; rewrite run_bind.
  - assert (Hmd : forall header others, md = Some (header :: others) -> token_dead (bearerToken header) w ts).
    { intros header others ->. by apply Hd. }
    destruct (serve_dead md r w ts Hmd) as [(st & Ho & Hc) D]. unfold outcome, final in *.
    destruct (run (serve jwtSecret md r) w ts) as [[a w1] ts1]. simpl in Ho, D. subst a. cbn [run]. by split.
  - destruct (dead_router r c w ts) as (resp & w' & ts' & -> & Hs & D); [done| |cbn [run]; by split].
    intros Hne. apply Hd. simpl. by destruct (String.eqb_spec (Authorization c) "").
Qed.

(** ** Logout *)

Context {JE : JwtExpiry}.
Lemma logout_kills c (w w1 : world E) ts ts1 resp ts2 :
  0 <= w_now w -> run (Logout jwtSecret c) w ts = (resp, w1, ts1) -> StatusCode resp = 200 ->
  forallb (fun t => forallb (fun o => negb (touches (blacklistKey (bearerToken (Authorization c))) o)) (t_env t)) ts2 = true ->
  world_wf w -> token_dead (bearerToken (Authorization c)) w1 ts2.
Proof using H0 JE.
  intros Hpos Hrun Hs Hts Hwf. unfold Logout in Hrun. destruct (String.eqb _ ""); [by cbn [run] in Hrun; injection Hrun as <- _ _|].
  rewrite run_call_bind in Hrun. destruct (step_eff ENow w ts) as [now w2] eqn:En. apply now_inv in En as [D1 ->].
  destruct (validateToken _ _ _) as [claims|] eqn:Ev; [|by cbn [run] in Hrun; injection Hrun as <- _ _].
  destruct (kget "exp" claims) as [[| | |expVal| | |]|] eqn:Ek; try by cbn [run] in Hrun; injection Hrun as <- _ _.
  rewrite run_call_bind in Hrun. destruct (step_eff ENow w2 (tl ts)) as [now2 w3] eqn:En2. apply now_inv in En2 as [D2 ->].
  assert (Hparse : jwt_parse jwtSecret (w_now w2) (bearerToken (Authorization c)) = Some (true, claims)).
  { revert Ev. unfold validateToken. destruct (jwt_parse _ _ _) as [[[] cl]|]; [|done..]. by intros [= ->]. }
  pose proof (drift_now' _ _ D1) as N1. pose proof (drift_now' _ _ D2) as N2.
  set (ttl := wrap64 (float_to_int64 expVal - w_now w3 / 1000000000)) in *.
  destruct (0 <? ttl) eqn:Ettl.
  - right. rewrite run_call_bind in Hrun.
    destruct (step_eff (EPutLease _ _ _) w3 _) as [r w4] eqn:Ep. destruct r as [u|e]; [|by cbn [run] in Hrun; injection Hrun as <- _ _].
    assert (w1 = w4) as ->.
    { destruct (_ <? 20)%nat; cbn [run] in Hrun; by injection Hrun as _ <- _. }
    split; [|done]. revert Ep. unfold step_eff. cbn [perform]. unfold etcd_reply.
    destruct (t_etcd _) as [[]|]; [done|]. intros [= _ <-]. simpl. rewrite get_put_same; [done|].
    apply wf_envs. eapply (drift_wf _ _ D2), drift_wf; done.
  - left. cbn [run] in Hrun. injection Hrun as _ <- _. intros now Hnow. unfold validateToken.
    destruct (jwt_parse jwtSecret now _) as [[[] claims']|] eqn:Ep; [|done..]. exfalso.
    pose proof (jwt_claims_fixed _ _ _ _ _ _ Hparse Ep) as <-. pose proof (jwt_unexpired _ _ _ _ _ Ep Ek) as Hexp.
    assert (Hr : min_int64 <= float_to_int64 expVal <= max_int64).
    { unfold float_to_int64. destruct (_ && _) eqn:Eb; [bool_split; lia|unfold min_int64, max_int64; lia]. }
    unfold ttl in Ettl. rewrite wrap64_id in Ettl; [|unfold min_int64, max_int64 in *; Z.to_euclidean_division_equations; lia].
    Z.to_euclidean_division_equations; lia.
Qed.
End auth.

(** ** Properties *)

Lemma plain_jwt_expiry : @JwtExpiry plain_jwt.
Proof.
  split; intros secret now.
  - intros token claims e. simpl. unfold plain_parse. destruct (strip_prefix _ token) as [user|]; [|done].
    destruct (valid_utf8 user); [|done]. destruct (Z.ltb_spec now (1900000000 * 1000000000)) as [Hl|]; [|done].
    intros [= <-]. cbn. intros [= <-]. exact Hl.
  - intros now' token claims claims'. simpl. unfold plain_parse. destruct (strip_prefix _ token) as [user|]; [|done].
    destruct (valid_utf8 user && (now <? _)); [|done]. destruct (valid_utf8 user && (now' <? _)); [|done]. congruence.
Qed.
Definition forged : request := ViaGrpc (Some ["Bearer other.admin"]) (RpcDelete "node-1" "7").
Definition logout_ctx : Context := MkContext admin_header "" "" "" "" "" "".

(** C18: a request that carries no token, or one that does not validate, is
    refused and has no effect on etcd or PostgreSQL, whichever gRPC method or
    authenticated REST route it is for. *)
Theorem api_requires_token `{EtcdLaws E} {JW : Jwt} {BC : Bcrypt} {GN : Gin} jwtSecret database salt events_json status_json
    q (w : world E) :
  needs_token q = true ->
  (forall header, header_of q = Some header -> forall now, validateToken jwtSecret (bearerToken header) now = None) ->
  ensures (api jwtSecret database salt events_json status_json q) w (fun a w' => refused q a /\ drift w w').
Proof. intros Hq Hv ts. apply dead_request; [done|]. intros h Hh. left. intros now _. by apply Hv. Qed.
Lemma api_requires_token_witness :
  ensures (@api plain_jwt plain_bcrypt plain_gin "s3cret" true "salt" no_events no_status forged) world7
    (fun a w' => refused forged a /\ drift world7 w').
Proof. apply api_requires_token; [reflexivity|]. intros header [= <-] now. reflexivity. Defined.

(** C10: once a logout has answered 200, every later request to either server with
    that token is refused without effect, for as long as nobody else takes the
    token off the blacklist (its lease ends when the token expires). *)
Theorem logout_revokes `{EtcdLaws E} {JW : Jwt} {BC : Bcrypt} {GN : Gin} {JE : JwtExpiry}
    jwtSecret database salt events_json status_json c q (w w1 : world E) ts ts1 ts2 resp :
  world_wf w -> 0 <= w_now w -> run (Logout jwtSecret c) w ts = (resp, w1, ts1) -> StatusCode resp = 200 ->
  needs_token q = true ->
  (forall header, header_of q = Some header -> bearerToken header = bearerToken (Authorization c)) ->
  forallb (fun t => forallb (fun o => negb (touches (blacklistKey (bearerToken (Authorization c))) o)) (t_env t)) ts2 = true ->
  refused q (outcome (api jwtSecret database salt events_json status_json q) w1 ts2) /\
  drift w1 (final (api jwtSecret database salt events_json status_json q) w1 ts2).
Proof.
  intros Hw Hpos Hrun Hs Hq Hh Hts. apply dead_request; [done|]. intros header ->%Hh. by eapply logout_kills.
Qed.
Lemma logout_revokes_witness :
  let w1 := final (@Logout plain_jwt "s3cret" logout_ctx) world7 [] in
  let p := @api plain_jwt plain_bcrypt plain_gin "s3cret" true "salt" no_events no_status dial7 in
  refused dial7 (outcome p w1 []) /\ drift w1 (final p w1 []).
Proof.
  intros w1 p. destruct (run (@Logout plain_jwt "s3cret" logout_ctx) world7 []) as [[resp w2] ts2] eqn:Hr.
  assert (w1 = w2) as -> by (unfold w1, final; by rewrite Hr).
  apply (@logout_revokes mem _ _ plain_jwt plain_bcrypt plain_gin plain_jwt_expiry "s3cret" true "salt" no_events no_status
           logout_ctx dial7 world7 w2 [] ts2 [] resp);
    [apply world7_wf|vm_compute; discriminate|exact Hr| |reflexivity| |reflexivity].
  - vm_compute in Hr. injection Hr as <- _ _. reflexivity.
  - intros header [= <-]. reflexivity.
Defined.
