(* ===== verification/ApiEdges.v ===== *)
(** * Checks around the API, and where they stop

    What the VLAN check, the DNS record edits and the id rules guarantee, and
    runs that show the limits of the checks: races, differences between the two
    servers, and versions at the edge of [int64]. *)

From S2P Require Import Prelude GoStrings Json JsonNormal Decode GoTime ConfigDoc Validation Etcd Db Effects Cas Rollback HsiConfig HsiDocs Storage Hoare Auth RestServer ConfigGrpc ApiDocs ApiSpec GrpcProps ApiProps HandlerProps.
Local Open Scope string_scope.
Local Open Scope Z_scope.
Local Open Scope go_scope.

(** ** The VLAN check *)

Lemma CheckVlanUnique_none vlan user owners :
  CheckVlanUnique vlan user owners = None <-> forall o, o ∈ owners -> vo_VlanID o = vlan -> vo_UserID o = user.
Proof.
  induction owners as [|o owners IH]; cbn [CheckVlanUnique].
  - split; [|done]. intros _ o Ho. by apply not_elem_of_nil in Ho.
  - destruct (String.eqb_spec (vo_VlanID o) vlan) as [Ev|Ev]; cbn [andb];
      [destruct (String.eqb_spec (vo_UserID o) user) as [Eu|Eu]; cbn [negb]|].
    + rewrite IH. split; [intros Ho x [-> | Hx]%elem_of_cons; [done|by apply Ho]|].
      intros Ho x Hx. apply Ho, elem_of_cons. by right.
    + split; [done|]. intros Ho. exfalso. apply Eu, Ho; [apply elem_of_cons; by left|done].
    + rewrite IH. split; [intros Ho x [-> | Hx]%elem_of_cons; [done|by apply Ho]|].
      intros Ho x Hx. apply Ho, elem_of_cons. by right.
Qed.

Section vlan.
Context `{EtcdLaws E} `{JwtLaws}.

(** In this store no other subscriber of the node uses the VLAN. *)
Definition vlan_free (s : E) (n u vlan : string) : Prop :=
  forall k e cwm, (k, e) ∈ et_range s (hsiPrefix n) -> read_cwm (kv_value e) = Some cwm ->
    VlanID (Config cwm) = vlan -> UserID (Config cwm) = u.
Lemma owners_free (s : E) n u vlan :
  validationToStatus (CheckVlanUnique vlan u (owners_of (et_range s (hsiPrefix n)))) = None -> vlan_free s n u vlan.
Proof using.
  intros Hc%status_none k e cwm Hin Hr Hv. rewrite CheckVlanUnique_none in Hc.
  apply (Hc (MkOwner (UserID (Config cwm)) (VlanID (Config cwm)))); [|done].
  unfold owners_of. apply list_elem_of_omap. exists (k, e). split; [done|]. simpl. by rewrite Hr.
Qed.

(** At an instant during the request, before its commit, the VLAN was free. *)
Definition checked_vlan (n u vlan : string) (w : world E) {A} (r : result status A) (w' : world E) : Prop :=
  is_ok r = true -> exists wc, drift w wc /\ w_now wc <= w_now w' /\ vlan_free (w_etcd wc) n u vlan.

Lemma create_vlan jwtSecret md n p w : world_wf w ->
  ensures (CreateHSIConfig jwtSecret md n (Some p)) w (checked_vlan n (pb_UserId p) (pb_VlanId p) w).
Proof using All.
  intros Hw. assert (Herr : forall A w' st, checked_vlan n (pb_UserId p) (pb_VlanId p) w (A:=A) (Err st) w') by done.
  unfold CreateHSIConfig. apply ensures_bind, ensures_caller; [|intros w9 st9 _ _; apply ensures_ret, Herr].
  intros w1 caller D1 _. do 3 (apply ensures_guard; [intros st _; apply Herr|intros _]).
  apply ensures_bind, ensures_count. intros w2 k D2. apply ensures_guard; [intros st _; apply Herr|intros _].
  apply ensures_bind, ensures_owners; intros w3; [intros D3|intros e9 _; apply ensures_ret, Herr].
  apply ensures_guard; [intros st _; apply Herr|intros Hv%owners_free].
  assert (D03 : drift w w3) by (etransitivity; [exact D1|]; by etransitivity).
  apply ensures_bind, ensures_CAS; [by eapply drift_wf|]. intros r w4 Hc.
  assert (Hn : w_now w3 <= w_now w4) by (destruct Hc; [done|lia]).
  destruct r as [y|[[]|key|e|]]; try apply ensures_ret, Herr.
  apply ensures_bind, ensures_now. intros w5 D5. apply ensures_ret. intros _. exists w3.
  pose proof (drift_now _ _ D5) as [? _]. split_and!; [done|lia|done].
Qed.
Lemma update_vlan jwtSecret md n u p clear w : world_wf w ->
  ensures (UpdateHSIConfig jwtSecret md n u (Some p) clear) w (checked_vlan n u (pb_VlanId p) w).
Proof using All.
  intros Hw. assert (Herr : forall A w' st, checked_vlan n u (pb_VlanId p) w (A:=A) (Err st) w') by done.
  unfold UpdateHSIConfig. apply ensures_bind, ensures_caller; [|intros w9 st9 _ _; apply ensures_ret, Herr].
  intros w1 caller D1 _. apply ensures_guard; [intros st _; apply Herr|intros _].
  destruct (validateGRPCPortMappingUpdate _ _); [apply ensures_ret, Herr|].
  do 3 (apply ensures_guard; [intros st _; apply Herr|intros _]).
  apply ensures_bind, ensures_count. intros w2 k D2. apply ensures_guard; [intros st _; apply Herr|intros _].
  apply ensures_bind, ensures_owners; intros w3; [intros D3|intros e9 _; apply ensures_ret, Herr].
  apply ensures_guard; [intros st _; apply Herr|intros Hv%owners_free].
  assert (D03 : drift w w3) by (etransitivity; [exact D1|]; by etransitivity).
  apply ensures_bind, ensures_CAS; [by eapply drift_wf|]. intros r w4 Hc.
  assert (Hn : w_now w3 <= w_now w4) by (destruct Hc; [done|lia]).
  destruct r as [[merged meta]|err]; apply ensures_ret; [|apply Herr]. intros _. by exists w3.
Qed.
End vlan.

(** ** Properties *)

(** A create or update that succeeds has seen its VLAN free of other
    subscribers of the node at an instant between its start and its commit. *)
Theorem vlan_checked `{EtcdLaws E} `{JwtLaws} jwtSecret md n u p clear (w : world E) :
  world_wf w ->
  ensures (CreateHSIConfig jwtSecret md n (Some p)) w (checked_vlan n (pb_UserId p) (pb_VlanId p) w) /\
  ensures (UpdateHSIConfig jwtSecret md n u (Some p) clear) w (checked_vlan n u (pb_VlanId p) w).
Proof. intros Hw. split; [by apply create_vlan|by apply update_vlan]. Qed.
Lemma vlan_checked_witness :
  (ensures (@CreateHSIConfig plain_jwt "s3cret" admin_md "node-1" (Some pb8)) world7 (checked_vlan "node-1" "8" "300" world7) /\
   ensures (@UpdateHSIConfig plain_jwt "s3cret" admin_md "node-1" "7" (Some pb8) false) world7 (checked_vlan "node-1" "7" "300" world7))
  /\ is_ok (outcome (@CreateHSIConfig plain_jwt "s3cret" admin_md "node-1" (Some pb8)) world7 []) = true.
Proof.
  split; [|vm_compute; reflexivity].
  apply (@vlan_checked mem _ _ plain_jwt plain_jwt_laws "s3cret" admin_md "node-1" "7" pb8 false), world7_wf.
Defined.

(** Adding or updating a DNS record makes its domain resolve to it and leaves
    every other domain as it was; it is refused exactly when the domain is new
    and 64 records are there; deleting removes the domain and nothing else, and
    is refused exactly when the domain has no record. *)
Theorem dns_edits_resolve r domain l :
  match put_record r l with
  | Some (l', isUpdate) =>
      (forall d, find_record d l' = if String.eqb d (Domain r) then Some r else find_record d l) /\
      (isUpdate = true <-> is_Some (find_record (Domain r) l))
  | None => find_record (Domain r) l = None /\ (64 <= length l)%nat
  end /\
  match remove_record domain l with
  | Some l' => is_Some (find_record domain l) /\
      forall d, find_record d l' = if String.eqb d domain then None else find_record d l
  | None => find_record domain l = None
  end.
Proof.
  pose proof (put_record_spec r l) as Hp. pose proof (remove_record_spec domain l) as Hr. split.
  - destruct (put_record r l) as [[l' upd]|]; naive_solver.
  - destruct (remove_record domain l) as [l'|]; naive_solver.
Qed.

(** C38: the user ids the rules accept are exactly the printed numbers from 1 to
    2^32-1: one spelling per subscriber. *)
Theorem user_ids_canonical id :
  ValidateUserID id = None <-> exists n, 1 <= n <= max_uint32 /\ id = format_uint n.
Proof. apply user_id_canonical. Qed.

(** ** Limits *)

(** The check and the commit are not one transaction: a create of another
    subscriber that lands in between leaves both with one VLAN. *)
Definition rival : string := encode (cwm_json (MkCwm
  (MkHsi "9" "300" "a" "p" "x" "y" "z" None None None None "disconnect") (MkHMeta "node-1" "1" "admin" "2026-01-02T03:04:05Z"))).
Example vlan_check_races :
  let ts := [quiet; quiet; quiet; quiet; busy [EvPut (hsiKey "node-1" "9") rival]] in
  let '(r, w', _) := run (@CreateHSIConfig plain_jwt "s3cret" admin_md "node-1" (Some pb8)) world7 ts in
  is_ok r = true /\
  (VlanID <$> current_config (cas_current (et_get (w_etcd w') (hsiKey "node-1" "8")))) = Some "300" /\
  (VlanID <$> current_config (cas_current (et_get (w_etcd w') (hsiKey "node-1" "9")))) = Some "300".
Proof. vm_compute. repeat split; reflexivity. Qed.

(** A dial for a subscriber above the node's count: refused over REST, accepted
    over gRPC. *)
Definition count_doc (n : string) : string := encode (count_json (MkCount n (MkHMeta "node-1" "1" "admin" "2026-01-02T03:04:05Z"))).
Definition world7c (count : string) : world mem :=
  World (et_put (w_etcd world7) (subscriberCountKey "node-1") (count_doc count)) db_empty (w_now world7) false [].
Example dial_servers_diverge :
  let body := encode (JObj [("node_id", JStr "node-1"); ("user_id", JStr "7")]) in
  StatusCode (outcome (@RestServer.DialPPPoE plain_jwt plain_gin "s3cret" (ctx_for "" "" body)) (world7c "5") []) = 400 /\
  outcome (@ConfigGrpc.DialPPPoE plain_jwt "s3cret" admin_md "node-1" "7") (world7c "5") [] = Ok tt.
Proof. vm_compute. repeat split; reflexivity. Qed.

(** A count that REST stores and returns, gRPC reads as not set. *)
Example count_servers_diverge :
  StatusCode (outcome (RestServer.GetNodeSubscriberCount (ctx_for "node-1" "" "")) (world7c "3000000000") []) = 200 /\
  outcome (@ConfigGrpc.GetSubscriberCount plain_jwt "s3cret" admin_md "node-1") (world7c "3000000000") [] =
    Err (StatusError NotFound "subscriber count not set for this node").
Proof. vm_compute. repeat split; reflexivity. Qed.

(** Not every version advances by one: a numeric prefix counts as the version,
    the largest [int] wraps, and larger ones restart the chain. *)
Definition doc_version (rv : string) : option string :=
  Some (encode (JObj [("metadata", JObj [("resourceVersion", JStr rv)])])).
Example next_version_edges :
  nextResourceVersion (doc_version "12abc") = "13" /\
  nextResourceVersion (doc_version "9223372036854775807") = "-9223372036854775808" /\
  nextResourceVersion (doc_version "9223372036854775808") = "2".
Proof. vm_compute. repeat split; reflexivity. Qed.

(** Clearing inactive nodes deletes by the snapshot it listed: a node that comes
    back in between is deleted although it is active. *)
Definition status_doc (status : string) : string := encode (JObj [("status", JStr status)]).
Example clear_inactive_races :
  let w := World (et_put mem_empty "nodes/n" (status_doc "inactive")) db_empty 0 false [] in
  let back := [quiet; busy [EvPut "nodes/n" (status_doc "active")]] in
  let c := MkContext "" "" "" "" "" "" "" in
  (et_get (w_etcd (final (RestServer.ClearInactiveNodes c) w back)) "nodes/n" : option kv) = None.
Proof. vm_compute. done. Qed.
