(* ===== verification/OffsetGuard.v ===== *)
(** * Committed offsets and the log end ([internal/kafka])

    [offset_metrics.go] and the start of a consuming session in [consumer.go]:
    the wait for the topic, the guard that resets offsets beyond the end of the
    log, and the health metrics.  The broker is reached through the record
    [offsetClient]. *)

From S2P Require Import Prelude GoStrings GoTime Etcd Db Effects.
Local Open Scope string_scope.
Local Open Scope Z_scope.
Local Open Scope go_scope.

(** ** Settings *)

(** [os.Getenv]; an unset variable is empty. *)
Definition Brokers (getenv : string -> string) : option (list string) :=
  let v := getenv "KAFKA_BROKERS" in
  if String.eqb v "" then None else Some (trim_space <$> split_on "," v).
Definition envOr (getenv : string -> string) (key def : string) : string :=
  if String.eqb (getenv key) "" then def else getenv key.
Record ReaderConfig := MkReader { cfg_Brokers : list string; cfg_Topic : string; cfg_GroupID : string }.
Definition NewConsumer_config (getenv : string -> string) (brokers : list string) : ReaderConfig :=
  MkReader brokers (envOr getenv "KAFKA_TOPIC" "fastrg.node.events") (envOr getenv "KAFKA_GROUP" "fastrg-controller").

(** ** Reading the offsets *)

Record partitionOffsets := MkOffsets { po_Partition : Z; po_First : Z; po_Last : Z; po_Committed : Z }.
#[export] Instance partitionOffsets_eq_dec : EqDecision partitionOffsets.
Proof. solve_decision. Defined.
(** The two requests per partition. *)
Inductive offsetRequest := FirstOffsetOf (partition : Z) | LastOffsetOf (partition : Z).
Record topicMeta := MkTopic { tm_Name : string; tm_Error : bool; tm_Partitions : list Z }.
Record offsetRange := MkRange { or_Partition : Z; or_Error : bool; or_First : Z; or_Last : Z }.
Record offsetFetched := MkFetched { of_Partition : Z; of_Error : bool; of_Committed : Z }.
(** The three calls; [None] is an error.  The answers are those for the topic
    asked about. *)
Record offsetClient := MkClient {
  Metadata : string -> option (list topicMeta);
  ListOffsets : string -> list offsetRequest -> option (list offsetRange);
  OffsetFetch : string -> string -> list Z -> option (list offsetFetched) }.

Definition topic_partitions (topic : string) (meta : list topicMeta) : list Z :=
  concat ((fun t => if negb (String.eqb (tm_Name t) topic) || tm_Error t then [] else tm_Partitions t) <$> meta).
Definition usable_add (m : gmap Z (Z * Z)) (po : offsetRange) : gmap Z (Z * Z) :=
  if or_Error po then m else <[or_Partition po := (or_First po, or_Last po)]> m.
Definition usable_ranges (ranges : list offsetRange) : gmap Z (Z * Z) := fold_left usable_add ranges ∅.
Definition join_offsets (firstLast : gmap Z (Z * Z)) (fetched : list offsetFetched) : list partitionOffsets :=
  omap (fun f => if of_Error f then None
                 else letopt (first, last) := firstLast !! of_Partition f in
                      Some (MkOffsets (of_Partition f) first last (of_Committed f))) fetched.
(** [None] is an error. *)
Definition readNegativeLag (client : offsetClient) (topic group : string) : option (list partitionOffsets) :=
  letopt meta := Metadata client topic in
  let partitions := topic_partitions topic meta in
  match partitions with
  | [] => Some []
  | _ =>
      letopt ranges := ListOffsets client topic (concat ((fun p => [FirstOffsetOf p; LastOffsetOf p]) <$> partitions)) in
      letopt fetched := OffsetFetch client topic group partitions in
      Some (join_offsets (usable_ranges ranges) fetched)
  end.

Definition isBeyondLogEnd (off : partitionOffsets) : bool := (0 <=? po_Committed off) && (po_Last off <? po_Committed off).
(** The partition and the offset to commit for it. *)
Definition partitionsToReset (offsets : list partitionOffsets) : list (Z * Z) :=
  omap (fun off => if isBeyondLogEnd off then Some (po_Partition off, po_First off) else None) offsets.
(** How far, before the conversion to [float64]. *)
Definition offsetsBeyondLogEnd (offsets : list partitionOffsets) : gmap Z Z :=
  fold_left (fun m off => <[po_Partition off := if isBeyondLogEnd off then wrap64 (po_Committed off - po_Last off) else 0]> m) offsets ∅.

(** ** The guard *)

(** The commit it asks for, without group membership; [None]: no request. *)
Definition negativeLagGuard (client : offsetClient) (cfg : ReaderConfig) : option (list (Z * Z)) :=
  if bool_decide (cfg_Brokers cfg = []) || String.eqb (cfg_GroupID cfg) "" then None
  else
    letopt offsets := readNegativeLag client (cfg_Topic cfg) (cfg_GroupID cfg) in
    match partitionsToReset offsets with [] => None | resets => Some resets end.

(** ** Metrics *)

(** [lastFetch] is 0 before the session. *)
Definition fetchAge (lastFetch now : Z) : Z := if lastFetch =? 0 then 0 else Z.max 0 (now - lastFetch).
Record metrics := MkMetrics { fetch_age : Z; check_errors : Z; beyond : gmap Z Z }.
Definition sampleOffsetsOnce (client : offsetClient) (topic group : string) (lastFetch now : Z) (mt : metrics) : metrics :=
  match readNegativeLag client topic group with
  | None => MkMetrics (fetchAge lastFetch now) (check_errors mt + 1) (beyond mt)
  | Some offsets => MkMetrics (fetchAge lastFetch now) (check_errors mt) (offsetsBeyondLogEnd offsets ∪ beyond mt)
  end.

(** ** Waiting for the topic *)

(** What one broker says: an error, or how many partitions the topic has. *)
Definition topic_ready (answers : list (option N)) : bool :=
  existsb (fun a => match a with Some n => (0 <? n)%N | None => false end) answers.
(** One list of answers per round; returns whether the topic was seen ready. *)
Fixpoint waitForTopicReady (rounds : list (list (option N))) : prog bool :=
  do! cancelled := call ECtx in
  if cancelled : bool then Ret false
  else match rounds with
       | [] => Ret false
       | answers :: rounds =>
           if topic_ready answers then Ret true
           else do! _ := call (ESleep (2 * second) false) in waitForTopicReady rounds
       end.
(** The beginning of [Run]: [None] when the context ended, otherwise the reset
    the guard asks for and the time [lastFetch] is seeded with. *)
Definition Run_start (client : offsetClient) (cfg : ReaderConfig) (rounds : list (list (option N))) : prog (option (option (list (Z * Z)) * Z)) :=
  do! _ := waitForTopicReady rounds in
  do! cancelled := call ECtx in
  if cancelled : bool then Ret None
  else do! now := call ENow in Ret (Some (negativeLagGuard client cfg, now)).

(** ** A broker *)

(** Its partitions, each with a log and an offset; the committed offset is
    negative when the group never committed. *)
Definition broker : Type := list partitionOffsets.
Definition broker_ok (b : broker) : Prop :=
  NoDup (po_Partition <$> b) /\ Forall (fun p => 0 <= po_First p <= po_Last p /\ po_Committed p <= max_int64) b.
Definition broker_client (topic : string) (b : broker) : offsetClient := MkClient
  (fun t => Some [MkTopic topic false (po_Partition <$> b)])
  (fun t reqs => Some ((fun p => MkRange (po_Partition p) false (po_First p) (po_Last p)) <$> b))
  (fun t group ps => Some ((fun p => MkFetched (po_Partition p) false (po_Committed p)) <$> b)).
Definition reset_to (resets : list (Z * Z)) (p : partitionOffsets) : partitionOffsets :=
  match List.find (fun r => r.1 =? po_Partition p) resets with
  | Some r => MkOffsets (po_Partition p) (po_First p) (po_Last p) r.2
  | None => p
  end.
Definition commit_resets (o : option (list (Z * Z))) (b : broker) : broker :=
  match o with None => b | Some resets => reset_to resets <$> b end.

Lemma usable_lookup (b : broker) m p :
  NoDup (po_Partition <$> b) -> p ∈ b ->
  fold_left usable_add
    ((fun p => MkRange (po_Partition p) false (po_First p) (po_Last p)) <$> b) m !! po_Partition p
  = Some (po_First p, po_Last p).
Proof.
  assert (Hout : forall (b : broker) m k, k ∉ po_Partition <$> b ->
    fold_left usable_add
      ((fun p => MkRange (po_Partition p) false (po_First p) (po_Last p)) <$> b) m !! k = m !! k).
  { clear. induction b as [|q b IH]; intros m k Hk; [done|]. cbn [fmap list_fmap fold_left] in *.
    rewrite not_elem_of_cons in Hk. destruct Hk as [Hne Hk]. rewrite IH by done. unfold usable_add. simpl. by rewrite lookup_insert_ne. }
  revert m. induction b as [|q b IH]; intros m Hn Hp; [by apply not_elem_of_nil in Hp|].
  cbn [fmap list_fmap] in Hn. apply NoDup_cons in Hn as [Hq Hn]. cbn [fmap list_fmap fold_left].
  apply elem_of_cons in Hp as [->|Hp]; [|by apply IH]. rewrite Hout by done. unfold usable_add. simpl. by rewrite lookup_insert_eq.
Qed.
(** Reading an honest broker gives its partitions. *)
Lemma read_broker topic group b : broker_ok b -> readNegativeLag (broker_client topic b) topic group = Some b.
Proof.
  intros [Hn _]. unfold readNegativeLag. cbn [broker_client Metadata ListOffsets OffsetFetch]. unfold topic_partitions. simpl.
  rewrite String.eqb_refl. simpl. rewrite app_nil_r. destruct b as [|q b]; [done|].
  cbn [fmap list_fmap]. cbv beta iota. f_equal. unfold join_offsets, usable_ranges.
  set (all := q :: b) in *. change (MkRange (po_Partition q) false (po_First q) (po_Last q) :: _)
    with ((fun p => MkRange (po_Partition p) false (po_First p) (po_Last p)) <$> all).
  change (MkFetched (po_Partition q) false (po_Committed q) :: _)
    with ((fun p => MkFetched (po_Partition p) false (po_Committed p)) <$> all).
  set (m := fold_left _ _ _).
  assert (Hm : forall p, p ∈ all -> m !! po_Partition p = Some (po_First p, po_Last p)) by (intros p Hp; by apply usable_lookup).
  clearbody m all. clear -Hm. induction all as [|p l IH]; [done|].
  cbn [fmap list_fmap omap list_omap of_Error of_Partition of_Committed]. rewrite (Hm p) by (by left).
  rewrite IH; [by destruct p|]. intros p' Hp'. apply Hm. by right.
Qed.

Definition healed (p : partitionOffsets) : partitionOffsets :=
  if isBeyondLogEnd p then MkOffsets (po_Partition p) (po_First p) (po_Last p) (po_First p) else p.
Lemma healed_ok p : 0 <= po_First p <= po_Last p -> isBeyondLogEnd (healed p) = false.
Proof.
  intros Hp. unfold healed. destruct (isBeyondLogEnd p) eqn:E; [|done]. unfold isBeyondLogEnd. simpl.
  apply andb_false_iff. right. apply Z.ltb_ge. lia.
Qed.
Lemma healed_partition (b : broker) : po_Partition <$> (healed <$> b) = po_Partition <$> b.
Proof. rewrite <-list_fmap_compose. apply list_fmap_ext. intros _ p _. simpl. unfold healed. by destruct (isBeyondLogEnd p). Qed.
Lemma resets_find (b : broker) p :
  NoDup (po_Partition <$> b) -> p ∈ b -> reset_to (partitionsToReset b) p = healed p.
Proof.
  assert (Hout : forall (b : broker) k, k ∉ po_Partition <$> b -> List.find (fun r : Z * Z => r.1 =? k) (partitionsToReset b) = None).
  { clear. intros b k Hk. destruct (List.find _ _) as [r|] eqn:E; [|done]. apply find_some in E as [Hin Hr].
    exfalso. apply list_elem_of_In, list_elem_of_omap in Hin as (q & Hq & Hs). destruct (isBeyondLogEnd q); [|done].
    injection Hs as <-. apply Z.eqb_eq in Hr. simpl in Hr. apply Hk. rewrite <-Hr. by apply list_elem_of_fmap_2. }
  unfold reset_to, healed. induction b as [|q b IH]; intros Hn Hp; [by apply not_elem_of_nil in Hp|].
  cbn [fmap list_fmap] in Hn. apply NoDup_cons in Hn as [Hq Hn]. unfold partitionsToReset. cbn [omap list_omap].
  fold (partitionsToReset b). apply elem_of_cons in Hp as [->|Hp].
  - destruct (isBeyondLogEnd q).
    + change (omap _ b) with (partitionsToReset b). cbn [List.find fst]. by rewrite Z.eqb_refl.
    + change (omap _ b) with (partitionsToReset b). by rewrite Hout.
  - assert (Hne : po_Partition q <> po_Partition p) by (intros He; apply Hq; rewrite He; by apply list_elem_of_fmap_2).
    change (omap _ b) with (partitionsToReset b). destruct (isBeyondLogEnd q); [|by apply IH].
    cbn [List.find fst]. destruct (Z.eqb_spec (po_Partition q) (po_Partition p)); [done|by apply IH].
Qed.
Lemma commit_healed (b : broker) :
  NoDup (po_Partition <$> b) ->
  commit_resets (match partitionsToReset b with [] => None | resets => Some resets end) b = healed <$> b.
Proof.
  intros Hn. transitivity (reset_to (partitionsToReset b) <$> b).
  - destruct (partitionsToReset b) as [|r l]; [|done]. simpl. symmetry. rewrite <-(list_fmap_id b) at 2. by apply list_fmap_ext.
  - apply list_fmap_ext. intros i p Hi. apply resets_find; [done|]. by eapply list_elem_of_lookup_2.
Qed.
Lemma no_resets (b : broker) : Forall (fun p => isBeyondLogEnd p = false) b -> partitionsToReset b = [].
Proof. induction 1 as [|p b Hp _ IH]; [done|]. unfold partitionsToReset in *. cbn [omap list_omap]. by rewrite Hp. Qed.

(** C33: the guard repairs a group wedged beyond the end of the log and touches
    nothing else: once its commit is applied, every partition whose committed
    offset was past the log end stands at the first surviving offset, all others
    are as before, none is past the end any more, and a second run asks for
    nothing. *)
Theorem negativeLagGuard_heals cfg (b : broker) :
  broker_ok b -> cfg_Brokers cfg <> [] -> cfg_GroupID cfg <> "" ->
  let b' := commit_resets (negativeLagGuard (broker_client (cfg_Topic cfg) b) cfg) b in
  b' = healed <$> b /\ Forall (fun p => isBeyondLogEnd p = false) b' /\
  negativeLagGuard (broker_client (cfg_Topic cfg) b') cfg = None.
Proof.
  intros [Hn Hf] Hb Hg b'.
  assert (Hread : forall l, broker_ok l -> negativeLagGuard (broker_client (cfg_Topic cfg) l) cfg =
    match partitionsToReset l with [] => None | resets => Some resets end).
  { intros l Hl. unfold negativeLagGuard. rewrite bool_decide_eq_false_2 by done.
    destruct (String.eqb_spec (cfg_GroupID cfg) ""); [done|]. simpl (false || false). cbv iota. by rewrite read_broker. }
  assert (Heq : b' = healed <$> b) by (unfold b'; rewrite Hread by done; by apply commit_healed).
  assert (Hall : Forall (fun p => isBeyondLogEnd p = false) (healed <$> b)).
  { apply Forall_fmap. eapply Forall_impl; [exact Hf|]. intros p [Hp _]. by apply healed_ok. }
  assert (Hok : broker_ok (healed <$> b)).
  { split; [by rewrite healed_partition|]. apply Forall_fmap. eapply Forall_impl; [exact Hf|].
    intros p [Hp Hc]. simpl. unfold healed. destruct (isBeyondLogEnd p) eqn:E; [|done]. simpl.
    unfold isBeyondLogEnd in E. bool_hyps. split; lia. }
  rewrite Heq. split_and!; [done|done|]. rewrite Hread by done. by rewrite no_resets.
Qed.

Definition default_cfg : ReaderConfig := NewConsumer_config (fun _ => "") ["kafka:9092"].
Definition wedged : broker := [MkOffsets 0 10 20 15; MkOffsets 1 5 8 900; MkOffsets 2 0 0 (-1)].
Lemma wedged_ok : broker_ok wedged.
Proof.
  split; [vm_compute; apply (bool_decide_unpack _); vm_compute; exact I|].
  repeat constructor; unfold max_int64; simpl; lia.
Qed.
Lemma negativeLagGuard_heals_witness :
  broker_ok wedged /\
  let b' := commit_resets (negativeLagGuard (broker_client (cfg_Topic default_cfg) wedged) default_cfg) wedged in
  b' = healed <$> wedged /\ Forall (fun p => isBeyondLogEnd p = false) b' /\
  negativeLagGuard (broker_client (cfg_Topic default_cfg) b') default_cfg = None.
Proof. split; [exact wedged_ok|]. apply (negativeLagGuard_heals default_cfg wedged wedged_ok); done. Defined.
Example wedged_reset :
  negativeLagGuard (broker_client "fastrg.node.events" wedged) default_cfg = Some [(1, 5)] /\
  offsetsBeyondLogEnd wedged !! 1 = Some 892 /\ offsetsBeyondLogEnd wedged !! 0 = Some 0.
Proof. vm_compute. done. Qed.
(** The three offsets are read one after the other: a commit that lands between
    the second and the third makes a healthy partition look past its end.  The
    broker refuses the reset while the group has members. *)
Example reads_race :
  let client := MkClient (Metadata (broker_client "t" [MkOffsets 0 0 7 7])) (ListOffsets (broker_client "t" [MkOffsets 0 0 7 7]))
                         (OffsetFetch (broker_client "t" [MkOffsets 0 0 9 9])) in
  readNegativeLag client "t" "g" = Some [MkOffsets 0 0 7 9] /\ partitionsToReset [MkOffsets 0 0 7 9] = [(0, 0)].
Proof. vm_compute. done. Qed.
