(* ===== verification/OfflineEdit.v ===== *)
(** * Arbitration of offline edits ([internal/kafka/consumer.go])

    A node reports what its CLI changed while the controller was unreachable.
    [prepareOfflineEdit] rejects poison messages and derives the etcd target;
    [offlineEditMutation] decides, against the value current at the commit,
    between a no-op, a discard and a fresh controller write. *)

From S2P Require Import Prelude GoStrings Json JsonNormal Decode GoTime ConfigDoc Validation Etcd Db Effects Cas Rollback Events.
Local Open Scope string_scope.
Local Open Scope Z_scope.
Local Open Scope go_scope.

Record offlineEditProposal := MkProposal {
  op_nodeID : string; op_userID : string; op_key : string; op_kind : OfflineEditKind;
  op_payloadField : string; op_payload : json; op_canonical : any;
  op_resourceVersion : string; op_editedAt : Z; op_editSummary : string; op_deleted : bool }.

(** Why a message is poison, or a stored value unusable. *)
Inductive poison :=
| WrongEventType
| BadNodeID (e : Error)
| UnknownKind (k : OfflineEditKind)
| CountUserNotZero
| BadUserID (e : Error)
| TombstoneWithBody
| TombstoneKind
| NotJSON
| NotObject
| NoPayload (field : string)
| PayloadUndecodable
| NoMetadata
| MetadataUndecodable
| VersionMismatch (edit metadata : string)
| BadVersion (rv : string)
| BadTime (updatedAt : string)
| TimeNotUTC (updatedAt : string).

Definition offlineEditKindSpec (kind : OfflineEditKind) (nodeID userID : string) : result poison (string * string) :=
  if kind =? OFFLINE_EDIT_KIND_HSI_CONFIG then Ok (hsiKey nodeID userID, "config")
  else if kind =? OFFLINE_EDIT_KIND_DNS_RECORDS then Ok (dnsKey nodeID userID, "records")
  else if kind =? OFFLINE_EDIT_KIND_SUBSCRIBER_COUNT then Ok (subscriberCountKey nodeID, "subscriber_count")
  else Err (UnknownKind kind).

(** [json.Unmarshal] of a raw message into [any]. *)
Definition decodeCanonicalJSON (raw : json) : option any := to_any raw.

(** The object of a stored value or proposal, by member. *)
Definition envelope_of (value : string) : result poison (gmap string json) :=
  match decode value with
  | None => Err NotJSON
  | Some j => match d_map j with
              | None => Err NotJSON
              | Some None => Err NotObject
              | Some (Some m) => Ok m
              end
  end.
Definition canonical_member (envelope : gmap string json) (payloadField : string) : result poison (json * any) :=
  match envelope !! payloadField with
  | None => Err (NoPayload payloadField)
  | Some payload => match decodeCanonicalJSON payload with
                    | None => Err PayloadUndecodable
                    | Some canonical => Ok (payload, canonical)
                    end
  end.

Definition parseOfflineEditEnvelope (configJSON payloadField : string) : result poison (json * any * string) :=
  let? envelope := envelope_of configJSON in
  let? (payload, canonical) := canonical_member envelope payloadField in
  match envelope !! "metadata" with
  | None => Err NoMetadata
  | Some metadataJSON => match one_field "resourceVersion" d_string "" metadataJSON with
                         | None => Err MetadataUndecodable
                         | Some rv => Ok (payload, canonical, rv)
                         end
  end.

Definition prepareOfflineEdit (ev : NodeEvent) (edit : ConfigOfflineEdit) : result poison offlineEditProposal :=
  if negb (ev_type ev =? EVENT_TYPE_CONFIG_OFFLINE_EDIT) then Err WrongEventType else
  match ValidateNodeID (ev_node ev) with
  | Some e => Err (BadNodeID e)
  | None =>
      let? (key, payloadField) := offlineEditKindSpec (oe_kind edit) (ev_node ev) (ev_user ev) in
      let? _ := if oe_kind edit =? OFFLINE_EDIT_KIND_SUBSCRIBER_COUNT then
                  if negb (String.eqb (ev_user ev) "0") then Err CountUserNotZero else Ok tt
                else match ValidateUserID (ev_user ev) with Some e => Err (BadUserID e) | None => Ok tt end in
      let proposal payload canonical :=
        MkProposal (ev_node ev) (ev_user ev) key (oe_kind edit) payloadField payload canonical
          (oe_resource_version edit) (time_Unix (oe_edited_at edit)) (oe_summary edit) (oe_deleted edit) in
      if oe_deleted edit then
        if negb (String.eqb (oe_config_json edit) "") then Err TombstoneWithBody
        else if negb (oe_kind edit =? OFFLINE_EDIT_KIND_HSI_CONFIG) then Err TombstoneKind
        else Ok (proposal JNull ANil)
      else
        let? (payload, canonical, metadataRV) := parseOfflineEditEnvelope (oe_config_json edit) payloadField in
        if negb (String.eqb (oe_resource_version edit) metadataRV)
        then Err (VersionMismatch (oe_resource_version edit) metadataRV)
        else Ok (proposal payload canonical)
  end.

Definition currentOfflineEditPayload (current payloadField : string) : result poison any :=
  let? envelope := envelope_of current in
  let? (_, canonical) := canonical_member envelope payloadField in
  Ok canonical.

Definition currentOfflineEditMetadata (current : string) : result poison (Z * Z) :=
  match decode current with
  | None => Err NotJSON
  | Some j =>
      match d_map j with
      | None => Err NotJSON
      | Some m =>                     (* a nil map has no members *)
          match default ∅ m !! "metadata" with
          | None => Err NoMetadata
          | Some metadataJSON =>
              match d_meta meta_zero metadataJSON with
              | None => Err MetadataUndecodable
              | Some metadata =>
                  match parse_uint 64 (md_rv metadata) with
                  | None => Err (BadVersion (md_rv metadata))
                  | Some rv =>
                      match parse_rfc3339 (md_at metadata) with
                      | None => Err (BadTime (md_at metadata))
                      | Some (updatedAt, offset) =>
                          if negb (offset =? 0) then Err (TimeNotUTC (md_at metadata)) else Ok (rv, updatedAt)
                      end
                  end
              end
          end
      end
  end.

Inductive discardReason :=
| TargetGone
| PayloadUnusable (e : poison)
| MetadataUnusable (e : poison)
| NodeVersionUnusable (rv : string)
| NodeBehind (node current : Z)
| NodeNotAhead (node current : Z)
| NotLater (editedAt updatedAt : Z).
Definition discard_warn (r : discardReason) : bool :=
  match r with PayloadUnusable _ | MetadataUnusable _ | NodeVersionUnusable _ => true | _ => false end.
Inductive offlineEditError := OfflineEditNoop | OfflineEditDiscard (r : discardReason).

(** The value an accepted edit commits: the proposed payload under metadata
    stamped by the controller; map members print in the order of their names. *)
Definition accepted_doc (p : offlineEditProposal) (currentRV now : Z) : json :=
  JObj (kset (op_payloadField p) (op_payload p)
         (kset "metadata" (meta_json (MkMeta (op_nodeID p) (format_uint (wrapu64 (currentRV + 1)))
                                        offlineEditUpdatedBy (format_rfc3339 now))) [])).

Definition offlineEditMutation (p : offlineEditProposal) (current : option string) (now : Z)
  : result offlineEditError CASResult :=
  match current with
  | None => if op_deleted p then Err OfflineEditNoop else Err (OfflineEditDiscard TargetGone)
  | Some cur =>
      let? _ :=
        if negb (op_deleted p) then
          match currentOfflineEditPayload cur (op_payloadField p) with
          | Err e => Err (OfflineEditDiscard (PayloadUnusable e))
          | Ok currentPayload => if any_eqb (op_canonical p) currentPayload then Err OfflineEditNoop else Ok tt
          end
        else Ok tt in
      match currentOfflineEditMetadata cur with
      | Err e => Err (OfflineEditDiscard (MetadataUnusable e))
      | Ok (currentRV, currentUpdatedAt) =>
          match parse_uint 64 (op_resourceVersion p) with
          | None => Err (OfflineEditDiscard (NodeVersionUnusable (op_resourceVersion p)))
          | Some nodeRV =>
              if op_deleted p then
                if nodeRV <? currentRV then Err (OfflineEditDiscard (NodeBehind nodeRV currentRV))
                else if negb (currentUpdatedAt <? op_editedAt p)
                then Err (OfflineEditDiscard (NotLater (op_editedAt p) currentUpdatedAt))
                else Ok cas_remove
              else if nodeRV <=? currentRV then Err (OfflineEditDiscard (NodeNotAhead nodeRV currentRV))
              else if negb (currentUpdatedAt <? op_editedAt p)
              then Err (OfflineEditDiscard (NotLater (op_editedAt p) currentUpdatedAt))
              else Ok (cas_put (encode (accepted_doc p currentRV now)))
          end
      end
  end.

Definition offline_mutate (p : offlineEditProposal) (current : option string) (now : Z)
  : result offlineEditError (CASResult * unit) :=
  match offlineEditMutation p current now with Ok res => Ok (res, tt) | Err e => Err e end.

(** ** Prepared proposals *)

Definition payload_fields : list string := ["config"; "records"; "subscriber_count"].

Lemma kindSpec_field kind node user key f :
  offlineEditKindSpec kind node user = Ok (key, f) -> f ∈ payload_fields.
Proof.
  unfold offlineEditKindSpec. repeat (destruct (_ =? _); [intros [= _ <-]; set_solver|]). done.
Qed.

Lemma envelope_wf value m k x : envelope_of value = Ok m -> m !! k = Some x -> wf_json x = true.
Proof.
  unfold envelope_of. destruct (decode value) as [j|] eqn:Ej; [|done].
  destruct (d_map j) as [[m'|]|] eqn:Em; [|done..]. intros [= <-]. eapply d_map_wf; [by eapply decode_wf|done].
Qed.

(** What preparation guarantees of a content proposal. *)
Definition prepared (p : offlineEditProposal) : Prop :=
  wf_json (op_payload p) = true /\ to_any (op_payload p) = Some (op_canonical p) /\
  valid_utf8 (op_nodeID p) = true /\ op_payloadField p ∈ payload_fields.

Lemma prepare_prepared ev edit p :
  prepareOfflineEdit ev edit = Ok p -> op_deleted p = false -> prepared p.
Proof.
  unfold prepareOfflineEdit. destruct (negb _); [done|]. destruct (ValidateNodeID (ev_node ev)) eqn:En; [done|].
  destruct (offlineEditKindSpec _ _ _) as [[key f]|] eqn:Ek; [|done].
  destruct (if oe_kind edit =? _ then _ else _) as [u|]; [|done].
  destruct (oe_deleted edit) eqn:Ed.
  { destruct (negb _); [done|]. destruct (negb _); [done|]. intros [= <-]. done. }
  unfold parseOfflineEditEnvelope. destruct (envelope_of _) as [m|] eqn:Ee; [|done].
  unfold canonical_member. destruct (m !! f) as [x|] eqn:Ex; [|done].
  destruct (decodeCanonicalJSON x) as [a|] eqn:Ea; [|done].
  destruct (m !! "metadata") as [y|]; [|done]. destruct (one_field _ _ _ _) as [rv|]; [|done].
  destruct (negb _); [done|]. intros [= <-] _. split_and!; simpl.
  - by eapply envelope_wf.
  - done.
  - by apply node_id_valid.
  - by eapply kindSpec_field.
Qed.

(** ** The accepted value, read back *)

Lemma meta_json_wf m : valid_utf8 (md_node m) = true -> valid_utf8 (md_rv m) = true ->
  valid_utf8 (md_by m) = true -> valid_utf8 (md_at m) = true -> wf_json (meta_json m) = true.
Proof. intros H1 H2 H3 H4. unfold meta_json. rewrite wf_obj. cbn [forallb fst snd wf_json]. by rewrite H1, H2, H3, H4. Qed.

Lemma kset_wf k x l : valid_utf8 k = true -> wf_json x = true -> wf_json (JObj l) = true -> wf_json (JObj (kset k x l)) = true.
Proof.
  rewrite !wf_obj. intros Hk Hx. induction l as [|[k' y] l IH]; cbn [kset forallb fst snd]; intros Hl.
  - by rewrite Hk, Hx.
  - bool_split. destruct (String.compare k k'); cbn [forallb fst snd].
    + by rewrite Hk, Hx, H0.
    + by rewrite Hk, Hx, H, H0, H1.
    + rewrite H, H1. by apply IH.
Qed.

Lemma accepted_doc_wf p currentRV now : prepared p -> wf_json (accepted_doc p currentRV now) = true.
Proof.
  intros (Hp & _ & Hn & Hf). unfold accepted_doc. apply kset_wf; [|done|apply kset_wf; [done| |done]].
  - unfold payload_fields in Hf. rewrite !elem_of_cons in Hf.
    destruct Hf as [-> | [-> | [-> | Hf]]]; [done..|]. by apply not_elem_of_nil in Hf.
  - apply meta_json_wf; simpl; [done|by apply format_uint_valid, wrapu64_range|done|apply format_rfc3339_valid].
Qed.

Lemma accepted_envelope p currentRV now : prepared p ->
  exists m, envelope_of (encode (accepted_doc p currentRV now)) = Ok m /\
    d_map (accepted_doc p currentRV now) = Some (Some m) /\
    m !! op_payloadField p = Some (op_payload p) /\
    m !! "metadata" = Some (meta_json (MkMeta (op_nodeID p) (format_uint (wrapu64 (currentRV + 1)))
                                        offlineEditUpdatedBy (format_rfc3339 now))).
Proof.
  intros Hp. unfold envelope_of. rewrite decode_encode by (by apply accepted_doc_wf).
  destruct Hp as (_ & _ & _ & Hf). unfold payload_fields in Hf. rewrite !elem_of_cons in Hf.
  unfold accepted_doc. set (md := meta_json _). clearbody md.
  assert (op_payloadField p = "config" \/ op_payloadField p = "records" \/ op_payloadField p = "subscriber_count")
    as Hf' by (destruct Hf as [?|[?|[?|Hf]]]; [by auto..|by apply not_elem_of_nil in Hf]).
  destruct Hf' as [-> | [-> | ->]]; eexists; (split_and!; [reflexivity|reflexivity|rewrite d_map_lookup; reflexivity..]).
Qed.

Lemma accepted_reads p currentRV now :
  prepared p -> year_ok now = true ->
  currentOfflineEditPayload (encode (accepted_doc p currentRV now)) (op_payloadField p) = Ok (op_canonical p) /\
  currentOfflineEditMetadata (encode (accepted_doc p currentRV now)) = Ok (wrapu64 (currentRV + 1), unix (now / second)).
Proof.
  intros Hp Hy. destruct (accepted_envelope p currentRV now Hp) as (m & He & Hd & Hm & Hmd).
  pose proof (accepted_doc_wf p currentRV now Hp) as Hw. destruct Hp as (_ & Hc & _). split.
  - unfold currentOfflineEditPayload. rewrite He. unfold canonical_member, decodeCanonicalJSON. by rewrite Hm, Hc.
  - unfold currentOfflineEditMetadata. rewrite decode_encode by done. rewrite Hd. change (default ∅ (Some m)) with m. rewrite Hmd.
    match goal with |- context [d_meta meta_zero (meta_json ?x)] =>
      replace (d_meta meta_zero (meta_json x)) with (Some x) by reflexivity end. cbn [md_rv md_at].
    rewrite parse_format_uint by (split; [apply wrapu64_range|unfold wrapu64; apply Z.mod_pos_bound; lia]).
    by rewrite parse_format_rfc3339.
Qed.

(** ** The decision *)

(** The arbitration rule of [kafka-events.proto]: a content edit must change
    the payload and be ahead both in version and in time; a tombstone must not
    be behind in version and be later in time. *)
Definition edit_wins (p : offlineEditProposal) (cur : string) (rv updatedAt : Z) : Prop :=
  exists nodeRV, currentOfflineEditMetadata cur = Ok (rv, updatedAt) /\
    parse_uint 64 (op_resourceVersion p) = Some nodeRV /\ updatedAt < op_editedAt p /\
    if op_deleted p then rv <= nodeRV
    else rv < nodeRV /\ exists pl, currentOfflineEditPayload cur (op_payloadField p) = Ok pl /\ pl <> op_canonical p.

Definition edit_result (p : offlineEditProposal) (rv now : Z) : CASResult :=
  if op_deleted p then cas_remove else cas_put (encode (accepted_doc p rv now)).

Lemma mutation_ok p current now res :
  offlineEditMutation p current now = Ok res ->
  exists cur rv updatedAt, current = Some cur /\ edit_wins p cur rv updatedAt /\ res = edit_result p rv now.
Proof.
  unfold offlineEditMutation, edit_wins, edit_result. destruct current as [cur|]; [|by destruct (op_deleted p)].
  destruct (op_deleted p); simpl negb; cbv iota.
  - destruct (currentOfflineEditMetadata cur) as [[rv t]|] eqn:Em; [|done].
    destruct (parse_uint 64 (op_resourceVersion p)) as [nrv|] eqn:En; [|done].
    destruct (Z.ltb_spec nrv rv); [done|]. destruct (Z.ltb_spec t (op_editedAt p)); [|done]. simpl.
    intros Hr. apply Ok_inj in Hr. exists cur, rv, t. split_and!; [done|by exists nrv|done].
  - destruct (currentOfflineEditPayload cur (op_payloadField p)) as [pl|] eqn:Epl; [|done].
    destruct (any_eqb (op_canonical p) pl) eqn:Ea; [done|].
    destruct (currentOfflineEditMetadata cur) as [[rv t]|] eqn:Em; [|done].
    destruct (parse_uint 64 (op_resourceVersion p)) as [nrv|] eqn:En; [|done].
    destruct (Z.leb_spec nrv rv); [done|]. destruct (Z.ltb_spec t (op_editedAt p)); [|done]. simpl.
    intros Hr. apply Ok_inj in Hr. exists cur, rv, t. split_and!; [done| |done].
    exists nrv. split_and!; try done. exists pl. split; [done|]. intros ->. by rewrite any_eqb_refl in Ea.
Qed.

Lemma mutation_complete p cur rv updatedAt now :
  edit_wins p cur rv updatedAt -> offlineEditMutation p (Some cur) now = Ok (edit_result p rv now).
Proof.
  intros (nrv & Hm & Hn & Ht & Hrest). unfold offlineEditMutation, edit_result.
  apply Z.ltb_lt in Ht. destruct (op_deleted p); simpl negb; cbv iota.
  - rewrite Hm, Hn. destruct (Z.ltb_spec nrv rv); [lia|]. by rewrite Ht.
  - destruct Hrest as (Hlt & pl & Hpl & Hne). rewrite Hpl.
    destruct (any_eqb (op_canonical p) pl) eqn:Ea; [apply any_eqb_eq in Ea; congruence|].
    rewrite Hm, Hn. destruct (Z.leb_spec nrv rv); [lia|]. by rewrite Ht.
Qed.

(** ** Properties *)

(** C7: arbitration of an offline edit accepts exactly the proposals the protocol
    file promises to accept: for a content edit the payload differs, the node's
    version exceeds the stored one and the edit is later than its timestamp; for
    a tombstone the version is not behind and the edit is later.  What is
    committed is the delete, or the payload under freshly stamped metadata. *)
Theorem offline_edit_arbitration p current now res :
  offlineEditMutation p current now = Ok res <->
  exists cur rv updatedAt, current = Some cur /\ edit_wins p cur rv updatedAt /\ res = edit_result p rv now.
Proof.
  split; [apply mutation_ok|]. intros (cur & rv & t & -> & Hw & ->). by eapply mutation_complete.
Qed.

(** C28: an accepted content edit is read back as proposed, under the stored
    version plus one and the time of the commit; delivering the same proposal
    again to that value is a no-op. *)
Theorem offline_edit_replay ev edit p cur now now' value :
  prepareOfflineEdit ev edit = Ok p -> op_deleted p = false -> year_ok now = true ->
  offlineEditMutation p (Some cur) now = Ok (cas_put value) ->
  exists rv updatedAt, currentOfflineEditMetadata cur = Ok (rv, updatedAt) /\
    currentOfflineEditMetadata value = Ok (wrapu64 (rv + 1), unix (now / second)) /\
    currentOfflineEditPayload value (op_payloadField p) = Ok (op_canonical p) /\
    offlineEditMutation p (Some value) now' = Err OfflineEditNoop.
Proof.
  intros Hp Hd Hy Hm. pose proof (prepare_prepared _ _ _ Hp Hd) as Hprep.
  apply mutation_ok in Hm as (c & rv & t & Hc & (nrv & Hmeta & _) & Hres). apply (inj Some) in Hc as <-.
  unfold edit_result in Hres. rewrite Hd in Hres. apply (f_equal cas_value) in Hres. cbn [cas_value cas_put] in Hres. subst value.
  destruct (accepted_reads p rv now Hprep Hy) as [Hpl Hmd].
  exists rv, t. split_and!; [done..|]. unfold offlineEditMutation. rewrite Hd. simpl negb. cbv iota.
  by rewrite Hpl, any_eqb_refl.
Qed.

Definition sample_edit : ConfigOfflineEdit :=
  MkEdit (encode (JObj [("config", JStr "new"); ("metadata", JObj [("resourceVersion", JStr "5")])]))
    "5" 1750000000 "cli" OFFLINE_EDIT_KIND_HSI_CONFIG false.
Definition sample_offline : NodeEvent := MkNodeEvent "n" "2" EVENT_TYPE_CONFIG_OFFLINE_EDIT 1750000000 "" (POffline sample_edit).
Definition sample_proposal : offlineEditProposal :=
  MkProposal "n" "2" (hsiKey "n" "2") OFFLINE_EDIT_KIND_HSI_CONFIG "config" (JStr "new") (AStr "new")
    "5" (unix 1750000000) "cli" false.

Lemma offline_edit_replay_witness :
  exists value rv updatedAt, currentOfflineEditMetadata (doc_at "old" "4") = Ok (rv, updatedAt) /\
    currentOfflineEditMetadata value = Ok (wrapu64 (rv + 1), unix (unix 1750000001 / second)) /\
    currentOfflineEditPayload value "config" = Ok (AStr "new") /\
    offlineEditMutation sample_proposal (Some value) 0 = Err OfflineEditNoop.
Proof.
  exists (encode (accepted_doc sample_proposal 4 (unix 1750000001))).
  apply (offline_edit_replay sample_offline sample_edit sample_proposal (doc_at "old" "4") (unix 1750000001) 0);
    vm_compute; reflexivity.
Defined.

(** Under every interleaving, an offline edit changes etcd only where it wins
    against the value that is current at the commit. *)
Theorem offline_edit_never_overrides `{EtcdLaws E} p (w : world E) ts :
  world_wf w ->
  let c := CAS (op_key p) (offline_mutate p) in
  (own_writes (final c w ts) = own_writes w /\ outcome c w ts <> Ok tt) \/
  exists s e now rv updatedAt, et_get s (op_key p) = Some e /\ edit_wins p (kv_value e) rv updatedAt /\
    own_writes (final c w ts) = (s, cas_op (op_key p) (edit_result p rv now)) :: own_writes w.
Proof.
  intros Hw c.
  destruct (cas_spec_writes _ _ _ _ _ (cas_refines (op_key p) (fun cur _ now => offline_mutate p cur now) w ts Hw))
    as [[Ho Hr]|(w1 & now & res & y & _ & _ & Hs & Ho & _)]; [by left|right].
  unfold sees, offline_mutate in Hs. destruct (offlineEditMutation p _ now) as [r|] eqn:Em; [|done].
  assert (r = res) as -> by congruence. apply mutation_ok in Em as (cur & rv & t & Hcur & Hwin & ->).
  apply cas_current_some in Hcur as (e & He & <-). by exists (w_etcd w1), e, now, rv, t.
Qed.
Definition world_old : world mem := World (et_put mem_empty (hsiKey "n" "2") (doc_at "old" "4")) db_empty (unix 1750000001) false [].
Lemma world_old_wf : world_wf world_old.
Proof. apply wf_put, mem_empty_wf. Qed.
Lemma offline_edit_never_overrides_witness :
  let c := CAS (hsiKey "n" "2") (offline_mutate sample_proposal) in
  ((own_writes (final c world_old []) = own_writes world_old /\ outcome c world_old [] <> Ok tt) \/
  exists s e now rv updatedAt, et_get s (hsiKey "n" "2") = Some e /\ edit_wins sample_proposal (kv_value e) rv updatedAt /\
    own_writes (final c world_old []) = (s, cas_op (hsiKey "n" "2") (edit_result sample_proposal rv now)) :: own_writes world_old)
  /\ outcome c world_old [] = Ok tt.
Proof.
  split; [apply (offline_edit_never_overrides sample_proposal world_old []), world_old_wf|vm_compute; reflexivity].
Defined.
