(* ===== verification/Consumer.v ===== *)
(** * The Kafka consumer ([internal/kafka/consumer.go])

    Handling one event, retrying it, dead-lettering it, committing its offset,
    and the batched write of PPPoE states.  The loops of [handleOne] and
    [waitAndSendToDLQ] have no bound of their own, so they take fuel; [None] is
    an execution still retrying. *)

From S2P Require Import Prelude GoStrings Json JsonNormal Decode GoTime ConfigDoc Validation Etcd Db Events Effects Cas Storage Rollback OfflineEdit.
Local Open Scope string_scope.
Local Open Scope Z_scope.
Local Open Scope go_scope.

Definition millisecond : Z := 1000000.
Definition retryInterval : Z := 2 * second.
Definition infraRetryInitialBackoff : Z := 2 * second.
Definition infraRetryMaxBackoff : Z := 30 * second.
Definition stallErrorThreshold : Z := 60 * second.
Definition maxBatchSize : nat := 500.

(** ** Retry state *)

Definition newInfraRetryBackoff : Z := infraRetryInitialBackoff.
(** The delay to use, and the next state. *)
Definition infraNext (current : Z) : Z * Z := (current, Z.min (current * 2) infraRetryMaxBackoff).

(** [consumerStall]: when the stall began. *)
Definition consumerStall := option Z.
Definition stall_retry (s : consumerStall) (now : Z) : Z * consumerStall :=
  let startedAt := default now s in (Z.max 0 (now - startedAt), Some startedAt).
(** [true] is the error level, [false] the warning level. *)
Definition stallLogLevel (elapsed : Z) : bool := stallErrorThreshold <=? elapsed.

(** ** Errors of [handle] *)

Inductive etcdFailure := FRequest (e : eerr) | FConflict (key : string) | FCancelled | FNotConfigured.
Inductive handleError :=
| HDb (e : dberr)                 (* wrapDatabaseError *)
| HDbNotConfigured
| HEtcd (e : etcdFailure)         (* wrapEtcdError *)
| HPoison (e : poison)
| HConflict (key : string).       (* ErrCASConflict, unwrapped *)

Definition isTransientSQLState (code : string) : bool :=
  String.eqb code "40001" || String.eqb code "40P01"
  || has_prefix "08" code || has_prefix "53" code || has_prefix "57" code.
Definition isDatabaseUnavailable (e : handleError) : bool :=
  match e with
  | HDb (DbPg code) => isTransientSQLState code
  | HDb DbConn | HDbNotConfigured => true
  | _ => false
  end.
Definition isEtcdUnavailable (e : handleError) : bool := match e with HEtcd _ => true | _ => false end.
Definition unavailable (e : handleError) : bool := isDatabaseUnavailable e || isEtcdUnavailable e.

Definition wrapDatabaseError {A} (r : result dberr A) : result handleError A :=
  match r with Ok a => Ok a | Err e => Err (HDb e) end.

(** Texts of standard-library errors inside recorded reasons. *)
Class ErrorTexts := { err_text : poison -> string; bad_uint_text : string -> string }.

(** ** Handlers *)

(** Which of the optional backends the consumer was built with. *)
Record Consumer := MkConsumer { c_db : bool; c_etcd : bool }.

Section handlers.
Context {J : Jsonb} {P : ProtoEvents} {T : ErrorTexts}.

Definition discard_text (r : discardReason) : string :=
  match r with
  | TargetGone => "target key no longer exists"
  | PayloadUnusable e => "cannot establish current payload: " +:+ err_text e
  | MetadataUnusable e => "cannot establish current metadata: " +:+ err_text e
  | NodeVersionUnusable rv => "cannot parse node resource_version " +:+ bad_uint_text rv
  | NodeBehind node current =>
      "node resource_version " +:+ format_uint node +:+ " is behind current resourceVersion " +:+ format_uint current
  | NodeNotAhead node current =>
      "node resource_version " +:+ format_uint node +:+ " does not exceed current resourceVersion " +:+ format_uint current
  | NotLater editedAt updatedAt =>
      "node edited_at " +:+ format_rfc3339 editedAt +:+ " is not later than current updatedAt " +:+ format_rfc3339 updatedAt
  end.

Definition discard_row (p : offlineEditProposal) (eventTime : Z) (r : discardReason) : NodeEventRow :=
  let kind := offlineEditKindString (op_kind p) in
  MkEvent (op_nodeID p) (op_userID p) "CONFIG_OFFLINE_EDIT" "discard" (Some false) kind
    "OFFLINE_EDIT_DISCARDED" (discard_text r)
    (encode (JObj [("edit_summary", JStr (op_editSummary p)); ("kind", JStr kind); ("reason", JStr (discard_text r))]))
    "" eventTime.
Definition recordOfflineEditDiscard (c : Consumer) (p : offlineEditProposal) (eventTime : Z) (r : discardReason)
  : prog (result handleError unit) :=
  if negb (c_db c) then Ret (Err HDbNotConfigured)
  else do! ins := call (EDb (InsertNodeEvent (discard_row p eventTime r))) in
       Ret (match ins with Ok _ => Ok tt | Err e => Err (HDb e) end).

Definition cascadeDNS (p : offlineEditProposal) : prog (result handleError unit) :=
  if op_deleted p then
    do! r := DeleteSubscriberDNS (op_nodeID p) (op_userID p) in
    Ret (match r with Ok _ => Ok tt | Err e => Err (HEtcd (FRequest e)) end)
  else Ret (Ok tt).

Definition handleConfigOfflineEdit (c : Consumer) (ev : NodeEvent) (edit : ConfigOfflineEdit) (eventTime : Z)
  : prog (result handleError unit) :=
  match prepareOfflineEdit ev edit with
  | Err e => Ret (Err (HPoison e))
  | Ok p =>
      if negb (c_etcd c) then Ret (Err (HEtcd FNotConfigured)) else
      do! casErr := CAS (op_key p) (offline_mutate p) in
      match casErr with
      | Ok _ | Err (CasMutate OfflineEditNoop) => cascadeDNS p
      | Err (CasMutate (OfflineEditDiscard r)) => recordOfflineEditDiscard c p eventTime r
      | Err (CasConflict key) => Ret (Err (HConflict key))
      | Err (CasEtcd e) => Ret (Err (HEtcd (FRequest e)))
      | Err CasCtx => Ret (Err (HEtcd FCancelled))
      end
  end.

(** [None]: etcd holds no config for the key. *)
Definition readConfirmedConfig (key : string) (attested : Z) : prog (result handleError (option (option string * Z))) :=
  let fetch_current compacted :=
    do! resp := call (EGet key) in
    Ret (match resp with
         | Err e => Err (HEtcd (FRequest e))
         | Ok None => Ok None
         | Ok (Some e) => Ok (Some (kv_bytes (kv_value e), if compacted : bool then attested else kv_mod e))
         end) in
  if 0 <? attested then
    do! resp := call (EGetRev key attested) in
    match resp with
    | Ok None => Ret (Ok None)
    | Ok (Some e) => Ret (Ok (Some (kv_bytes (kv_value e), attested)))
    | Err EtcdCompacted => fetch_current true
    | Err e => Ret (Err (HEtcd (FRequest e)))
    end
  else fetch_current false.

Definition apply_event_row (ev : NodeEvent) (res : ConfigApplyResult) (eventTime : Z) : NodeEventRow :=
  MkEvent (ev_node ev) (ev_user ev) (eventTypeString (ev_type ev)) (ar_action res) (Some (ar_success res)) ""
    (ar_error_code res) (ar_error_message res) "" (ev_correlation ev) eventTime.
Definition confirmed_row (ev : NodeEvent) (value : option string) (modRevision eventTime : Z) : HSIConfigRow :=
  MkRow (ev_node ev) (ev_user ev) ActionUpsert value "" modRevision "" "node" (Some eventTime).

Definition record_success (c : Consumer) (ev : NodeEvent) (res : ConfigApplyResult) (eventTime : Z)
  : prog (result handleError unit) :=
  if negb (c_etcd c) then Ret (Ok tt) else
  do? confirmed := readConfirmedConfig (hsiKey (ev_node ev) (ev_user ev)) (ar_applied_mod res) in
  match confirmed with
  | None => Ret (Ok tt)
  | Some (value, modRevision) =>
      do! r := call (EDb (UpsertCurrentWithHistory (confirmed_row ev value modRevision eventTime) "success")) in
      Ret (wrapDatabaseError r)
  end.

Definition rollback_etcd (ev : NodeEvent) (res : ConfigApplyResult) (prev : option HSIConfigRow)
  : prog (result handleError unit) :=
  do! rbErr := CASWithRevision (hsiKey (ev_node ev) (ev_user ev))
                 (rollback_mutate prev (ar_applied_rv res) (ev_correlation ev)) in
  Ret (match rbErr with
       | Ok _ | Err (CasMutate _) => Ok tt                 (* done, or superseded *)
       | Err (CasConflict key) => Err (HEtcd (FConflict key))
       | Err (CasEtcd e) => Err (HEtcd (FRequest e))
       | Err CasCtx => Err (HEtcd FCancelled)
       end).

Definition record_failure (c : Consumer) (ev : NodeEvent) (res : ConfigApplyResult) : prog (result handleError unit) :=
  do! prev := call (EDb (GetLastSuccessfulConfig (ev_node ev) (ev_user ev))) in
  match prev with
  | Err e => Ret (Err (HDb e))
  | Ok prevConfig =>
      do? _ := if c_etcd c then rollback_etcd ev res prevConfig else Ret (Ok tt) in
      do! r := call (EDb (RollbackToLastSuccessful (ev_node ev) (ev_user ev) (ar_error_message res))) in
      Ret (wrapDatabaseError r)
  end.

Definition handleConfigApplyResult (c : Consumer) (ev : NodeEvent) (res : ConfigApplyResult) (eventTime : Z)
  : prog (result handleError unit) :=
  let success := ar_success res in
  let restateOnly := ar_republished res && success in
  do? _ := if negb restateOnly then
             do! r := call (EDb (InsertNodeEvent (apply_event_row ev res eventTime))) in
             Ret (match r with Ok _ => Ok tt | Err e => Err (HDb e) end)
           else Ret (Ok tt) in
  if success then record_success c ev res eventTime else record_failure c ev res.

Definition runtime_row (ev : NodeEvent) (r : RuntimeError) (eventTime : Z) : NodeEventRow :=
  MkEvent (ev_node ev) (ev_user ev) (eventTypeString (ev_type ev)) "" None (re_module r) (re_code r) (re_message r)
    (re_context r) (ev_correlation ev) eventTime.

(** [handle]: malformed messages and unknown payloads are dropped. *)
Definition handle (c : Consumer) (value : string) : prog (result handleError unit) :=
  match unmarshal_event value with
  | None => Ret (Ok tt)
  | Some ev =>
      let eventTime := time_Unix (ev_timestamp ev) in
      match ev_payload ev with
      | POffline edit => handleConfigOfflineEdit c ev edit eventTime
      | PChange change => do! r := call (EDb (UpsertPPPoEStatus (pppoeStatusRow ev change))) in Ret (wrapDatabaseError r)
      | PApply res => handleConfigApplyResult c ev res eventTime
      | PRuntime re =>
          do! r := call (EDb (InsertNodeEvent (runtime_row ev re eventTime))) in
          Ret (match r with Ok _ => Ok tt | Err e => Err (HDb e) end)
      | PNone => Ret (Ok tt)
      end
  end.

(** ** One message: retries, dead letters, commit *)

Definition maxRetries : Z := 5.
Definition dlq_text : string := "Failed after max retries while handling Kafka message".

(** How the retry loop of [handleOne] ends: [break] (with [failed]), or [return false]. *)
Inductive loopEnd := LoopBreak (failed : bool) | LoopReturn.

Fixpoint attempts (fuel : nat) (c : Consumer) (m : message) (attempt backoff infraBackoff : Z)
    (stall : consumerStall) (failed : bool) : prog (option loopEnd) :=
  match fuel with
  | O => Ret None
  | S f =>
      do! ended := call ECtx in
      if ended : bool then Ret (Some (LoopBreak failed)) else
      do! r := handle c (Value m) in
      match r with
      | Ok _ => Ret (Some (LoopBreak false))
      | Err e =>
          if unavailable e then
            do! now := call ENow in
            let '(elapsed, stall') := stall_retry stall now in
            let '(delay, infraBackoff') := infraNext infraBackoff in
            do! _ := call (ESleep delay false) in
            attempts f c m attempt backoff infraBackoff' stall' true
          else if maxRetries <=? attempt then Ret (Some (LoopBreak true))
          else
            do! ended := call (ESleep backoff false) in
            if ended : bool then Ret (Some LoopReturn)
            else attempts f c m (attempt + 1) (backoff * 3 / 2) newInfraRetryBackoff None true
      end
  end.

Definition sendToDLQ (c : Consumer) (m : message) : prog (result dberr unit) :=
  if negb (c_db c) then Ret (Ok tt)
  else do! r := call (EDb (SendToDLQ (Topic m) (Partition m) (Offset m) (Value m) dlq_text)) in
       Ret (match r with Ok _ => Ok tt | Err e => Err e end).

Fixpoint waitAndSendToDLQ (fuel : nat) (c : Consumer) (m : message) : prog (option unit) :=
  match fuel with
  | O => Ret None
  | S f =>
      do! ended := call ECtx in
      if ended : bool then Ret (Some tt) else
      do! r := sendToDLQ c m in
      match r with
      | Err _ => do! _ := call (ESleep retryInterval false) in waitAndSendToDLQ f c m
      | Ok _ => Ret (Some tt)
      end
  end.

Definition handleOne (fuel : nat) (c : Consumer) (m : message) : prog (option bool) :=
  do! r := attempts fuel c m 1 (100 * millisecond) newInfraRetryBackoff None false in
  match r with
  | None => Ret None
  | Some LoopReturn => Ret (Some false)
  | Some (LoopBreak failed) =>
      do! sent := if failed then
                    do! ended := call ECtx in
                    if ended : bool then Ret (Some tt) else waitAndSendToDLQ fuel c m
                  else Ret (Some tt) in
      match sent with
      | None => Ret None
      | Some _ =>
          do! ended := call ECtx in
          if ended : bool then Ret (Some false)
          else do! _ := call (ECommit [m]) in Ret (Some true)
      end
  end.

(** ** Batches *)

(** [first] and what the reader already had: [None] is a fetch that ran into the
    linger deadline or the shutdown. *)
Fixpoint gather (room : nat) (incoming : list (option message)) : list message :=
  match room, incoming with
  | S room, Some m :: rest => m :: gather room rest
  | _, _ => []
  end.
Definition collectBatch (first : message) (incoming : list (option message)) : list message :=
  first :: gather (maxBatchSize - 1) incoming.

(** Row [i] of the slice becomes [row] unless that is older. *)
Definition collapse (rows : list PPPoEStatusRow) (i : nat) (row : PPPoEStatusRow) : list PPPoEStatusRow :=
  match rows !! i with
  | Some old => if negb (pp_event row <? pp_event old) then <[i := row]> rows else rows
  | None => rows
  end.
Fixpoint pppoeRows_loop (batch : list message) (position : gmap ConfigKey nat) (rows : list PPPoEStatusRow)
  : option (list PPPoEStatusRow) :=
  match batch with
  | [] => Some rows
  | message :: batch' =>
      letopt ev := unmarshal_event (Value message) in
      match ev_payload ev with
      | PChange change =>
          let row := pppoeStatusRow ev change in
          match position !! pp_key row with
          | Some i => pppoeRows_loop batch' position (collapse rows i row)
          | None => pppoeRows_loop batch' (<[pp_key row := length rows]> position) (rows ++ [row])%list
          end
      | _ => None
      end
  end.
Definition pppoeRowsFromBatch (batch : list message) : option (list PPPoEStatusRow) := pppoeRows_loop batch ∅ [].

Definition writePPPoEBatch (c : Consumer) (batch : list message) : prog bool :=
  if (length batch <? 2)%nat || negb (c_db c) then Ret false else
  match pppoeRowsFromBatch batch with
  | None => Ret false
  | Some rows =>
      do! r := call (EDb (UpsertPPPoEStatusBatch rows)) in Ret (is_ok r)
  end.

Fixpoint handle_each (fuel : nat) (c : Consumer) (batch : list message) : prog (option bool) :=
  match batch with
  | [] => Ret (Some true)
  | m :: batch' =>
      do! r := handleOne fuel c m in
      match r with
      | Some true => handle_each fuel c batch'
      | other => Ret other
      end
  end.
(** One round of [Run]'s loop after the fetch; [Some false] is the return. *)
Definition process_batch (fuel : nat) (c : Consumer) (batch : list message) : prog (option bool) :=
  do! written := writePPPoEBatch c batch in
  if written : bool then do! _ := call (ECommit batch) in Ret (Some true)
  else handle_each fuel c batch.
End handlers.
