(* ===== verification/PPPoEBatch.v ===== *)
(** * One statement for a burst of PPPoE states

    The batched write is equivalent to handling the messages one at a time: the
    collapsed rows never hit one table row twice, and they leave the table every
    sequential run leaves. *)

From S2P Require Import Prelude GoStrings Json GoTime Etcd Db Events Effects Cas OfflineEdit Consumer.
Local Open Scope string_scope.
Local Open Scope Z_scope.
Local Open Scope go_scope.

(** ** One key at a time *)

Section per_key.
Variable now : Z.

(** The upsert seen from one table row. *)
Definition upsert_one (o : option StatusRec) (row : PPPoEStatusRow) : option StatusRec :=
  match o with
  | Some old => if st_event old <=? pp_event row then Some (status_of row now) else o
  | None => Some (status_of row now)
  end.
Definition for_key (k : ConfigKey) (rows : list PPPoEStatusRow) : list PPPoEStatusRow :=
  List.filter (fun r => bool_decide (pp_key r = k)) rows.

Lemma upsert_lookup m row k :
  upsert_status now m row !! k = if decide (pp_key row = k) then upsert_one (m !! k) row else m !! k.
Proof.
  unfold upsert_status, upsert_one. destruct (decide (pp_key row = k)) as [<-|Hne].
  - destruct (m !! pp_key row) as [old|] eqn:E; [destruct (_ <=? _)|]; by rewrite ?lookup_insert_eq, ?E.
  - destruct (m !! pp_key row) as [old|]; [destruct (_ <=? _)|]; by rewrite ?lookup_insert_ne.
Qed.

Lemma fold_lookup rows m k :
  fold_left (upsert_status now) rows m !! k = fold_left upsert_one (for_key k rows) (m !! k).
Proof.
  revert m. induction rows as [|r rows IH]; intros m; cbn [fold_left for_key List.filter]; [done|].
  rewrite IH, upsert_lookup. fold (for_key k rows).
  destruct (decide (pp_key r = k)) as [Hk|Hk]; [rewrite bool_decide_eq_true_2 by done|rewrite bool_decide_eq_false_2 by done]; done.
Qed.

(** Two rows in a row collapse to the one that survives. *)
Lemma upsert_two o a b :
  upsert_one (upsert_one o a) b = upsert_one o (if negb (pp_event b <? pp_event a) then b else a).
Proof.
  unfold upsert_one. destruct (Z.ltb_spec (pp_event b) (pp_event a)) as [Hba|Hba]; simpl;
    destruct o as [old|]; simpl; repeat match goal with
    | |- context [?x <=? ?y] => destruct (Z.leb_spec x y); simpl; try lia
    end; done.
Qed.
End per_key.

(** ** The collapsed rows *)

Section collapse.
Context {P : ProtoEvents}.

(** The rows the messages stand for, none left out. *)
Definition message_row (m : message) : option PPPoEStatusRow :=
  letopt ev := unmarshal_event (Value m) in
  match ev_payload ev with PChange change => Some (pppoeStatusRow ev change) | _ => None end.

(** [position] names, for each key met, the only row of that key. *)
Definition indexed (position : gmap ConfigKey nat) (rows : list PPPoEStatusRow) : Prop :=
  forall k, match position !! k with
            | Some i => exists r, rows !! i = Some r /\ pp_key r = k /\ for_key k rows = [r]
            | None => for_key k rows = []
            end.

Lemma for_key_app k l1 l2 : for_key k (l1 ++ l2)%list = (for_key k l1 ++ for_key k l2)%list.
Proof. unfold for_key. apply List.filter_app. Qed.
Lemma for_key_one k r : for_key k [r] = if decide (pp_key r = k) then [r] else [].
Proof. unfold for_key. simpl. by destruct (decide (pp_key r = k)); [rewrite bool_decide_eq_true_2|rewrite bool_decide_eq_false_2]. Qed.

(** Replacing a row by another of its key. *)
Lemma for_key_insert k rows i old row :
  rows !! i = Some old -> pp_key row = pp_key old ->
  (pp_key old = k -> for_key k rows = [old]) ->
  for_key k (<[i := row]> rows) = if decide (pp_key old = k) then [row] else for_key k rows.
Proof.
  intros Hi Hk Hone. pose proof (take_drop_middle rows i old Hi) as Hs.
  rewrite insert_take_drop by (by eapply lookup_lt_Some).
  revert Hs. generalize (take i rows), (drop (S i) rows). intros pre post <-.
  change (row :: post) with ([row] ++ post)%list. change (old :: post) with ([old] ++ post)%list in *.
  rewrite !for_key_app, !for_key_one in *. rewrite Hk.
  destruct (decide (pp_key old = k)) as [He|He]; [|done]. specialize (Hone He).
  destruct (for_key k pre) as [|x l]; simpl in *.
  - injection Hone as Hd. by rewrite Hd.
  - injection Hone as -> Hd. destruct l; simpl in Hd; discriminate.
Qed.

Lemma mapM_some_cons {A B} (f : A -> option B) x l y :
  f x = Some y -> mapM f (x :: l) = (fun k => y :: k) <$> mapM f l.
Proof. intros Hy. simpl. rewrite Hy. simpl. by destruct (mapM f l). Qed.

Lemma loop_spec batch : forall position rows out,
  indexed position rows -> pppoeRows_loop batch position rows = Some out ->
  exists position' news, indexed position' out /\ mapM message_row batch = Some news /\
    forall now k o, fold_left (upsert_one now) (for_key k out) o
                  = fold_left (upsert_one now) (for_key k (rows ++ news)%list) o.
Proof.
  induction batch as [|m batch IH]; intros position rows out Hi; cbn [pppoeRows_loop].
  { intros [= <-]. exists position, []. split_and!; [done|done|]. by intros; rewrite app_nil_r. }
  destruct (unmarshal_event (Value m)) as [ev|] eqn:Eu; [|done].
  destruct (ev_payload ev) as [|change| | |] eqn:Ep; try done.
  assert (Hm : message_row m = Some (pppoeStatusRow ev change)) by (unfold message_row; by rewrite Eu, Ep).
  set (row := pppoeStatusRow ev change) in *. cbv zeta.
  destruct (position !! pp_key row) as [i|] eqn:Epos; intros Hrun.
  - pose proof (Hi (pp_key row)) as Hrow. rewrite Epos in Hrow. destruct Hrow as (old & Hold & Hkey & Hone).
    assert (Hc : exists r', collapse rows i row = <[i := r']> rows /\ pp_key r' = pp_key row /\
                  r' = if negb (pp_event row <? pp_event old) then row else old).
    { unfold collapse. rewrite Hold. destruct (negb _); [exists row|exists old]; split_and!; try done.
      by rewrite list_insert_id. }
    destruct Hc as (r' & Hc & Hk' & Hr').
    assert (Hfk : forall k, for_key k (collapse rows i row) = if decide (pp_key old = k) then [r'] else for_key k rows).
    { intros k. rewrite Hc. apply for_key_insert; [done|congruence|]. intros <-. by rewrite Hkey. }
    destruct (IH position (collapse rows i row) out) as (position' & news & Hi' & Hn & Hf); [|done|].
    { intros k. specialize (Hi k). destruct (position !! k) as [j|] eqn:Ej.
      - destruct Hi as (r & Hj & Hkr & Hok). destruct (decide (pp_key old = k)) as [<-|Hne].
        + exists r'. rewrite Hfk, decide_True by done. assert (j = i) as -> by congruence.
          split_and!; [|congruence|done]. rewrite Hc. apply list_lookup_insert_eq. by eapply lookup_lt_Some.
        + exists r. rewrite Hfk, decide_False by done. split_and!; [|done|done].
          rewrite Hc, list_lookup_insert_ne; [done|]. intros ->. congruence.
      - rewrite Hfk. destruct (decide (pp_key old = k)) as [<-|Hne]; [|done]. congruence. }
    exists position', (row :: news). rewrite mapM_some_cons with (y := row) by done. rewrite Hn. split_and!; [done|done|].
    intros now k o. rewrite Hf. change (row :: news) with ([row] ++ news)%list. rewrite !for_key_app, !fold_left_app, Hfk, for_key_one.
    rewrite <-Hkey. destruct (decide (pp_key old = k)) as [<-|Hne]; [|done].
    rewrite Hkey, Hone. cbn [fold_left]. by rewrite upsert_two, Hr'.
  - pose proof (Hi (pp_key row)) as Hnone. rewrite Epos in Hnone.
    destruct (IH (<[pp_key row := length rows]> position) (rows ++ [row])%list out) as (position' & news & Hi' & Hn & Hf); [|done|].
    { intros k. specialize (Hi k). destruct (decide (pp_key row = k)) as [<-|Hne].
      - rewrite lookup_insert_eq. exists row. rewrite for_key_app, for_key_one, decide_True, Hnone by done.
        split_and!; [|done|done]. rewrite lookup_app_r by lia. by rewrite Nat.sub_diag.
      - rewrite lookup_insert_ne by done. rewrite for_key_app, for_key_one, decide_False, app_nil_r by done.
        destruct (position !! k) as [j|]; [|done]. destruct Hi as (r & Hj & Hkr & Hok). exists r.
        split_and!; [|done|done]. by apply lookup_app_l_Some. }
    exists position', (row :: news). rewrite mapM_some_cons with (y := row) by done. rewrite Hn. split_and!; [done|done|].
    intros now k o. rewrite Hf. by rewrite <-app_assoc.
Qed.

Lemma for_key_twice k rows i j a b :
  rows !! i = Some a -> rows !! j = Some b -> (i < j)%nat -> pp_key a = k -> pp_key b = k ->
  (2 <= length (for_key k rows))%nat.
Proof.
  intros Ha Hb Hij Hka Hkb. rewrite <-(take_drop (S i) rows), for_key_app, length_app.
  assert (Hin : forall x l, x ∈ l -> pp_key x = k -> (1 <= length (for_key k l))%nat).
  { intros x l Hx Hk. assert (List.In x (for_key k l)) as Hx'.
    { apply filter_In. split; [by apply list_elem_of_In|by apply bool_decide_eq_true]. }
    destruct (for_key k l); simpl; [done|lia]. }
  assert (1 <= length (for_key k (take (S i) rows)))%nat.
  { apply (Hin a); [|done]. apply (list_elem_of_lookup_2 _ i). rewrite lookup_take_lt; [done|lia]. }
  assert (1 <= length (for_key k (drop (S i) rows)))%nat; [|lia].
  apply (Hin b); [|done]. apply (list_elem_of_lookup_2 _ (j - S i)). rewrite lookup_drop.
  by replace (S i + (j - S i))%nat with j by lia.
Qed.

Lemma indexed_nodup position rows : indexed position rows -> NoDup (pp_key <$> rows).
Proof.
  intros Hi. apply NoDup_alt. intros i j k Ha Hb.
  apply list_lookup_fmap_Some in Ha as (a & -> & Ha), Hb as (b & Hk & Hb).
  assert (Hlen : (length (for_key (pp_key a) rows) < 2)%nat).
  { specialize (Hi (pp_key a)). destruct (position !! pp_key a) as [n|]; [|rewrite Hi; simpl; lia].
    destruct Hi as (r & _ & _ & ->). simpl. lia. }
  destruct (Nat.lt_total i j) as [Hij|[?|Hij]]; [|done|].
  - pose proof (for_key_twice _ _ _ _ _ _ Ha Hb Hij eq_refl (eq_sym Hk)). lia.
  - pose proof (for_key_twice _ _ _ _ _ _ Hb Ha Hij (eq_sym Hk) eq_refl). lia.
Qed.
End collapse.

(** ** Properties *)

(** C12: when a batch is collapsed, no table row appears twice, and the one
    statement leaves exactly the table that writing the messages one after
    another would leave. *)
Theorem batch_equals_sequential `{ProtoEvents} batch rows now d :
  pppoeRowsFromBatch batch = Some rows ->
  exists all, mapM message_row batch = Some all /\ NoDup (pp_key <$> rows) /\
    UpsertPPPoEStatusBatch rows now d =
      Ok (tt, set_pppoe (fold_left (upsert_status now) all (pppoe_status d)) d).
Proof.
  unfold pppoeRowsFromBatch. intros Hr.
  destruct (loop_spec batch ∅ [] rows) as (pos & all & Hi & Hall & Hf); [|done|].
  { intros k. by rewrite lookup_empty. }
  exists all. split; [done|]. pose proof (indexed_nodup _ _ Hi) as Hnd. split; [done|].
  unfold UpsertPPPoEStatusBatch. rewrite decide_True by done. do 3 f_equal.
  apply map_eq. intros k. rewrite !fold_lookup. by rewrite Hf.
Qed.

(** A decoder for the examples: the message value is one digit, the event time. *)
#[export] Instance digit_events : ProtoEvents := fun v =>
  letopt t := parse_uint 32 v in
  Some (MkNodeEvent "n" (if t <? 5 then "1" else "2") 11 t ""
          (PChange (MkChange (t mod 5) "" "" "" "" "" ""))).
Definition digit_batch : list message :=
  (fun v => Msg "t" 0 0 v) <$> ["3"; "7"; "2"; "3"; "9"; "1"].
Lemma batch_equals_sequential_witness :
  exists rows all, pppoeRowsFromBatch digit_batch = Some rows /\ length rows = 2%nat /\
    mapM message_row digit_batch = Some all /\ NoDup (pp_key <$> rows) /\
    UpsertPPPoEStatusBatch rows 0 db_empty =
      Ok (tt, set_pppoe (fold_left (upsert_status 0) all (pppoe_status db_empty)) db_empty).
Proof.
  destruct (pppoeRowsFromBatch digit_batch) as [rows|] eqn:Er; [|vm_compute in Er; discriminate].
  destruct (batch_equals_sequential digit_batch rows 0 db_empty Er) as (all & Hall).
  exists rows, all. split; [reflexivity|]. split; [|exact Hall].
  vm_compute in Er. injection Er as <-. reflexivity.
Defined.
