(* ===== verification/Converge.v ===== *)
(** * PPPoE states converge

    The table of PPPoE states is written by whichever replica owns a partition,
    with redeliveries after every restart and rebalance.  Only the newest event of
    a subscriber counts, so neither the order of the statements nor their
    repetition changes what is read back, but for the time of the write. *)

From S2P Require Import Prelude GoStrings Json GoTime Etcd Db Events Effects Cas OfflineEdit Consumer PPPoEBatch.
Local Open Scope string_scope.
Local Open Scope Z_scope.
Local Open Scope go_scope.

(** ** One subscriber *)

(** The row as the table keeps it: [UpdatedAt] is the time of the statement, so
    it tells apart what is otherwise the same answer. *)
Definition stamped (now : Z) (r : PPPoEStatusRow) : PPPoEStatusRow :=
  MkPPPoE (pp_node r) (pp_user r) (pp_phase r) (pp_ipv4 r) (pp_ipv4gw r) (pp_ipv6 r) (pp_ipv6pd r) (pp_ipv6dns r)
          (pp_error r) (pp_event r) now.
(** Everything but the time of the write. *)
Definition content (r : PPPoEStatusRow) : PPPoEStatusRow := stamped 0 r.
(** The answers read back. *)
Definition view (k : ConfigKey) (o : option StatusRec) : option PPPoEStatusRow := status_row k <$> o.
(** One write seen from the answers for its key. *)
Definition newer (o : option PPPoEStatusRow) (row : PPPoEStatusRow) : option PPPoEStatusRow :=
  match o with Some old => if pp_event old <=? pp_event row then Some row else o | None => Some row end.

Lemma status_row_of row now : status_row (pp_key row) (status_of row now) = stamped now row.
Proof.
  destruct row. unfold status_row, status_of, pp_key, nullStr. cbn.
  repeat match goal with |- context [String.eqb ?s ""] => destruct (String.eqb_spec s ""); subst end; done.
Qed.
Lemma view_upsert now k o row : pp_key row = k -> view k (upsert_one now o row) = newer (view k o) (stamped now row).
Proof.
  intros <-. unfold view, upsert_one. destruct o as [old|]; cbn; [|by rewrite status_row_of].
  destruct (st_event old <=? pp_event row) eqn:E0; cbn; [by rewrite status_row_of|done].
Qed.

(** Statements in the order the database runs them, each at its time, and the
    rows they may leave. *)
Definition upsert_all (l : list (Z * PPPoEStatusRow)) (d : db) : db :=
  fold_left (fun d x => match UpsertPPPoEStatus x.2 x.1 d with Ok (_, d) => d | Err _ => d end) l d.
Definition rows_of (l : list (Z * PPPoEStatusRow)) : list PPPoEStatusRow := (fun x => stamped x.1 x.2) <$> l.
Lemma view_all l d k :
  view k (pppoe_status (upsert_all l d) !! k) = fold_left newer (for_key k (rows_of l)) (view k (pppoe_status d !! k)).
Proof.
  revert d. induction l as [|[now row] l IH]; intros d; [done|]. cbn [upsert_all fold_left fst snd UpsertPPPoEStatus].
  change (fold_left _ l ?d) with (upsert_all l d). rewrite IH. cbn [pppoe_status set_pppoe]. rewrite upsert_lookup.
  change (rows_of ((now, row) :: l)) with ([stamped now row] ++ rows_of l)%list. rewrite for_key_app, for_key_one, fold_left_app.
  change (pp_key (stamped now row)) with (pp_key row).
  destruct (decide (pp_key row = k)) as [Hk|Hk]; [|done]. cbn [fold_left]. by rewrite view_upsert.
Qed.

(** The survivor is a newest write, or the old row when that is newer still. *)
Lemma newer_survivor rows o v : fold_left newer rows o = Some v ->
  Forall (fun r => pp_event r <= pp_event v) rows /\ (forall s, o = Some s -> pp_event s <= pp_event v) /\
  (v ∈ rows \/ o = Some v /\ Forall (fun r => pp_event r < pp_event v) rows).
Proof.
  revert o. induction rows as [|r rows IH]; intros o; cbn [fold_left].
  { intros ->. split_and!; [constructor| |right; split; [done|constructor]]. intros s [= ->]. lia. }
  intros Hf. destruct (IH _ Hf) as (H1 & H2 & H3).
  assert (Ho : (exists s, o = Some s /\ newer o r = Some s /\ pp_event r < pp_event s) \/
               (newer o r = Some r /\ forall s, o = Some s -> pp_event s <= pp_event r)).
  { unfold newer. destruct o as [s|]; [|by right]. destruct (Z.leb_spec (pp_event s) (pp_event r)); [right|left; eauto].
    split; [done|]. by intros s' [= <-]. }
  destruct Ho as [(s & -> & Hn & Hlt)|[Hn Hle]]; rewrite Hn in H2, H3; specialize (H2 _ eq_refl).
  - split_and!; [constructor; [lia|done]|by intros s' [= <-]|]. destruct H3 as [H3|[[= ->] H3]]; [by left; right|right].
    split; [done|]. by constructor.
  - split_and!; [by constructor| |].
    + intros s Hs. specialize (Hle _ Hs). lia.
    + left. destruct H3 as [H3|[[= ->] _]]; [by right|by left].
Qed.
Lemma newer_some rows o : rows <> [] -> exists v, fold_left newer rows o = Some v.
Proof.
  revert o. induction rows as [|r [|r' rows] IH]; intros o Hne; [done| |apply IH; done].
  cbn. unfold newer. destruct o as [s|]; [destruct (_ <=? _)|]; eauto.
Qed.

(** Two events of one subscriber never carry the same second with different
    contents. *)
Definition no_ties (rows : list PPPoEStatusRow) : Prop :=
  forall r r', r ∈ rows -> r' ∈ rows -> pp_key r = pp_key r' -> pp_event r = pp_event r' -> r = r'.

(** What one set of rows says the other says too, whenever it was written. *)
Definition says (rows rows' : list PPPoEStatusRow) : Prop := forall r, r ∈ rows -> exists r', r' ∈ rows' /\ content r' = content r.
Lemma says_event rows rows' v : says rows rows' -> Forall (fun r => pp_event r <= pp_event v) rows' ->
  forall r, r ∈ rows -> pp_event r <= pp_event v.
Proof. rewrite Forall_forall. intros Hs Hf r (r' & Hr' & He)%Hs. apply (f_equal pp_event) in He. cbn in He. rewrite <-He. by apply Hf. Qed.
Lemma newer_agree rows rows' o : says rows rows' -> says rows' rows ->
  (forall r r', r ∈ rows -> r' ∈ rows -> pp_event r = pp_event r' -> content r = content r') ->
  content <$> fold_left newer rows o = content <$> fold_left newer rows' o.
Proof.
  intros Hs Hs' Ht. destruct rows as [|r0 rows0] eqn:Er.
  { destruct rows' as [|r' rows']; [done|]. destruct (Hs' r') as (r & Hr & _); [by left|]. by apply not_elem_of_nil in Hr. }
  destruct (newer_some (r0 :: rows0) o) as [v Hv]; [done|].
  destruct (newer_some rows' o) as [v' Hv']. { intros ->. destruct (Hs r0) as (r & Hr & _); [by left|]. by apply not_elem_of_nil in Hr. }
  rewrite Hv, Hv'. cbn. f_equal. rewrite <-Er in *. clear Er. apply newer_survivor in Hv as (A1 & A2 & A3), Hv' as (B1 & B2 & B3).
  pose proof (says_event _ _ _ Hs B1) as L. pose proof (says_event _ _ _ Hs' A1) as L'.
  destruct A3 as [A3|[-> A3]], B3 as [B3|[HB B3]].
  - destruct (Hs' _ B3) as (r & Hr & He). rewrite <-He. apply Ht; [done..|]. apply (f_equal pp_event) in He. cbn in He.
    specialize (L _ A3). specialize (L' _ B3). lia.
  - subst o. destruct (Hs _ A3) as (r & Hr & He). apply (f_equal pp_event) in He. cbn in He. rewrite Forall_forall in B3.
    specialize (B3 _ Hr). specialize (A2 _ eq_refl). cbn in B3. lia.
  - destruct (Hs' _ B3) as (r & Hr & He). apply (f_equal pp_event) in He. cbn in He. rewrite Forall_forall in A3.
    specialize (A3 _ Hr). specialize (B2 _ eq_refl). cbn in A3. lia.
  - by injection HB as ->.
Qed.
Lemma for_key_elem k rows r : r ∈ for_key k rows <-> r ∈ rows /\ pp_key r = k.
Proof. unfold for_key. rewrite !list_elem_of_In, List.filter_In. by rewrite bool_decide_eq_true. Qed.

Lemma rows_of_elem l r : r ∈ rows_of l <-> exists now r0, (now, r0) ∈ l /\ r = stamped now r0.
Proof.
  unfold rows_of. rewrite list_elem_of_fmap. split.
  - intros ([now r0] & -> & Hin). by exists now, r0.
  - intros (now & r0 & Hin & ->). by exists (now, r0).
Qed.
Lemma same_events_say l l' k : (forall r, r ∈ l.*2 <-> r ∈ l'.*2) -> says (for_key k (rows_of l)) (for_key k (rows_of l')).
Proof.
  intros Hs r [(now & r0 & Hin & ->)%rows_of_elem Hk]%for_key_elem.
  assert (Hr : r0 ∈ l'.*2) by (apply Hs, list_elem_of_fmap; by exists (now, r0)).
  apply list_elem_of_fmap in Hr as ([now' r0'] & [= ->] & Hin'). exists (stamped now' r0'). split; [|done].
  apply for_key_elem. split; [|done]. apply rows_of_elem. by exists now', r0'.
Qed.

(** ** Properties *)

(** C13: two replicas, redeliveries, any interleaving: when two sequences of
    PPPoE statements carry the same events, however ordered and however often
    repeated, and no subscriber has two different events of one second, the
    answers read for every subscriber afterwards agree in everything but
    [updated_at]; and the answer is the newest event, stamped with the time of a
    statement that wrote it, or the older row, untouched, that was newer still.
    [updated_at] does depend on the order and the repetitions
    ([redelivery_restamps]), and without the condition on events of one second
    the rest does too ([ties_diverge]). *)
Theorem pppoe_converges l l' d :
  (forall r, r ∈ l.*2 <-> r ∈ l'.*2) -> no_ties l.*2 ->
  forall node user now,
    let read d := match GetPPPoEStatus node user now d with Ok (row, _) => row | Err _ => None end in
    content <$> read (upsert_all l d) = content <$> read (upsert_all l' d) /\
    forall v, read (upsert_all l d) = Some v ->
      (forall r, r ∈ l.*2 -> pp_key r = (node, user) -> pp_event r <= pp_event v) /\
      ((exists at_ r, (at_, r) ∈ l /\ v = stamped at_ r) \/ read d = Some v).
Proof.
  intros Hs Ht node user now read.
  assert (Hr : forall d, read d = view (node, user) (pppoe_status d !! (node, user))) by done.
  rewrite !Hr, !view_all. split.
  - apply newer_agree; [by apply same_events_say|apply same_events_say; intros r; by rewrite Hs|].
    intros r r' [(n1 & r1 & H1 & ->)%rows_of_elem K1]%for_key_elem [(n2 & r2 & H2 & ->)%rows_of_elem K2]%for_key_elem He.
    rewrite (Ht r1 r2); [done|apply list_elem_of_fmap; by exists (n1, r1)|apply list_elem_of_fmap; by exists (n2, r2)|exact (eq_trans K1 (eq_sym K2))|done].
  - intros v Hv. apply newer_survivor in Hv as (H1 & _ & H3). rewrite Forall_forall in H1. split.
    + intros r ([n r0] & -> & Hin)%list_elem_of_fmap Hk. apply (H1 (stamped n r0)). apply for_key_elem. split; [|done].
      apply rows_of_elem. by exists n, r0.
    + destruct H3 as [H3|[H3 _]]; [left; by apply for_key_elem in H3 as [?%rows_of_elem _]|by right].
Qed.

(** Connected at 7, after a disconnect at 5 that is delivered late and twice. *)
Definition up7 : PPPoEStatusRow := MkPPPoE "n" "2" "connected" "10.0.0.2" "10.0.0.1" "" "" "" "" 7 0.
Definition down5 : PPPoEStatusRow := MkPPPoE "n" "2" "disconnected" "" "" "" "" "" "timeout" 5 0.
Definition read_status (d : db) : option PPPoEStatusRow := match GetPPPoEStatus "n" "2" 0 d with Ok (row, _) => row | Err _ => None end.
Lemma pppoe_converges_witness :
  read_status (upsert_all [(1, down5); (2, up7)] db_empty) = Some (stamped 2 up7) /\
  content <$> read_status (upsert_all [(1, down5); (2, up7)] db_empty) =
  content <$> read_status (upsert_all [(3, up7); (4, down5); (5, down5)] db_empty).
Proof.
  split; [vm_compute; reflexivity|].
  refine (proj1 (pppoe_converges [(1, down5); (2, up7)] [(3, up7); (4, down5); (5, down5)] db_empty _ _ "n" "2" 0)).
  - intros r. cbn. rewrite !elem_of_cons. tauto.
  - intros r r' Hr Hr' _. cbn in Hr, Hr'. rewrite !elem_of_cons, elem_of_nil in Hr, Hr'.
    destruct Hr as [->|[->|[]]], Hr' as [->|[->|[]]]; cbn; (done || discriminate).
Defined.
(** A redelivery is the same event once more and moves [updated_at]. *)
Example redelivery_restamps :
  read_status (upsert_all [(2, up7)] db_empty) <> read_status (upsert_all [(2, up7); (6, up7)] db_empty).
Proof. vm_compute. discriminate. Qed.
(** Within one second the last statement wins, so there the order does matter. *)
Definition down7 : PPPoEStatusRow := MkPPPoE "n" "2" "disconnected" "" "" "" "" "" "timeout" 7 0.
Example ties_diverge :
  read_status (upsert_all [(1, up7); (1, down7)] db_empty) <> read_status (upsert_all [(1, down7); (1, up7)] db_empty) /\
  content <$> read_status (upsert_all [(1, up7); (1, down7)] db_empty) <>
  content <$> read_status (upsert_all [(1, down7); (1, up7)] db_empty).
Proof. split; vm_compute; discriminate. Qed.
