(* ===== verification/AtLeastOnce.v ===== *)
(** * At-least-once delivery

    An offset is committed only when its message is settled or in the dead-letter
    queue, whatever fails in between.  What settles a message is said here: what
    it must have left in the tables and, for the report of a node, what the
    session found in etcd and wrote there. *)

From S2P Require Import Prelude GoStrings Json Decode GoTime ConfigDoc Etcd Db DbProps Events Effects Grows Cas Storage Rollback OfflineEdit Consumer PPPoEBatch.
Local Open Scope string_scope.
Local Open Scope Z_scope.
Local Open Scope go_scope.

(** ** Which requests the handlers make *)

Section requests.
Context {J : Jsonb} {P : ProtoEvents} {T : ErrorTexts}.

Lemma cas_uses (ok : allowed) {X Y} key (mutate : mutator X Y) :
  (forall k, ok _ (EGet k) = true) -> ok _ ENow = true -> (forall g o, ok _ (ETxn g o) = true) ->
  (forall d, ok _ (ESleep d true) = true) -> uses ok (CASWithRevision key mutate).
Proof. intros. by apply cas_loop_uses. Qed.

Ltac handler_uses := repeat first [apply cas_uses; done | solve_uses].

Lemma readConfirmedConfig_uses key attested : uses no_sql (readConfirmedConfig key attested).
Proof. unfold readConfirmedConfig. handler_uses. Qed.
Lemma rollback_etcd_uses ev res prev : uses no_sql (rollback_etcd ev res prev).
Proof. unfold rollback_etcd. handler_uses. Qed.

Lemma handle_uses c v : uses no_broker (handle c v).
Proof.
  unfold handle, handleConfigOfflineEdit, handleConfigApplyResult, record_success, record_failure, cascadeDNS,
    recordOfflineEditDiscard, DeleteSubscriberDNS, readConfirmedConfig, rollback_etcd, CAS.
  handler_uses.
Qed.
Lemma sendToDLQ_uses c m : uses no_broker (sendToDLQ c m).
Proof. unfold sendToDLQ. handler_uses. Qed.
Lemma waitAndSendToDLQ_uses fuel c m : uses no_broker (waitAndSendToDLQ fuel c m).
Proof. induction fuel as [|f IH]; cbn [waitAndSendToDLQ]; [done|]. handler_uses; auto using sendToDLQ_uses. Qed.
Lemma attempts_uses fuel c m a b i s f : uses no_broker (attempts fuel c m a b i s f).
Proof.
  revert a b i s f. induction fuel as [|fuel IH]; intros a b i s f; cbn [attempts]; [done|].
  apply uses_bind; [done|]. intros [|]; [done|]. apply uses_bind; [apply handle_uses|]. intros [|e]; [done|].
  destruct (unavailable e); [|destruct (_ <=? _); [done|]].
  - apply uses_bind; [done|]. intros now. destruct (stall_retry s now), (infraNext i).
    apply uses_bind; [done|]. auto.
  - apply uses_bind; [done|]. intros [|]; [done|]. auto.
Qed.
End requests.

(** ** Their statements only add *)

(** Walk through a program; the statements are closed by the hints. *)
Ltac solve_sql :=
  repeat first
    [ done
    | apply sql_none; solve [repeat first [apply cas_uses; done | solve_uses]]
    | apply sql_call; solve [done | auto with grows nocore]
    | apply sql_bind; [|intros ?]
    | progress (cbn [sql_grows])
    | match goal with |- sql_grows (match ?x with _ => _ end) => destruct x end
    | match goal with |- sql_grows (if ?x then _ else _) => destruct x end ].

Section adding.
Context {J : Jsonb} {P : ProtoEvents} {T : ErrorTexts}.

Lemma record_success_grows c ev res t : sql_grows (record_success c ev res t).
Proof. unfold record_success, readConfirmedConfig. solve_sql. Qed.
Lemma record_failure_grows c ev res : sql_grows (record_failure c ev res).
Proof. unfold record_failure, rollback_etcd, CAS. solve_sql. Qed.
Lemma handle_grows c v : sql_grows (handle c v).
Proof.
  unfold handle, handleConfigOfflineEdit, handleConfigApplyResult, record_success, record_failure, cascadeDNS,
    recordOfflineEditDiscard, DeleteSubscriberDNS, readConfirmedConfig, rollback_etcd, CAS.
  solve_sql.
Qed.
Lemma waitAndSendToDLQ_grows fuel c m : sql_grows (waitAndSendToDLQ fuel c m).
Proof. induction fuel as [|f IH]; cbn [waitAndSendToDLQ]; [done|]. unfold sendToDLQ. solve_sql. Qed.
Lemma attempts_grows fuel c m a b i s f : sql_grows (attempts fuel c m a b i s f).
Proof.
  revert a b i s f. induction fuel as [|fuel IH]; intros a b i s f; cbn [attempts]; [done|].
  apply sql_bind; [done|]. intros [|]; [done|]. apply sql_bind; [apply handle_grows|]. intros [|e]; [done|].
  destruct (unavailable e); [|destruct (_ <=? _); [done|]]; (apply sql_bind; [done|]); [|intros [|]; [done|]; apply IH].
  intros now. destruct (stall_retry s now), (infraNext i). apply sql_bind; [done|]. auto.
Qed.
Lemma handleOne_grows fuel c m : sql_grows (handleOne fuel c m).
Proof.
  unfold handleOne. apply sql_bind; [apply attempts_grows|]. intros [[[]|]|]; solve_sql; apply waitAndSendToDLQ_grows.
Qed.
Lemma writePPPoEBatch_grows c batch : sql_grows (writePPPoEBatch c batch).
Proof. unfold writePPPoEBatch. destruct (_ || _); [done|]. destruct (pppoeRowsFromBatch batch); solve_sql. Qed.

End adding.

(** ** When a message needs no further processing *)

(** The session found the etcd states [found] and wrote [wrote], each with the
    state it was written on. *)
Section settled.
Context {J : Jsonb} {P : ProtoEvents} {T : ErrorTexts} `{EtcdLaws E} (found : list E) (wrote : list (E * etcdop)) (c : Consumer).
Implicit Types (w : world E).

(** The run met only states in [found] and wrote only what is in [wrote]. *)
Definition served {A} (p : prog A) w ts (a : A) w' ts' : Prop :=
  run p w ts = (a, w', ts') /\ (forall s, s ∈ met p w ts -> s ∈ found) /\
  exists l, own_writes w' = (l ++ own_writes w)%list /\ forall so, so ∈ l -> so ∈ wrote.

Lemma run_wrote {A} (p : prog A) w ts a w' ts' :
  run p w ts = (a, w', ts') -> exists l, own_writes w' = (l ++ own_writes w)%list.
Proof using Type.
  intros Hrun. assert (Hl : exists l, w_log (final p w ts) = (l ++ w_log w)%list).
  { eapply (run_stable (fun w' => exists l, w_log w' = (l ++ w_log w)%list)); [apply log_stable|by exists []]. }
  destruct Hl as [l Hl]. unfold final in Hl. rewrite Hrun in Hl. cbn in Hl.
  exists (omap own_write l). unfold own_writes. by rewrite Hl, omap_app.
Qed.
Lemma served_bind_inv {A B} (p : prog A) (f : A -> prog B) w ts b w' ts' :
  served (bind p f) w ts b w' ts' -> exists a w1 ts1, served p w ts a w1 ts1 /\ served (f a) w1 ts1 b w' ts'.
Proof using Type.
  intros (Hrun & Hm & l & Hl & Hw). apply run_bind_inv in Hrun as (a & w1 & ts1 & H1 & H2). exists a, w1, ts1.
  rewrite (met_bind _ _ _ _ _ _ _ H1) in Hm. destruct (run_wrote _ _ _ _ _ _ H1) as [l1 L1], (run_wrote _ _ _ _ _ _ H2) as [l2 L2].
  assert (l = l2 ++ l1)%list as -> by (apply (app_inv_tail (own_writes w)); rewrite <-app_assoc; congruence).
  split; (split; [done|split; [intros s Hs; apply Hm, elem_of_app; auto|]]); [exists l1|exists l2];
    (split; [done|]); intros so Hso; apply Hw, elem_of_app; auto.
Qed.
Lemma served_run {A} (p : prog A) w ts a w' ts' : served p w ts a w' ts' -> run p w ts = (a, w', ts').
Proof using Type. by intros []. Qed.

(** A success confirms revision [rev]: the attested one, or that of the config
    etcd held. *)
Definition confirms_revision (key : string) (attested rev : Z) : Prop :=
  if 0 <? attested then rev = attested else exists s e, s ∈ found /\ et_get s key = Some e /\ rev = kv_mod e.
(** The current view holds it or a newer one, and the history holds it as a success. *)
Definition on_record (ev : NodeEvent) (rev : Z) (d : db) : Prop :=
  (exists row, hsi_config_current d !! (ev_node ev, ev_user ev) = Some row /\ rev <= ModRevision row) /\
  existsb (same_history (confirmed_row ev None rev 0) "success") (hsi_config_history d) = true.
(** There was nothing to confirm: etcd held no config for the key, at the attested
    revision or at all; the code asks the latter when no revision is attested or
    the attested one is answered to be compacted. *)
Definition no_config (key : string) (attested : Z) : Prop :=
  exists s, s ∈ found /\ (et_get s key = None \/ 0 < attested /\ et_at s key attested = Ok None).
(** The rollback to a config on record as applied, or a deletion for want of one,
    was written, or it was refused on the entry etcd held. *)
Definition rolled_back (ev : NodeEvent) (res : ConfigApplyResult) (d : db) : Prop :=
  exists prev s now,
    (forall p, prev = Some p -> existsb (same_history p "success") (hsi_config_history d) = true) /\ s ∈ found /\
    match sees (hsiKey (ev_node ev) (ev_user ev)) (rollback_mutate prev (ar_applied_rv res) (ev_correlation ev)) s now with
    | Ok (r, _) => exists s', (s', cas_op (hsiKey (ev_node ev) (ev_user ev)) r) ∈ wrote
    | Err _ => True
    end.

(** What a report of a node asks for. *)
Definition report_settled (ev : NodeEvent) (res : ConfigApplyResult) (d : db) : Prop :=
  let key := hsiKey (ev_node ev) (ev_user ev) in
  (ar_republished res && ar_success res = true \/ event_recorded (apply_event_row ev res (time_Unix (ev_timestamp ev))) d) /\
  if ar_success res then
    c_etcd c = true ->
      (exists rev, confirms_revision key (ar_applied_mod res) rev /\ on_record ev rev d) \/ no_config key (ar_applied_mod res)
  else
    (c_etcd c = true -> rolled_back ev res d) /\
    exists now, existsb (same_history (failed_row (ev_node ev) (ev_user ev) now) "failed") (hsi_config_history d) = true.

(** The message needs no further processing, judged from the tables and, for the
    reports of nodes, from what the session found in etcd and wrote there.  An
    offline edit may have been answered in etcd; [OfflineFlow] says how it was. *)
Definition settled (value : string) (d : db) : Prop :=
  match unmarshal_event value with
  | None => True
  | Some ev =>
      let eventTime := time_Unix (ev_timestamp ev) in
      match ev_payload ev with
      | PChange change => exists st, pppoe_status d !! (ev_node ev, ev_user ev) = Some st /\ eventTime <= st_event st
      | PApply res => report_settled ev res d
      | PRuntime re => event_recorded (runtime_row ev re eventTime) d
      | POffline edit => exists p, prepareOfflineEdit ev edit = Ok p
      | PNone => True
      end
  end.
Definition taken_care_of (d : db) (m : message) : Prop :=
  settled (Value m) d \/ in_dlq (Topic m) (Partition m) (Offset m) d.

Lemma on_record_grows ev rev d d' : db_grows d d' -> on_record ev rev d -> on_record ev rev d'.
Proof using Type.
  intros [_ _ G3 _ G5] [(row & Hr & Hle) Hh]. split; [|by apply G3].
  destruct (G5 _ _ Hr) as (row' & Hr' & Hle'). exists row'. split; [done|lia].
Qed.
Lemma rolled_back_grows ev res d d' : db_grows d d' -> rolled_back ev res d -> rolled_back ev res d'.
Proof using Type. intros [_ _ G3 _ _] (prev & s & now & Hp & Hs). exists prev, s, now. split; [|done]. intros p Ep. by apply G3, Hp. Qed.
Lemma report_settled_grows ev res d d' : db_grows d d' -> report_settled ev res d -> report_settled ev res d'.
Proof using Type.
  intros Hg [He Hr]. split; [destruct He as [?|He]; [by left|right; by apply (grows_events _ _ Hg)]|]. destruct (ar_success res).
  - intros Hc. destruct (Hr Hc) as [(rev & Hv & Ho)|Hn]; [left|by right]. exists rev. split; [done|by eapply on_record_grows].
  - destruct Hr as [Hr [now Hn]]. split; [intros Hc; eapply rolled_back_grows; [exact Hg|by apply Hr]|]. exists now. by apply (grows_history _ _ Hg).
Qed.
Lemma settled_grows v d d' : db_grows d d' -> settled v d -> settled v d'.
Proof using Type.
  intros Hg. unfold settled. destruct (unmarshal_event v) as [ev|]; [|done].
  destruct (ev_payload ev) as [res|change|re|edit|]; [| | | |done]; try done.
  - by apply report_settled_grows.
  - intros (st & Hst & Hle). destruct (grows_status _ _ Hg _ _ Hst) as (st' & Hst' & Hle'). exists st'. split; [done|lia].
  - apply (grows_events _ _ Hg).
Qed.
Lemma care_grows d d' m : db_grows d d' -> taken_care_of d m -> taken_care_of d' m.
Proof using Type. intros Hg [Hs|Hd]; [left; by eapply settled_grows|right; by apply (grows_dlq _ _ Hg)]. Qed.

(** ** What a handled message leaves behind *)

Lemma found_get k w ts o w' ts' : served (call (EGet k)) w ts (Ok o) w' ts' -> exists s, s ∈ found /\ o = et_get s k.
Proof using Type. intros (Hrun & Hm & _). destruct (get_met _ _ _ _ _ _ Hrun) as (s & Hs & Ho). exists s. auto. Qed.
Lemma found_getrev k r w ts o w' ts' : served (call (EGetRev k r)) w ts (Ok o) w' ts' -> exists s, s ∈ found /\ et_at s k r = Ok o.
Proof using Type. intros (Hrun & Hm & _). destruct (getrev_met _ _ _ _ _ _ _ Hrun) as (s & Hs & Ho). exists s. auto. Qed.

(** What the reading of the confirmed config found. *)
Lemma readConfirmedConfig_found key attested w ts o w' ts' :
  served (readConfirmedConfig key attested) w ts (Ok o) w' ts' ->
  match o with Some (_, rev) => confirms_revision key attested rev | None => no_config key attested end.
Proof using Type.
  unfold readConfirmedConfig, confirms_revision, no_config. destruct (Z.ltb_spec 0 attested) as [Hpos|Hneg]; intros Hrun.
  - apply served_bind_inv in Hrun as (r & w1 & ts1 & H1 & H2). destruct r as [[e|]|e].
    + destruct H2 as [[= <- _ _] _]. done.
    + destruct (found_getrev _ _ _ _ _ _ _ H1) as (s & Hs & He). destruct H2 as [[= <- _ _] _]. eauto.
    + destruct e; try (destruct H2 as [[=] _]; done).
      apply served_bind_inv in H2 as (r & w2 & ts2 & H2 & H3). destruct r as [o'|]; [|by destruct H3 as [[=] _]].
      destruct (found_get _ _ _ _ _ _ H2) as (s & Hs & He). destruct H3 as [[= Ho _ _] _]. subst o'.
      destruct (et_get s key) eqn:E0; injection Ho as <-; [done|]. eauto.
  - apply served_bind_inv in Hrun as (r & w2 & ts2 & H2 & H3). destruct r as [o'|]; [|by destruct H3 as [[=] _]].
    destruct (found_get _ _ _ _ _ _ H2) as (s & Hs & He). destruct H3 as [[= Ho _ _] _]. subst o'.
    destruct (et_get s key) eqn:E0; injection Ho as <-; eauto.
Qed.
Lemma confirm_on_record ev value rev t now d d' :
  UpsertCurrentWithHistory (confirmed_row ev value rev t) "success" now d = Ok (tt, d') -> on_record ev rev d'.
Proof using Type.
  unfold UpsertCurrentWithHistory. destruct (upsertCurrent _ now d) as [[[] d1]|] eqn:Eu; [|done]. intros Ha.
  split; [|by eapply append_recorded in Ha]. rewrite (append_current _ _ _ _ _ Ha). by eapply (upsertCurrent_holds _ _ _ _ Eu).
Qed.
Lemma record_success_settles ev res t w ts w' ts' :
  c_etcd c = true -> served (record_success c ev res t) w ts (Ok tt) w' ts' ->
  (exists rev, confirms_revision (hsiKey (ev_node ev) (ev_user ev)) (ar_applied_mod res) rev /\ on_record ev rev (w_db w')) \/
  no_config (hsiKey (ev_node ev) (ev_user ev)) (ar_applied_mod res).
Proof using Type.
  intros Hc. unfold record_success. rewrite Hc. cbn [negb]. intros Hrun.
  apply served_bind_inv in Hrun as (o & w1 & ts1 & H1 & H2). destruct o as [o|]; [|by destruct H2 as [[=] _]].
  apply readConfirmedConfig_found in H1. destruct o as [[value rev]|]; [left|by right]. exists rev. split; [done|].
  apply served_run, run_bind_inv in H2 as (r & w2 & ts2 & H2 & H3). cbn [run] in H3.
  apply run_db_inv in H2 as [([] & now & d & _ & -> & Hq)|[e ->]]; [|done]. simplify_eq. by eapply confirm_on_record.
Qed.

Lemma last_success_recorded node user now d p d' :
  GetLastSuccessfulConfig node user now d = Ok (Some p, d') -> existsb (same_history p "success") (hsi_config_history d) = true.
Proof using Type.
  unfold GetLastSuccessfulConfig. destruct (List.find _ _) as [h|] eqn:Ef; [|done]. intros [= <- _].
  apply List.find_some in Ef as [Hin Hs]. apply existsb_exists. exists h. split.
  - rewrite <-list_elem_of_In in Hin |- *. by rewrite elem_of_reverse in Hin.
  - unfold is_success in Hs. unfold same_history. rewrite !String.eqb_refl, Z.eqb_refl.
    apply andb_true_iff in Hs as [Hs _]. apply andb_true_iff in Hs as [Hs _]. by apply andb_true_iff in Hs as [_ ->].
Qed.
Lemma rollback_decided ev res prev w ts w' ts' :
  served (rollback_etcd ev res prev) w ts (Ok tt) w' ts' ->
  exists s now, s ∈ found /\
    match sees (hsiKey (ev_node ev) (ev_user ev)) (rollback_mutate prev (ar_applied_rv res) (ev_correlation ev)) s now with
    | Ok (r, _) => exists s', (s', cas_op (hsiKey (ev_node ev) (ev_user ev)) r) ∈ wrote
    | Err _ => True
    end.
Proof using Type.
  unfold rollback_etcd. intros Hrun. apply served_bind_inv in Hrun as (r & w1 & ts1 & (H1 & Hm & l & Hl & Hw) & [H2 _]).
  destruct r as [[]|[x|key|e|]]; try discriminate H2.
  - destruct (cas_loop_made _ _ _ _ _ _ _ _ _ H1) as (s & now & r & s' & Hs & He & Ho). exists s, now. split; [by apply Hm|].
    rewrite He. exists s'. apply Hw. rewrite Hl in Ho. apply (app_inv_tail (own_writes w) l [_]) in Ho as ->. by left.
  - destruct (cas_loop_refused _ _ _ _ _ _ _ _ _ H1) as (s & now & Hs & He). exists s, now. split; [by apply Hm|]. by rewrite He.
Qed.
Lemma record_failure_settles ev res w ts w' ts' :
  served (record_failure c ev res) w ts (Ok tt) w' ts' ->
  (c_etcd c = true -> rolled_back ev res (w_db w')) /\
  exists now, existsb (same_history (failed_row (ev_node ev) (ev_user ev) now) "failed") (hsi_config_history (w_db w')) = true.
Proof using Type.
  unfold record_failure. intros Hrun. apply served_bind_inv in Hrun as (r & w1 & ts1 & H1 & H2).
  apply served_run, run_db_inv in H1 as [(prev & now1 & d1 & _ & -> & H1)|[e ->]]; [|by destruct H2 as [[=] _]].
  assert (Hp : forall p, prev = Some p -> existsb (same_history p "success") (hsi_config_history (w_db w1)) = true).
  { intros p ->. assert (d1 = w_db w1) as <- by (by injection H1). by eapply last_success_recorded. }
  assert (Hg : db_grows (w_db w1) (w_db w')).
  { eapply run_grows, (served_run _ _ _ _ _ _ H2). unfold rollback_etcd. destruct (c_etcd c); solve_sql. }
  apply served_bind_inv in H2 as (u & w2 & ts2 & H2 & H3). destruct u as [[]|e]; [|by destruct H3 as [[=] _]]. split.
  - intros Hc. rewrite Hc in H2. apply rollback_decided in H2 as (s & now & Hs & Hd). exists prev, s, now.
    split; [|done]. intros p Ep. by apply (grows_history _ _ Hg), Hp.
  - apply served_run, run_bind_inv in H3 as (r & w3 & ts3 & H3 & H4). cbn [run] in H4.
    apply run_db_inv in H3 as [([] & now & d3 & _ & -> & Hf)|[e ->]]; [|done]. simplify_eq.
    unfold RollbackToLastSuccessful in Hf. exists now. by eapply append_recorded.
Qed.

Lemma insert_recorded row w ts b w' ts' :
  run (call (EDb (InsertNodeEvent row))) w ts = (Ok b, w', ts') -> event_recorded row (w_db w').
Proof using Type.
  intros Hrun. apply run_db_inv in Hrun as [(b' & now & d & _ & [= <-] & Hq)|[e [=]]].
  destruct (InsertNodeEvent_records row now d) as (b'' & d' & Hq' & Hr). rewrite Hq in Hq'. by simplify_eq.
Qed.
Lemma handleConfigApplyResult_settles ev res w ts w' ts' :
  served (handleConfigApplyResult c ev res (time_Unix (ev_timestamp ev))) w ts (Ok tt) w' ts' -> report_settled ev res (w_db w').
Proof using Type.
  unfold handleConfigApplyResult. intros Hrun. apply served_bind_inv in Hrun as (u & w1 & ts1 & H1 & H2).
  destruct u as [[]|e]; [|by destruct H2 as [[=] _]]. apply served_run in H1.
  assert (Hrec : ar_republished res && ar_success res = true \/
                 event_recorded (apply_event_row ev res (time_Unix (ev_timestamp ev))) (w_db w1)).
  { destruct (ar_republished res && ar_success res); [by left|right]. cbn [negb] in H1.
    apply run_bind_inv in H1 as (r & w2 & ts2 & H1 & H3). cbn [run] in H3.
    destruct r as [b|]; [|done]. simplify_eq. by eapply insert_recorded. }
  assert (Hg : db_grows (w_db w1) (w_db w')).
  { eapply run_grows, (served_run _ _ _ _ _ _ H2). destruct (ar_success res); [apply record_success_grows|apply record_failure_grows]. }
  split; [destruct Hrec as [?|Hrec]; [by left|right; by apply (grows_events _ _ Hg)]|].
  destruct (ar_success res); [|by eapply record_failure_settles]. intros Hc. by eapply record_success_settles.
Qed.
Lemma handle_settles v w ts w' ts' : served (handle c v) w ts (Ok tt) w' ts' -> settled v (w_db w').
Proof using Type.
  unfold handle, settled. destruct (unmarshal_event v) as [ev|]; [|done].
  destruct (ev_payload ev) as [res|change|re|edit|]; [| | | |done]; intros Hrun.
  - by eapply handleConfigApplyResult_settles.
  - apply served_run, run_bind_inv in Hrun as (r & w1 & ts1 & H1 & H2). cbn [run] in H2.
    apply run_db_inv in H1 as [(a & now & d & _ & -> & Hq)|[e ->]]; [|done]. simplify_eq.
    unfold UpsertPPPoEStatus in Hq. injection Hq as _ Hd. rewrite <-Hd.
    destruct (upsert_status_same now (pppoe_status d) (pppoeStatusRow ev change)) as (st & Hst & Hle). by exists st.
  - apply served_run, run_bind_inv in Hrun as (r & w1 & ts1 & H1 & H2). cbn [run] in H2.
    destruct r as [b|]; [|done]. simplify_eq. by eapply insert_recorded.
  - apply served_run in Hrun. unfold handleConfigOfflineEdit in Hrun. destruct (prepareOfflineEdit ev edit) as [p|]; [by exists p|done].
Qed.

(** ** The loops *)

Lemma attempts_settles fuel m : forall a b i s failed w ts w' ts',
  served (attempts fuel c m a b i s failed) w ts (Some (LoopBreak false)) w' ts' ->
  settled (Value m) (w_db w') \/ w_done w' = true.
Proof using Type.
  induction fuel as [|fuel IH]; intros a b i s failed w ts w' ts' Hrun; cbn [attempts] in Hrun; [by destruct Hrun|].
  apply served_bind_inv in Hrun as (ended & w1 & ts1 & H1 & H2). apply served_run, run_ctx_inv in H1 as (He & _).
  destruct ended; [destruct H2 as [H2 _]; cbn [run] in H2; simplify_eq; by right|].
  apply served_bind_inv in H2 as (r & w2 & ts2 & H2 & H3). destruct r as [[]|e].
  { destruct H3 as [H3 _]. cbn [run] in H3. simplify_eq. left. by eapply handle_settles. }
  destruct (unavailable e).
  - apply served_bind_inv in H3 as (now & w3 & ts3 & _ & H3). destruct (stall_retry s now) as [el st'], (infraNext i) as [dl i'].
    apply served_bind_inv in H3 as (sl & w4 & ts4 & _ & H3). by eapply IH.
  - destruct (maxRetries <=? a); [by destruct H3|]. apply served_bind_inv in H3 as (sl & w4 & ts4 & _ & H3).
    destruct sl; [by destruct H3|]. by eapply IH.
Qed.

Lemma waitAndSendToDLQ_stores fuel m : c_db c = true -> forall w ts w' ts',
  run (waitAndSendToDLQ fuel c m) w ts = (Some tt, w', ts') ->
  in_dlq (Topic m) (Partition m) (Offset m) (w_db w') \/ w_done w' = true.
Proof using Type.
  intros Hc. induction fuel as [|fuel IH]; intros w ts w' ts' Hrun; cbn [waitAndSendToDLQ] in Hrun; [done|].
  apply run_bind_inv in Hrun as (ended & w1 & ts1 & H1 & H2). apply run_ctx_inv in H1 as (He & _).
  destruct ended; [cbn [run] in H2; simplify_eq; by right|].
  apply run_bind_inv in H2 as (r & w2 & ts2 & H2 & H3). destruct r as [[]|e].
  - cbn [run] in H3. simplify_eq. left. unfold sendToDLQ in H2. rewrite Hc in H2. cbn [negb] in H2.
    apply run_bind_inv in H2 as (r & w3 & ts3 & H2 & H4). cbn [run] in H4.
    apply run_db_inv in H2 as [(id & now & d & _ & -> & Hq)|[e ->]]; [|done]. simplify_eq.
    destruct (SendToDLQ_records (Topic m) (Partition m) (Offset m) (Value m) dlq_text now d) as (id' & d' & Hq' & Hin).
    rewrite Hq in Hq'. by simplify_eq.
  - apply run_bind_inv in H3 as (sl & w4 & ts4 & _ & H3). by eapply IH.
Qed.

Lemma handleOne_commits fuel m w ts r w' ts' :
  c_db c = true -> served (handleOne fuel c m) w ts r w' ts' ->
  (r <> Some true /\ commits w' = commits w) \/
  (r = Some true /\ taken_care_of (w_db w') m /\
   (commits w' = commits w \/ commits w' = (w_db w', [m]) :: commits w)).
Proof using Type.
  intros Hc Hrun. unfold handleOne in Hrun. apply served_bind_inv in Hrun as (e & w1 & ts1 & H1 & H2).
  pose proof (run_no_broker _ _ _ _ _ _ (attempts_uses fuel c m _ _ _ _ _) (served_run _ _ _ _ _ _ H1)) as C1. apply served_run in H2.
  destruct e as [[failed|]|]; [|cbn [run] in H2; simplify_eq; left; by split..].
  apply run_bind_inv in H2 as (sent & w2 & ts2 & H2 & H3).
  assert (Hu : uses no_broker (if failed then bind (call ECtx) (fun ended =>
      if ended : bool then Ret (Some tt) else waitAndSendToDLQ fuel c m) else Ret (Some tt))).
  { destruct failed; [|done]. apply uses_bind; [done|]. intros [|]; [done|apply waitAndSendToDLQ_uses]. }
  pose proof (run_no_broker _ _ _ _ _ _ Hu H2) as C2.
  destruct sent as [[]|]; [|cbn [run] in H3; simplify_eq; left; split; congruence].
  assert (Hok : taken_care_of (w_db w2) m \/ w_done w2 = true).
  { destruct failed.
    - apply run_bind_inv in H2 as (ended & w3 & ts3 & H4 & H5). apply run_ctx_inv in H4 as (He & _).
      destruct ended; [cbn [run] in H5; simplify_eq; by right|].
      apply waitAndSendToDLQ_stores in H5 as [?|?]; [left; by right|by right|done].
    - cbn [run] in H2. simplify_eq. apply attempts_settles in H1 as [?|?]; [left; by left|by right]. }
  apply run_bind_inv in H3 as (ended & w3 & ts3 & H4 & H5).
  apply run_ctx_inv in H4 as (He & Hdone & Hdb & C3).
  destruct ended; [cbn [run] in H5; simplify_eq; left; split; congruence|].
  assert (Hset : taken_care_of (w_db w3) m).
  { eapply care_grows; [by apply env_grows|]. destruct Hok as [Hok|Hd]; [done|]. by specialize (Hdone Hd). }
  apply run_bind_inv in H5 as (k & w4 & ts4 & H5 & H6). cbn [run] in H6. simplify_eq.
  apply run_commit_inv in H5 as [Hdb4 Hk]. right. split; [done|].
  split; [by eapply care_grows; [apply env_grows|]|].
  destruct Hk as [Hk|Hk]; [left; congruence|right]. by rewrite Hk, C3, C2, C1.
Qed.

(** ** Batches *)

Lemma upsert_statuses_holds now rows m r :
  r ∈ rows -> exists st, fold_left (upsert_status now) rows m !! pp_key r = Some st /\ pp_event r <= st_event st.
Proof using Type.
  revert m. induction rows as [|r0 rows IH]; intros m Hr; [by apply not_elem_of_nil in Hr|].
  apply elem_of_cons in Hr as [<-|Hr]; cbn [fold_left]; [|by apply IH].
  destruct (upsert_status_same now m r) as (st & Hst & Hle).
  destruct (upsert_statuses_mono now rows _ _ _ Hst) as (st' & Hst' & Hle'). exists st'. split; [done|lia].
Qed.

Lemma message_row_settled m r d st :
  message_row m = Some r -> pppoe_status d !! pp_key r = Some st -> pp_event r <= st_event st -> settled (Value m) d.
Proof using Type.
  unfold message_row, settled. destruct (unmarshal_event (Value m)) as [ev|]; [|done].
  destruct (ev_payload ev) as [|change| | |]; try done. intros [= <-] Hst Hle. by exists st.
Qed.

Lemma batch_written batch w ts w' ts' :
  run (writePPPoEBatch c batch) w ts = (true, w', ts') -> Forall (taken_care_of (w_db w')) batch.
Proof using Type.
  unfold writePPPoEBatch. destruct (_ || _); [done|].
  destruct (pppoeRowsFromBatch batch) as [rows|] eqn:Er; [|done]. intros Hrun.
  apply run_bind_inv in Hrun as (r & w1 & ts1 & H1 & H2). cbn [run] in H2.
  apply run_db_inv in H1 as [(a & now & d & _ & -> & Hq)|[e ->]]; [|done]. simplify_eq.
  destruct (loop_spec batch ∅ [] rows) as (pos & all & Hi & Hall & Hf); [by intros k; rewrite lookup_empty|done|].
  unfold UpsertPPPoEStatusBatch in Hq. destruct (decide _); [|done]. injection Hq as _ Hd.
  assert (Htab : pppoe_status (w_db w') = fold_left (upsert_status now) all (pppoe_status d)).
  { rewrite <-Hd. simpl. apply map_eq. intros k. rewrite !fold_lookup. by rewrite Hf. }
  apply mapM_Some_1 in Hall. apply Forall_forall. intros m Hm.
  destruct (list_elem_of_lookup_1 _ _ Hm) as (i & Hi1).
  destruct (Forall2_lookup_l _ _ _ _ _ Hall Hi1) as (row & Hi2 & Hrow).
  destruct (upsert_statuses_holds now all (pppoe_status d) row) as (st & Hst & Hle); [by eapply list_elem_of_lookup_2|].
  left. rewrite <-Htab in Hst. by eapply message_row_settled.
Qed.

End settled.

Lemma writePPPoEBatch_uses {J : Jsonb} {P : ProtoEvents} c batch : uses no_broker (writePPPoEBatch c batch).
Proof. unfold writePPPoEBatch. destruct (_ || _); [done|]. destruct (pppoeRowsFromBatch batch); [|done]. solve_uses. Qed.

#[export] Instance plain_texts : ErrorTexts := {| err_text := fun _ => "error"; bad_uint_text := fun s => s |}.
