(* ===== verification/OfflineFlow.v ===== *)
(** * A proposal from arrival to answer ([handleConfigOfflineEdit])

    [OfflineEdit] has the decision; here is what the handler makes of it, under
    every interleaving: a settled proposal was accepted and committed, was already
    in effect, or its refusal is on record for the operator to see. *)

From S2P Require Import Prelude GoStrings Json JsonNormal Decode GoTime ConfigDoc Etcd Db DbProps Events Effects Grows Cas Storage Rollback OfflineEdit Consumer AtLeastOnce.
Local Open Scope string_scope.
Local Open Scope Z_scope.
Local Open Scope go_scope.

Section flow.
Context {J : Jsonb} {T : ErrorTexts} `{EtcdLaws E}.
Implicit Types (w : world E) (p : offlineEditProposal).

(** The decision on a store. *)
Definition decision p (s : E) (now : Z) : result offlineEditError CASResult :=
  offlineEditMutation p (cas_current (et_get s (op_key p))) now.
(** The writes of the DNS cascade: one for a tombstone, none for an edit. *)
Definition cascaded p (l : list (E * etcdop)) : Prop :=
  if op_deleted p then exists s, l = [(s, OpDelete (dnsKey (op_nodeID p) (op_userID p)))] else l = [].

(** How a settled proposal was settled; [s] is the store it was decided on. *)
Definition answered p (eventTime : Z) w w' : Prop :=
  exists s now, (exists l, s = apply_envs (w_etcd w) l) /\
    match decision p s now with
    | Ok res => exists l, cascaded p l /\ own_writes w' = (l ++ (s, cas_op (op_key p) res) :: own_writes w)%list
    | Err OfflineEditNoop => exists l, cascaded p l /\ own_writes w' = (l ++ own_writes w)%list
    | Err (OfflineEditDiscard reason) => event_recorded (discard_row p eventTime reason) (w_db w') /\ own_writes w' = own_writes w
    end.
(** What an unsettled one may leave: the committed edit, the cascade, or both, when
    an answer was lost. *)
Definition unanswered p w w' : Prop :=
  exists l1 l2, own_writes w' = (l1 ++ l2 ++ own_writes w)%list /\ (l1 = [] \/ cascaded p l1) /\
    (l2 = [] \/ exists s now res, decision p s now = Ok res /\ l2 = [(s, cas_op (op_key p) res)]).

Lemma own_writes_txn w s s0 g o : own_writes (with_etcd w s (ATxn s0 g o)) = (s0, o) :: own_writes w.
Proof. done. Qed.
Lemma cascade_writes p w ts r w' ts' :
  run (cascadeDNS p) w ts = (r, w', ts') ->
  exists l, own_writes w' = (l ++ own_writes w)%list /\
    match r with Ok _ => cascaded p l | Err _ => l = [] \/ cascaded p l end.
Proof.
  unfold cascadeDNS, cascaded, DeleteSubscriberDNS. destruct (op_deleted p); [|cbn [run]; intros; simplify_eq; by exists []].
  intros Hrun. apply run_bind_inv in Hrun as (x & w1 & ts1 & H1 & H2). apply run_bind_inv in H1 as (y & w2 & ts2 & H1 & H3).
  cbn [run] in H2, H3. simplify_eq. revert H1. rewrite run_call. unfold step_eff. cbn [perform]. unfold etcd_reply.
  set (t := hd quiet ts). set (w1 := interfere t w). assert (Hw : own_writes w1 = own_writes w) by done.
  set (k := dnsKey _ _). destruct (t_etcd t) as [[e []]|]; intros [= <- <- _].
  - exists [(w_etcd w1, OpDelete k)]. split; [by unfold own_writes; simpl|]. right. eauto.
  - exists []. split; [done|by left].
  - exists [(w_etcd w1, OpDelete k)]. split; [by unfold own_writes; simpl|eauto].
Qed.

Lemma run_db_writes {A} (q : query A) w ts r w' ts' :
  run (call (EDb q)) w ts = (r, w', ts') -> own_writes w' = own_writes w.
Proof.
  rewrite run_call. intros [= Hs _]. change w' with (r, w').2. rewrite <-Hs. unfold step_eff. cbn [perform].
  by destruct (db_reply_world (hd quiet ts) (interfere (hd quiet ts) w) q) as [-> | (a & d & _ & ->)].
Qed.
Lemma offline_edit_flow c ev edit eventTime p w ts r w' ts' :
  world_wf w -> prepareOfflineEdit ev edit = Ok p ->
  run (handleConfigOfflineEdit c ev edit eventTime) w ts = (r, w', ts') ->
  match r with Ok _ => answered p eventTime w w' | Err _ => unanswered p w w' end.
Proof.
  intros Hw Hp. unfold handleConfigOfflineEdit. rewrite Hp.
  assert (Hnone : forall w2, own_writes w2 = own_writes w -> unanswered p w w2) by (intros w2 Ho; exists [], []; auto).
  destruct (negb (c_etcd c)); [cbn [run]; intros; simplify_eq; by apply Hnone|]. intros Hrun.
  apply run_bind_inv in Hrun as (k & w1 & ts1 & H1 & H2).
  pose proof (cas_refines (op_key p) (fun cur _ now => offline_mutate p cur now) w ts Hw) as Hs.
  change (CASWithRevision (op_key p) (fun cur _ now => offline_mutate p cur now)) with (CAS (op_key p) (offline_mutate p)) in Hs.
  unfold outcome, final in Hs. rewrite H1 in Hs. cbn [fst snd] in Hs. clear H1.
  assert (Hsees : forall (s : E) now, sees (op_key p) (fun cur _ now => offline_mutate p cur now) s now =
    match decision p s now with Ok res => Ok (res, tt) | Err e => Err e end) by done.
  destruct Hs as [w2 now res [] D Hn Hm|w2 now x w3 D Hn Hm D2|w3 D|w3 D|e w3 D|e w2 now res [] D Hn Hm].
  1,2,6: rewrite Hsees in Hm; destruct (decision p (w_etcd w2) now) as [res'|x'] eqn:Ed; simplify_eq.
  - destruct D as ((l & El) & _ & _ & Do).
    apply cascade_writes in H2 as (l1 & Ho & Hl).
    assert (Ho' : own_writes w' = (l1 ++ (w_etcd w2, cas_op (op_key p) res) :: own_writes w)%list) by (by rewrite Ho, own_writes_txn, Do).
    destruct r as [[]|e].
    + exists (w_etcd w2), now. split; [eauto|]. rewrite Ed. eauto.
    + exists l1, [(w_etcd w2, cas_op (op_key p) res)]. split; [done|]. split; [done|]. right. eauto.
  - pose proof (transitivity D D2) as (_ & _ & _ & Do). destruct D as ((l & El) & _). destruct x as [|reason].
    + apply cascade_writes in H2 as (l1 & Ho & Hl). rewrite Do in Ho. destruct r as [[]|e].
      * exists (w_etcd w2), now. split; [eauto|]. rewrite Ed. eauto.
      * exists l1, []. split; [done|]. auto.
    + unfold recordOfflineEditDiscard in H2. destruct (negb (c_db c)); [cbn [run] in H2; simplify_eq; by apply Hnone|].
      apply run_bind_inv in H2 as (y & w4 & ts4 & H3 & H4). cbn [run] in H4. simplify_eq.
      assert (Ho : own_writes w' = own_writes w).
      { rewrite <-Do. exact (run_db_writes _ _ _ _ _ _ H3). }
      apply run_db_inv in H3 as [(b & now2 & d & _ & -> & Hq)|[e ->]]; [|by apply Hnone].
      exists (w_etcd w2), now. split; [eauto|]. rewrite Ed. split; [|done].
      destruct (InsertNodeEvent_records (discard_row p eventTime reason) now2 d) as (b' & d' & Hq' & Hr). rewrite Hq in Hq'. by simplify_eq.
  - cbn [run] in H2. simplify_eq. exists [], [(w_etcd w2, cas_op (op_key p) res)]. destruct D as (_ & _ & _ & Do).
    split; [by rewrite own_writes_txn, Do|]. split; [by left|]. right. eauto.
  - cbn [run] in H2. simplify_eq. apply Hnone, D.
  - cbn [run] in H2. simplify_eq. apply Hnone, D.
  - cbn [run] in H2. simplify_eq. apply Hnone, D.
Qed.
End flow.

(** ** Properties *)

(** C21: no proposal is dropped silently, and none is committed that should not
    be, under every interleaving and failure.  A settled proposal was decided on
    a store that existed while it was handled: accepted, and then exactly the
    accepted result was committed to the entry it was decided on, a tombstone's
    DNS records after it; already in effect, and then at most the DNS records
    went; or refused, and then nothing was written and the refusal with its reason
    is recorded for the operator.  An unsettled one wrote at most that. *)
Theorem offline_edit_answered `{Jsonb, ErrorTexts, EtcdLaws E} c ev edit eventTime p (w : world E) ts :
  world_wf w -> prepareOfflineEdit ev edit = Ok p ->
  let run := handleConfigOfflineEdit c ev edit eventTime in
  match outcome run w ts with
  | Ok _ => answered p eventTime w (final run w ts)
  | Err _ => unanswered p w (final run w ts)
  end.
Proof.
  intros Hw Hp prog. unfold outcome, final. destruct (run prog w ts) as [[r w'] ts'] eqn:Hrun.
  by eapply offline_edit_flow.
Qed.
Lemma offline_edit_answered_witness :
  let run := handleConfigOfflineEdit (MkConsumer true true) sample_offline sample_edit (unix 1750000000) in
  outcome run world_old [] = Ok tt /\ answered sample_proposal (unix 1750000000) world_old (final run world_old []).
Proof.
  split; [vm_compute; reflexivity|].
  exact (offline_edit_answered (MkConsumer true true) sample_offline sample_edit (unix 1750000000) sample_proposal world_old [] world_old_wf eq_refl).
Defined.

(** A newer version is pushed before the edit arrives: it is refused, on record. *)
Example refused_edit_recorded :
  let w := final (handleConfigOfflineEdit (MkConsumer true true) sample_offline sample_edit (unix 1750000000)) world_old
             [busy [EvPut (hsiKey "n" "2") (doc_at "pushed" "7")]] in
  own_writes w = [] /\ (ne_type ∘ snd <$> node_events (w_db w)) = ["CONFIG_OFFLINE_EDIT"].
Proof. vm_compute. done. Qed.

(** The cascade deletes the DNS key whatever it holds by then: a subscriber who is
    created again, with records, between the accepted tombstone and the cascade
    keeps the config and loses the records. *)
Definition tombstone : ConfigOfflineEdit := MkEdit "" "5" 1750000000 "cli" OFFLINE_EDIT_KIND_HSI_CONFIG true.
Definition recreated : list turn :=
  [quiet; quiet; quiet; busy [EvPut (hsiKey "n" "2") (doc_at "again" "1"); EvPut (dnsKey "n" "2") (doc_at "records" "1")]].
Example cascade_races :
  let p := handleConfigOfflineEdit (MkConsumer true true) (MkNodeEvent "n" "2" EVENT_TYPE_CONFIG_OFFLINE_EDIT 1750000000 "" (POffline tombstone)) tombstone (unix 1750000000) in
  let w := final p world_old recreated in
  outcome p world_old recreated = Ok tt /\
  (kv_value <$> et_get (w_etcd w) (hsiKey "n" "2")) = Some (doc_at "again" "1") /\ et_get (w_etcd w) (dnsKey "n" "2") = None.
Proof. vm_compute. done. Qed.
