(* ===== verification/Session.v ===== *)
(** * A consuming session ([Run] of [internal/kafka/consumer.go])

    The fetch loop around the handling of a batch, the background work it
    starts, and what a committed offset means: Kafka takes it for every earlier
    message of the partition, so the theorem is about all messages fetched so
    far, and about the tables as they are when the commit is made. *)

From S2P Require Import Prelude GoStrings Json JsonNormal Decode GoTime ConfigDoc Etcd Db DbProps Events Effects Grows Cas Storage Rollback OfflineEdit Consumer PPPoEBatch AtLeastOnce OffsetGuard.
Local Open Scope string_scope.
Local Open Scope Z_scope.
Local Open Scope go_scope.

(** ** The loop *)

Inductive background := SampleOffsets | RepublishAll.
(** The time [lastFetch] is seeded with and the goroutines started. *)
Definition beginSession (republishAll : bool) (now : Z) : Z * list background :=
  (now, SampleOffsets :: if republishAll then [RepublishAll] else []).

(** What [FetchMessage] gives: an error, or a message with what the reader
    already holds behind it ([None]: nothing before the linger deadline). *)
Inductive fetch := FetchError | Fetched (first : message) (waiting : list (option message)).

Section session.
Context {J : Jsonb} {P : ProtoEvents} {T : ErrorTexts}.

(** The loop of [Run], one entry of [fetches] per fetch; the value is
    [lastFetch], and [None] is a message still being retried. *)
Fixpoint Run_loop (fuel : nat) (c : Consumer) (fetches : list fetch) (lastFetch : Z) : prog (option Z) :=
  match fetches with
  | [] => Ret (Some lastFetch)
  | f :: fetches =>
      do! ended := call ECtx in
      if ended : bool then Ret (Some lastFetch) else
      match f with
      | FetchError =>
          do! ended := call ECtx in
          if ended : bool then Ret (Some lastFetch)
          else do! _ := call (ESleep retryInterval false) in Run_loop fuel c fetches lastFetch
      | Fetched first waiting =>
          do! now := call ENow in
          do! r := process_batch fuel c (collectBatch first waiting) in
          match r with
          | None => Ret None
          | Some false => Ret (Some now)
          | Some true => Run_loop fuel c fetches now
          end
      end
  end.

(** The whole of [Run]: the result is the guard's reset, the background work and
    the loop's value, unless the context ended before the session began. *)
Definition Run (fuel : nat) (client : offsetClient) (cfg : ReaderConfig) (republishAll : bool) (c : Consumer)
    (rounds : list (list (option N))) (fetches : list fetch)
  : prog (option (option (list (Z * Z)) * list background * option Z)) :=
  do! start := Run_start client cfg rounds in
  match start with
  | None => Ret None
  | Some (reset, now) =>
      let '(lastFetch, work) := beginSession republishAll now in
      do! r := Run_loop fuel c fetches lastFetch in
      Ret (Some (reset, work, r))
  end.

(** The sampler of the session: one entry per tick, with the time until the
    ticker fires and the broker's answers then. *)
Definition offsetSampleInterval : Z := 30 * second.
Fixpoint sampler_ticks (topic group : string) (lastFetch : Z) (ticks : list (Z * offsetClient)) (mt : metrics) : prog metrics :=
  match ticks with
  | [] => Ret mt
  | (wait, client) :: ticks =>
      do! ended := call (ESleep (Z.min offsetSampleInterval wait) false) in
      if ended : bool then Ret mt
      else do! now := call ENow in
           sampler_ticks topic group lastFetch ticks (sampleOffsetsOnce client topic group lastFetch now mt)
  end.
Definition sampleOffsetMetrics (cfg : ReaderConfig) (lastFetch : Z) (ticks : list (Z * offsetClient)) (mt : metrics) : prog metrics :=
  if bool_decide (cfg_Brokers cfg = []) || String.eqb (cfg_GroupID cfg) "" then Ret mt
  else sampler_ticks (cfg_Topic cfg) (cfg_GroupID cfg) lastFetch ticks mt.
End session.

(** The messages the loop takes from the reader, in order. *)
Definition taken (f : fetch) : list message :=
  match f with FetchError => [] | Fetched first waiting => collectBatch first waiting end.
Definition fetched (fetches : list fetch) : list message := concat (taken <$> fetches).

(** ** Watermarks *)

Lemma Run_start_no_sql client cfg rounds : uses no_sql (Run_start client cfg rounds).
Proof.
  unfold Run_start. apply uses_bind; [|intros _; solve_uses].
  induction rounds as [|answers rounds IH]; cbn [waitForTopicReady]; solve_uses.
Qed.
Lemma Run_start_uses client cfg rounds : uses no_broker (Run_start client cfg rounds).
Proof.
  unfold Run_start. apply uses_bind; [|intros _; solve_uses].
  induction rounds as [|answers rounds IH]; cbn [waitForTopicReady]; solve_uses.
Qed.

Section watermark.
Context {J : Jsonb} {P : ProtoEvents} {T : ErrorTexts} `{EtcdLaws E} (found : list E) (wrote : list (E * etcdop)) (c : Consumer).
Local Notation taken_care_of := (taken_care_of found wrote c).
Local Notation served := (served found wrote).
Implicit Types (w : world E) (seen log : list message).

(** The commits [cs], oldest first, of a session that had fetched [seen] and
    goes on with [log]: they follow the order of the log without overlap, and
    when one is made, every message fetched up to its last one is taken care of
    in the tables of that moment. *)
Fixpoint covers (seen log : list message) (cs : list (db * list message)) : Prop :=
  match cs with
  | [] => True
  | (d, ms) :: cs =>
      exists skipped rest, log = (skipped ++ ms ++ rest)%list /\
        Forall (taken_care_of d) (seen ++ skipped ++ ms)%list /\ covers (seen ++ skipped ++ ms) rest cs
  end.

Lemma covers_skip s seen log cs : covers (seen ++ s) log cs -> covers seen (s ++ log) cs.
Proof using Type.
  destruct cs as [|[d ms] cs]; [done|]. intros (skipped & rest & -> & Hf & Hc). exists (s ++ skipped)%list, rest.
  rewrite <-!app_assoc in *. by split_and!.
Qed.
Lemma covers_app cs1 cs2 : forall seen l1 l2,
  covers seen l1 cs1 -> covers (seen ++ l1) l2 cs2 -> covers seen (l1 ++ l2) (cs1 ++ cs2).
Proof using Type.
  induction cs1 as [|[d ms] cs1 IH]; intros seen l1 l2; [intros _; apply covers_skip|].
  intros (skipped & rest & -> & Hf & Hc) H2. cbn [app covers]. exists skipped, (rest ++ l2)%list.
  rewrite <-!app_assoc. split_and!; [done|done|]. apply IH; [done|]. by rewrite <-!app_assoc in *.
Qed.

(** From [w] to [w'] the session went on with [log]; [all] says it got through. *)
Definition advances (seen log : list message) (all : bool) w w' : Prop :=
  exists cs, commits w' = (reverse cs ++ commits w)%list /\ covers seen log cs /\
    (all = true -> Forall (taken_care_of (w_db w')) (seen ++ log)%list).

Lemma advances_app seen l1 l2 all w1 w2 w3 :
  advances seen l1 true w1 w2 -> advances (seen ++ l1) l2 all w2 w3 -> advances seen (l1 ++ l2) all w1 w3.
Proof using Type.
  intros (cs1 & C1 & V1 & _) (cs2 & C2 & V2 & F2). exists (cs1 ++ cs2)%list. split_and!.
  - by rewrite C2, C1, reverse_app, <-app_assoc.
  - by apply covers_app.
  - by rewrite <-app_assoc in F2.
Qed.
Lemma advances_stop seen l1 l2 all w w' : advances seen l1 all w w' -> advances seen (l1 ++ l2) false w w'.
Proof using Type.
  intros (cs & C & V & _). exists cs. split_and!; [done| |done]. rewrite <-(app_nil_r cs). by apply covers_app.
Qed.
Lemma advances_none seen log w w' : commits w' = commits w -> advances seen log false w w'.
Proof using Type. intros Hc. by exists []. Qed.
(** Work that commits nothing keeps what was reached. *)
Lemma advances_quiet seen log all w w1 w' :
  commits w1 = commits w -> advances seen log all w1 w' -> advances seen log all w w'.
Proof using Type. intros Hc (cs & C & V & F). exists cs. by rewrite C, Hc. Qed.

Lemma care_all d d' l : db_grows d d' -> Forall (taken_care_of d) l -> Forall (taken_care_of d') l.
Proof using Type. intros Hg Hl. eapply Forall_impl; [exact Hl|]. intros m. by apply care_grows. Qed.

Lemma handle_each_advances fuel batch : c_db c = true -> forall seen w ts r w' ts',
  Forall (taken_care_of (w_db w)) seen -> served (handle_each fuel c batch) w ts r w' ts' ->
  advances seen batch (bool_decide (r = Some true)) w w'.
Proof using Type.
  intros Hc. induction batch as [|m batch IH]; intros seen w ts r w' ts' Hs Hrun; cbn [handle_each] in Hrun.
  { destruct Hrun as [Hrun _]. cbn [run] in Hrun. simplify_eq. exists []. split_and!; [done..|]. by rewrite app_nil_r. }
  apply served_bind_inv in Hrun as (o & w1 & ts1 & H1 & H2).
  pose proof (run_grows _ _ _ _ _ _ (handleOne_grows fuel c m) (served_run _ _ _ _ _ _ _ _ H1)) as Hg.
  apply handleOne_commits in H1 as [[Ho Hk]|(-> & Hm & Hk)]; [| |done].
  { apply served_run in H2. assert (r <> Some true /\ w' = w1) as [Hr ->] by (destruct o as [[]|]; cbn [run] in H2; by simplify_eq).
    rewrite bool_decide_eq_false_2 by done. by apply advances_none. }
  assert (Hall : Forall (taken_care_of (w_db w1)) (seen ++ [m])%list).
  { apply Forall_app. split; [by eapply care_all|by apply Forall_singleton]. }
  change (m :: batch) with ([m] ++ batch)%list. eapply advances_app; [|by eapply IH].
  destruct Hk as [Hk|Hk]; [by exists []|]. exists [(w_db w1, [m])]. split_and!; [done| |done].
  cbn [covers]. exists [], []. by split_and!.
Qed.

Lemma process_batch_advances fuel batch seen w ts r w' ts' :
  c_db c = true -> Forall (taken_care_of (w_db w)) seen -> served (process_batch fuel c batch) w ts r w' ts' ->
  advances seen batch (bool_decide (r = Some true)) w w'.
Proof using Type.
  intros Hc Hs Hrun. unfold process_batch in Hrun. apply served_bind_inv in Hrun as (written & w1 & ts1 & H1%served_run & H2).
  pose proof (run_grows _ _ _ _ _ _ (writePPPoEBatch_grows c batch) H1) as Hg.
  pose proof (run_no_broker _ _ _ _ _ _ (writePPPoEBatch_uses c batch) H1) as C1.
  pose proof (care_all _ _ _ Hg Hs) as Hs1.
  eapply advances_quiet; [done|]. destruct written; [|by eapply handle_each_advances].
  apply (batch_written found wrote) in H1. apply served_run, run_bind_inv in H2 as (k & w2 & ts2 & H2 & H3). cbn [run] in H3. simplify_eq.
  assert (Hall : Forall (taken_care_of (w_db w1)) (seen ++ batch)%list) by (by apply Forall_app).
  apply run_commit_inv in H2 as [Hdb Hk].
  assert (Hall' : Forall (taken_care_of (w_db w')) (seen ++ batch)%list) by (eapply care_all; [by apply env_grows|done]).
  destruct Hk as [Hk|Hk]; [by exists []|]. exists [(w_db w', batch)]. split_and!; [done| |done].
  cbn [covers]. exists [], []. by rewrite app_nil_r.
Qed.

Lemma Run_loop_advances fuel fetches : c_db c = true -> forall seen w ts last r w' ts',
  Forall (taken_care_of (w_db w)) seen -> served (Run_loop fuel c fetches last) w ts r w' ts' ->
  advances seen (fetched fetches) false w w'.
Proof using Type.
  intros Hc. induction fetches as [|f fetches IH]; intros seen w ts last r w' ts' Hs Hrun; cbn [Run_loop] in Hrun.
  { destruct Hrun as [Hrun _]. cbn [run] in Hrun. simplify_eq. by apply advances_none. }
  apply served_bind_inv in Hrun as (ended & w1 & ts1 & H1%served_run & H2). apply run_ctx_inv in H1 as (_ & _ & D1%env_grows & C1).
  apply (care_all _ _ _ D1) in Hs. destruct ended; [apply served_run in H2; cbn [run] in H2; simplify_eq; by apply advances_none|].
  destruct f as [|first waiting].
  - apply served_bind_inv in H2 as (ended & w2 & ts2 & H2%served_run & H3). apply run_ctx_inv in H2 as (_ & _ & D2%env_grows & C2).
    apply (care_all _ _ _ D2) in Hs.
    destruct ended; [apply served_run in H3; cbn [run] in H3; simplify_eq; apply advances_none; congruence|].
    apply served_bind_inv in H3 as (sl & w3 & ts3 & H3%served_run & H4).
    assert (D3 : db_env (w_db w2) (w_db w3)) by (by apply (run_no_sql (call (ESleep retryInterval false)) _ _ _ _ _ ltac:(done) H3)).
    apply env_grows in D3. apply (care_all _ _ _ D3) in Hs.
    assert (C3 : commits w3 = commits w2) by (by apply (run_no_broker (call (ESleep retryInterval false)) _ _ _ _ _ ltac:(done) H3)).
    eapply (advances_quiet _ _ _ _ w3); [congruence|]. by eapply IH.
  - apply served_bind_inv in H2 as (now & w2 & ts2 & H2%served_run & H3).
    assert (D2 : db_env (w_db w1) (w_db w2)) by (by apply (run_no_sql (call ENow) _ _ _ _ _ ltac:(done) H2)).
    apply env_grows in D2. apply (care_all _ _ _ D2) in Hs.
    assert (C2 : commits w2 = commits w1) by (by apply (run_no_broker (call ENow) _ _ _ _ _ ltac:(done) H2)).
    apply served_bind_inv in H3 as (o & w3 & ts3 & H3 & H4).
    apply (process_batch_advances _ _ seen) in H3; [|done..].
    assert (Ha : advances seen (collectBatch first waiting) (bool_decide (o = Some true)) w w3).
    { eapply advances_quiet; [|exact H3]. congruence. }
    change (fetched (Fetched first waiting :: fetches)) with (collectBatch first waiting ++ fetched fetches)%list.
    destruct o as [[]|]; [|apply served_run in H4; cbn [run] in H4; simplify_eq; by eapply advances_stop..].
    rewrite bool_decide_eq_true_2 in Ha by done. eapply advances_app; [done|]. eapply IH; [|done].
    destruct Ha as (_ & _ & _ & F). by apply F.
Qed.
End watermark.

(** ** Properties *)

(** C1: over a whole session of the consumer, under any failures, failed fetches,
    failed commits and a shutdown at any point, the committed offsets follow the
    order of the fetched messages without overlap, and whenever one is committed,
    all messages fetched up to it -- Kafka takes the commit for all of them --
    are taken care of: dead-lettered in the tables of that moment, or settled
    there.  Settled means, for a PPPoE state, that the row is at least as new; for
    a runtime error, that the event is recorded; for a config apply, that the event
    is recorded (unless a success is only repeated) and moreover, with etcd
    configured, for a success that the confirmed revision -- the attested one, or
    that of the config the session found in etcd -- or a newer one is the current
    config and is in the history as a success, or that the session found no config
    there to confirm, and for a failure that the failure is in the history and the
    session wrote the rollback to a recorded success, or the deletion for want of
    one, or its guard refused it on the entry found.  Malformed messages and
    unknown payloads ask for nothing, and of an offline edit only that it is well
    formed is said here; its answer is [OfflineFlow.offline_edit_answered].  No
    message is skipped, whatever other replicas write meanwhile. *)
Theorem commits_watermark `{Jsonb, ProtoEvents, ErrorTexts, EtcdLaws E} fuel client cfg republish c rounds fetches (w : world E) ts :
  c_db c = true ->
  let session := Run fuel client cfg republish c rounds fetches in
  exists cs wrote, commits (final session w ts) = (reverse cs ++ commits w)%list /\
    own_writes (final session w ts) = (wrote ++ own_writes w)%list /\
    covers (met session w ts) wrote c [] (fetched fetches) cs.
Proof.
  intros Hc session. unfold final. destruct (run session w ts) as [[r w'] ts'] eqn:Hrun.
  destruct (run_wrote _ _ _ _ _ _ Hrun) as [wrote Hw]. cbn.
  enough (advances (met session w ts) wrote c [] (fetched fetches) false w w') as (cs & C & V & _) by (by exists cs, wrote).
  assert (Hs : served (met session w ts) wrote session w ts r w' ts') by (split_and!; [done..|]; by exists wrote).
  revert Hs. generalize (met session w ts). intros found Hs.
  apply served_bind_inv in Hs as (start & w1 & ts1 & H1'%served_run & H2').
  apply (run_no_broker _ _ _ _ _ _ (Run_start_uses client cfg rounds)) in H1'.
  destruct start as [[reset now]|]; [|apply served_run in H2'; cbn [run] in H2'; simplify_eq; by apply advances_none]. cbn [beginSession] in H2'.
  apply served_bind_inv in H2' as (o & w2 & ts2 & H2' & H3'%served_run). cbn [run] in H3'. simplify_eq.
  apply (advances_quiet _ _ _ _ _ _ _ w1); [done|]. by eapply (Run_loop_advances _ _ _ fuel fetches Hc []).
Qed.
(** Two bursts with a failed fetch between them; the broker refuses the first
    commit, which is made up for by the second. *)
Definition two_bursts : list fetch :=
  let msg n v := Msg "t" 0 n v in
  [Fetched (msg 1 "3") [Some (msg 2 "7"); None; Some (msg 9 "8")]; FetchError; Fetched (msg 3 "9") []].
Definition refused_commit : list turn :=
  (repeat quiet 6 ++ [Turn [] 0 None None (Some EtcdUnavailable) false false []])%list.
Definition session_cfg : ReaderConfig := MkReader ["b:9092"] "t" "g".
Definition session_run (ts : list turn) : world mem :=
  final (Run 3 (broker_client "t" []) session_cfg true (MkConsumer true true) [[Some 1%N]] two_bursts) world0 ts.
Example two_bursts_commits :
  map snd (commits (session_run [])) = [[Msg "t" 0 3 "9"]; [Msg "t" 0 1 "3"; Msg "t" 0 2 "7"]] /\
  map snd (commits (session_run refused_commit)) = [[Msg "t" 0 3 "9"]].
Proof. vm_compute. done. Qed.
(** Reports of a node beside the states: subscriber 2 runs the config in etcd,
    subscriber 9 has none there, and a later config of subscriber 2 fails. *)
Definition report_events : ProtoEvents := fun v =>
  let report user res := Some (MkNodeEvent "n" user 1 5 "" (PApply res)) in
  if String.eqb v "ok" then report "2" (MkApply "update" true "" "" "3" false 0)
  else if String.eqb v "none" then report "9" (MkApply "update" true "" "" "1" false 0)
  else if String.eqb v "failed" then report "2" (MkApply "update" false "E1" "bad vlan" "4" false 0)
  else digit_events v.
Definition reports : list fetch :=
  let msg n v := Msg "t" 0 n v in [Fetched (msg 1 "ok") [Some (msg 2 "none")]; Fetched (msg 3 "3") []; Fetched (msg 4 "failed") []].
Definition report_world : world mem := World (et_put mem_empty (hsiKey "n" "2") (doc_at "good" "3")) db_empty 0 false [].
(** The failing config is pushed after the first commits. *)
Definition push_later : list turn :=
  (repeat quiet 20 ++ [Turn [EvPut (hsiKey "n" "2") (doc_at "bad" "4")] 0 None None None false false []])%list.
Definition report_session : prog _ :=
  Run (P := report_events) 3 (broker_client "t" []) session_cfg true (MkConsumer true true) [[Some 1%N]] reports.
Definition report_end : world mem := final report_session report_world push_later.
Example reports_handled :
  map snd (commits report_end) = [[Msg "t" 0 4 "failed"]; [Msg "t" 0 3 "3"]; [Msg "t" 0 2 "none"]; [Msg "t" 0 1 "ok"]] /\
  (ModRevision <$> hsi_config_current (w_db report_end) !! ("n", "2")) = Some 2 /\ length (own_writes report_end) = 1%nat.
Proof. vm_compute. done. Qed.
Lemma commits_watermark_witness :
  exists cs wrote, commits report_end = (reverse cs ++ [])%list /\ own_writes report_end = (wrote ++ [])%list /\
    covers (P := report_events) (met report_session report_world push_later) wrote (MkConsumer true true) [] (fetched reports) cs /\
    length cs = 4%nat /\ length wrote = 1%nat.
Proof.
  destruct (commits_watermark (H0 := report_events) 3 (broker_client "t" []) session_cfg true (MkConsumer true true) [[Some 1%N]]
              reports report_world push_later eq_refl) as (cs & wrote & Hc & Hw & Hv).
  exists cs, wrote. split; [exact Hc|]. split; [exact Hw|]. split; [exact Hv|].
  assert (Hl : length (commits report_end) = 4%nat) by (vm_compute; reflexivity).
  assert (Hl' : length (own_writes report_end) = 1%nat) by (vm_compute; reflexivity).
  unfold report_end, report_session in Hl, Hl'. rewrite Hc in Hl. rewrite Hw in Hl'.
  rewrite length_app, length_reverse in Hl. rewrite length_app in Hl'. simpl in Hl, Hl'. lia.
Defined.
