(* ===== verification/Progress.v ===== *)
(** * Messages do not get stuck

    Without failures every message is settled and its offset committed within five
    attempts, whatever others write.  There are two exceptions, both retried for
    ever: an apply result that attests a revision etcd has not reached, and a
    failure report whose key keeps changing. *)

From S2P Require Import Prelude GoStrings Json Decode GoTime ConfigDoc Etcd Db DbProps Events Effects Grows Rely ConfigLog Cas Storage Rollback OfflineEdit Consumer PPPoEBatch AtLeastOnce OffsetGuard Session.
Local Open Scope string_scope.
Local Open Scope Z_scope.
Local Open Scope go_scope.

(** ** Runs without failures *)

(** No request fails and no context ends; others may write what they like. *)
Definition smooth (t : turn) : bool :=
  match t_etcd t, t_db t, t_kafka t with None, None, None => negb (t_ctx t) && negb (t_deadline t) | _, _, _ => false end.

Section smooth.
Context `{EtcdLaws E}.
Implicit Types (w : world E) (ts : list turn).

Lemma smooth_head ts : forallb smooth ts = true ->
  t_etcd (hd quiet ts) = None /\ t_db (hd quiet ts) = None /\ t_kafka (hd quiet ts) = None /\
  t_ctx (hd quiet ts) = false /\ t_deadline (hd quiet ts) = false.
Proof.
  destruct ts as [|t ts]; [done|]. cbn [forallb hd]. unfold smooth. intros [Ht _]%andb_true_iff.
  destruct (t_etcd t), (t_db t), (t_kafka t), (t_ctx t), (t_deadline t); done.
Qed.
Lemma smooth_done ts w : forallb smooth ts = true -> w_done (interfere (hd quiet ts) w) = w_done w.
Proof. intros Ht. apply smooth_head in Ht as (_ & _ & _ & Hc & _). simpl. by rewrite Hc, orb_false_r. Qed.
Lemma smooth_run {A} (p : prog A) w ts a w' ts' :
  forallb smooth ts = true -> run p w ts = (a, w', ts') -> forallb smooth ts' = true /\ w_done w' = w_done w.
Proof.
  revert w ts. induction p as [b|X e k IH]; intros w ts Ht; cbn [run]; [intros; by simplify_eq|].
  destruct (step_eff e w ts) as [x w1] eqn:Es. intros Hr. apply IH in Hr as [? ->]; [|by apply ok_tl]. split; [done|].
  change w1 with (x, w1).2. rewrite <-Es. unfold step_eff. rewrite <-(smooth_done ts w Ht).
  by destruct (perform_effect e (hd quiet ts) (interfere (hd quiet ts) w)).
Qed.
(** A quiet run is one. *)
Lemma quiet_run {A} (p : prog A) w a w' ts' : run p w [] = (a, w', ts') -> ts' = [] /\ w_done w' = w_done w.
Proof.
  intros Hr. split; [|by apply (smooth_run _ _ [] _ _ _ eq_refl Hr)].
  revert w Hr. induction p as [b|X e k IH]; intros w; cbn [run]; [intros; by simplify_eq|].
  destruct (step_eff e w []) as [x w1]. apply IH.
Qed.

Lemma smooth_rel_db (R : db -> db -> Prop) {HR : PreOrder R} (ok : turn -> bool) {A} (q : query A) w ts r w' ts' :
  (forall t now d, ok t = true -> R d (fold_left (apply_sql now) (t_sql t) d)) ->
  forallb ok ts = true -> forallb smooth ts = true -> run (call (EDb q)) w ts = (r, w', ts') ->
  exists now d, R (w_db w) d /\ match q now d with Ok (a, d') => r = Ok a /\ w_db w' = d' | Err e => r = Err e /\ w_db w' = d end.
Proof.
  intros HRt Hok Ht. apply smooth_head in Ht as (_ & Hdb & _). rewrite run_call. unfold step_eff. cbn [perform]. unfold db_reply.
  rewrite Hdb. pose proof (rel_interfere R ok HRt ts w Hok) as Hr. set (w1 := interfere _ w) in *. intros Hrun. exists (w_now w1), (w_db w1).
  split; [done|]. destruct (q _ _) as [[a d]|e]; by injection Hrun as <- <- _.
Qed.
Lemma smooth_db {A} (q : query A) w ts r w' ts' :
  forallb smooth ts = true -> run (call (EDb q)) w ts = (r, w', ts') ->
  exists now d, match q now d with Ok (a, _) => r = Ok a | Err e => r = Err e end.
Proof.
  intros Ht Hr. destruct (smooth_rel_db db_env (fun _ => true) q w ts r w' ts') as (now & d & _ & Hq); [|by apply all_turns|done..|].
  - intros. apply db_env_fold.
  - exists now, d. destruct (q now d) as [[a d']|e]; by destruct Hq.
Qed.
Lemma smooth_ctx w ts b w' ts' : forallb smooth ts = true -> run (call ECtx) w ts = (b, w', ts') -> b = w_done w.
Proof. intros Ht. rewrite run_call. unfold step_eff. cbn [perform]. intros [= <- _ _]. by apply smooth_done. Qed.
Lemma ctx_world w ts b w' ts' : run (call ECtx) w ts = (b, w', ts') -> w' = interfere (hd quiet ts) w.
Proof. rewrite run_call. unfold step_eff. cbn [perform]. by intros [= _ <- _]. Qed.
Lemma smooth_sleep d bnd w ts b w' ts' : forallb smooth ts = true -> run (call (ESleep d bnd)) w ts = (b, w', ts') -> b = w_done w.
Proof.
  intros Ht. pose proof (smooth_head _ Ht) as (_ & _ & _ & _ & Hd). rewrite run_call. unfold step_eff. cbn [perform].
  rewrite Hd. intros [= <- _ _]. rewrite andb_false_r, orb_false_r. by apply (smooth_done ts).
Qed.
Lemma smooth_commit m w ts r w' ts' : forallb smooth ts = true -> run (call (ECommit m)) w ts = (r, w', ts') ->
  r = None /\ commits w' = (w_db w', m) :: commits w.
Proof.
  intros Ht. apply smooth_head in Ht as (_ & _ & Hk & _). rewrite run_call. unfold step_eff. cbn [perform]. rewrite Hk.
  by intros [= <- <- _].
Qed.

(** A compare-and-swap is at worst refused or outpaced. *)
Lemma smooth_cas_loop {X Y} n backoff key (mutate : mutator X Y) : forall w ts r w' ts',
  forallb smooth ts = true -> w_done w = false -> run (cas_loop n backoff key mutate) w ts = (r, w', ts') ->
  (exists y, r = Ok y) \/ (exists x, r = Err (CasMutate x)) \/ r = Err (CasConflict key).
Proof.
  revert backoff. induction n as [|n IH]; intros backoff w ts r w' ts' Ht Hd; cbn [cas_loop]; [cbn [run]; intros; simplify_eq; auto|].
  intros Hrun. apply run_bind_inv in Hrun as (o & w1 & ts1 & H1 & H2). destruct (smooth_run _ _ _ _ _ _ Ht H1) as [Ht1 D1].
  apply smooth_head in Ht as (He & _). rewrite run_call in H1. unfold step_eff in H1. cbn [perform] in H1. unfold etcd_reply in H1.
  rewrite He in H1. injection H1 as <- _ _. apply run_bind_inv in H2 as (now & w2 & ts2 & H2 & H3).
  destruct (smooth_run _ _ _ _ _ _ Ht1 H2) as [Ht2 D2]. destruct (mutate _ _ now) as [[res y]|x]; [|cbn [run] in H3; simplify_eq; eauto].
  apply run_bind_inv in H3 as (b & w3 & ts3 & H3 & H4). destruct (smooth_run _ _ _ _ _ _ Ht2 H3) as [Ht3 D3].
  apply smooth_head in Ht2 as (He2 & _). rewrite run_call in H3. unfold step_eff in H3. cbn [perform] in H3. unfold etcd_reply in H3.
  rewrite He2 in H3. assert (exists c, b = Ok c) as [[] ->]; [destruct (check _ _); injection H3 as <- _ _; eauto|cbn [run] in H4; simplify_eq; eauto|].
  apply run_bind_inv in H4 as (sl & w4 & ts4 & H4 & H5). destruct (smooth_run _ _ _ _ _ _ Ht3 H4) as [Ht4 D4].
  apply smooth_sleep in H4 as ->; [|done]. assert (w_done w3 = false) as Hd3 by congruence. rewrite Hd3 in H5.
  eapply IH; [exact Ht4| |exact H5]. congruence.
Qed.
Lemma smooth_cas {X Y} key (mutate : mutator X Y) w ts r w' ts' :
  forallb smooth ts = true -> w_done w = false -> run (CASWithRevision key mutate) w ts = (r, w', ts') ->
  (exists y, r = Ok y) \/ (exists x, r = Err (CasMutate x)) \/ r = Err (CasConflict key).
Proof. apply smooth_cas_loop. Qed.

(** The revision only grows. *)
Lemma rev_stable R : stable (fun w => R <= et_rev (w_etcd w)).
Proof.
  apply stable_effect.
  - intros t w Hw. rewrite interfere_etcd. pose proof (rev_envs (w_etcd w) (t_env t)). lia.
  - intros w w' Hw []; simpl; try done; rewrite ?rev_put, ?rev_del; repeat case_match; try lia.
    destruct o; simpl; rewrite ?rev_put, ?rev_del; repeat case_match; lia.
Qed.
End smooth.

Section healthy.
Context {J : Jsonb} {P : ProtoEvents} {T : ErrorTexts} `{EtcdLaws E}.
Implicit Types (w : world E).

Definition both : Consumer := MkConsumer true true.

(** The revision an event attests has been reached. *)
Definition attested_ok (value : string) (rev : Z) : Prop :=
  match unmarshal_event value with
  | Some ev => match ev_payload ev with PApply res => ar_applied_mod res <= rev | _ => True end
  | None => True
  end.

Definition settles_or_fails (r : result handleError unit) : Prop :=
  match r with Ok _ => True | Err e => unavailable e = false end.

Lemma upsert_error_final row status now d e :
  UpsertCurrentWithHistory row status now d = Err e -> unavailable (HDb e) = false.
Proof.
  unfold UpsertCurrentWithHistory, upsertCurrent, appendHistoryWithStatus, jsonb_param.
  destruct (ConfigJSON row) as [c|]; [|by intros [= <-]].
  destruct (jsonb_in c); [|by intros [= <-]].
  repeat case_match; intros; by simplify_eq.
Qed.

(** The key a failure report rolls back: the one entry whose changes may keep
    the handler from finishing, since a conflict there counts as an outage. *)
Definition failing_key (value : string) : option string :=
  match unmarshal_event value with
  | Some ev => match ev_payload ev with PApply res => if ar_success res then None else Some (hsiKey (ev_node ev) (ev_user ev)) | _ => None end
  | None => None
  end.
Definition leaves (m : message) (t : turn) : bool :=
  match failing_key (Value m) with Some k => forallb (fun o => negb (touches k o)) (t_env t) | None => true end.
Lemma leaves_calm m k ts : failing_key (Value m) = Some k ->
  forallb smooth ts = true -> forallb (leaves m) ts = true -> forallb (calm k) ts = true.
Proof.
  intros Hk. induction ts as [|t ts IH]; [done|]. cbn [forallb]. intros [Hs Hss]%andb_true_iff [Hl Hls]%andb_true_iff.
  rewrite IH by done. rewrite andb_true_r. unfold calm. unfold leaves in Hl. rewrite Hk in Hl. unfold smooth in Hs. by destruct (t_etcd t).
Qed.

Lemma smooth_record_success ev res t w ts r w' ts' :
  world_wf w -> forallb smooth ts = true -> ar_applied_mod res <= et_rev (w_etcd w) ->
  run (record_success both ev res t) w ts = (r, w', ts') -> settles_or_fails r.
Proof.
  intros Hw Ht Hrev Hrun. unfold record_success in Hrun. cbn [c_etcd both negb] in Hrun.
  apply run_bind_inv in Hrun as (a & w1 & ts1 & H1 & H2). destruct (smooth_run _ _ _ _ _ _ Ht H1) as [Ht1 _].
  destruct a as [[[value rev]|]|e]; [|cbn [run] in H2; by simplify_eq|].
  - apply run_bind_inv in H2 as (u & w2 & ts2 & H2 & H3). apply (smooth_db _ _ _ _ _ _ Ht1) in H2 as (now & d & H2).
    cbn [run] in H3. simplify_eq.
    destruct (UpsertCurrentWithHistory _ _ _ _) as [[a d']|e] eqn:Eq; subst u; simpl; [done|].
    by eapply upsert_error_final.
  - exfalso. clear H2. revert H1. unfold readConfirmedConfig.
    assert (Hcur : forall (compacted : bool) w ts, forallb smooth ts = true -> run (do! resp := call (EGet (hsiKey (ev_node ev) (ev_user ev))) in
      Ret (match resp with Err e => Err (HEtcd (FRequest e)) | Ok None => Ok None
           | Ok (Some e) => Ok (Some (kv_bytes (kv_value e), if compacted then ar_applied_mod res else kv_mod e)) end)) w ts
      <> (Err e, w1, ts1)).
    { intros compacted w2 ts2 Ht2. apply smooth_head in Ht2 as (He & _). rewrite run_call_bind. unfold step_eff. cbn [perform]. unfold etcd_reply.
      rewrite He. cbn iota. by destruct (et_get _ _). }
    destruct (0 <? ar_applied_mod res); [|exact (Hcur false w ts Ht)].
    pose proof (smooth_head _ Ht) as (He & _). rewrite run_call_bind. unfold step_eff. cbn [perform]. rewrite He.
    set (w0 := interfere (hd quiet ts) w).
    assert (Hw0 : world_wf w0) by (eapply drift_wf; [apply interfere_drift|done]).
    assert (Hrev0 : ar_applied_mod res <= et_rev (w_etcd w0)) by (unfold w0; rewrite interfere_etcd; pose proof (rev_envs (w_etcd w) (t_env (hd quiet ts))); lia).
    destruct (et_at (w_etcd w0) _ (ar_applied_mod res)) as [[x|]|x] eqn:Ea; cbn [run]; [by intros; simplify_eq..|].
    apply at_error in Ea; [|done|done]. subst x. cbn [run]. exact (Hcur true w0 (tl ts) (ok_tl _ _ Ht)).
Qed.

Lemma smooth_record_failure ev res w ts r w' ts' :
  world_wf w -> w_done w = false -> forallb smooth ts = true -> forallb (calm (hsiKey (ev_node ev) (ev_user ev))) ts = true ->
  run (record_failure both ev res) w ts = (r, w', ts') -> r = Ok tt.
Proof.
  intros Hw Hd Ht Hc Hrun. unfold record_failure in Hrun.
  apply run_bind_inv in Hrun as (a & w1 & ts1 & H1 & H2). destruct (smooth_run _ _ _ _ _ _ Ht H1) as [Ht1 D1].
  pose proof (run_ok _ _ _ _ _ _ _ Hc H1) as Hc1.
  pose proof (run_wf (call (EDb (GetLastSuccessfulConfig (ev_node ev) (ev_user ev)))) w ts Hw) as Hw1.
  unfold final in Hw1. rewrite H1 in Hw1. apply (smooth_db _ _ _ _ _ _ Ht) in H1 as (now & d & ->).
  apply run_bind_inv in H2 as (u & w2 & ts2 & H2 & H3). destruct (smooth_run _ _ _ _ _ _ Ht1 H2) as [Ht2 _].
  assert (u = Ok tt) as ->.
  { cbn [c_etcd both] in H2. unfold rollback_etcd in H2. apply run_bind_inv in H2 as (k & w3 & ts3 & H2 & H4).
    cbn [run] in H4. unfold CASWithRevision in H2. change casMaxRetries with 5%nat in H2.
    match type of H2 with run (cas_loop _ _ ?key ?mutate) _ _ = _ =>
      destruct (cas_loop_calm 4 casInitialBackoff key mutate w1 ts1 Hw1 Hc1) as (now1 & _ & Ho) end.
    unfold outcome in Ho. rewrite H2 in Ho. cbn [fst] in Ho. subst k.
    destruct (sees _ _ _ _) as [[? y]|x]; by simplify_eq. }
  apply run_bind_inv in H3 as (k & w3 & ts3 & H3 & H4). apply (smooth_db _ _ _ _ _ _ Ht2) in H3 as (now2 & d2 & H3). cbn [run] in H4. simplify_eq.
  revert H3. unfold RollbackToLastSuccessful, appendHistoryWithStatus. simpl. destruct (existsb _ _); intros ->; done.
Qed.
Lemma smooth_discard p t reason w ts r w' ts' :
  forallb smooth ts = true -> run (recordOfflineEditDiscard both p t reason) w ts = (r, w', ts') -> r = Ok tt.
Proof.
  unfold recordOfflineEditDiscard. cbn [c_db both negb]. intros Ht Hrun.
  apply run_bind_inv in Hrun as (k & w1 & ts1 & H1 & H2). apply (smooth_db _ _ _ _ _ _ Ht) in H1 as (now & d & H1). cbn [run] in H2. simplify_eq.
  revert H1. unfold InsertNodeEvent. destruct (existsb _ _); intros ->; done.
Qed.

Lemma smooth_cascade p w ts r w' ts' :
  forallb smooth ts = true -> run (cascadeDNS p) w ts = (r, w', ts') -> r = Ok tt.
Proof.
  unfold cascadeDNS, DeleteSubscriberDNS. destruct (op_deleted p); [|cbn [run]; intros; by simplify_eq].
  intros Ht Hrun. apply run_bind_inv in Hrun as (k & w1 & ts1 & H1 & H2).
  apply run_bind_inv in H1 as (k' & w2 & ts2 & H1 & H3). cbn [run] in H2, H3. simplify_eq.
  apply smooth_head in Ht as (He & _). revert H1. rewrite run_call. unfold step_eff. cbn [perform]. unfold etcd_reply. rewrite He.
  intros; by simplify_eq.
Qed.

Lemma smooth_handle m w ts r w' ts' :
  world_wf w -> w_done w = false -> forallb smooth ts = true -> forallb (leaves m) ts = true ->
  attested_ok (Value m) (et_rev (w_etcd w)) ->
  run (handle both (Value m)) w ts = (r, w', ts') -> settles_or_fails r.
Proof.
  intros Hw Hdn Ht Hl Hat Hrun. unfold handle in Hrun. unfold attested_ok in Hat.
  destruct (unmarshal_event (Value m)) as [ev|] eqn:Eu; [|cbn [run] in Hrun; by simplify_eq].
  destruct (ev_payload ev) as [res|change|re|edit|] eqn:Ep; [| | | |cbn [run] in Hrun; by simplify_eq].
  - unfold handleConfigApplyResult in Hrun. apply run_bind_inv in Hrun as (u & w1 & ts1 & H1 & H2).
    destruct (smooth_run _ _ _ _ _ _ Ht H1) as [Ht1 D1]. pose proof (run_ok _ _ _ _ _ _ _ Hl H1) as Hl1.
    assert (u = Ok tt) as ->.
    { destruct (negb _); [|cbn [run] in H1; by simplify_eq].
      apply run_bind_inv in H1 as (k & w2 & ts2 & H1 & H3). apply (smooth_db _ _ _ _ _ _ Ht) in H1 as (now & d & H1). cbn [run] in H3. simplify_eq.
      revert H1. unfold InsertNodeEvent. destruct (existsb _ _); intros ->; done. }
    match type of H1 with run ?p _ _ = _ => pose proof (run_wf p w ts Hw) as Hw1;
      pose proof (run_stable _ p w ts (rev_stable (ar_applied_mod res)) Hat) as Hr1 end.
    unfold final in Hw1, Hr1. rewrite H1 in Hw1, Hr1. simpl in Hw1, Hr1.
    destruct (ar_success res) eqn:Es; [by eapply smooth_record_success|].
    apply smooth_record_failure in H2 as ->; [done|done|congruence|done|].
    eapply leaves_calm; [|done..]. unfold failing_key. by rewrite Eu, Ep, Es.
  - apply run_bind_inv in Hrun as (k & w1 & ts1 & H1 & H2). apply (smooth_db _ _ _ _ _ _ Ht) in H1 as (now & d & H1). cbn [run] in H2.
    simpl in H1. by simplify_eq.
  - apply run_bind_inv in Hrun as (k & w1 & ts1 & H1 & H2). apply (smooth_db _ _ _ _ _ _ Ht) in H1 as (now & d & H1). cbn [run] in H2. simplify_eq.
    revert H1. unfold InsertNodeEvent. destruct (existsb _ _); by intros ->.
  - unfold handleConfigOfflineEdit in Hrun. destruct (prepareOfflineEdit ev edit) as [p|e];
      [|cbn [run] in Hrun; by simplify_eq].
    cbn [c_etcd both negb] in Hrun. apply run_bind_inv in Hrun as (k & w1 & ts1 & H1 & H2).
    destruct (smooth_run _ _ _ _ _ _ Ht H1) as [Ht1 _].
    destruct (smooth_cas (op_key p) (fun cur _ now => offline_mutate p cur now) _ _ _ _ _ Ht Hdn H1) as [[y ->]|[[[|reason] ->]| ->]].
    + by apply smooth_cascade in H2 as ->.
    + by apply smooth_cascade in H2 as ->.
    + by apply smooth_discard in H2 as ->.
    + cbn [run] in H2. by simplify_eq.
Qed.

Lemma attested_run {A} (p : prog A) m w ts a w' ts' :
  attested_ok (Value m) (et_rev (w_etcd w)) -> run p w ts = (a, w', ts') -> attested_ok (Value m) (et_rev (w_etcd w')).
Proof.
  intros Hat Hr. pose proof (run_stable _ p w ts (rev_stable (et_rev (w_etcd w))) (Z.le_refl _)) as Hrev.
  unfold final in Hrev. rewrite Hr in Hrev. simpl in Hrev. revert Hat. unfold attested_ok.
  destruct (unmarshal_event _) as [ev|]; [|done]. destruct (ev_payload ev); try done. lia.
Qed.
Lemma wf_run {A} (p : prog A) w ts a w' ts' : world_wf w -> run p w ts = (a, w', ts') -> world_wf w'.
Proof. intros Hw Hr. pose proof (run_wf p w ts Hw) as Hw'. unfold final in Hw'. by rewrite Hr in Hw'. Qed.

(** At most [n] more failures fit before the loop gives the message up. *)
Lemma smooth_attempts n : forall m a b i s failed w ts r w' ts',
  world_wf w -> w_done w = false -> forallb smooth ts = true -> forallb (leaves m) ts = true ->
  attested_ok (Value m) (et_rev (w_etcd w)) -> maxRetries <= a + Z.of_nat n ->
  run (attempts (S n) both m a b i s failed) w ts = (r, w', ts') -> exists f, r = Some (LoopBreak f).
Proof.
  induction n as [|n IH]; intros m a b i s failed w ts r w' ts' Hw Hdn Ht Hl Hat Ha Hrun; cbn [attempts] in Hrun;
    apply run_bind_inv in Hrun as (ended & w1 & ts1 & H1 & H2);
    destruct (smooth_run _ _ _ _ _ _ Ht H1) as [Ht1 D1]; pose proof (run_ok _ _ _ _ _ _ _ Hl H1) as Hl1;
    pose proof (smooth_ctx _ _ _ _ _ Ht H1) as ->; rewrite Hdn in H2;
    pose proof (attested_run _ _ _ _ _ _ _ Hat H1) as Hat1; pose proof (wf_run _ _ _ _ _ _ Hw H1) as Hw1;
    assert (w_done w1 = false) as Hd1 by congruence;
    apply run_bind_inv in H2 as (k & w2 & ts2 & H2 & H3);
    pose proof (smooth_handle _ _ _ _ _ _ Hw1 Hd1 Ht1 Hl1 Hat1 H2) as Hs;
    (destruct k as [[]|e]; [cbn [run] in H3; simplify_eq; by exists false|]); simpl in Hs; rewrite Hs in H3.
  - destruct (Z.leb_spec maxRetries a); [|lia]. cbn [run] in H3. simplify_eq. by exists true.
  - destruct (maxRetries <=? a); [cbn [run] in H3; simplify_eq; by exists true|].
    destruct (smooth_run _ _ _ _ _ _ Ht1 H2) as [Ht2 D2]. pose proof (run_ok _ _ _ _ _ _ _ Hl1 H2) as Hl2.
    pose proof (attested_run _ _ _ _ _ _ _ Hat1 H2) as Hat2. pose proof (wf_run _ _ _ _ _ _ Hw1 H2) as Hw2.
    apply run_bind_inv in H3 as (sl & w3 & ts3 & H3 & H4). destruct (smooth_run _ _ _ _ _ _ Ht2 H3) as [Ht3 D3].
    pose proof (smooth_sleep _ _ _ _ _ _ _ Ht2 H3) as ->.
    assert (w_done w2 = false) as Hd2 by congruence. rewrite Hd2 in H4.
    eapply (IH m); [by eapply wf_run|congruence|done|by eapply run_ok|by eapply attested_run| |exact H4]. lia.
Qed.
End healthy.

(** ** One message *)

(** Without failures every message, poison included, is taken care of and its
    offset committed within five attempts, whatever others write meanwhile --
    unless it attests an etcd revision that does not exist yet, or reports a
    failure of a config that others are changing. *)
Lemma healthy_message_completes `{Jsonb, ProtoEvents, ErrorTexts, EtcdLaws E} m (w : world E) ts r w' ts' :
  world_wf w -> w_done w = false -> forallb smooth ts = true -> forallb (leaves m) ts = true ->
  attested_ok (Value m) (et_rev (w_etcd w)) -> run (handleOne 5 both m) w ts = (r, w', ts') ->
  r = Some true /\ commits w' = (w_db w', [m]) :: commits w.
Proof.
  intros Hw Hd Ht Hl Hat Hrun.
  unfold handleOne in Hrun. apply run_bind_inv in Hrun as (e & w1 & ts1 & H1' & H2').
  pose proof (run_no_broker _ _ _ _ _ _ (attempts_uses 5 both m _ _ _ _ _) H1') as C1.
  destruct (smooth_run _ _ _ _ _ _ Ht H1') as [Ht1 D1].
  destruct (smooth_attempts 4 m 1 _ _ _ _ _ _ _ _ _ Hw Hd Ht Hl Hat ltac:(unfold maxRetries; lia) H1') as (failed & ->).
  apply run_bind_inv in H2' as (sent & w2 & ts2 & H2' & H3'). destruct (smooth_run _ _ _ _ _ _ Ht1 H2') as [Ht2 D2].
  assert (sent = Some tt /\ commits w2 = commits w1) as [-> C2].
  { destruct failed; [|cbn [run] in H2'; by simplify_eq].
    apply run_bind_inv in H2' as (ended & w3 & ts3 & H4 & H5). destruct (smooth_run _ _ _ _ _ _ Ht1 H4) as [Ht3 D3].
    pose proof (smooth_ctx _ _ _ _ _ Ht1 H4) as ->. rewrite D1, Hd in H5.
    apply run_ctx_inv in H4 as (_ & _ & _ & C3).
    pose proof (run_no_broker _ _ _ _ _ _ (waitAndSendToDLQ_uses 5 both m) H5) as C4. split; [|congruence].
    cbn [waitAndSendToDLQ] in H5. apply run_bind_inv in H5 as (ended & w4 & ts4 & H6 & H7).
    destruct (smooth_run _ _ _ _ _ _ Ht3 H6) as [Ht4 _]. pose proof (smooth_ctx _ _ _ _ _ Ht3 H6) as ->. rewrite D3, D1, Hd in H7.
    apply run_bind_inv in H7 as (k & w5 & ts5 & H7 & H8).
    unfold sendToDLQ in H7. cbn [c_db both negb] in H7. apply run_bind_inv in H7 as (k' & w6 & ts6 & H7 & H9).
    apply (smooth_db _ _ _ _ _ _ Ht4) in H7 as (now & d & H7). cbn [run] in H9.
    destruct (SendToDLQ_records (Topic m) (Partition m) (Offset m) (Value m) dlq_text now d) as (id & d' & Hq & _).
    rewrite Hq in H7. subst k'. simplify_eq. cbn [run] in H8. by simplify_eq. }
  apply run_bind_inv in H3' as (ended & w3 & ts3 & H4 & H5). destruct (smooth_run _ _ _ _ _ _ Ht2 H4) as [Ht3 D3].
  pose proof (smooth_ctx _ _ _ _ _ Ht2 H4) as ->. apply run_ctx_inv in H4 as (_ & _ & _ & C3). rewrite D2, D1, Hd in H5.
  apply run_bind_inv in H5 as (k & w4 & ts4 & H5 & H6). cbn [run] in H6. simplify_eq. split; [done|].
  apply (smooth_commit _ _ _ _ _ _ Ht3) in H5 as [-> ->]. congruence.
Qed.
Lemma healthy_message_completes_witness :
  let m := Msg "t" 0 7 "3" in
  outcome (handleOne 5 both m) world0 [] = Some true /\
  exists d, commits (final (handleOne 5 both m) world0 []) = (d, [m]) :: commits world0.
Proof.
  intros m. unfold outcome, final. destruct (run (handleOne 5 both m) world0 []) as [[r w'] ts'] eqn:Hrun.
  apply healthy_message_completes in Hrun as [Hr Hc]; [|apply world0_wf|reflexivity..|exact I]. cbn [fst snd]. eauto.
Qed.

(** *** Whole sessions *)

Section session.
Context {J : Jsonb} {P : ProtoEvents} {T : ErrorTexts} `{EtcdLaws E}.
Implicit Types (w : world E).

(** The process goes on, no revision an event attests is ahead of etcd, nothing
    fails and nobody changes a config whose failure is reported. *)
Definition undisturbed (log : list message) (t : turn) : bool := smooth t && forallb (fun m => leaves m t) log.
Definition going_on (log : list message) w (ts : list turn) : Prop :=
  world_wf w /\ w_done w = false /\ Forall (fun m => attested_ok (Value m) (et_rev (w_etcd w))) log /\ forallb (undisturbed log) ts = true.
(** From [w] to [w'] exactly the messages of [log] were committed, in order. *)
Definition committed (log : list message) w w' : Prop :=
  exists news, commits w' = (news ++ commits w)%list /\ concat (reverse news).*2 = log.

Lemma committed_app l1 l2 w1 w2 w3 : committed l1 w1 w2 -> committed l2 w2 w3 -> committed (l1 ++ l2) w1 w3.
Proof using Type.
  intros (n1 & C1 & <-) (n2 & C2 & <-). exists (n2 ++ n1)%list. split; [by rewrite C2, C1, app_assoc|].
  by rewrite reverse_app, fmap_app, concat_app.
Qed.
Lemma committed_none w w' : commits w' = commits w -> committed [] w w'.
Proof using Type. intros Hc. by exists []. Qed.

Lemma undisturbed_app l1 l2 ts :
  forallb (undisturbed (l1 ++ l2)) ts = true <-> forallb (undisturbed l1) ts = true /\ forallb (undisturbed l2) ts = true.
Proof using Type.
  unfold undisturbed. induction ts as [|t ts IH]; [done|]. cbn [forallb]. rewrite !andb_true_iff, IH, forallb_app, andb_true_iff. tauto.
Qed.
Lemma undisturbed_smooth log ts : forallb (undisturbed log) ts = true -> forallb smooth ts = true.
Proof using Type.
  unfold undisturbed. induction ts as [|t ts IH]; [done|]. cbn [forallb]. intros [[-> _]%andb_true_iff Hts]%andb_true_iff. by rewrite IH.
Qed.
Lemma undisturbed_leaves m ts : forallb (undisturbed [m]) ts = true -> forallb (leaves m) ts = true.
Proof using Type.
  unfold undisturbed. induction ts as [|t ts IH]; [done|]. cbn [forallb]. rewrite andb_true_r.
  intros [[_ ->]%andb_true_iff Hts]%andb_true_iff. by rewrite IH.
Qed.
Lemma going_on_smooth log w ts : going_on log w ts -> forallb smooth ts = true.
Proof using Type. intros (_ & _ & _ & Ht). by eapply undisturbed_smooth. Qed.
Lemma going_on_run {A} (p : prog A) log w ts a w' ts' : run p w ts = (a, w', ts') -> going_on log w ts -> going_on log w' ts'.
Proof using Type*.
  intros Hr Hg. pose proof (going_on_smooth _ _ _ Hg) as Hs. destruct Hg as (Hw & Hd & Hf & Ht).
  destruct (smooth_run _ _ _ _ _ _ Hs Hr) as [_ Hd']. split_and!; [by eapply wf_run|congruence| |by eapply run_ok].
  eapply Forall_impl; [exact Hf|]. intros m Hm. exact (attested_run _ _ _ _ _ _ _ Hm Hr).
Qed.
Lemma going_on_app l1 l2 w ts : going_on (l1 ++ l2) w ts <-> going_on l1 w ts /\ going_on l2 w ts.
Proof using Type. unfold going_on. rewrite Forall_app, undisturbed_app. tauto. Qed.
Lemma going_on_ctx log w ts b w' ts' : going_on log w ts -> run (call ECtx) w ts = (b, w', ts') -> b = false.
Proof using Type. intros Hg Hr. apply (smooth_ctx _ _ _ _ _ (going_on_smooth _ _ _ Hg)) in Hr as ->. apply Hg. Qed.

Lemma healthy_handleOne m w ts r w' ts' :
  going_on [m] w ts -> run (handleOne 5 both m) w ts = (r, w', ts') -> r = Some true /\ commits w' = (w_db w', [m]) :: commits w.
Proof using Type*.
  intros Hg. pose proof (going_on_smooth _ _ _ Hg) as Hs. destruct Hg as (Hw & Hd & [Hm _]%Forall_cons & Ht).
  exact (healthy_message_completes m w ts r w' ts' Hw Hd Hs (undisturbed_leaves _ _ Ht) Hm).
Qed.
Lemma healthy_handle_each batch : forall w ts r w' ts',
  going_on batch w ts -> run (handle_each 5 both batch) w ts = (r, w', ts') -> r = Some true /\ committed batch w w'.
Proof using Type*.
  induction batch as [|m batch IH]; intros w ts r w' ts' Hg Hrun; cbn [handle_each] in Hrun.
  { cbn [run] in Hrun. simplify_eq. split; [done|]. by apply committed_none. }
  apply run_bind_inv in Hrun as (o & w1 & ts1 & H1 & H2). apply (going_on_app [m]) in Hg as [Hg Hgs].
  pose proof (going_on_run _ _ _ _ _ _ _ H1 Hgs) as Hg1. apply (healthy_handleOne _ _ _ _ _ _ Hg) in H1 as [-> Hc].
  destruct (IH _ _ _ _ _ Hg1 H2) as [-> Hcs]. split; [done|].
  apply (committed_app [m] batch w w1); [|done]. by exists [(w_db w1, [m])].
Qed.
Lemma healthy_process batch w ts r w' ts' :
  going_on batch w ts -> run (process_batch 5 both batch) w ts = (r, w', ts') -> r = Some true /\ committed batch w w'.
Proof using Type*.
  intros Hg Hrun. unfold process_batch in Hrun. apply run_bind_inv in Hrun as (written & w1 & ts1 & H1 & H2).
  pose proof (going_on_run _ _ _ _ _ _ _ H1 Hg) as Hg1. apply run_no_broker in H1; [|apply writePPPoEBatch_uses].
  destruct written.
  - apply run_bind_inv in H2 as (k & w2 & ts2 & H2 & H3). cbn [run] in H3. simplify_eq. split; [done|].
    apply (smooth_commit _ _ _ _ _ _ (going_on_smooth _ _ _ Hg1)) in H2 as [_ Hc].
    exists [(w_db w', batch)]. split; [|apply app_nil_r]. rewrite Hc. simpl. by f_equal.
  - destruct (healthy_handle_each _ _ _ _ _ _ Hg1 H2) as [-> (news & Hc & Hl)]. split; [done|]. exists news. by rewrite Hc, H1.
Qed.

(** What every batch achieves and what composes, the session achieves, whatever
    the others, as long as they are [ok], write along [R]. *)
Variables (R : db -> db -> Prop) (ok : turn -> bool) (fine : message -> Prop) (Q : list message -> world E -> world E -> Prop).
Context {HR : PreOrder R}.
Hypothesis R_turn : forall t now d, ok t = true -> R d (fold_left (apply_sql now) (t_sql t) d).
Hypothesis Q_none : forall w w', R (w_db w) (w_db w') -> commits w' = commits w -> Q [] w w'.
Hypothesis Q_app : forall l1 l2 w1 w2 w3, Q l1 w1 w2 -> Q l2 w2 w3 -> Q (l1 ++ l2)%list w1 w3.
Hypothesis Q_batch : forall batch w ts r w' ts',
  going_on batch w ts -> forallb ok ts = true -> Forall fine batch ->
  run (process_batch 5 both batch) w ts = (r, w', ts') -> r = Some true /\ Q batch w w'.

(** The clock, sleeping and the context leave nothing. *)
Lemma Q_harmless {X} (e : eff X) log w ts r w1 w2 ts' :
  no_sql X e && no_broker X e = true -> forallb ok ts = true -> run (call e) w ts = (r, w1, ts') -> Q log w1 w2 -> Q log w w2.
Proof using HR R_turn Q_none Q_app.
  intros [Hs Hb]%andb_true_iff Ht Hr Hq. apply (Q_app [] log w w1); [|done]. apply Q_none.
  - by apply (rel_no_sql R ok R_turn (call e) w ts r w1 ts').
  - by apply (run_no_broker (call e) w ts r w1 ts').
Qed.

Lemma healthy_loop fetches : forall last w ts r w' ts',
  going_on (fetched fetches) w ts -> forallb ok ts = true -> Forall fine (fetched fetches) ->
  run (Run_loop 5 both fetches last) w ts = (r, w', ts') ->
  (exists last', r = Some last') /\ Q (fetched fetches) w w'.
Proof using All.
  induction fetches as [|f fetches IH]; intros last w ts r w' ts' Hg Ht Hok Hrun; cbn [Run_loop] in Hrun.
  { cbn [run] in Hrun. simplify_eq. split; [eauto|]. by apply Q_none. }
  apply run_bind_inv in Hrun as (b & w1 & ts1 & H1 & H2). pose proof (going_on_run _ _ _ _ _ _ _ H1 Hg) as Hg1.
  pose proof (run_ok _ _ _ _ _ _ _ Ht H1) as Ht1. pose proof (going_on_ctx _ _ _ _ _ _ Hg H1) as ->.
  enough ((exists last', r = Some last') /\ Q (fetched (f :: fetches)) w1 w') as [Hr Hq]
    by (split; [done|]; by eapply (Q_harmless ECtx); [..|exact H1|]).
  destruct f as [|first waiting].
  - apply run_bind_inv in H2 as (b & w2 & ts2 & H2 & H3). pose proof (going_on_run _ _ _ _ _ _ _ H2 Hg1) as Hg2.
    pose proof (run_ok _ _ _ _ _ _ _ Ht1 H2) as Ht2. pose proof (going_on_ctx _ _ _ _ _ _ Hg1 H2) as ->.
    apply run_bind_inv in H3 as (b & w3 & ts3 & H3 & H4). pose proof (going_on_run _ _ _ _ _ _ _ H3 Hg2) as Hg3.
    destruct (IH _ _ _ _ _ _ Hg3 (run_ok _ _ _ _ _ _ _ Ht2 H3) Hok H4) as [Hr Hc]. split; [done|].
    eapply (Q_harmless ECtx); [done|exact Ht1|exact H2|]. by eapply (Q_harmless (ESleep retryInterval false)); [..|exact H3|].
  - apply run_bind_inv in H2 as (now & w2 & ts2 & H2 & H3). pose proof (going_on_run _ _ _ _ _ _ _ H2 Hg1) as Hg2.
    pose proof (run_ok _ _ _ _ _ _ _ Ht1 H2) as Ht2.
    change (fetched (Fetched first waiting :: fetches)) with (collectBatch first waiting ++ fetched fetches)%list in *.
    apply going_on_app in Hg2 as [Hb Hf]. apply Forall_app in Hok as [Hok1 Hok2].
    apply run_bind_inv in H3 as (o & w3 & ts3 & H3 & H4). pose proof (going_on_run _ _ _ _ _ _ _ H3 Hf) as Hg3.
    pose proof (run_ok _ _ _ _ _ _ _ Ht2 H3) as Ht3.
    destruct (Q_batch _ _ _ _ _ _ Hb Ht2 Hok1 H3) as [-> Hc3]. destruct (IH _ _ _ _ _ _ Hg3 Ht3 Hok2 H4) as [Hr Hc]. split; [done|].
    eapply (Q_harmless ENow); [done|exact Ht1|exact H2|]. by eapply Q_app.
Qed.

Lemma healthy_session client cfg republish rounds fetches w ts r w' ts' :
  going_on (fetched fetches) w ts -> forallb ok ts = true -> Forall fine (fetched fetches) ->
  run (Run 5 client cfg republish both rounds fetches) w ts = (r, w', ts') ->
  (exists seed work last, r = Some (negativeLagGuard client cfg, work, Some last) /\ beginSession republish seed = (seed, work)) /\
  Q (fetched fetches) w w'.
Proof using All.
  intros Hg Ht Hok Hrun. apply run_bind_inv in Hrun as (start & w1 & ts1 & H1 & H2).
  pose proof (going_on_run _ _ _ _ _ _ _ H1 Hg) as Hg1. pose proof (run_ok _ _ _ _ _ _ _ Ht H1) as Ht1.
  pose proof (run_no_broker _ _ _ _ _ _ (Run_start_uses client cfg rounds) H1) as C1.
  pose proof (rel_no_sql R ok R_turn _ _ _ _ _ _ Ht (Run_start_no_sql client cfg rounds) H1) as D1.
  unfold Run_start in H1. apply run_bind_inv in H1 as (b & w2 & ts2 & H3 & H4).
  pose proof (going_on_run _ _ _ _ _ _ _ H3 Hg) as Hg2.
  apply run_bind_inv in H4 as (b' & w3 & ts3 & H4 & H5). pose proof (going_on_ctx _ _ _ _ _ _ Hg2 H4) as ->.
  apply run_bind_inv in H5 as (now & w4 & ts4 & _ & H6). cbn [run] in H6. simplify_eq. cbn [beginSession] in H2.
  apply run_bind_inv in H2 as (o & w5 & ts5 & H2 & H7). cbn [run] in H7. simplify_eq.
  destruct (healthy_loop _ _ _ _ _ _ _ Hg1 Ht1 Hok H2) as [(last & ->) Hq]. split; [by eexists now, _, last|].
  apply (Q_app [] _ w w1); [|done]. by apply Q_none.
Qed.
End session.

(** C22: on healthy backends a session of the consumer gets through everything it
    fetches, poison messages and failed fetches included, whatever other clients
    and replicas write meanwhile: it ends by itself, and the committed messages
    are exactly the fetched ones, in their order, five attempts each being enough
    -- provided no message attests an etcd revision that does not exist yet, and
    nobody changes a config whose failure is being reported. *)
Theorem healthy_session_completes `{Jsonb, ProtoEvents, ErrorTexts, EtcdLaws E} client cfg republish rounds fetches (w : world E) ts :
  going_on (fetched fetches) w ts ->
  (exists seed work last, outcome (Run 5 client cfg republish both rounds fetches) w ts =
    Some (negativeLagGuard client cfg, work, Some last) /\ beginSession republish seed = (seed, work)) /\
  committed (fetched fetches) w (final (Run 5 client cfg republish both rounds fetches) w ts).
Proof.
  intros Hg. unfold outcome, final. destruct (run _ w ts) as [[r w'] ts'] eqn:Hrun. cbn [fst snd].
  assert (HR : PreOrder (fun _ _ : db => True)) by (by split).
  apply (healthy_session (fun _ _ => True) (fun _ => true) (fun _ => True) committed) in Hrun; try done.
  - intros. by apply committed_none.
  - apply committed_app.
  - intros batch w1 ts1 r1 w1' ts1' Hb _ _. by apply healthy_process.
  - apply all_turns.
  - by apply Forall_true.
Qed.
(** Another client writes etcd, and another replica the tables, meanwhile. *)
Definition lively : list turn :=
  [quiet; Turn [EvPut "configs/n/hsi/9" "{}"] 1000 None None None false false [SqlStatus (MkPPPoE "n" "9" "connected" "" "" "" "" "" "" 5 0)]].
Lemma healthy_session_completes_witness :
  (exists seed work last, outcome (Run 5 (broker_client "t" []) session_cfg true both [[Some 1%N]] two_bursts) world0 lively =
    Some (None, work, Some last) /\ beginSession true seed = (seed, work)) /\
  committed (fetched two_bursts) world0 (final (Run 5 (broker_client "t" []) session_cfg true both [[Some 1%N]] two_bursts) world0 lively).
Proof.
  apply (healthy_session_completes (broker_client "t" []) session_cfg true [[Some 1%N]] two_bursts world0 lively).
  split; [apply world0_wf|]. split; [reflexivity|]. split; [repeat constructor|reflexivity].
Defined.

(** ** The message that never leaves *)

Section stall.
Context {J : Jsonb} {P : ProtoEvents} {T : ErrorTexts} `{EtcdLaws E}.
Implicit Types (w : world E).

(** A success report attesting a revision beyond the store's. *)
Definition attests_future (value : string) (rev : Z) : Prop :=
  exists ev res, unmarshal_event value = Some ev /\ ev_payload ev = PApply res /\
    ar_success res = true /\ 0 < ar_applied_mod res /\ rev < ar_applied_mod res.

Lemma wf_after {A} (p : prog A) w ts a w' ts' : world_wf w -> run p w ts = (a, w', ts') -> world_wf w'.
Proof. intros Hw Hr. pose proof (run_wf p w ts Hw) as Hf. unfold final in Hf. by rewrite Hr in Hf. Qed.

Lemma handle_future v w ts r w' ts' :
  world_wf w -> forallb smooth ts = true -> attests_future v (et_rev (in_the_end w ts)) ->
  run (handle both v) w ts = (r, w', ts') ->
  r = Err (HEtcd (FRequest EtcdFutureRev)) /\ in_the_end w' ts' = in_the_end w ts.
Proof.
  intros Hw Hs (ev & res & Hu & Hp & Hok & Hpos & Hrev). unfold handle. rewrite Hu, Hp. unfold handleConfigApplyResult. intros Hrun.
  apply run_bind_inv in Hrun as (u & w1 & ts1 & H1 & H2). destruct (smooth_run _ _ _ _ _ _ Hs H1) as [Hs1 _].
  assert (He : in_the_end w1 ts1 = in_the_end w ts) by (eapply reading_run; [|exact H1]; by destruct (negb _)).
  pose proof (wf_after _ _ _ _ _ _ Hw H1) as Hw1.
  assert (u = Ok tt) as ->.
  { destruct (negb _); [|cbn [run] in H1; by simplify_eq]. apply run_bind_inv in H1 as (k & w2 & ts2 & H1 & H3).
    apply (smooth_db _ _ _ _ _ _ Hs) in H1 as (now & d & H1). cbn [run] in H3. unfold InsertNodeEvent in H1.
    destruct (existsb _ _); subst k; by simplify_eq. }
  rewrite Hok in H2. unfold record_success, readConfirmedConfig in H2. cbn [c_etcd both negb] in H2. apply Z.ltb_lt in Hpos. rewrite Hpos in H2.
  apply run_bind_inv in H2 as (a & w2 & ts2 & H2 & H3). rewrite run_call_bind in H2. unfold step_eff in H2. cbn [perform] in H2.
  destruct (smooth_head _ Hs1) as (Hte & _). rewrite Hte in H2. cbn iota in H2. rewrite at_future in H2; cycle 1.
  { rewrite interfere_etcd. by apply wf_envs. }
  { rewrite <-He, in_the_end_now in Hrev. eapply Z.le_lt_trans; [apply rev_envs|exact Hrev]. }
  cbn [run] in H2. simplify_eq. cbn [run] in H3. simplify_eq. split; [done|]. by rewrite <-He, (in_the_end_now w1).
Qed.

Lemma attempts_future fuel : forall m a b i s failed w ts,
  world_wf w -> w_done w = false -> forallb smooth ts = true -> attests_future (Value m) (et_rev (in_the_end w ts)) ->
  outcome (attempts fuel both m a b i s failed) w ts = None.
Proof.
  induction fuel as [|fuel IH]; intros m a b i s failed w ts Hw Hd Hs Hf; [done|]. unfold outcome. cbn [attempts].
  destruct (run _ w ts) as [[r w'] ts'] eqn:Hrun. simpl.
  apply run_bind_inv in Hrun as (ended & w1 & ts1 & H1 & H2). destruct (smooth_run _ _ _ _ _ _ Hs H1) as [Hs1 D1].
  pose proof (smooth_ctx _ _ _ _ _ Hs H1) as ->. rewrite Hd in H2. pose proof (reading_run (call ECtx) _ _ _ _ _ ltac:(done) H1) as E1.
  pose proof (wf_after _ _ _ _ _ _ Hw H1) as Hw1.
  apply run_bind_inv in H2 as (k & w2 & ts2 & H2 & H3). destruct (smooth_run _ _ _ _ _ _ Hs1 H2) as [Hs2 D2].
  pose proof (wf_after _ _ _ _ _ _ Hw1 H2) as Hw2.
  destruct (handle_future _ _ _ _ _ _ Hw1 Hs1 ltac:(by rewrite E1) H2) as [-> E2].
  change (unavailable (HEtcd (FRequest EtcdFutureRev))) with true in H3. cbn iota in H3.
  apply run_bind_inv in H3 as (now & w3 & ts3 & H3 & H4). destruct (smooth_run _ _ _ _ _ _ Hs2 H3) as [Hs3 D3].
  pose proof (reading_run (call ENow) _ _ _ _ _ ltac:(done) H3) as E3.
  pose proof (wf_after _ _ _ _ _ _ Hw2 H3) as Hw3.
  destruct (stall_retry s now), (infraNext i).
  apply run_bind_inv in H4 as (sl & w4 & ts4 & H4 & H5). destruct (smooth_run _ _ _ _ _ _ Hs3 H4) as [Hs4 D4].
  pose proof (reading_run (call (ESleep _ _)) _ _ _ _ _ ltac:(done) H4) as E4.
  pose proof (wf_after _ _ _ _ _ _ Hw3 H4) as Hw4.
  match type of H5 with run (attempts _ _ _ ?a ?b ?i ?s ?f) _ _ = _ => pose proof (IH m a b i s f w4 ts4) as IH4 end.
  unfold outcome in IH4. rewrite H5 in IH4. apply IH4; [done|congruence|done|]. by rewrite E4, E3, E2, E1.
Qed.
End stall.

(** C37: a success report attesting a revision etcd has not reached is never
    settled before etcd reaches it: the refusal is taken for an outage, so however
    long the consumer runs on healthy backends, whatever others write below that
    revision, it keeps retrying and commits nothing. *)
Theorem future_revision_stalls `{Jsonb, ProtoEvents, ErrorTexts, EtcdLaws E} fuel m (w : world E) ts :
  world_wf w -> w_done w = false -> forallb smooth ts = true -> attests_future (Value m) (et_rev (in_the_end w ts)) ->
  outcome (handleOne fuel both m) w ts = None /\ commits (final (handleOne fuel both m) w ts) = commits w.
Proof.
  intros Hw Hd Hs Hf. unfold outcome, final. destruct (run (handleOne fuel both m) w ts) as [[r w'] ts'] eqn:Hrun. simpl.
  unfold handleOne in Hrun. apply run_bind_inv in Hrun as (e & w1 & ts1 & H1' & H2').
  match type of H1' with run (attempts _ _ _ ?a ?b ?i ?s ?f) _ _ = _ =>
    pose proof (attempts_future fuel m a b i s f w ts Hw Hd Hs Hf) as Hn end.
  unfold outcome in Hn. rewrite H1' in Hn. simpl in Hn. subst e. cbn [run] in H2'. simplify_eq. split; [done|].
  by apply (run_no_broker _ _ _ _ _ _ (attempts_uses fuel both m _ _ _ _ _) H1').
Qed.
(** A decoder whose every message is a success report for revision 99. *)
Definition ok99_events : ProtoEvents := fun _ =>
  Some (MkNodeEvent "n" "2" 1 5 "" (PApply (MkApply "update" true "" "" "1" false 99))).
(** Others write the config ten times meanwhile. *)
Definition writing : list turn := repeat (busy [EvPut (hsiKey "n" "2") "{}"]) 10.
Lemma future_revision_stalls_witness :
  let m := Msg "t" 0 7 "x" in
  outcome (handleOne (P := ok99_events) 20 both m) world0 writing = None /\
  commits (final (handleOne (P := ok99_events) 20 both m) world0 writing) = commits world0.
Proof.
  apply (future_revision_stalls (H0 := ok99_events)); [apply world0_wf|reflexivity|reflexivity|].
  eexists _, _. split; [reflexivity|]. split; [reflexivity|]. vm_compute. auto.
Defined.

(** ** A key under contention *)

(** Another client rewrites the key before every call.  A rollback that loses all
    five rounds counts as an etcd outage and is retried for ever, although etcd
    answers every request; an offline edit in the same situation is dead-lettered
    after five attempts, as the comment there wants it. *)
Definition contended_events : ProtoEvents := fun v =>
  if String.eqb v "failed" then Some (MkNodeEvent "n" "2" 1 6 "" (PApply (MkApply "update" false "E1" "bad vlan" "4" false 0)))
  else Some sample_offline.
Definition contention : list turn := repeat (busy [EvPut (hsiKey "n" "2") (doc_at "old" "4")]) 400.
Example contended_rollback :
  outcome (handleOne (P := contended_events) 8 both (Msg "t" 0 7 "failed")) world_old contention = None /\
  outcome (handleOne (P := contended_events) 8 both (Msg "t" 0 7 "edit")) world_old contention = Some true /\
  (dq_offset <$> kafka_dlq (w_db (final (handleOne (P := contended_events) 8 both (Msg "t" 0 7 "edit")) world_old contention))) = [7].
Proof. vm_compute. done. Qed.
