(* ===== verification/LoadTest.v ===== *)
(** * The consumer load test ([e2e_test/tools/consumer_load])

    The tool publishes one PPPoE event per node and subscriber, lets the real
    consumer write them, and takes the number of rows for the completion signal.
    The theorems say that the signal is exact, and that the consumer, whatever
    its batches, brings it about. *)

From S2P Require Import Prelude GoStrings Json JsonNormal Decode GoTime ConfigDoc Etcd Db DbProps Events Effects Cas Storage Rollback OfflineEdit Consumer PPPoEBatch AtLeastOnce OffsetGuard Session Progress.
Local Open Scope string_scope.
Local Open Scope Z_scope.
Local Open Scope go_scope.

(** ** One run and its names *)

Definition splitAndTrim (text : string) : list string := trim_space <$> split_on "," text.
(** [Format] with the layout [20060102150405], in UTC. *)
Definition compact_time (t : Z) : string :=
  let secs := t / second in
  let '(y, m, d) := civil_from_days (secs / 86400) in
  let tod := secs mod 86400 in
  pad4 y +:+ pad2 m +:+ pad2 d +:+ pad2 (tod / 3600) +:+ pad2 (tod / 60 mod 60) +:+ pad2 (tod mod 60).
Record run_names := MkNames { nodePrefix : string; topic : string; group : string }.
Definition names_of (runID : string) : run_names :=
  MkNames ("loadtest-" +:+ runID +:+ "-") ("fastrg.loadtest." +:+ runID) ("fastrg-loadtest-" +:+ runID).
Definition total (nodes users : Z) : Z := wrap64 (nodes * users).
(** The environment the consumer is built in. *)
Definition scratch_env (getenv : string -> string) (names : run_names) (key : string) : string :=
  if String.eqb key "KAFKA_TOPIC" then topic names
  else if String.eqb key "KAFKA_GROUP" then group names else getenv key.

(** ** Producing *)

(** [Sprintf] with [%03d], for a number that is not negative. *)
Definition sprintf_03d (n : Z) : string :=
  let s := format_uint n in
  match String.length s with 1%nat => "00" +:+ s | 2%nat => "0" +:+ s | _ => s end.
Definition load_node (prefix : string) (n : Z) : string := prefix +:+ sprintf_03d n.
Definition load_user (u : Z) : string := format_uint (u + 1).
Definition load_event (prefix : string) (eventTime n u : Z) : NodeEvent :=
  MkNodeEvent (load_node prefix n) (load_user u) 11 eventTime ""
    (PChange (MkChange 2 ("10." +:+ format_uint (n mod 256) +:+ "." +:+ format_uint (u / 256 mod 256) +:+ "." +:+ format_uint (u mod 256))
                "10.0.0.1" "" "" "" "2001:db8::53")).

(** A [kafka.Message] to be written: the topic is the writer's, the partition
    the balancer's choice. *)
Record outgoing := Out { out_Key : string; out_Value : string }.
(** [proto.Marshal]; [None] is its error. *)
Class ProtoMarshal := marshal_event : NodeEvent -> option string.
Inductive produceerr := MarshalErr | WriteErr.

Definition cells (nodes users : Z) : list (Z * Z) :=
  concat ((fun n => (fun u => (Z.of_nat n, Z.of_nat u)) <$> seq 0 (Z.to_nat users)) <$> seq 0 (Z.to_nat nodes)).

Section produce.
Context {M : ProtoMarshal}.
Variable write : nat -> bool.            (* whether the k-th [WriteMessages] succeeds *)

(** The messages written so far come with the result. *)
Fixpoint produce_loop (prefix : string) (eventTime batch : Z) (cells : list (Z * Z)) (messages : list outgoing)
    (sent : list (list outgoing)) : list (list outgoing) * option produceerr :=
  match cells with
  | [] =>
      if bool_decide (messages = []) then (sent, None)
      else if write (length sent) then ((sent ++ [messages])%list, None) else (sent, Some WriteErr)
  | (n, u) :: cells =>
      match marshal_event (load_event prefix eventTime n u) with
      | None => (sent, Some MarshalErr)
      | Some value =>
          let messages := (messages ++ [Out (load_node prefix n) value])%list in
          if Z.of_nat (length messages) =? batch then
            if write (length sent) then produce_loop prefix eventTime batch cells [] (sent ++ [messages])
            else (sent, Some WriteErr)
          else produce_loop prefix eventTime batch cells messages sent
      end
  end.
(** [None] is the panic of [make] with a negative capacity. *)
Definition produce (prefix : string) (eventTime nodes users batch : Z) : option (list (list outgoing) * option produceerr) :=
  if batch <? 0 then None else Some (produce_loop prefix eventTime batch (cells nodes users) [] []).
End produce.

(** ** The topic *)

Inductive topicerr := CreateFailed | NotReported.
(** One answer per round: how many partitions the first broker reports. *)
Fixpoint topic_loop (partitions deadline : Z) (answers : list (option Z)) : prog (option (result topicerr unit)) :=
  match answers with
  | [] => Ret None
  | answer :: answers =>
      do! now := call ENow in
      if deadline <=? now then Ret (Some (Err NotReported))
      else if match answer with Some n => partitions <=? n | None => false end then Ret (Some (Ok tt))
      else do! _ := call (ESleep second false) in topic_loop partitions deadline answers
  end.
Definition createTopic (created : bool) (partitions : Z) (answers : list (option Z)) : prog (option (result topicerr unit)) :=
  if negb created then Ret (Some (Err CreateFailed))
  else do! now := call ENow in topic_loop partitions (now + 30 * second) answers.

(** ** Counting *)

(** PostgreSQL's [LIKE]: [%] is any text, [_] any character, a backslash quotes;
    by bytes, which is by characters for the ASCII patterns of the tool. *)
Fixpoint like (p s : string) : bool :=
  match p with
  | "" => String.eqb s ""
  | String c p' =>
      if Ascii.eqb c "%" then
        (fix any (s : string) : bool := like p' s || match s with "" => false | String _ s' => any s' end) s
      else if Ascii.eqb c "_" then match s with "" => false | String _ s' => like p' s' end
      else if Ascii.eqb c backslash then
        match p', s with String q p'', String d s' => Ascii.eqb q d && like p'' s' | _, _ => false end
      else match s with "" => false | String d s' => Ascii.eqb c d && like p' s' end
  end.
Definition matching (pattern : string) (d : db) : gmap ConfigKey StatusRec :=
  filter (fun kv : ConfigKey * StatusRec => like pattern kv.1.1 = true) (pppoe_status d).
Definition count_like (pattern : string) : query Z := fun _ d => Ok (Z.of_nat (size (matching pattern d)), d).
Definition countRows (prefix : string) : prog Z :=
  do! r := call (EDb (count_like (prefix +:+ "%"))) in
  Ret (match r with Ok count => count | Err _ => 0 end).

(** ** Waiting *)

Inductive caught := CaughtUp | RowsShort (n : Z) | CtxEnded.
(** Rows, peak fetch age, elapsed time, and how it ended. *)
Definition catchUp : Type := Z * Z * Z * caught.
(** One entry per poll: the fetch-age gauge, when there is one (in the unit of
    the gauge, which is only compared).  Progress lines are not modelled. *)
Fixpoint poll_loop (prefix : string) (want pollInterval deadline start : Z) (ages : list (option Z)) (peak : Z) : prog (option catchUp) :=
  match ages with
  | [] => Ret None
  | age :: ages =>
      do! rows := countRows prefix in
      let peak := match age with Some a => if peak <? a then a else peak | None => peak end in
      if want <=? rows then do! now := call ENow in Ret (Some (rows, peak, now - start, CaughtUp))
      else
        do! now := call ENow in
        if deadline <? now then do! now := call ENow in Ret (Some (rows, peak, now - start, RowsShort (wrap64 (want - rows))))
        else
          do! ended := call (ESleep pollInterval false) in
          if ended : bool then do! now := call ENow in Ret (Some (rows, peak, now - start, CtxEnded))
          else poll_loop prefix want pollInterval deadline start ages peak
  end.
Definition waitForCatchUp (prefix : string) (want timeout pollInterval start : Z) (ages : list (option Z)) : prog (option catchUp) :=
  do! now := call ENow in poll_loop prefix want pollInterval (now + timeout) start ages 0.
(** The exit code of the tool. *)
Definition exit_code (c : catchUp) : Z := match c.2 with CaughtUp => 0 | _ => 1 end.

(** The wait for the topic is bounded: 31 rounds are enough under any delays. *)
Section topic.
Context `{EtcdLaws E}.
Implicit Types (w : world E).

Lemma topic_loop_ends partitions deadline answers : forall w ts,
  deadline - w_now w <= (Z.of_nat (length answers) - 1) * second -> answers <> [] ->
  outcome (topic_loop partitions deadline answers) w ts <> None.
Proof using Type.
  induction answers as [|answer answers IH]; intros w ts Hd Hne; [done|]. unfold outcome. cbn [topic_loop].
  rewrite run_call_bind. unfold step_eff. cbn [perform]. set (w1 := interfere (hd quiet ts) w).
  assert (Ht1 : w_now w <= w_now w1) by (unfold w1; simpl; lia).
  destruct (Z.leb_spec deadline (w_now w1)) as [|Hlt]; [done|]. destruct (match answer with Some n => partitions <=? n | None => false end); [done|].
  rewrite run_call_bind. unfold step_eff. cbn [perform]. apply IH.
  - cbn [w_now interfere length] in *. unfold second in *. lia.
  - intros ->. cbn [length] in Hd. lia.
Qed.
Lemma createTopic_ends created partitions answers w ts : (31 <= length answers)%nat ->
  outcome (createTopic created partitions answers) w ts <> None.
Proof using Type.
  intros Hl. unfold createTopic. destruct created; [|done]. cbn [negb]. unfold outcome. rewrite run_call_bind.
  unfold step_eff. cbn [perform]. apply topic_loop_ends; [|intros ->; simpl in Hl; lia].
  assert (30 <= Z.of_nat (length answers) - 1) by lia. unfold second. nia.
Qed.
End topic.

(** ** The producer writes every cell once *)

Lemma cells_spec nodes users n u :
  (n, u) ∈ cells nodes users <-> 0 <= n < nodes /\ 0 <= u < users.
Proof.
  unfold cells. rewrite list_elem_of_In, in_concat. split.
  - intros (l & Hl & Hin). apply list_elem_of_In, list_elem_of_fmap in Hl as (i & -> & Hi).
    apply list_elem_of_In, list_elem_of_fmap in Hin as (j & [= -> ->] & Hj). rewrite elem_of_seq in Hi, Hj. lia.
  - intros [Hn Hu]. exists ((fun j => (n, Z.of_nat j)) <$> seq 0 (Z.to_nat users)). split.
    + apply list_elem_of_In, list_elem_of_fmap. exists (Z.to_nat n). rewrite Z2Nat.id by lia. split; [done|]. rewrite elem_of_seq. lia.
    + apply list_elem_of_In, list_elem_of_fmap. exists (Z.to_nat u). rewrite Z2Nat.id by lia. split; [done|]. rewrite elem_of_seq. lia.
Qed.
Lemma cells_length nodes users : 0 <= nodes -> 0 <= users -> Z.of_nat (length (cells nodes users)) = nodes * users.
Proof.
  intros Hn Hu. unfold cells. rewrite <-(Z2Nat.id nodes) at 2 by done. generalize (Z.to_nat nodes). intros k.
  generalize 0%nat at 2. induction k as [|k IH]; intros i; [done|]. cbn [seq fmap list_fmap concat].
  rewrite length_app, length_fmap, length_seq, Nat2Z.inj_add, IH. lia.
Qed.

Lemma parse_03d n : 0 <= n -> parse_digits (sprintf_03d n) 0 = Some n.
Proof.
  intros Hn. unfold sprintf_03d. pose proof (parse_digits_format n Hn) as Hp.
  destruct (String.length (format_uint n)) as [|[|[|]]]; exact Hp.
Qed.
Lemma load_node_inj prefix n n' : 0 <= n -> 0 <= n' -> load_node prefix n = load_node prefix n' -> n = n'.
Proof.
  intros Hn Hn' He. unfold load_node in He. apply sapp_inv_l in He.
  apply (f_equal (fun s => parse_digits s 0)) in He. rewrite !parse_03d in He by done. by injection He.
Qed.
Lemma load_user_inj u u' : 0 <= u -> 0 <= u' -> load_user u = load_user u' -> u = u'.
Proof.
  intros Hu Hu' He. apply (f_equal (fun s => parse_digits s 0)) in He. unfold load_user in He.
  rewrite !parse_digits_format in He by lia. injection He as He. lia.
Qed.
(** The row of a cell. *)
Definition cell_key (prefix : string) (c : Z * Z) : ConfigKey := (load_node prefix c.1, load_user c.2).

Lemma cells_NoDup nodes users : NoDup (cells nodes users).
Proof.
  unfold cells. generalize 0%nat at 2. generalize (Z.to_nat nodes). intros k. induction k as [|k IH]; intros i; [constructor|].
  cbn [seq fmap list_fmap concat]. apply NoDup_app. split_and!; [| |apply IH].
  - apply NoDup_fmap_2; [|apply NoDup_seq]. intros a b [= Hab]. lia.
  - intros [n u] Hin Hin'. apply list_elem_of_fmap in Hin as (j & [= -> ->] & _).
    apply list_elem_of_In, in_concat in Hin' as (l & Hl & Hin'). apply list_elem_of_In, list_elem_of_fmap in Hl as (i' & -> & Hi).
    apply list_elem_of_In, list_elem_of_fmap in Hin' as (j' & [= He _] & _). rewrite elem_of_seq in Hi. lia.
Qed.
Lemma keys_NoDup prefix nodes users : NoDup (cell_key prefix <$> cells nodes users).
Proof.
  apply NoDup_fmap_2_strong; [|apply cells_NoDup]. intros [n u] [n' u'] H1 H2 [= Hn Hu].
  apply cells_spec in H1, H2. apply load_node_inj in Hn; [|lia..]. apply load_user_inj in Hu; [|lia..]. by subst.
Qed.

Section produced.
Context {M : ProtoMarshal}.

(** What the cell's message must look like. *)
Definition message_of (prefix : string) (eventTime : Z) (c : Z * Z) (o : outgoing) : Prop :=
  out_Key o = load_node prefix c.1 /\ marshal_event (load_event prefix eventTime c.1 c.2) = Some (out_Value o).

Lemma produce_loop_complete write prefix eventTime batch cs : forall messages sent sent',
  (0 < batch -> Z.of_nat (length messages) < batch) ->
  Forall (fun b => b <> [] /\ (0 < batch -> Z.of_nat (length b) <= batch)) sent ->
  produce_loop write prefix eventTime batch cs messages sent = (sent', None) ->
  exists news, concat sent' = (concat sent ++ messages ++ news)%list /\ Forall2 (message_of prefix eventTime) cs news /\
    Forall (fun b => b <> [] /\ (0 < batch -> Z.of_nat (length b) <= batch)) sent'.
Proof.
  induction cs as [|[n u] cs IH]; intros messages sent sent' Hlen Hsent; cbn [produce_loop].
  - destruct (bool_decide (messages = [])) eqn:Em.
    + apply bool_decide_eq_true in Em as ->. intros [= <-]. exists []. by rewrite !app_nil_r.
    + destruct (write _); [|done]. intros [= <-]. exists []. rewrite concat_app. cbn. rewrite !app_nil_r. split_and!; [done|done|].
      apply Forall_app. split; [done|]. apply Forall_singleton. apply bool_decide_eq_false in Em. split; [done|]. intros Hb. specialize (Hlen Hb). lia.
  - destruct (marshal_event _) as [value|] eqn:Ev; [|done]. cbv zeta. set (msg := Out (load_node prefix n) value).
    assert (Hm : message_of prefix eventTime (n, u) msg) by done.
    assert (Hl : Z.of_nat (length (messages ++ [msg])%list) = Z.of_nat (length messages) + 1) by (rewrite length_app; simpl; lia).
    destruct (Z.eqb_spec (Z.of_nat (length (messages ++ [msg])%list)) batch) as [Hb|Hb].
    + destruct (write _); [|done]. intros Hrun. apply IH in Hrun as (news & Hc & Hf & Hs).
      * exists (msg :: news). rewrite Hc, concat_app. cbn. rewrite !app_nil_r, <-!app_assoc. by split_and!; [|constructor|].
      * simpl. lia.
      * apply Forall_app. split; [done|]. apply Forall_singleton. split; [by destruct messages|lia].
    + intros Hrun. apply IH in Hrun as (news & Hc & Hf & Hs); [| |done].
      * exists (msg :: news). rewrite Hc, <-!app_assoc. by split_and!; [|constructor|].
      * intros Hpos. specialize (Hlen Hpos). lia.
Qed.

(** A run without an error wrote one message per cell, in order, and no write
    was empty or larger than the batch. *)
Lemma produce_complete write prefix eventTime nodes users batch sent :
  produce write prefix eventTime nodes users batch = Some (sent, None) ->
  Forall2 (message_of prefix eventTime) (cells nodes users) (concat sent) /\
  Forall (fun b => b <> [] /\ (0 < batch -> Z.of_nat (length b) <= batch)) sent.
Proof.
  unfold produce. destruct (Z.ltb_spec batch 0); [done|]. intros [= Hrun].
  apply produce_loop_complete in Hrun as (news & Hc & Hf & Hs); [|simpl; lia|constructor]. simpl in Hc. by rewrite Hc.
Qed.
End produced.

(** ** The count is exact *)

Definition plain_pattern (p : string) : bool := negb (has_byte "%" p || has_byte "_" p || has_byte backslash p).
Lemma like_prefix p s : plain_pattern p = true -> like (p +:+ "%") s = has_prefix p s.
Proof.
  unfold plain_pattern. rewrite negb_true_iff, !orb_false_iff. revert s.
  induction p as [|c p IH]; intros s [[H1 H2] H3].
  - induction s as [|d s IHs]; [done|]. cbn in *. by rewrite IHs.
  - cbn [has_byte] in H1, H2, H3. apply orb_false_iff in H1 as [H1 H1'], H2 as [H2 H2'], H3 as [H3 H3'].
    cbn [String.append like]. rewrite H1, H2, H3. destruct s as [|d s]; [done|].
    rewrite IH by done. unfold has_prefix. cbn [strip_prefix]. by destruct (Ascii.eqb c d).
Qed.

Lemma pad2_digits n : all_digits (pad2 n) = true.
Proof.
  unfold pad2. cbn [all_digits]. rewrite !digit_char_is_digit; [done|..]; pose proof (Z.mod_pos_bound (n / 10) 10); pose proof (Z.mod_pos_bound n 10); lia.
Qed.
Lemma all_digits_app a b : all_digits (a +:+ b) = all_digits a && all_digits b.
Proof. induction a as [|c a IH]; [done|]. cbn [String.append all_digits]. by rewrite IH, andb_assoc. Qed.
Lemma compact_digits t : all_digits (compact_time t) = true.
Proof.
  unfold compact_time. destruct (civil_from_days _) as [[y m] d]. unfold pad4. by rewrite !all_digits_app, !pad2_digits.
Qed.
Lemma plain_prefix t : plain_pattern (nodePrefix (names_of (compact_time t))) = true.
Proof.
  unfold plain_pattern, names_of. cbn [nodePrefix]. rewrite !has_byte_app.
  by rewrite !(all_digits_no_byte _ _ (compact_digits t)).
Qed.

Section count.
Variables (prefix : string) (nodes users : Z).
Hypothesis Hplain : plain_pattern prefix = true.
Let keys : list ConfigKey := cell_key prefix <$> cells nodes users.

Lemma matching_spec d k st : matching (prefix +:+ "%") d !! k = Some st <-> pppoe_status d !! k = Some st /\ has_prefix prefix k.1 = true.
Proof using Hplain. unfold matching. rewrite map_lookup_filter_Some. cbn. by rewrite like_prefix. Qed.

(** No other run uses the prefix: its rows all belong to cells. *)
Definition only_ours (d : db) : Prop := forall k, is_Some (pppoe_status d !! k) -> has_prefix prefix k.1 = true -> k ∈ keys.
(** The cell's row is there. *)
Definition has_row (d : db) (c : Z * Z) : Prop := is_Some (pppoe_status d !! cell_key prefix c).

Lemma load_prefix c : has_prefix prefix (cell_key prefix c).1 = true.
Proof using. apply has_prefix_iff. by eexists. Qed.

(** The number of rows is at most the number of cells, and it is the number of
    cells exactly when every cell has its row. *)
Lemma count_exact d : 0 <= nodes -> 0 <= users -> only_ours d ->
  Z.of_nat (size (matching (prefix +:+ "%") d)) <= nodes * users /\
  (Z.of_nat (size (matching (prefix +:+ "%") d)) = nodes * users <-> Forall (has_row d) (cells nodes users)).
Proof using Hplain.
  intros Hn Hu Ho. rewrite <-(cells_length nodes users) by done. rewrite <-size_dom.
  set (rows := dom (matching (prefix +:+ "%") d)).
  assert (Hrow : forall k, k ∈ rows <-> is_Some (pppoe_status d !! k) /\ has_prefix prefix k.1 = true).
  { intros k. unfold rows. rewrite elem_of_dom. split.
    - intros [st [Hst Hp]%matching_spec]. eauto.
    - intros [[st Hst] Hp]. exists st. by apply matching_spec. }
  assert (Hsub : rows ⊆ list_to_set keys).
  { intros k [Hk Hp]%Hrow. apply elem_of_list_to_set. by apply Ho. }
  assert (Hsize : size (list_to_set keys : gset ConfigKey) = length (cells nodes users)).
  { rewrite size_list_to_set by apply keys_NoDup. unfold keys. by rewrite length_fmap. }
  pose proof (subseteq_size _ _ Hsub) as Hle. rewrite Hsize in Hle. split; [lia|]. rewrite Nat2Z.inj_iff, Forall_forall. split.
  - intros He c Hc. assert (Hall : rows = list_to_set keys).
    { apply leibniz_equiv, set_subseteq_size_equiv; [done|lia]. }
    assert (Hin : cell_key prefix c ∈ rows) by (rewrite Hall; apply elem_of_list_to_set, list_elem_of_fmap; eauto).
    by apply Hrow in Hin as [Hs _].
  - intros Hall. rewrite <-Hsize. f_equal. apply leibniz_equiv, (anti_symm (⊆)); [done|].
    intros k Hk. apply elem_of_list_to_set, list_elem_of_fmap in Hk as (c & -> & Hc). apply Hrow. split; [by apply Hall|apply load_prefix].
Qed.
End count.

(** *** The wait ends on a full count *)

Section caught.
Context `{EtcdLaws E}.
Implicit Types (w : world E).

(** The tables [d] a statement, the last one of the run, counted the rows in. *)
Definition counted (prefix : string) (rows : Z) w w' : Prop :=
  exists d l, own_queries w' = (d, d) :: l ++ own_queries w /\ db_env (w_db w) d /\
    rows = Z.of_nat (size (matching (prefix +:+ "%") d)).
(** A count is of the tables it was made in; a failed one is 0. *)
Lemma countRows_counted prefix w ts n w' ts' :
  run (countRows prefix) w ts = (n, w', ts') ->
  (n = 0 \/ counted prefix n w w') /\ (exists l, own_queries w' = (l ++ own_queries w)%list) /\ db_env (w_db w) (w_db w').
Proof.
  unfold countRows. intros Hrun. apply run_bind_inv in Hrun as (r & w1 & ts1 & H1 & H2). cbn [run] in H2. simplify_eq.
  apply (rel_db db_env (fun _ => true)) in H1 as (d & Hd & [(a & now & Hq & Hl & Hr)|(<- & Hl & e & ->)]);
    [|split; [by left|split; [by exists []|done]]|intros; apply db_env_fold|apply all_turns].
  unfold count_like in Hq. injection Hq as <- Hd'. rewrite <-Hd' in *. split; [|split; [by exists [(d, d)]|done]].
  destruct Hr as [-> |[e ->]]; [right|by left]. exists d, []. by split_and!.
Qed.
Lemma quiet_call {X} (e : eff X) w ts x w' ts' : no_sql _ e = true -> run (call e) w ts = (x, w', ts') ->
  own_queries w' = own_queries w /\ db_env (w_db w) (w_db w').
Proof. intros He Hrun. assert (Hu : uses no_sql (call e)) by (by split). split; [by eapply run_no_sql_queries|by eapply run_no_sql]. Qed.

Lemma poll_loop_counted prefix want pollInterval deadline start ages : 0 < want -> forall peak w ts rows peak' elapsed w' ts',
  run (poll_loop prefix want pollInterval deadline start ages peak) w ts = (Some (rows, peak', elapsed, CaughtUp), w', ts') ->
  want <= rows /\ counted prefix rows w w'.
Proof.
  intros Hwant. induction ages as [|age ages IH]; intros peak w ts rows peak' elapsed w' ts' Hrun; cbn [poll_loop] in Hrun; [done|].
  apply run_bind_inv in Hrun as (n & w1 & ts1 & H1 & H2). apply countRows_counted in H1 as (Hn & [l Hl] & D1). cbv zeta in H2.
  destruct (Z.leb_spec want n) as [Hle|Hlt].
  - apply run_bind_inv in H2 as (now & w2 & ts2 & H2 & H3). apply quiet_call in H2 as [Q _]; [|done]. cbn [run] in H3. simplify_eq.
    split; [done|]. destruct Hn as [-> |(d & l' & Hq & Hd & Hc)]; [lia|]. exists d, l'. by rewrite Q.
  - apply run_bind_inv in H2 as (now & w2 & ts2 & H2 & H3). apply quiet_call in H2 as [Q2 D2]; [|done]. destruct (deadline <? now).
    + apply run_bind_inv in H3 as (now' & w3 & ts3 & _ & H4). done.
    + apply run_bind_inv in H3 as (ended & w3 & ts3 & H3 & H4). apply quiet_call in H3 as [Q3 D3]; [|done]. destruct ended.
      * apply run_bind_inv in H4 as (now' & w4 & ts4 & _ & H5). done.
      * apply IH in H4 as (Hle & d & l' & Hq & Hd & Hc). split; [done|]. exists d, (l' ++ l)%list.
        rewrite Hq, Q3, Q2, Hl, app_assoc. split_and!; [done| |done]. etransitivity; [exact D1|]. etransitivity; [exact D2|]. by etransitivity.
Qed.
Lemma caught_up_counted prefix want timeout pollInterval start ages w ts rows peak elapsed w' ts' : 0 < want ->
  run (waitForCatchUp prefix want timeout pollInterval start ages) w ts = (Some (rows, peak, elapsed, CaughtUp), w', ts') ->
  want <= rows /\ counted prefix rows w w'.
Proof.
  intros Hwant Hrun. unfold waitForCatchUp in Hrun. apply run_bind_inv in Hrun as (now & w1 & ts1 & H1 & H2).
  apply quiet_call in H1 as [Q D]; [|done]. apply poll_loop_counted in H2 as (Hle & d & l & Hq & Hd & Hc); [|done].
  split; [done|]. exists d, l. rewrite Hq, Q. split_and!; [done|by etransitivity|done].
Qed.
End caught.

(** ** What a session leaves in the table *)

Section written.
Context {J : Jsonb} {P : ProtoEvents} {T : ErrorTexts} `{EtcdLaws E}.
Variable prefix : string.
Implicit Types (w : world E) (ts : list turn).

Definition message_key (m : message) : option ConfigKey := pp_key <$> message_row m.
Definition is_change (m : message) : Prop := is_Some (message_row m).
(** A row of the run, and the message of one. *)
Definition of_run (k : ConfigKey) : Prop := has_prefix prefix k.1 = true.
Definition run_change (m : message) : Prop := exists row, message_row m = Some row /\ of_run (pp_key row).

Definition our_rows (d : db) : gset ConfigKey := filter of_run (dom (pppoe_status d)).
(** The other replicas write no rows of this run, but what they like besides. *)
Definition same_rows (d d' : db) : Prop := our_rows d' = our_rows d.
#[local] Instance same_rows_preorder : PreOrder same_rows.
Proof using Type. split; [done|]. intros d1 d2 d3. unfold same_rows. congruence. Qed.
Definition elsewhere (t : turn) : bool :=
  forallb (fun o => match o with SqlStatus row => negb (has_prefix prefix (pp_key row).1) | _ => true end) (t_sql t).

(** The rows of the messages, and no other row of the run, are added. *)
Definition adds_rows (log : list message) w w' : Prop :=
  our_rows (w_db w') = our_rows (w_db w) ∪ list_to_set (omap message_key log).

Lemma rows_union (X Y : gset ConfigKey) : filter of_run (X ∪ Y) = filter of_run X ∪ filter of_run Y.
Proof using Type. apply filter_union_L; apply _. Qed.
Lemma dom_upsert now m row : dom (upsert_status now m row) = dom m ∪ {[ pp_key row ]}.
Proof using Type.
  unfold upsert_status. destruct (m !! pp_key row) as [old|] eqn:E0; [destruct (_ <=? _)|]; rewrite ?dom_insert_L, (comm_L (∪)); [done| |done].
  apply elem_of_dom_2 in E0. by rewrite (subseteq_union_1_L {[ _ ]}) by (by apply singleton_subseteq_l).
Qed.
Lemma dom_upserts now rows m : dom (fold_left (upsert_status now) rows m) = dom m ∪ list_to_set (pp_key <$> rows).
Proof using Type.
  revert m. induction rows as [|r rows IH]; intros m; cbn [fold_left fmap list_fmap list_to_set].
  - by rewrite (right_id_L ∅ (∪)).
  - by rewrite IH, dom_upsert, (assoc_L (∪)).
Qed.
Lemma our_upserts now rows d m' : m' = fold_left (upsert_status now) rows (pppoe_status d) ->
  Forall (fun row => of_run (pp_key row)) rows -> our_rows (set_pppoe m' d) = our_rows d ∪ list_to_set (pp_key <$> rows).
Proof using Type.
  intros -> Hrows. unfold our_rows. cbn [pppoe_status set_pppoe]. rewrite dom_upserts, rows_union. f_equal.
  apply leibniz_equiv. intros k. rewrite elem_of_filter. split; [by intros [_ ?]|]. intros Hk. split; [|done].
  apply elem_of_list_to_set, list_elem_of_fmap in Hk as (row & -> & Hin). rewrite Forall_forall in Hrows. by apply Hrows.
Qed.

Lemma elsewhere_turn t now d : elsewhere t = true -> same_rows d (fold_left (apply_sql now) (t_sql t) d).
Proof using Type.
  unfold elsewhere. generalize (t_sql t). intros l. revert d. induction l as [|o l IH]; intros d; [done|]. cbn [forallb fold_left].
  intros [Ho Hl]%andb_true_iff. etransitivity; [|by apply IH]. clear IH Hl. unfold same_rows, our_rows.
  destruct o as [row|row|row status|row status|topic p off v e|watcher rev]; cbn [apply_sql]; unfold after.
  - cbn [UpsertPPPoEStatus pppoe_status set_pppoe]. rewrite dom_upsert, rows_union.
    assert (filter of_run ({[ pp_key row ]} : gset ConfigKey) = ∅) as ->; [|by rewrite (right_id_L ∅ (∪))].
    apply leibniz_equiv. intros k. rewrite elem_of_filter, elem_of_singleton. split; [|done]. intros [Hk ->]. unfold of_run in Hk. by rewrite Hk in Ho.
  - unfold InsertNodeEvent. by destruct (existsb _ _).
  - unfold UpsertCurrentWithHistory. destruct (upsertCurrent row now d) as [[[] d1]|] eqn:Eu; [|done].
    assert (Hd : pppoe_status d1 = pppoe_status d).
    { revert Eu. unfold upsertCurrent. destruct (jsonb_param _) as [[c|]|]; [|done|done]. repeat case_match; by intros [= <-]. }
    unfold appendHistoryWithStatus. destruct (jsonb_param _) as [c|]; [|done]. rewrite <-Hd. by destruct (existsb _ _).
  - unfold appendHistoryWithStatus. destruct (jsonb_param _) as [c|]; [|done]. by destruct (existsb _ _).
  - unfold SendToDLQ. by destruct (List.find _ _).
  - done.
Qed.

Lemma matching_rows d : plain_pattern prefix = true -> size (matching (prefix +:+ "%") d) = size (our_rows d).
Proof using Type.
  intros Hp. rewrite <-size_dom. f_equal. apply leibniz_equiv. intros k. unfold our_rows. rewrite elem_of_filter, !elem_of_dom. unfold is_Some.
  setoid_rewrite (matching_spec prefix Hp). unfold of_run. split; [intros (st & Hk & Hs)|intros (Hs & st & Hk)]; eauto.
Qed.
Lemma adds_none w w' : same_rows (w_db w) (w_db w') -> adds_rows [] w w'.
Proof using Type. intros Hd. unfold adds_rows. rewrite Hd. simpl. by rewrite (right_id_L ∅ (∪)). Qed.
Lemma adds_app l1 l2 w1 w2 w3 : adds_rows l1 w1 w2 -> adds_rows l2 w2 w3 -> adds_rows (l1 ++ l2) w1 w3.
Proof using Type. unfold adds_rows. intros A1 A2. by rewrite A2, A1, omap_app, list_to_set_app_L, (assoc_L (∪)). Qed.

(** A call without a statement adds nothing. *)
Lemma adds_call {X} (e : eff X) w ts r w' ts' :
  w_db (perform e (hd quiet ts) (interfere (hd quiet ts) w)).2 = w_db (interfere (hd quiet ts) w) ->
  forallb elsewhere ts = true -> run (call e) w ts = (r, w', ts') -> adds_rows [] w w'.
Proof using Type.
  intros He Ht Hr. apply adds_none. rewrite run_call in Hr. injection Hr as Hs _. change w' with (r, w').2. rewrite <-Hs.
  unfold step_eff. rewrite He. by apply (rel_interfere same_rows elsewhere elsewhere_turn).
Qed.

Lemma handle_change m w ts r w' ts' :
  run_change m -> forallb smooth ts = true -> forallb elsewhere ts = true -> run (handle both (Value m)) w ts = (r, w', ts') ->
  r = Ok tt /\ adds_rows [m] w w'.
Proof using Type*.
  intros (row & Hrow & Hours) Hs Ht. assert (Hkey : message_key m = Some (pp_key row)) by (unfold message_key; by rewrite Hrow).
  revert Hrow. unfold message_row, handle. destruct (unmarshal_event (Value m)) as [ev|] eqn:Eu; [|done].
  destruct (ev_payload ev) as [|change| | |] eqn:Ep; try done. intros [= Hrow] Hrun.
  apply run_bind_inv in Hrun as (a & w1 & ts1 & H1 & H2). cbn [run] in H2. simplify_eq.
  apply (smooth_rel_db same_rows elsewhere) in H1 as (now & d & Hd & Hq); [|apply elsewhere_turn|done..].
  unfold UpsertPPPoEStatus in Hq. destruct Hq as [-> Hw]. split; [done|]. unfold adds_rows. rewrite Hw, <-Hd. simpl. rewrite Hkey.
  apply (our_upserts now [_] d _ eq_refl). by repeat constructor.
Qed.

Lemma handleOne_change m w ts r w' ts' :
  run_change m -> w_done w = false -> forallb smooth ts = true -> forallb elsewhere ts = true ->
  run (handleOne 5 both m) w ts = (r, w', ts') -> adds_rows [m] w w'.
Proof using Type*.
  intros Hm Hd Hs Ht Hrun. unfold handleOne in Hrun. apply run_bind_inv in Hrun as (e & w1 & ts1 & H1 & H2). cbn [attempts] in H1.
  apply run_bind_inv in H1 as (b & w2 & ts2 & H1 & H3). destruct (smooth_run _ _ _ _ _ _ Hs H1) as [Hs2 D2].
  pose proof (run_ok _ _ _ _ _ _ _ Ht H1) as Ht2. pose proof (smooth_ctx _ _ _ _ _ Hs H1) as ->. rewrite Hd in H3.
  apply adds_call in H1; [|done..]. apply run_bind_inv in H3 as (k & w3 & ts3 & H3 & H4).
  pose proof (run_ok _ _ _ _ _ _ _ Ht2 H3) as Ht3. apply (handle_change _ _ _ _ _ _ Hm Hs2 Ht2) in H3 as [-> Ha].
  cbn [run] in H4. simplify_eq. cbn [bind] in H2.
  apply (adds_app [] [m] w w2); [done|]. apply (adds_app [m] [] w2 w1); [done|].
  apply run_bind_inv in H2 as (b & w4 & ts4 & H4 & H5). pose proof (run_ok _ _ _ _ _ _ _ Ht3 H4) as Ht4. apply adds_call in H4; [|done..].
  destruct b; [cbn [run] in H5; by simplify_eq|]. apply run_bind_inv in H5 as (k & w5 & ts5 & H5 & H6). cbn [run] in H6. simplify_eq.
  apply (adds_app [] [] w1 w4); [done|]. apply adds_call in H5; [done| |done]. cbn [perform]. by destruct (t_kafka _).
Qed.

Lemma handle_each_change batch : forall w ts r w' ts',
  going_on batch w ts -> forallb elsewhere ts = true -> Forall run_change batch ->
  run (handle_each 5 both batch) w ts = (r, w', ts') -> adds_rows batch w w'.
Proof using Type*.
  induction batch as [|m batch IH]; intros w ts r w' ts' Hg Ht Hc Hrun; cbn [handle_each] in Hrun.
  { cbn [run] in Hrun. simplify_eq. by apply adds_none. }
  apply Forall_cons in Hc as [Hm Hc]. apply run_bind_inv in Hrun as (o & w1 & ts1 & H1 & H2).
  apply (going_on_app [m]) in Hg as [Hgm Hg]. pose proof (going_on_run _ _ _ _ _ _ _ H1 Hg) as Hg1.
  pose proof (run_ok _ _ _ _ _ _ _ Ht H1) as Ht1.
  assert (o = Some true) as -> by (by apply (healthy_handleOne _ _ _ _ _ _ Hgm) in H1 as [-> _]).
  apply (adds_app [m] batch w w1); [|by eapply IH].
  eapply handleOne_change; [done|apply Hgm|exact (going_on_smooth _ _ _ Hgm)|done|done].
Qed.

Lemma run_rows batch rows : mapM message_row batch = Some rows -> Forall run_change batch ->
  Forall (fun row => of_run (pp_key row)) rows /\ pp_key <$> rows = omap message_key batch.
Proof using Type.
  intros Hm%mapM_Some_1 Hc. unfold message_key. induction Hm as [|m row ms rest Hrow _ IH]; [done|].
  apply Forall_cons in Hc as [(row' & Hrow' & Ho) Hc]. rewrite Hrow in Hrow'. injection Hrow' as <-. destruct (IH Hc) as [H1 H2].
  split; [by constructor|]. cbn. rewrite Hrow. simpl. by rewrite <-H2.
Qed.
Lemma process_batch_change batch w ts r w' ts' :
  going_on batch w ts -> forallb elsewhere ts = true -> Forall run_change batch ->
  run (process_batch 5 both batch) w ts = (r, w', ts') -> r = Some true /\ adds_rows batch w w'.
Proof using Type*.
  intros Hg Ht Hc Hrun. split; [by eapply healthy_process|]. unfold process_batch in Hrun.
  apply run_bind_inv in Hrun as (written & w1 & ts1 & H1 & H2). pose proof (going_on_run _ _ _ _ _ _ _ H1 Hg) as Hg1.
  pose proof (run_ok _ _ _ _ _ _ _ Ht H1) as Ht1.
  assert (Hw : adds_rows (if written then batch else []) w w1).
  { unfold writePPPoEBatch in H1. destruct (_ || _); [cbn [run] in H1; simplify_eq; by apply adds_none|].
    destruct (pppoeRowsFromBatch batch) as [rows|] eqn:Er; [|cbn [run] in H1; simplify_eq; by apply adds_none].
    apply run_bind_inv in H1 as (a & w2 & ts2 & H1 & H3). cbn [run] in H3. simplify_eq.
    apply (smooth_rel_db same_rows elsewhere) in H1 as (now & d & Hd & Hq); [|apply elsewhere_turn|done|exact (going_on_smooth _ _ _ Hg)].
    destruct (loop_spec batch ∅ [] rows) as (pos & all & Hi & Hall & Hf); [by intros k; rewrite lookup_empty|done|].
    unfold UpsertPPPoEStatusBatch in Hq. destruct (decide _); destruct Hq as [-> Hw]; cbn [is_ok]; [|apply adds_none; by rewrite Hw].
    destruct (run_rows _ _ Hall Hc) as [Ho Hk]. unfold adds_rows. rewrite Hw, <-Hd, <-Hk. apply (our_upserts now); [|done].
    apply map_eq. intros k. by rewrite !fold_lookup, Hf. }
  destruct written; [|apply (adds_app [] batch w w1); [done|]; by eapply handle_each_change].
  apply run_bind_inv in H2 as (k & w2 & ts2 & H2 & H3). cbn [run] in H3. simplify_eq. rewrite <-(app_nil_r batch).
  eapply adds_app; [done|]. apply adds_call in H2; [done| |done]. cbn [perform]. by destruct (t_kafka _).
Qed.

(** A healthy session adds exactly the rows of the messages it fetched. *)
Lemma session_adds client cfg republish rounds fetches w ts r w' ts' :
  going_on (fetched fetches) w ts -> forallb elsewhere ts = true -> Forall run_change (fetched fetches) ->
  run (Run 5 client cfg republish both rounds fetches) w ts = (r, w', ts') -> adds_rows (fetched fetches) w w'.
Proof using Type*.
  intros Hg Ht Hc Hrun. eapply (healthy_session same_rows elsewhere run_change adds_rows); [..|exact Hrun]; try done.
  - apply elsewhere_turn.
  - intros w1 w2 Hd _. by apply adds_none.
  - apply adds_app.
  - intros batch w1 ts1 r1 w2 ts2. apply process_batch_change.
Qed.

(** A poll that finds all rows ends the wait. *)
Lemma first_poll want timeout pollInterval start age ages w ts :
  plain_pattern prefix = true -> forallb smooth ts = true -> forallb elsewhere ts = true ->
  Z.of_nat (size (our_rows (w_db w))) = want ->
  exists peak elapsed, outcome (waitForCatchUp prefix want timeout pollInterval start (age :: ages)) w ts = Some (want, peak, elapsed, CaughtUp).
Proof using Type*.
  intros Hplain Hs Ht Hc. unfold waitForCatchUp, outcome. destruct (run _ w ts) as [[r w'] ts'] eqn:Hrun.
  apply run_bind_inv in Hrun as (now & w1 & ts1 & H1 & H2). destruct (smooth_run _ _ _ _ _ _ Hs H1) as [Hs1 _].
  pose proof (run_ok _ _ _ _ _ _ _ Ht H1) as Ht1.
  pose proof (rel_no_sql same_rows elsewhere elsewhere_turn (call ENow) _ _ _ _ _ Ht ltac:(done) H1) as Hr1. cbn [poll_loop] in H2.
  apply run_bind_inv in H2 as (n & w2 & ts2 & H2 & H3). unfold countRows in H2. apply run_bind_inv in H2 as (x & w3 & ts3 & H2 & H4).
  apply (smooth_rel_db same_rows elsewhere) in H2 as (t & d & Hd & Hq); [|apply elsewhere_turn|done..].
  unfold count_like in Hq. destruct Hq as [-> _]. cbn [run] in H4. simplify_eq.
  assert (Hn : Z.of_nat (size (matching (prefix +:+ "%") d)) = Z.of_nat (size (our_rows (w_db w)))).
  { rewrite matching_rows by done. by rewrite Hd, Hr1. }
  rewrite Hn in H3. destruct (Z.leb_spec (Z.of_nat (size (our_rows (w_db w)))) (Z.of_nat (size (our_rows (w_db w))))); [|lia].
  apply run_bind_inv in H3 as (now' & w4 & ts4 & _ & H5). cbn [run] in H5. simplify_eq. cbn [fst]. eauto.
Qed.

Lemma change_attested m rev : is_change m -> attested_ok (Value m) rev.
Proof using Type.
  intros [row Hrow]. unfold message_row, attested_ok in *. destruct (unmarshal_event _) as [ev|]; [|done]. by destruct (ev_payload ev).
Qed.
Lemma change_leaves m t : is_change m -> leaves m t = true.
Proof using Type.
  intros [row Hrow]. unfold message_row, leaves, failing_key in *. destruct (unmarshal_event _) as [ev|]; [|done]. by destruct (ev_payload ev).
Qed.
Lemma changes_go_on log w ts : Forall is_change log -> world_wf w -> w_done w = false -> forallb smooth ts = true -> going_on log w ts.
Proof using Type.
  intros Hc Hw Hd Hs. split_and!; [done..| |].
  - eapply Forall_impl; [exact Hc|]. intros m. apply change_attested.
  - rewrite forallb_forall in *. intros t Ht. unfold undisturbed. rewrite (Hs t Ht). cbn [andb]. apply forallb_forall.
    intros m Hm. rewrite Forall_forall in Hc. by apply change_leaves, Hc, list_elem_of_In.
Qed.

Definition value_key (v : string) : option ConfigKey :=
  letopt ev := unmarshal_event v in match ev_payload ev with PChange _ => Some (ev_node ev, ev_user ev) | _ => None end.
Lemma message_value_key m : message_key m = value_key (Value m).
Proof using Type. unfold message_key, message_row, value_key. destruct (unmarshal_event _) as [ev|]; [|done]. by destruct (ev_payload ev). Qed.

(** The fetched messages carry the rows of the cells. *)
Lemma produced_keys `{M : ProtoMarshal} eventTime cs outs log :
  (forall ev v, marshal_event ev = Some v -> unmarshal_event v = Some ev) ->
  Forall2 (message_of prefix eventTime) cs outs -> Value <$> log ≡ₚ out_Value <$> outs ->
  Forall run_change log /\ omap message_key log ≡ₚ cell_key prefix <$> cs.
Proof using Type.
  intros Hcodec Hcells Hperm.
  assert (Houts : Forall2 (fun c v => value_key v = Some (cell_key prefix c)) cs (out_Value <$> outs)).
  { apply Forall2_fmap_r. eapply Forall2_impl; [exact Hcells|]. intros c o [_ Hm]. unfold compose, value_key. rewrite (Hcodec _ _ Hm). done. }
  split.
  - apply Forall_forall. intros m Hm. assert (Hv : Value m ∈ out_Value <$> outs) by (rewrite <-Hperm; by apply list_elem_of_fmap_2).
    apply list_elem_of_lookup_1 in Hv as [i Hi]. destruct (Forall2_lookup_r _ _ _ _ _ Houts Hi) as (c & _ & Hc).
    pose proof (message_value_key m) as Hkey. rewrite Hc in Hkey. unfold message_key in Hkey. unfold run_change.
    destruct (message_row m) as [row|]; [|done]. apply (inj Some) in Hkey. exists row. split; [done|]. unfold of_run. rewrite Hkey. apply load_prefix.
  - trans (omap value_key (out_Value <$> outs)); [|clear -Houts; induction Houts as [|c v cs vs Hv _ IH]; [done|]; cbn; rewrite Hv; by rewrite IH].
    rewrite <-Hperm. clear. induction log as [|m log IH]; [done|]. cbn. rewrite message_value_key. destruct (value_key (Value m)); [by f_equiv|done].
Qed.
End written.

(** ** Properties *)

(** C24: the load test's completion signal is exact, and the consumer brings it
    about.  In whatever table holds only this run's rows under its prefix, the
    count never exceeds the number of events, and is that number exactly when
    every node and subscriber has its row.  Whenever the wait of a run with events
    reports that the consumer caught up -- from any state, whatever fails and
    whatever others do -- the count it reports was made by its last statement, in
    tables [d] of that moment, and was not short: if [d] holds only this run's
    rows, all rows were in [d]; so a failed count, or one row too few, never ends
    the wait.  And when the tool produced without error and a session fetched the
    produced messages -- in any order, cut into any batches, with fetch errors in
    between, while nothing fails and others write what they like but rows under
    the prefix -- the first poll after it sees all rows and ends the run. *)
Theorem load_test_catches_up `{Jsonb, P : ProtoEvents, ErrorTexts, EtcdLaws E, M : ProtoMarshal}
    runTime eventTime nodes users batch write sent client cfg republish rounds fetches timeout pollInterval start age ages
    (w : world E) ts ts1 :
  let prefix := nodePrefix (names_of (compact_time runTime)) in
  (forall ev v, marshal_event ev = Some v -> unmarshal_event v = Some ev) ->
  0 <= nodes -> 0 <= users -> nodes * users <= max_int64 ->
  produce write prefix eventTime nodes users batch = Some (sent, None) ->
  Value <$> fetched fetches ≡ₚ out_Value <$> concat sent ->
  world_wf w -> w_done w = false -> forallb smooth (ts ++ ts1) = true -> forallb (elsewhere prefix) (ts ++ ts1) = true ->
  (forall k, is_Some (pppoe_status (w_db w) !! k) -> has_prefix prefix k.1 = false) ->
  (forall d, only_ours prefix nodes users d ->
     Z.of_nat (size (matching (prefix +:+ "%") d)) <= total nodes users /\
     (Z.of_nat (size (matching (prefix +:+ "%") d)) = total nodes users <-> Forall (has_row prefix d) (cells nodes users))) /\
  (forall timeout pollInterval start ages (w0 : world E) ts0 rows peak elapsed, 0 < total nodes users ->
     outcome (waitForCatchUp prefix (total nodes users) timeout pollInterval start ages) w0 ts0 = Some (rows, peak, elapsed, CaughtUp) ->
     exists d l, own_queries (final (waitForCatchUp prefix (total nodes users) timeout pollInterval start ages) w0 ts0) =
         (d, d) :: l ++ own_queries w0 /\
       rows = Z.of_nat (size (matching (prefix +:+ "%") d)) /\ total nodes users <= rows /\
       (only_ours prefix nodes users d -> rows = total nodes users /\ Forall (has_row prefix d) (cells nodes users))) /\
  exists peak elapsed,
    outcome (waitForCatchUp prefix (total nodes users) timeout pollInterval start (age :: ages))
      (final (Run 5 client cfg republish both rounds fetches) w ts) ts1 = Some (total nodes users, peak, elapsed, CaughtUp).
Proof.
  intros prefix Hcodec Hn Hu Hmax Hprod Hperm Hwf Hdone Hs Ht Hfresh.
  assert (Hplain : plain_pattern prefix = true) by apply plain_prefix. clearbody prefix.
  assert (Htotal : total nodes users = nodes * users) by (apply wrap64_id; unfold min_int64; nia).
  rewrite Htotal. split; [intros d; by apply count_exact|]. split.
  { unfold outcome, final. intros timeout0 poll0 start0 ages0 w0 ts0 rows peak elapsed Hpos Hout.
    destruct (run (waitForCatchUp _ _ _ _ _ _) w0 ts0) as [[r w'] ts'] eqn:Hrun. cbn [fst snd] in *. subst r.
    apply caught_up_counted in Hrun as (Hle & d & l & Hq & _ & ->); [|done]. exists d, l. split_and!; [done..|]. intros Ho.
    destruct (count_exact prefix nodes users Hplain d Hn Hu Ho) as [Hmost Hall].
    assert (Z.of_nat (size (matching (prefix +:+ "%") d)) = nodes * users) as He by lia. split; [done|by apply Hall]. }
  apply produce_complete in Hprod as [Hcells _].
  destruct (produced_keys prefix eventTime (cells nodes users) (concat sent) (fetched fetches) Hcodec Hcells Hperm) as [Hchange Hkeys].
  rewrite forallb_app in Hs, Ht. apply andb_true_iff in Hs as [Hs Hs1], Ht as [Ht Ht1].
  assert (Hg : going_on (fetched fetches) w ts).
  { apply changes_go_on; [|done..]. eapply Forall_impl; [exact Hchange|]. intros m (row & Hrow & _). unfold is_change. eauto. }
  unfold final. destruct (run (Run _ _ _ _ _ _ _) w ts) as [[r w'] ts'] eqn:Hrun. cbn [fst snd].
  apply (session_adds prefix) in Hrun; [|done..].
  apply first_poll; [done..|]. rewrite <-(cells_length nodes users) by done. f_equal. rewrite Hrun.
  assert (our_rows prefix (w_db w) = ∅) as ->.
  { apply leibniz_equiv. intros k. unfold our_rows. rewrite elem_of_filter, elem_of_dom, elem_of_empty. split; [|done].
    intros [Hp Hk]. unfold of_run in Hp. by rewrite (Hfresh _ Hk) in Hp. }
  rewrite (left_id_L ∅ (∪)), (list_to_set_perm_L _ _ Hkeys), size_list_to_set by apply keys_NoDup. apply length_fmap.
Qed.

(** *** A run of two nodes with three subscribers *)

#[export] Instance ConfigApplyResult_eq_dec : EqDecision ConfigApplyResult.
Proof. solve_decision. Defined.
#[export] Instance PPPoEStateChange_eq_dec : EqDecision PPPoEStateChange.
Proof. solve_decision. Defined.
#[export] Instance RuntimeError_eq_dec : EqDecision RuntimeError.
Proof. solve_decision. Defined.
#[export] Instance ConfigOfflineEdit_eq_dec : EqDecision ConfigOfflineEdit.
Proof. solve_decision. Defined.
#[export] Instance payload_eq_dec : EqDecision payload.
Proof. solve_decision. Defined.
#[export] Instance NodeEvent_eq_dec : EqDecision NodeEvent.
Proof. solve_decision. Defined.

Definition run_at : Z := 1740000000 * second.
Definition run_prefix : string := nodePrefix (names_of (compact_time run_at)).
Example run_prefix_is : run_prefix = "loadtest-20250219212000-".
Proof. vm_compute. done. Qed.
(** A codec for the events of this run: the text is the node and the user. *)
Definition event_text (ev : NodeEvent) : string := ev_node ev +:+ "/" +:+ ev_user ev.
Definition small_events : ProtoEvents := fun v =>
  List.find (fun ev => String.eqb (event_text ev) v)
    ((fun c => load_event run_prefix 1740000000 c.1 c.2) <$> cells 2 3).
Definition small_marshal : ProtoMarshal := fun ev =>
  if decide (small_events (event_text ev) = Some ev) then Some (event_text ev) else None.
Lemma small_codec ev v : small_marshal ev = Some v -> small_events v = Some ev.
Proof. unfold small_marshal. destruct (decide _); [|done]. by intros [= <-]. Qed.

Definition small_sent : list (list outgoing) :=
  match produce (M := small_marshal) (fun _ => true) run_prefix 1740000000 2 3 4 with Some (sent, _) => sent | None => [] end.
Example small_sent_shape : length <$> small_sent = [4%nat; 2%nat].
Proof. vm_compute. done. Qed.
Definition small_log : list message := imap (fun i o => Msg (topic (names_of (compact_time run_at))) 0 (Z.of_nat i) (out_Value o)) (concat small_sent).
(** Fetched one by one and in a burst. *)
Definition small_fetches : list fetch :=
  match small_log with m :: ms => match ms with m' :: ms' => [Fetched m []; FetchError; Fetched m' (Some <$> ms')] | [] => [] end | [] => [] end.
(** Another run of the tool is consumed by another replica meanwhile. *)
Definition other_run : list turn :=
  [quiet; Turn [] 5 None None None false false [SqlStatus (MkPPPoE "loadtest-20250219211500-000" "1" "connected" "" "" "" "" "" "" 5 0)]].
Lemma load_test_catches_up_witness :
  exists peak elapsed,
    outcome (waitForCatchUp run_prefix 6 (1800 * second) (2 * second) 0 [Some 3])
      (final (Run (P := small_events) 5 (broker_client "t" []) session_cfg false both [[Some 1%N]] small_fetches) world0 other_run) []
    = Some (6, peak, elapsed, CaughtUp).
Proof.
  refine (proj2 (proj2 (load_test_catches_up (P := small_events) (M := small_marshal) run_at 1740000000 2 3 4 (fun _ => true) small_sent
    (broker_client "t" []) session_cfg false [[Some 1%N]] small_fetches (1800 * second) (2 * second) 0 (Some 3) [] world0 other_run []
    small_codec _ _ _ _ _ _ _ _ _ _))); [lia|lia|unfold max_int64; lia|vm_compute; reflexivity| |apply world0_wf|reflexivity..|].
  - assert (He : Value <$> fetched small_fetches = out_Value <$> concat small_sent) by (vm_compute; reflexivity). by rewrite He.
  - intros k [st Hk]. done.
Defined.
(** A failed count does not end the wait, and neither does a table that is one
    row short: the run reports what is missing. *)
Definition all_but_one : db :=
  set_pppoe (delete (cell_key run_prefix (1, 2)) (list_to_map ((fun c => (cell_key run_prefix c, MkStatus "connected" None None None None None None 5 0)) <$> cells 2 3)))
    db_empty.
Example short_count_waits :
  let w := World mem_empty all_but_one 0 false [] in
  let ends ages ts := snd <$> outcome (waitForCatchUp run_prefix 6 (3 * second) (2 * second) 0 ages) w ts in
  ends [None; None] [] = None /\ ends [None; None; None] [] = Some (RowsShort 1) /\
  ends [None; None; None] (repeat (Turn [] 0 None (Some (DbConn, true)) None false false []) 9) = Some (RowsShort 6).
Proof. vm_compute. done. Qed.
