(* ===== verification/Projection.v ===== *)
(** * The config projection ([internal/projection])

    The watcher that copies config changes from etcd into the history table and
    keeps the checkpoint it resumes from.  [Run] is the loop of the code with
    one entry of its argument per round: the watch channel the etcd client would
    open at a given revision. *)

From S2P Require Import Prelude GoStrings Json JsonNormal Decode GoTime ConfigDoc Etcd Db Effects Storage.
Local Open Scope string_scope.
Local Open Scope Z_scope.
Local Open Scope go_scope.

Definition watcherName : string := "configs".
Definition retryBackoff : Z := 2 * second.

(** ** Rows *)

Record hsiEnvelope := MkEnv { env_DesireStatus : string; env_ResourceVersion : string; env_UpdatedBy : string; env_UpdatedAt : string }.
Definition env_zero : hsiEnvelope := MkEnv "" "" "" "".
Definition set_env_desire (v : string) (e : hsiEnvelope) : hsiEnvelope :=
  MkEnv v (env_ResourceVersion e) (env_UpdatedBy e) (env_UpdatedAt e).
(** The two anonymous structs are decoded into the flat record. *)
Definition d_envelope : dec hsiEnvelope := d_struct [
  ("config", d_struct [fld "desire_status" env_DesireStatus set_env_desire d_string]);
  ("metadata", d_struct [
     fld "resourceVersion" env_ResourceVersion (fun v e => MkEnv (env_DesireStatus e) v (env_UpdatedBy e) (env_UpdatedAt e)) d_string;
     fld "updatedBy" env_UpdatedBy (fun v e => MkEnv (env_DesireStatus e) (env_ResourceVersion e) v (env_UpdatedAt e)) d_string;
     fld "updatedAt" env_UpdatedAt (fun v e => MkEnv (env_DesireStatus e) (env_ResourceVersion e) (env_UpdatedBy e) v) d_string])].

(** The caller sets [Action]; the slice of an empty or invalid value is replaced
    by the document [null]. *)
Definition buildRow (node user : string) (value : option string) (modRevision : Z) (action : string) : HSIConfigRow :=
  let text := default "" value in
  let configJSON := if String.eqb text "" || negb (json_valid text) then "null" else text in
  match unmarshal d_envelope env_zero text with
  | Some env =>
      MkRow node user action (Some configJSON)
        (if negb (String.eqb (env_DesireStatus env) "") then env_DesireStatus env else "disconnect")
        modRevision (env_ResourceVersion env) (env_UpdatedBy env) (fst <$> parse_rfc3339 (env_UpdatedAt env))
  | None => MkRow node user action (Some configJSON) "disconnect" modRevision "" "" None
  end.

Definition parseHSIKey (key : string) : option (string * string) :=
  match split_on "/" key with
  | [p0; p1; p2; p3] => if negb (String.eqb p0 "configs") || negb (String.eqb p2 "hsi") then None else Some (p1, p3)
  | _ => None
  end.

(** ** The watcher *)

Inductive perr := PEtcd (e : eerr) | PDb (e : dberr).

Section projection.
Context {J : Jsonb}.

Fixpoint reconcile_rows (events : list ConfigEvent) : prog (result dberr unit) :=
  match events with
  | [] => Ret (Ok tt)
  | ev :: events =>
      match parseHSIKey (ce_Key ev) with
      | None => reconcile_rows events
      | Some (node, user) =>
          do? _ := call (EDb (AppendHistory (buildRow node user (ce_Value ev) (ce_ModRevision ev) ActionUpsert))) in
          reconcile_rows events
      end
  end.
Definition reconcile : prog (result perr Z) :=
  do! listed := ListConfigs in
  match listed with
  | Err e => Ret (Err (PEtcd e))
  | Ok (events, rev) =>
      do! appended := reconcile_rows events in
      match appended with
      | Err e => Ret (Err (PDb e))
      | Ok _ =>
          do! saved := call (EDb (SetWatchProgress watcherName rev)) in
          match saved with Err e => Ret (Err (PDb e)) | Ok _ => Ret (Ok rev) end
      end
  end.

Definition handleEvent (ev : ConfigEvent) : prog (result dberr unit) :=
  match parseHSIKey (ce_Key ev) with
  | None => call (EDb (SetWatchProgress watcherName (ce_ModRevision ev)))
  | Some (node, user) =>
      if ce_IsDelete ev then
        do? _ := call (EDb (AppendHistory (MkRow node user ActionDelete None "" (ce_ModRevision ev) "" "" None))) in
        call (EDb (SetWatchProgress watcherName (ce_ModRevision ev)))
      else
        do? _ := call (EDb (AppendHistory (buildRow node user (ce_Value ev) (ce_ModRevision ev) ActionUpsert))) in
        call (EDb (SetWatchProgress watcherName (ce_ModRevision ev)))
  end.

Definition sleep : prog unit := do! _ := call (ESleep retryBackoff false) in Ret tt.

(** The revision a round watches from. *)
Definition start_revision (ok : option Z) : prog (result perr Z) :=
  match ok with Some rev => Ret (Ok rev) | None => reconcile end.

Fixpoint Run (rounds : list (Z -> list watchResponse)) : prog unit :=
  match rounds with
  | [] => Ret tt
  | watch :: rounds =>
      do! cancelled := call ECtx in
      if cancelled : bool then Ret tt else
      do! progress := call (EDb (GetWatchProgress watcherName)) in
      match progress with
      | Err _ => do! _ := sleep in Run rounds
      | Ok ok =>
          do! start := start_revision ok in
          match start with
          | Err _ => do! _ := sleep in Run rounds
          | Ok rev =>
              do! stopped := WatchConfigs handleEvent (watch rev) in
              do! cancelled := call ECtx in
              if cancelled : bool then Ret tt else
              match stopped with
              | WatchCompacted =>
                  do! r := reconcile in
                  match r with Err _ => do! _ := sleep in Run rounds | Ok _ => Run rounds end
              | WatchNil => Run rounds
              | _ => do! _ := sleep in Run rounds
              end
          end
      end
  end.
End projection.

(** ** Examples *)

Definition stored_doc : string := encode (JObj
  [("config", JObj [("desire_status", JStr "connect"); ("vlan_id", JStr "7")]);
   ("metadata", JObj [("resourceVersion", JStr "3"); ("updatedBy", JStr "admin"); ("updatedAt", JStr "2024-02-29T09:05:06+08:00")])]).
Example buildRow_sample :
  buildRow "n" "2" (Some stored_doc) 9 ActionUpsert =
  MkRow "n" "2" "upsert" (Some stored_doc) "connect" 9 "3" "admin" (Some (unix 1709168706)).
Proof. vm_compute. reflexivity. Qed.
Example buildRow_empty : buildRow "n" "2" None 9 ActionUpsert = MkRow "n" "2" "upsert" (Some "null") "disconnect" 9 "" "" None.
Proof. vm_compute. reflexivity. Qed.
Example parse_keys :
  parseHSIKey "configs/n/hsi/2" = Some ("n", "2") /\ parseHSIKey "configs/n/dns/2" = None /\
  parseHSIKey "configs/n/hsi/2/x" = None /\ parseHSIKey "configs//hsi/" = Some ("", "").
Proof. vm_compute. done. Qed.

(** ** Keys *)

(** The projection reads exactly the keys the API servers write: a key
    parses to a node and a user iff it is the config key of that pair and
    neither contains a slash. *)
Theorem parseHSIKey_hsiKey key node user :
  parseHSIKey key = Some (node, user) <->
  key = hsiKey node user /\ has_byte "/" node = false /\ has_byte "/" user = false.
Proof.
  unfold parseHSIKey, hsiKey. split.
  - intros H. pose proof (join_split "/" key) as Hj. pose proof (split_on_pieces "/" key) as Hp. revert H.
    destruct (split_on "/" key) as [|a [|b [|c [|d [|]]]]]; try done.
    destruct (String.eqb_spec a "configs") as [->|]; [|done]. destruct (String.eqb_spec c "hsi") as [->|]; [|done].
    intros [= <- <-]. rewrite !Forall_cons in Hp. destruct Hp as (_ & Hb & _ & Hd & _).
    by split_and!.
  - intros (-> & Hn & Hu).
    change ("configs/" +:+ ?x) with ("configs" +:+ String "/" x).
    rewrite split_on_app by done.
    change (node +:+ "/hsi/" +:+ user) with (node +:+ String "/" ("hsi" +:+ String "/" user)).
    rewrite split_on_app, split_on_app, split_on_no_sep by done. done.
Qed.
