(* ===== verification/ProjectionProps.v ===== *)
(** * What the projection's checkpoint promises

    The checkpoint is the revision a restarted watcher resumes from, so an
    event at or below it that is missing from the history is lost.  The watch of
    etcd is described by [feeds]: from a revision on it delivers the later
    changes in order, until a compaction notice ends it.  The run is followed
    once, for any notion of what a checkpoint covers. *)

From Stdlib Require Import Sorted.
From S2P Require Import Prelude GoStrings Json JsonNormal Decode GoTime ConfigDoc Etcd Db DbProps Effects Grows Hoare Rely Cas Storage Projection Validation.
Local Open Scope string_scope.
Local Open Scope Z_scope.
Local Open Scope go_scope.

(** The row an event is looked up by: node, user and revision. *)
Definition event_row (node user : string) (e : watchEvent) : HSIConfigRow := MkRow node user "" None "" (we_mod e) "" "" None.
Definition recorded (e : watchEvent) (d : db) : Prop :=
  match parseHSIKey (we_key e) with
  | None => True
  | Some (node, user) => existsb (same_history (event_row node user e) "pending") (hsi_config_history d) = true
  end.

Lemma recorded_grows e d d' : db_grows d d' -> recorded e d -> recorded e d'.
Proof. intros Hg. unfold recorded. destruct (parseHSIKey _) as [[n u]|]; [|done]. apply (grows_history _ _ Hg). Qed.

(** The row an event is stored as, and whether the server's JSONB type refuses
    its document. *)
Definition row_of (node user : string) (ev : ConfigEvent) : HSIConfigRow :=
  if ce_IsDelete ev then MkRow node user ActionDelete None "" (ce_ModRevision ev) "" "" None
  else buildRow node user (ce_Value ev) (ce_ModRevision ev) ActionUpsert.
Definition refused {J : Jsonb} (e : watchEvent) : Prop :=
  match parseHSIKey (we_key e) with
  | None => False
  | Some (node, user) => exists x, jsonb_param (ConfigJSON (row_of node user (config_event e))) = Err x
  end.

Lemma buildRow_key node user v m a : row_key (buildRow node user v m a) = (node, user) /\ ModRevision (buildRow node user v m a) = m.
Proof. unfold buildRow. by destruct (unmarshal _ _ _). Qed.
Lemma handleEvent_row {J : Jsonb} ev node user :
  parseHSIKey (ce_Key ev) = Some (node, user) ->
  handleEvent ev = (do? _ := call (EDb (AppendHistory (row_of node user ev))) in
                    call (EDb (SetWatchProgress watcherName (ce_ModRevision ev)))).
Proof. unfold handleEvent, row_of. intros ->. by destruct (ce_IsDelete ev). Qed.

(** An event whose row was appended is in the history, and was not refused. *)
Lemma appended {J : Jsonb} e node user now d d' :
  parseHSIKey (we_key e) = Some (node, user) ->
  AppendHistory (row_of node user (config_event e)) now d = Ok (tt, d') -> recorded e d' /\ ~ refused e.
Proof.
  intros Hk Ha. unfold recorded, refused. rewrite Hk. split.
  - pose proof (append_recorded _ _ _ _ _ Ha) as Hr. revert Hr.
    assert (Hrow : row_key (row_of node user (config_event e)) = (node, user) /\
                   ModRevision (row_of node user (config_event e)) = we_mod e).
    { unfold row_of. simpl. destruct (we_put e); [apply buildRow_key|done]. }
    destruct Hrow as [[= Hn Hu] Hm]. unfold same_history, event_row. simpl. by rewrite Hn, Hu, Hm.
  - intros [x Hx]. unfold AppendHistory, appendHistoryWithStatus in Ha. by rewrite Hx in Ha.
Qed.

Lemma append_keeps {J : Jsonb} (P : HistRow -> bool) row now d d' :
  AppendHistory row now d = Ok (tt, d') ->
  etcd_watch_progress d' = etcd_watch_progress d /\
  (existsb P (hsi_config_history d) = true -> existsb P (hsi_config_history d') = true).
Proof.
  unfold AppendHistory, appendHistoryWithStatus. destruct (jsonb_param (ConfigJSON row)) as [c|]; [|done].
  destruct (existsb _ (hsi_config_history d)); intros [= <-]; (split; [done|]); simpl; [done|].
  intros H. by rewrite existsb_app, H.
Qed.

(** ** Changes and the watch over them *)

Section changes.
Context (changes : list watchEvent).
Context (Hsorted : StronglySorted (fun a b => we_mod a < we_mod b) changes).

(** What is still to come after a revision. *)
Definition later (rev : Z) : list watchEvent := filter (fun e => rev < we_mod e) changes.

(** The documented watch: ordered, without gaps, from the revision after the
    given one, up to a compaction notice if there is one. *)
Fixpoint delivered (l : list watchResponse) : list watchEvent :=
  match l with
  | [] => []
  | r :: l => if CompactRevision r =? 0 then (wr_Events r ++ delivered l)%list else []
  end.
Definition feeds (watch : Z -> list watchResponse) : Prop :=
  forall rev, exists more, later rev = (delivered (watch rev) ++ more)%list.

Lemma filter_later (l : list watchEvent) b : Forall (fun e => b < we_mod e) l -> filter (fun e => b < we_mod e) l = l.
Proof using Type. induction 1 as [|e l He _ IH]; [done|]. rewrite filter_cons_True by done. by rewrite IH. Qed.
Lemma later_next_in l cp e tail :
  StronglySorted (fun a b => we_mod a < we_mod b) l -> filter (fun e => cp < we_mod e) l = e :: tail ->
  filter (fun x => we_mod e < we_mod x) l = tail /\ cp < we_mod e /\
  forall x, x ∈ l -> we_mod x <= we_mod e -> we_mod x <= cp \/ x = e.
Proof.
  intros Hs. revert e tail. induction Hs as [|c l Hs IH Hc]; intros e tail; [done|]. rewrite filter_cons.
  destruct (decide (cp < we_mod c)) as [Hlt|Hge].
  - intros [= <- <-]. rewrite Forall_forall in Hc. split_and!; [|done|].
    + rewrite filter_cons_False by lia. rewrite !filter_later; [done| |];
        apply Forall_forall; intros x Hx; specialize (Hc x Hx); lia.
    + intros x [->|Hx]%elem_of_cons Hle; [by right|]. specialize (Hc x Hx). lia.
  - intros Hf. destruct (IH _ _ Hf) as (H1 & H2 & H3). split_and!; [|done|].
    + by rewrite filter_cons_False by lia.
    + intros x [->|Hx]%elem_of_cons Hle; [left; lia|by apply H3].
Qed.
Lemma later_next cp e tail :
  later cp = e :: tail ->
  later (we_mod e) = tail /\ cp < we_mod e /\ forall x, x ∈ changes -> we_mod x <= we_mod e -> we_mod x <= cp \/ x = e.
Proof. by apply later_next_in. Qed.

(** ** The invariant *)

(** An entry of a listing, as the event the projection makes of it. *)
Definition listed (x : string * kv) : watchEvent := MkWatchEvent x.1 (Some (kv_value x.2)) (kv_mod x.2).
Definition uncompacted (watch : Z -> list watchResponse) : Prop := forall rev, Forall (fun r => CompactRevision r = 0) (watch rev).

Section run.
Context `{EtcdLaws E} {J : Jsonb} (shown : E -> Prop) (before : list (db * db)).

(** What a checkpoint covers, and whether the configs may have to be listed:
    when there is no checkpoint yet, or after a compaction. *)
Context (covered : Z -> db -> Prop) (lists : Prop).
Hypothesis covered_grows : forall cp d d', db_grows d d' -> covered cp d -> covered cp d'.
Hypothesis covered_next : forall cp e tail d,
  later cp = e :: tail -> covered cp d -> recorded e d -> ~ refused e -> covered (we_mod e) d.
Hypothesis covered_list : lists -> forall s d,
  shown s -> Forall (fun x => recorded (listed x) d) (et_range s "configs/") -> covered (et_rev s) d.

(** A replica that lost its leadership may still be writing.  This is what one
    leader needs of the others, and what it keeps itself. *)
Definition promise (d : db) (o : sqlop) : Prop :=
  match o with SqlProgress watcher rev => watcher = watcherName -> covered rev d | _ => True end.
Definition kept_promise (s : db * db) : Prop :=
  forall cp, etcd_watch_progress s.2 !! watcherName = Some cp ->
    etcd_watch_progress s.1 !! watcherName = Some cp \/ covered cp s.1.

Definition checkpoint (d : db) : Prop :=
  match etcd_watch_progress d !! watcherName with Some cp => covered cp d | None => lists end.
Definition own_kept (w : world E) : Prop := exists qs, own_queries w = (qs ++ before)%list /\ Forall kept_promise qs.
Definition good (w : world E) : Prop := checkpoint (w_db w) /\ own_kept w.
Definition goes (w w' : world E) : Prop := good w' /\ db_grows (w_db w) (w_db w').

Lemma checkpoint_set cp d : etcd_watch_progress d !! watcherName = Some cp -> covered cp d -> checkpoint d.
Proof using Type. unfold checkpoint. by intros ->. Qed.
Lemma checkpoint_found d : ~ lists -> checkpoint d -> exists cp, etcd_watch_progress d !! watcherName = Some cp /\ covered cp d.
Proof using Type. unfold checkpoint. destruct (_ !! _); [eauto|done]. Qed.
Lemma checkpoint_grows d d' :
  db_grows d d' -> etcd_watch_progress d' !! watcherName = etcd_watch_progress d !! watcherName -> checkpoint d -> checkpoint d'.
Proof using covered_grows. unfold checkpoint. intros Hg ->. destruct (_ !! _); [by apply covered_grows|done]. Qed.
Lemma checkpoint_promised now d o : checkpoint d -> promise d o -> checkpoint (apply_sql now d o).
Proof using covered_grows.
  intros Hc Ho. pose proof (apply_sql_grows now d o) as Hg. destruct (decide (progress_of o = Some watcherName)) as [He|He].
  - destruct o as [| | | | |watcher rev]; simplify_eq/=. apply (checkpoint_set rev); [simpl; by rewrite lookup_insert_eq|].
    eapply covered_grows; [exact Hg|]. by apply Ho.
  - eapply checkpoint_grows; [done| |done]. by apply apply_sql_progress.
Qed.

#[local] Instance goes_trans : Transitive goes.
Proof using Type*. intros x y z [_ G1] [Hz G2]. split; [done|]. by etrans. Qed.
Lemma goes_refl w : good w -> goes w w.
Proof using Type*. by split. Qed.

Lemma quiet_goes {A} (p : prog A) w (Q : A -> world E -> Prop) :
  uses no_sql p -> good w -> (forall a w', goes w w' -> Q a w') -> under promise shown p w Q.
Proof using Type*.
  intros Hu [Hc Ho] Hq. apply (under_no_sql _ _ checkpoint checkpoint_promised); [done..|]. intros a w' Hc' Hd Ho'.
  apply Hq. split; [|by apply env_grows]. split; [done|]. unfold own_kept. by rewrite Ho'.
Qed.
(** A statement that moves the checkpoint only over recorded events. *)
Definition careful {A} (q : query A) (w : world E) : Prop :=
  grows q /\ forall now d a d', db_grows (w_db w) d -> q now d = Ok (a, d') ->
    etcd_watch_progress d' !! watcherName = etcd_watch_progress d !! watcherName \/
    exists cp, etcd_watch_progress d' !! watcherName = Some cp /\ covered cp d.
Lemma query_goes {A} (q : query A) w (Q : result dberr A -> world E -> Prop) :
  careful q w -> good w -> (forall w' e, goes w w' -> Q (Err e) w') ->
  (forall w' a now d, goes w w' -> db_grows (w_db w) d -> q now d = Ok (a, w_db w') -> Q (Ok a) w') ->
  under promise shown (call (EDb q)) w Q.
Proof using Type*.
  intros [Hg Hq] [Hc Ho] Herr Hok. apply (under_query _ _ checkpoint checkpoint_promised); [done|]. intros d Hd He.
  apply env_grows in He. split.
  - intros w' a now Hrun Hown. pose proof (Hg _ _ _ _ Hrun) as Hg'.
    assert (Hw : goes w w'); [|split; [by eapply Hok|intros e; by apply Herr]].
    split; [|by etrans]. destruct Ho as (qs & Hqs & Hk). split.
    + destruct (Hq _ _ _ _ He Hrun) as [Hsame|(cp & Hcp & Hcov)]; [by eapply checkpoint_grows|].
      apply (checkpoint_set cp); [done|]. by eapply covered_grows.
    + exists ((d, w_db w') :: qs). rewrite Hown, Hqs. split; [done|]. constructor; [|done]. intros cp Hcp. simpl in *.
      destruct (Hq _ _ _ _ He Hrun) as [Hsame|(cp' & Hcp' & Hcov)]; [left; by rewrite <-Hsame|right]. by simplify_eq.
  - intros w' e <- Hown. apply Herr. split; [|done]. split; [done|]. unfold own_kept. by rewrite Hown.
Qed.
Lemma append_careful row w : careful (AppendHistory row) w.
Proof using Type*.
  split; [apply appendHistory_grows|]. intros now d [] d' _ Ha. left. by destruct (append_keeps (fun _ => true) _ _ _ _ Ha) as [-> _].
Qed.
Lemma set_careful cp w : covered cp (w_db w) -> careful (SetWatchProgress watcherName cp) w.
Proof using Type*.
  intros Hc. split; [apply SetWatchProgress_grows|]. intros now d [] d' Hg [= <-]. right. exists cp. simpl.
  rewrite lookup_insert_eq. split; [done|]. by eapply covered_grows.
Qed.
Lemma get_careful w : careful (GetWatchProgress watcherName) w.
Proof using Type*. split; [intros now d a d' [= _ <-]; done|]. intros now d a d' _ [= _ <-]. by left. Qed.

(** One event: when it succeeds, everything up to its revision is recorded. *)
Definition passed (w : world E) (cp : Z) {X} (r : result X unit) (w' : world E) : Prop :=
  goes w w' /\ (is_ok r = true -> covered cp (w_db w')).

Lemma set_passes cp w : good w -> covered cp (w_db w) -> under promise shown (call (EDb (SetWatchProgress watcherName cp))) w (passed w cp).
Proof using Type*.
  intros Hg Hc. apply query_goes; [by apply set_careful|done|by split|]. intros w' [] now d Hw _ _. split; [done|].
  intros _. eapply covered_grows; [apply Hw|done].
Qed.
Lemma handleEvent_passes cp e tail w :
  later cp = e :: tail -> good w -> covered cp (w_db w) -> under promise shown (handleEvent (config_event e)) w (passed w (we_mod e)).
Proof using Type*.
  intros Hl Hg Hc. destruct (parseHSIKey (we_key e)) as [[node user]|] eqn:Hk.
  - rewrite (handleEvent_row (config_event e) node user Hk).
    apply under_bind, query_goes; [apply append_careful|done|intros w' x Hw; apply under_ret; by split|].
    intros w1 [] now d Hw _ Ha. destruct (appended _ _ _ _ _ _ Hk Ha) as [Hr Hn].
    eapply under_mono; [|apply set_passes; [apply Hw|]].
    + intros r w2 [Hw2 Hp]. split; [by etrans|done].
    + eapply covered_next; [done| |done..]. eapply covered_grows; [apply Hw|done].
  - unfold handleEvent. simpl. rewrite Hk. apply set_passes; [done|].
    apply (covered_next cp e tail); [done..| |]; unfold recorded, refused; rewrite Hk; [done|by intros []].
Qed.

(** A batch, and a whole channel: success consumes exactly what was delivered. *)
Definition consumed (w : world E) (tail : list watchEvent) (ok : bool) (w' : world E) : Prop :=
  goes w w' /\ (ok = true -> exists cp, covered cp (w_db w') /\ later cp = tail).
Lemma consumed_after w w1 tail ok w' : goes w w1 -> consumed w1 tail ok w' -> consumed w tail ok w'.
Proof using Type*. intros Hg [Hg' Ht]. split; [by etrans|done]. Qed.

Lemma handle_events_consume l cp tail w :
  later cp = (l ++ tail)%list -> good w -> covered cp (w_db w) ->
  under promise shown (handle_events handleEvent l) w (fun r => consumed w tail (is_ok r)).
Proof using Type*.
  revert cp w. induction l as [|e l IH]; intros cp w Hl Hg Hc; cbn [handle_events].
  - apply under_ret. split; [by apply goes_refl|]. intros _. by exists cp.
  - destruct (later_next _ _ _ Hl) as (Hn & Hlt & _). apply under_bind.
    eapply under_mono; [|by apply (handleEvent_passes cp e (l ++ tail)%list)]. intros [[]|x] w1 [Hw Hp].
    + eapply under_mono; [|apply (IH (we_mod e)); [done|apply Hw|by apply Hp]]. intros r w2. by apply consumed_after.
    + apply under_ret. by split.
Qed.

Lemma watch_goes chan cp tail w :
  later cp = (delivered chan ++ tail)%list -> good w -> covered cp (w_db w) ->
  under promise shown (WatchConfigs handleEvent chan) w (fun r w' =>
    goes w w' /\ (Forall (fun r => CompactRevision r = 0) chan -> r <> WatchCompacted)).
Proof using Type*.
  revert cp w. induction chan as [|resp chan IH]; intros cp w Hl Hg Hc; cbn [WatchConfigs].
  - apply under_bind, quiet_goes; [done..|]. intros done w' Hd. apply under_ret. split; [done|]. by destruct done.
  - cbn [delivered] in Hl. destruct (Z.eqb_spec (CompactRevision resp) 0) as [Hz|Hz]; cbn [negb]; cycle 1.
    { apply under_ret. split; [by apply goes_refl|]. by intros [? _]%Forall_cons. }
    rewrite <-app_assoc in Hl. destruct (watch_Err resp) as [x|].
    + apply under_ret. split; [by apply goes_refl|done].
    + apply under_bind. eapply under_mono; [|by eapply handle_events_consume].
      intros [[]|x] w1 [Hw Ht].
      * destruct (Ht eq_refl) as (cp1 & Hc1 & Hl1). eapply under_mono; [|apply (IH cp1); [done|apply Hw|done]].
        intros r w2 [Hw2 Hr]. split; [by etrans|]. intros [_ Hall]%Forall_cons. by apply Hr.
      * by apply under_ret.
Qed.

(** A listing: every entry is recorded before the checkpoint is set. *)
Lemma rows_recorded l w : good w ->
  under promise shown (reconcile_rows ((fun x => config_event (listed x)) <$> l)) w (fun r w' =>
    goes w w' /\ (is_ok r = true -> Forall (fun x => recorded (listed x) (w_db w')) l)).
Proof using Type*.
  revert w. induction l as [|x l IH]; intros w Hg; cbn [reconcile_rows fmap list_fmap].
  { apply under_ret. split; [by apply goes_refl|by constructor]. }
  cbn [ce_Key config_event we_key listed]. destruct (parseHSIKey x.1) as [[node user]|] eqn:Hk.
  - apply under_bind, query_goes; [apply append_careful|done|intros w1 e Hw; by apply under_ret|].
    intros w1 [] now d Hw _ Ha. destruct (appended (listed x) _ _ _ _ _ Hk Ha) as [Hr _].
    eapply under_mono; [|by apply IH, Hw]. intros r w2 [Hw2 Hl]. split; [by etrans|]. intros Hok. constructor; [|by apply Hl].
    eapply recorded_grows; [apply Hw2|done].
  - eapply under_mono; [|by apply IH]. intros r w1 [Hw Hl]. split; [done|]. intros Hok. constructor; [|by apply Hl].
    unfold recorded. cbn [we_key listed]. by rewrite Hk.
Qed.
Lemma reconcile_goes w : lists -> good w ->
  under promise shown reconcile w (fun r w' => goes w w' /\ forall rev, r = Ok rev -> covered rev (w_db w')).
Proof using Type*.
  intros Hl [Hc Ho]. unfold reconcile, ListConfigs. apply under_bind, under_bind.
  apply (under_range _ _ checkpoint checkpoint_promised); [done|]. intros r w1 Hc1 Hd1 Ho1 Hr.
  assert (Hw1 : goes w w1) by (split; [split; [done|]; unfold own_kept; by rewrite Ho1|by apply env_grows]).
  destruct Hr as [(s & Hs & ->)|[e ->]]; [|by apply under_ret, under_ret].
  apply under_ret, under_bind. eapply under_mono; [|apply (rows_recorded (et_range s "configs/")), Hw1].
  intros [[]|x] w2 [Hw2 Hrec]; [|apply under_ret; split; [by etrans|done]].
  apply under_bind. eapply under_mono; [|apply set_passes; [apply Hw2|by apply covered_list, Hrec]].
  intros [[]|x] w3 [Hw3 Hp]; apply under_ret; (split; [by do 2 (etrans; [done|])|]); [|done]. intros rev [= <-]. by apply Hp.
Qed.

Lemma sleep_good {A} (p : prog A) w (Q : A -> world E -> Prop) :
  good w -> (forall w', good w' -> under promise shown p w' Q) -> under promise shown (bind sleep (fun _ => p)) w Q.
Proof using Type*. intros Hg Hq. apply under_bind, quiet_goes; [done..|]. intros _ w' Hw. apply Hq, Hw. Qed.

Lemma start_goes w : good w ->
  under promise shown (start_revision (etcd_watch_progress (w_db w) !! watcherName)) w
    (fun r w' => goes w w' /\ forall rev, r = Ok rev -> covered rev (w_db w')).
Proof using Type*.
  intros Hg. pose proof Hg as [Hc _]. unfold checkpoint in Hc. destruct (_ !! _) as [cp|] eqn:Hcp; cbn [start_revision].
  - apply under_ret. split; [by apply goes_refl|]. by intros rev [= <-].
  - by apply reconcile_goes.
Qed.

Lemma Run_good rounds w :
  Forall feeds rounds -> lists \/ Forall uncompacted rounds -> good w -> under promise shown (Run rounds) w (fun _ => good).
Proof using Type*.
  intros Hf. revert w. induction Hf as [|watch rounds Hw _ IH]; intros w Hl Hg; cbn [Run]; [by apply under_ret|].
  assert (Hl' : lists \/ Forall uncompacted rounds) by (destruct Hl as [|[_ ?]%Forall_cons]; auto).
  assert (Hsleep : forall w, good w -> under promise shown (bind sleep (fun _ => Run rounds)) w (fun _ => good)).
  { intros w1 Hg1. apply sleep_good; [done|]. intros. by apply IH. }
  apply under_bind, quiet_goes; [done..|]. intros [] w1 [Hg1 _]; [by apply under_ret|].
  apply under_bind, query_goes; [apply get_careful|done|intros w2 x [Hg2 _]; by apply Hsleep|].
  intros w2 a now d [Hg2 _] _ [= <- ->]. apply under_bind.
  eapply under_mono; [|by apply start_goes]. intros [rev|x] w3 [[Hg3 _] Hc]; [|by apply Hsleep].
  destruct (Hw rev) as [more Hm]. apply under_bind.
  eapply under_mono; [|eapply watch_goes; [exact Hm|done|by apply Hc]]. intros r w4 [[Hg4 _] Hr].
  apply under_bind, quiet_goes; [done..|]. intros stop w5 [Hg5 _].
  destruct stop; [by apply under_ret|]. destruct r; try (by apply Hsleep); [|by apply IH].
  destruct Hl as [Hl|[Hu _]%Forall_cons]; [|by destruct (Hr (Hu rev))].
  apply under_bind. eapply under_mono; [|by apply reconcile_goes]. intros [rev'|x] w6 [[Hg6 _] _]; [by apply IH|by apply Hsleep].
Qed.
End run.

(** ** From a checkpoint on *)

(** Nothing between the first checkpoint and this one is missing. *)
Definition covered_from {J : Jsonb} (base cp : Z) (d : db) : Prop :=
  base <= cp /\ forall x, x ∈ changes -> base < we_mod x <= cp -> recorded x d /\ ~ refused x.
Lemma covered_from_grows {J : Jsonb} base cp d d' : db_grows d d' -> covered_from base cp d -> covered_from base cp d'.
Proof using Type.
  intros Hg (Hb & Hc). split; [done|]. intros x Hx Hm. destruct (Hc x Hx Hm) as [Hr Hn]. split; [|done]. by eapply recorded_grows.
Qed.
Lemma covered_from_next {J : Jsonb} base cp e tail d :
  later cp = e :: tail -> covered_from base cp d -> recorded e d -> ~ refused e -> covered_from base (we_mod e) d.
Proof using Hsorted.
  intros Hl (Hb & Hc) Hr Hn. destruct (later_next _ _ _ Hl) as (_ & Hlt & Hall). split; [lia|].
  intros x Hx Hm. destruct (Hall x Hx) as [Hle| ->]; [lia| |done]. apply Hc; [done|lia].
Qed.
Lemma Run_covers `{EtcdLaws E} {J : Jsonb} base rounds (w : world E) ts :
  Forall feeds rounds -> Forall uncompacted rounds -> etcd_watch_progress (w_db w) !! watcherName = Some base ->
  relied (promise (covered_from base)) anything (Run rounds) w ts ->
  good (own_queries w) (covered_from base) False (final (Run rounds) w ts).
Proof using Hsorted.
  intros Hf Hu Hp Hr. eapply (under_final _ _ _ _ _ _ (Run_good _ _ _ _ (covered_from_grows base) (covered_from_next base)
    (fun no => False_ind _ no) rounds w Hf (or_intror Hu) _) Hr).
  Unshelve. split; [|by exists []]. apply (checkpoint_set _ _ base); [done|]. split; [lia|]. intros x _ Hx. lia.
Qed.
End changes.

(** ** Properties *)

Section properties.
Context `{EtcdLaws E} {J : Jsonb}.
Context (changes : list watchEvent) (rounds : list (Z -> list watchResponse)) (base : Z).

(** C8: the checkpoint never runs ahead of the history: whatever fails, however
    often the watcher restarts, and with other replicas projecting at the same
    time, every HSI change between where the checkpoint started and where it
    stands is in the history.  Each replica relies on the others moving the
    checkpoint only over recorded changes, and does so itself. *)
Theorem checkpoint_covers_history (w : world E) ts :
  StronglySorted (fun a b => we_mod a < we_mod b) changes -> Forall (feeds changes) rounds -> Forall uncompacted rounds ->
  etcd_watch_progress (w_db w) !! watcherName = Some base ->
  relied (promise (covered_from changes base)) anything (Run rounds) w ts ->
  let w' := final (Run rounds) w ts in
  (exists cp, etcd_watch_progress (w_db w') !! watcherName = Some cp /\ base <= cp /\
    forall e, e ∈ changes -> base < we_mod e <= cp -> recorded e (w_db w')) /\
  exists mine, own_queries w' = (mine ++ own_queries w)%list /\ Forall (kept_promise (covered_from changes base)) mine.
Proof.
  intros Hs Hf Hu Hp Hr w'. destruct (Run_covers changes Hs base rounds w ts Hf Hu Hp Hr) as [Hc Ho]. split; [|done].
  apply checkpoint_found in Hc; [|by intros []]; destruct Hc as (cp & Hcp & Hb & Hc).
  exists cp. split_and!; [done..|]. intros e He Hm. by destruct (Hc e He Hm).
Qed.

(** C39: a document the JSONB type refuses stops the projection for as long as the
    watch is not compacted: no number of retries, by however many replicas that
    keep the promise, moves the checkpoint to the change that carries it, so no
    later change of any subscriber reaches the history either, though the document
    be replaced or deleted long since.  (Once the watch is compacted the configs
    are listed: that fails too while the document is there, and moves the
    checkpoint past it when it is not: [compaction_frees].) *)
Theorem refused_document_stalls e (w : world E) ts :
  StronglySorted (fun a b => we_mod a < we_mod b) changes -> Forall (feeds changes) rounds -> Forall uncompacted rounds ->
  etcd_watch_progress (w_db w) !! watcherName = Some base ->
  relied (promise (covered_from changes base)) anything (Run rounds) w ts ->
  e ∈ changes -> base < we_mod e -> refused e ->
  exists cp, etcd_watch_progress (w_db (final (Run rounds) w ts)) !! watcherName = Some cp /\ base <= cp < we_mod e.
Proof.
  intros Hs Hf Hu Hp Hr He Hb Hx. destruct (Run_covers changes Hs base rounds w ts Hf Hu Hp Hr) as [Hc _].
  apply checkpoint_found in Hc; [|by intros []]; destruct Hc as (cp & Hcp & Hle & Hc).
  exists cp. split; [done|]. split; [done|]. destruct (Z.lt_ge_cases cp (we_mod e)) as [|Hge]; [done|].
  by destruct (Hc e He).
Qed.
End properties.

(** *** Witnesses *)

(** A watch that sends all later changes in one response. *)
Definition delivers (changes : list watchEvent) (rev : Z) : list watchResponse := [MkWatch 0 None (later changes rev)].
Lemma feeds_delivers changes : feeds changes (delivers changes).
Proof. intros rev. exists []. simpl. by rewrite !app_nil_r. Qed.
Lemma uncompacted_delivers changes : uncompacted (delivers changes).
Proof. intros rev. by repeat constructor. Qed.

Definition change5 : watchEvent := MkWatchEvent "configs/n/hsi/2" (Some stored_doc) 5.
Definition change7 : watchEvent := MkWatchEvent "configs/n/hsi/2" None 7.
Definition two_changes : list watchEvent := [change5; change7].
Lemma two_changes_sorted : StronglySorted (fun a b => we_mod a < we_mod b) two_changes.
Proof. repeat constructor. Qed.
Definition at_four : world mem :=
  World mem_empty (set_progress {[ watcherName := 4 ]} db_empty) 0 false [].

(** A replica that stopped being the leader finishes its batch: it records the
    first change and sets the checkpoint back to it. *)
Definition late_leader : turn :=
  Turn [] 0 None None None false false
    [SqlHistory (row_of "n" "2" (config_event change5)) "pending"; SqlProgress watcherName 5].
Definition overlap : list turn := [quiet; quiet; quiet; quiet; quiet; quiet; late_leader].

(** It sets the checkpoint to 5, and only once the change of 5 is stored. *)
Definition after_five (d : db) (o : sqlop) : Prop :=
  match o with
  | SqlProgress _ rev => rev = 5 /\ existsb (same_history (event_row "n" "2" change5) "pending") (hsi_config_history d) = true
  | _ => True
  end.
Lemma overlap_relied : relied (promise (covered_from two_changes 4)) anything (Run [delivers two_changes]) at_four overlap.
Proof.
  apply (relied_mono after_five).
  - intros d [| | | | |watcher rev]; try done. intros [-> Hd] _. split; [done|]. intros x Hx.
    apply list_elem_of_In in Hx as [<-|[<-|[]]]; [|simpl; lia]. intros _. split; [exact Hd|]. by intros [].
  - vm_compute. repeat (split; try done).
Qed.
Lemma checkpoint_covers_history_witness :
  StronglySorted (fun a b => we_mod a < we_mod b) two_changes /\
  etcd_watch_progress (w_db at_four) !! watcherName = Some 4 /\
  let w' := final (Run [delivers two_changes]) at_four overlap in
  (exists cp, etcd_watch_progress (w_db w') !! watcherName = Some cp /\ 4 <= cp /\
    forall e, e ∈ two_changes -> 4 < we_mod e <= cp -> recorded e (w_db w')) /\
  exists mine, own_queries w' = (mine ++ own_queries at_four)%list /\ Forall (kept_promise (covered_from two_changes 4)) mine.
Proof.
  split; [apply two_changes_sorted|]. split; [reflexivity|].
  apply (checkpoint_covers_history two_changes [delivers two_changes] 4 at_four overlap);
    [apply two_changes_sorted|constructor; [apply feeds_delivers|constructor]|constructor; [apply uncompacted_delivers|constructor]
    |reflexivity|apply overlap_relied].
Defined.
Example overlap_sets_back :
  let d := w_db (final (Run [delivers two_changes]) at_four overlap) in
  etcd_watch_progress d !! watcherName = Some 5 /\ (Action ∘ h_row <$> hsi_config_history d) = ["upsert"; "delete"].
Proof. vm_compute. done. Qed.
Example both_changes_recorded :
  let d := w_db (final (Run [delivers two_changes]) at_four []) in
  etcd_watch_progress d !! watcherName = Some 7 /\ (Action ∘ h_row <$> hsi_config_history d) = ["upsert"; "delete"].
Proof. vm_compute. done. Qed.

(** A JSONB type that, like the server's, has no text with a NUL. *)
Fixpoint contains (p s : string) : bool :=
  has_prefix p s || match s with EmptyString => false | String _ r => contains p r end.
Definition jsonb_without_nul : Jsonb := fun s => if json_valid s && negb (contains "\u0000" s) then Some s else None.
Definition nul : string := String "000" "".
Definition nul_doc : string := encode (JObj [("config", JObj [("account_name", JStr nul)])]).
Definition change6 : watchEvent := MkWatchEvent "configs/n/hsi/3" (Some nul_doc) 6.
Definition nul_changes : list watchEvent := [change5; change6; change7].

Lemma refused_document_stalls_witness :
  @refused jsonb_without_nul change6 /\
  exists cp, etcd_watch_progress (w_db (final (@Run jsonb_without_nul [delivers nul_changes; delivers nul_changes]) at_four []))
    !! watcherName = Some cp /\ 4 <= cp < 6.
Proof.
  assert (Hr : @refused jsonb_without_nul change6) by (exists (DbPg "22P02"); vm_compute; reflexivity).
  split; [exact Hr|].
  apply (refused_document_stalls (J := jsonb_without_nul) nul_changes [delivers nul_changes; delivers nul_changes] 4 change6 at_four []).
  - repeat constructor.
  - constructor; [apply feeds_delivers|]. constructor; [apply feeds_delivers|constructor].
  - constructor; [apply uncompacted_delivers|]. constructor; [apply uncompacted_delivers|constructor].
  - reflexivity.
  - apply relied_alone; [done|reflexivity].
  - apply list_elem_of_In. simpl. auto.
  - reflexivity.
  - exact Hr.
Defined.

(** After a compaction: a listing that still has the document fails, one that has
    a replacement moves the checkpoint past it. *)
Definition then_compacted : list (Z -> list watchResponse) := [delivers nul_changes; fun _ => [MkWatch 7 None []]].
Definition progress_in (s : mem) : option Z :=
  let w := World s (set_progress {[ watcherName := 4 ]} db_empty) 0 false [] in
  etcd_watch_progress (w_db (final (@Run jsonb_without_nul then_compacted) w [])) !! watcherName.
Definition nul_store : mem := Mem 6 {[ "configs/n/hsi/3" := Kv nul_doc 6 6 1 ]} [(6, "configs/n/hsi/3", Some (Kv nul_doc 6 6 1))] 0.
Example compaction_frees :
  progress_in nul_store = Some 5 /\ progress_in (et_put nul_store "configs/n/hsi/3" stored_doc) = Some 7 /\
  progress_in (et_del nul_store "configs/n/hsi/3") = Some 7.
Proof. vm_compute. done. Qed.

(** The rules of the API accept such a document, so one request can do this. *)
Example nul_account_accepted :
  Validation.ValidateHSIConfig (Validation.MkInput "3" "100" nul "pw" "10.0.0.2-10.0.0.9" "255.255.255.0" "10.0.0.1") = None /\
  json_valid nul_doc = true.
Proof. vm_compute. done. Qed.

(** The hypothesis on revisions is needed: two changes of one transaction share
    a revision, and when the second one fails after the first moved the
    checkpoint, it is never delivered again. *)
Definition shared_changes : list watchEvent := [change5; MkWatchEvent "configs/n/hsi/3" (Some stored_doc) 5].
Definition db_down : turn := Turn [] 0 None (Some (DbConn, false)) None false false [].
Example shared_revision_lost :
  let d := w_db (final (Run [delivers shared_changes; delivers shared_changes]) at_four [quiet; quiet; quiet; quiet; db_down]) in
  etcd_watch_progress d !! watcherName = Some 5 /\ (UserID ∘ h_row <$> hsi_config_history d) = ["2"].
Proof. vm_compute. done. Qed.
