(* ===== verification/Reconcile.v ===== *)
(** * The projection over listings and compactions

    A projection without a checkpoint, or one whose watch was compacted, lists
    the configs and goes on from the revision of the listing.  The history then
    holds a listing and every change since. *)

From Stdlib Require Import Sorted.
From S2P Require Import Prelude GoStrings Json JsonNormal Decode ConfigDoc Etcd Db DbProps Effects Grows Hoare Rely ConfigLog Cas Storage Projection ProjectionProps.
Local Open Scope string_scope.
Local Open Scope Z_scope.
Local Open Scope go_scope.

(** ** What a checkpoint stands for *)

Section complete.
Context (changes : list watchEvent).

Definition upto (rev : Z) : list watchEvent := filter (fun x => we_mod x <= rev) changes.
(** The configs that exist at a revision are in the history. *)
Definition configs_at (rev : Z) (d : db) : Prop := forall x, newest (upto rev) x -> we_put x <> None -> recorded x d.
Definition complete (cp : Z) (d : db) : Prop :=
  exists floor, floor <= cp /\ configs_at floor d /\ forall x, x ∈ changes -> floor < we_mod x <= cp -> recorded x d.

Lemma complete_grows cp d d' : db_grows d d' -> complete cp d -> complete cp d'.
Proof.
  intros Hg (fl & Hle & Hs & Hc). exists fl. split_and!; [done| |].
  - intros x Hx Hp. by eapply recorded_grows, Hs.
  - intros x Hx Hm. by eapply recorded_grows, Hc.
Qed.
(** Whatever the listing was, the configs of the checkpoint itself are there. *)
Lemma complete_current cp d : complete cp d -> configs_at cp d.
Proof.
  intros (fl & Hle & Hs & Hc) x [[Hx Hin]%list_elem_of_filter Hmax] Hp.
  destruct (Z.lt_ge_cases fl (we_mod x)) as [Hlt|Hge]; [by apply Hc|]. apply Hs; [|done].
  split; [by apply list_elem_of_filter|]. intros y [Hy Hyin]%list_elem_of_filter. apply Hmax, list_elem_of_filter. split; [lia|done].
Qed.
Lemma complete_next (Hsorted : StronglySorted earlier changes) cp e tail d :
  later changes cp = e :: tail -> complete cp d -> recorded e d -> complete (we_mod e) d.
Proof.
  intros Hl (fl & Hle & Hs & Hc) Hr. destruct (later_next changes Hsorted _ _ _ Hl) as (_ & Hlt & Hall).
  exists fl. split_and!; [lia|done|]. intros x Hx Hm. destruct (Hall x Hx) as [Hxle| ->]; [lia| |done]. apply Hc; [done|lia].
Qed.
Lemma complete_list `{EtcdLaws E} (s : E) d :
  shows changes s -> Forall (fun x => recorded (listed x) d) (et_range s "configs/") -> complete (et_rev s) d.
Proof.
  intros (past & future & Hch & Hl & Hf) Hrec. exists (et_rev s). split_and!; [lia| |intros; lia].
  assert (Hup : forall x, x ∈ upto (et_rev s) <-> x ∈ past).
  { intros x. unfold upto. rewrite list_elem_of_filter, Hch, elem_of_app. split.
    - intros [Hle [Hx|Hx]]; [done|]. specialize (Hf x Hx). lia.
    - intros Hx. split; [by apply (log_bound _ _ Hl)|by left]. }
  intros x [Hx Hmax] Hp. apply Hup in Hx. pose proof (log_newest _ _ Hl x) as Hn. unfold leaves_entry in Hn.
  destruct (we_put x); [|done]. destruct Hn as (e & He & _ & Hm); [split; [done|]; intros y Hy; by apply Hmax, Hup|].
  rewrite Forall_forall in Hrec. specialize (Hrec (we_key x, e)). unfold recorded, event_row in *. cbn [listed we_key we_mod fst snd] in Hrec.
  rewrite Hm in Hrec. apply Hrec, range_spec. split; [by apply (log_configs _ _ Hl)|done].
Qed.
End complete.

(** ** The projection only reads etcd *)

Section reading.
Context {J : Jsonb}.

Lemma handleEvent_reads ev : uses reads_etcd (handleEvent ev).
Proof.
  unfold handleEvent. destruct (parseHSIKey _) as [[n u]|]; [|done].
  destruct (ce_IsDelete ev); (apply uses_bind; [done|]; by intros [[]|x]).
Qed.
Lemma handle_events_reads l : uses reads_etcd (handle_events handleEvent l).
Proof.
  induction l as [|e l IH]; cbn [handle_events]; [done|]. apply uses_bind; [apply handleEvent_reads|]. by intros [[]|x].
Qed.
Lemma WatchConfigs_reads chan : uses reads_etcd (WatchConfigs handleEvent chan).
Proof.
  induction chan as [|r chan IH]; cbn [WatchConfigs]; [done|]. destruct (negb _); [done|]. destruct (watch_Err r); [done|].
  apply uses_bind; [apply handle_events_reads|]. by intros [[]|x].
Qed.
Lemma reconcile_reads : uses reads_etcd reconcile.
Proof.
  assert (Hrows : forall l, uses reads_etcd (reconcile_rows l)).
  { induction l as [|e l IH]; cbn [reconcile_rows]; [done|]. destruct (parseHSIKey _) as [[]|]; [|done].
    apply uses_bind; [done|]. by intros [[]|x]. }
  unfold reconcile, ListConfigs. apply uses_bind; [apply uses_bind; [done|]; by intros [[]|]|]. intros [[events rev]|e]; [|done].
  apply uses_bind; [apply Hrows|]. intros [[]|e]; [|done]. apply uses_bind; [done|]. by intros [[]|e].
Qed.
Lemma Run_reads rounds : uses reads_etcd (Run rounds).
Proof.
  induction rounds as [|watch rounds IH]; cbn [Run]; [done|].
  assert (Hs : uses reads_etcd (bind sleep (fun _ => Run rounds))) by (by apply uses_bind).
  apply uses_bind; [done|]. intros []; [done|]. apply uses_bind; [done|]. intros [ok|e]; [|done].
  apply uses_bind; [destruct ok; [done|apply reconcile_reads]|]. intros [rev|e]; [|done].
  apply uses_bind; [apply WatchConfigs_reads|]. intros stopped. apply uses_bind; [done|]. intros []; [done|].
  destruct stopped; try done. apply uses_bind; [apply reconcile_reads|]. by intros [rev'|e].
Qed.
End reading.

(** ** Property *)

Section properties.
Context `{EtcdLaws E} {J : Jsonb} (rounds : list (Z -> list watchResponse)).

(** C9: the history can stand in for etcd: from a fresh database or any good
    checkpoint, over failures, compactions, restarts and other projecting
    replicas, the checkpoint only stands at a revision whose configs are all in
    the history, together with every change since some listing.  The changes are
    what the writes of the run make of etcd. *)
Theorem history_holds_checkpoint past (w : world E) ts :
  et_wf (w_etcd w) -> log_of past (w_etcd w) ->
  let changes := (past ++ changes_of (w_etcd w) (env_of ts))%list in
  Forall (feeds changes) rounds ->
  (forall cp, etcd_watch_progress (w_db w) !! watcherName = Some cp -> complete changes cp (w_db w)) ->
  relied (promise (complete changes)) anything (Run rounds) w ts ->
  let w' := final (Run rounds) w ts in
  (forall cp, etcd_watch_progress (w_db w') !! watcherName = Some cp ->
     complete changes cp (w_db w') /\ configs_at changes cp (w_db w')) /\
  exists mine, own_queries w' = (mine ++ own_queries w)%list /\ Forall (kept_promise (complete changes)) mine.
Proof.
  intros Hwf Hlog changes Hf Hstart Hr w'.
  assert (Hs : StronglySorted earlier changes) by apply (log_steps past _ _ Hwf Hlog).
  apply (relied_shows _ _ past) in Hr; [|apply Run_reads|done..]. fold changes in Hr.
  destruct (under_final _ _ _ _ _ _ (Run_good changes Hs (shows changes) (own_queries w) (complete changes) True
    (complete_grows changes) (fun cp e tail d Hl Hc Hx _ => complete_next changes Hs cp e tail d Hl Hc Hx)
    (fun _ => complete_list changes) rounds w Hf (or_introl I)
    ltac:(split; [unfold checkpoint; by destruct (_ !! _) eqn:?; [apply Hstart|]|by exists []])) Hr) as [Hc Ho].
  split; [|done]. intros cp Hcp. unfold checkpoint in Hc. fold w' in Hc. rewrite Hcp in Hc. split; [done|by apply complete_current].
Qed.
End properties.

(** *** Witness *)

(** One config exists when a projection without a checkpoint starts.  After its
    listing that config is deleted and another one is written; the watch is
    compacted. *)
Definition old_key : string := "configs/n/hsi/2".
Definition new_key : string := "configs/n/hsi/4".
Definition one_config : world mem := World (et_put mem_empty old_key stored_doc) db_empty 0 false [].
Definition its_change : list watchEvent := change_of mem_empty (EvPut old_key stored_doc).
Definition meanwhile : turn := Turn [EvPut new_key stored_doc; EvDel old_key; EvCompact 4] 0 None None None false false [].
Definition gap : list turn := [quiet; quiet; quiet; quiet; quiet; meanwhile].
Definition compacted_watch : list (Z -> list watchResponse) := [fun _ => [MkWatch 4 None []]].

Lemma empty_log (s : mem) : log_of [] s.
Proof. split; [constructor|by intros x ?%elem_of_nil..|]. by intros x [?%elem_of_nil _]. Qed.
Lemma its_log : log_of its_change (w_etcd one_config).
Proof. exact (log_step [] mem_empty (EvPut old_key stored_doc) mem_empty_wf (empty_log mem_empty)). Qed.

Lemma history_holds_checkpoint_witness :
  log_of its_change (w_etcd one_config) /\
  let changes := (its_change ++ changes_of (w_etcd one_config) (env_of gap))%list in
  let w' := final (Run compacted_watch) one_config gap in
  (forall cp, etcd_watch_progress (w_db w') !! watcherName = Some cp ->
     complete changes cp (w_db w') /\ configs_at changes cp (w_db w')) /\
  exists mine, own_queries w' = (mine ++ own_queries one_config)%list /\ Forall (kept_promise (complete changes)) mine.
Proof.
  split; [apply its_log|]. apply (history_holds_checkpoint compacted_watch its_change one_config gap).
  - apply wf_put, mem_empty_wf.
  - apply its_log.
  - constructor; [|constructor]. intros rev. eexists. reflexivity.
  - intros cp [=].
  - apply relied_alone; [done|reflexivity].
Defined.
(** Both listings are in the history; the delete between them is not. *)
Example gap_delete_lost :
  let d := w_db (final (Run compacted_watch) one_config gap) in
  etcd_watch_progress d !! watcherName = Some 4 /\
  ((fun r => (UserID (h_row r), Action (h_row r), ModRevision (h_row r))) <$> hsi_config_history d) =
    [("2", "upsert", 2); ("4", "upsert", 3)] /\
  et_get (w_etcd (final (Run compacted_watch) one_config gap)) old_key = None.
Proof. vm_compute. done. Qed.
