(* ===== verification/Amaps.v ===== *)
(** * Stored JSON objects, read back

    The node entries are Go maps printed with [json.Marshal] and decoded into
    [map[string]interface{}] by the next writer.  For maps of strings and of
    integers a [float64] holds exactly, decoding what was printed gives the map
    back, with every integer as a [float64]. *)

From Stdlib Require Import Sorted.
From S2P Require Import Prelude GoStrings Json JsonNormal Decode.
Local Open Scope string_scope.
Local Open Scope Z_scope.
Local Open Scope go_scope.

(** ** Keys in order *)

Lemma ascii_compare_trans a b c : Ascii.compare a b = Lt -> Ascii.compare b c = Lt -> Ascii.compare a c = Lt.
Proof. unfold Ascii.compare. rewrite !N.compare_lt_iff. lia. Qed.
Lemma ascii_compare_eq a b : Ascii.compare a b = Eq -> a = b.
Proof. apply Ascii.compare_eq_iff. Qed.
Lemma string_compare_trans a b c : String.compare a b = Lt -> String.compare b c = Lt -> String.compare a c = Lt.
Proof.
  revert b c. induction a as [|x a IH]; intros [|y b] [|z c]; simpl; try done.
  destruct (Ascii.compare x y) eqn:E1, (Ascii.compare y z) eqn:E2; try done.
  - apply ascii_compare_eq in E1 as ->. rewrite E2. eauto.
  - apply ascii_compare_eq in E1 as ->. by rewrite E2.
  - apply ascii_compare_eq in E2 as ->. by rewrite E1.
  - by rewrite (ascii_compare_trans _ _ _ E1 E2).
Qed.
Lemma string_compare_gt a b : String.compare a b = Gt -> String.compare b a = Lt.
Proof. rewrite String.compare_antisym. by destruct (String.compare b a). Qed.

Section sorted.
Context {V : Type}.
Definition key_lt (a b : string * V) : Prop := String.compare a.1 b.1 = Lt.
Definition sorted_keys (l : list (string * V)) : Prop := StronglySorted key_lt l.

Lemma kset_in k v (l : list (string * V)) x : x ∈ kset k v l -> x = (k, v) \/ x ∈ l.
Proof.
  induction l as [|[a y] l IH]; cbn [kset]; [rewrite elem_of_cons; tauto|].
  destruct (String.compare k a); rewrite !elem_of_cons; tauto.
Qed.
Lemma kset_sorted k v (l : list (string * V)) : sorted_keys l -> sorted_keys (kset k v l).
Proof.
  unfold sorted_keys. induction 1 as [|[a y] l Hs IH Hf]; cbn [kset]; [by repeat constructor|].
  destruct (String.compare k a) eqn:E.
  - apply String.compare_eq_iff in E as ->. by constructor.
  - constructor; [by constructor|]. constructor; [done|]. eapply Forall_impl; [exact Hf|].
    intros [b z] Hb. by eapply string_compare_trans.
  - constructor; [done|]. apply Forall_forall. intros x [->|Hx]%kset_in.
    + by apply string_compare_gt.
    + by apply (proj1 (Forall_forall _ _) Hf).
Qed.
Lemma kdel_in k (l : list (string * V)) x : x ∈ kdel k l -> x ∈ l.
Proof. induction l as [|[a y] l IH]; cbn [kdel]; [done|]. destruct (String.eqb k a); rewrite ?elem_of_cons; tauto. Qed.
Lemma kdel_sorted k (l : list (string * V)) : sorted_keys l -> sorted_keys (kdel k l).
Proof.
  unfold sorted_keys. induction 1 as [|[a y] l Hs IH Hf]; cbn [kdel]; [constructor|].
  destruct (String.eqb k a); [done|]. constructor; [done|]. rewrite Forall_forall in *.
  intros x Hx%kdel_in. auto.
Qed.
(** A key above all others is set at the end. *)
Lemma kset_last k v (l : list (string * V)) :
  Forall (fun x => String.compare x.1 k = Lt) l -> kset k v l = (l ++ [(k, v)])%list.
Proof.
  induction 1 as [|[a y] l Ha Hf IH]; cbn [kset]; [done|]. simpl in Ha.
  rewrite String.compare_antisym, Ha. simpl. by rewrite IH.
Qed.
Lemma kget_in k v (l : list (string * V)) : kget k l = Some v -> (k, v) ∈ l.
Proof.
  induction l as [|[a y] l IH]; cbn [kget]; [done|]. rewrite elem_of_cons.
  destruct (String.eqb_spec k a) as [->|]; [intros [= ->]|]; auto.
Qed.
End sorted.
#[export] Hint Resolve kset_sorted kdel_sorted : amap.

(** ** Values that survive *)

Definition exact_int (z : Z) : bool := (- 2 ^ 53 <=? z) && (z <=? 2 ^ 53).
Definition plain (a : any) : bool :=
  match a with
  | AStr s => valid_utf8 s
  | AInt z | ANum (FInt z) => exact_int z
  | _ => false
  end.
(** The same value after decoding. *)
Definition reread (a : any) : any := match a with AInt z => ANum (FInt z) | _ => a end.
Definition plain_map (m : list (string * any)) : Prop :=
  sorted_keys m /\ Forall (fun kv => valid_utf8 kv.1 && plain kv.2 = true) m.

Lemma plain_lit a : plain a = true -> wf_json (of_any a) = true.
Proof. destruct a as [| |z|[z|]|s| |]; cbn; try done; intros _; apply format_int_lit. Qed.

Lemma lit_decimal_uint n : 0 <= n -> lit_decimal (format_uint n) = (false, n, 0).
Proof.
  intros Hn. pose proof (format_uint_all_digits n Hn) as Hd. pose proof (parse_digits_format n Hn) as Hp.
  unfold lit_decimal. destruct (format_uint n) as [|c r] eqn:E; [by apply format_uint_nonempty in E|].
  assert (H45 : (code c =? 45) = false) by (simpl in Hd; unfold is_digit, between in Hd; bool_hyps; lia).
  rewrite H45, take_digits_all by done. pose proof (sdrop_app (String c r) "") as Hdrop. rewrite sapp_nil_r in Hdrop.
  rewrite Hdrop, sapp_nil_r, Hp. done.
Qed.
Lemma lit_decimal_int z : lit_decimal (format_int z) = (z <? 0, Z.abs z, 0).
Proof.
  unfold format_int. destruct (Z.ltb_spec z 0).
  - pose proof (lit_decimal_uint (- z) ltac:(lia)) as Hl. pose proof (format_uint_all_digits (- z) ltac:(lia)) as Hd.
    unfold lit_decimal in *. change (code "-" =? 45) with true. cbv beta iota. replace (Z.abs z) with (- z) by lia.
    destruct (format_uint (- z)) as [|c r] eqn:E; [by apply format_uint_nonempty in E|].
    assert (H45 : (code c =? 45) = false) by (simpl in Hd; unfold is_digit, between in Hd; bool_hyps; lia).
    rewrite H45 in Hl. exact (f_equal (fun t => (true, t.1.2, t.2)) Hl).
  - rewrite lit_decimal_uint by done. by rewrite Z.abs_eq.
Qed.
Lemma float_format_int z : exact_int z = true -> float_of_lit (format_int z) = Some (FInt z).
Proof.
  unfold exact_int. intros Hz. bool_hyps. unfold float_of_lit. rewrite lit_decimal_int.
  destruct (Z.eqb_spec (Z.abs z) 0); [by replace z with 0 by lia|].
  assert (Hb : (0 =? 0) && (Z.abs z <=? 2 ^ 53) = true) by (apply andb_true_iff; split; [done|apply Z.leb_le; lia]).
  rewrite Hb. do 2 f_equal. destruct (Z.ltb_spec z 0); lia.
Qed.
Lemma plain_reread a : plain a = true -> to_any (of_any a) = Some (reread a).
Proof. destruct a as [| |z|[z|]|s| |]; cbn [plain]; try done; intros Hz; cbn; by rewrite float_format_int. Qed.

Lemma to_amap_plain l acc :
  sorted_keys (acc ++ (prod_map id reread <$> l))%list -> Forall (fun kv => plain kv.2 = true) l ->
  to_amap (prod_map id of_any <$> l) acc = Some (acc ++ (prod_map id reread <$> l))%list.
Proof.
  revert acc. induction l as [|[k a] l IH]; intros acc Hs Hp; cbn [to_amap fmap list_fmap prod_map fst snd].
  - by rewrite app_nil_r.
  - inversion Hp as [|x y Ha Hl]; subst. simpl in Ha. unfold prod_map at 1. cbn [fst snd id].
    rewrite plain_reread by done. rewrite kset_last.
    + rewrite IH; [by rewrite <-app_assoc| |done]. rewrite <-app_assoc. exact Hs.
    + clear -Hs. induction acc as [|x acc IH]; [constructor|]. inversion Hs as [|y z Hs' Hf]; subst.
      constructor; [|auto]. rewrite Forall_forall in Hf. apply (Hf (k, reread a)). set_solver.
Qed.
(** Printing and decoding. *)
Lemma unmarshal_marshal_map m :
  plain_map m -> unmarshal_map (marshal_map m) = Some (Some (prod_map id reread <$> m)).
Proof.
  intros [Hs Hf]. unfold unmarshal_map, marshal_map. rewrite decode_encode.
  - unfold of_amap. rewrite to_amap_plain; [done| |].
    + simpl. clear Hf. unfold sorted_keys in *. induction Hs as [|x l Hs IH Hx]; [constructor|]. simpl. constructor; [done|].
      rewrite Forall_fmap. eapply Forall_impl; [exact Hx|]. done.
    + eapply Forall_impl; [exact Hf|]. intros [k a] H. simpl in *. by bool_split.
  - unfold of_amap. rewrite wf_obj. apply forallb_forall. intros [k j] Hin.
    apply list_elem_of_In, list_elem_of_fmap in Hin as ([k' a] & [= -> ->] & Hin). rewrite Forall_forall in Hf.
    specialize (Hf _ Hin). simpl in *. bool_split. unfold id. rewrite H. by apply plain_lit.
Qed.

(** ** Plain maps under assignment and deletion *)

Lemma plain_nil : plain_map [].
Proof. split; constructor. Qed.
Lemma plain_kset k a m : valid_utf8 k = true -> plain a = true -> plain_map m -> plain_map (kset k a m).
Proof.
  intros Hk Ha [Hs Hf]. split; [by apply kset_sorted|]. rewrite Forall_forall in *.
  intros x [->|Hx]%kset_in; simpl; [by rewrite Hk|auto].
Qed.
Lemma plain_kdel k m : plain_map m -> plain_map (kdel k m).
Proof. intros [Hs Hf]. split; [by apply kdel_sorted|]. rewrite Forall_forall in *. intros x Hx%kdel_in. auto. Qed.
Lemma plain_kget k a m : plain_map m -> kget k m = Some a -> plain a = true.
Proof.
  intros [_ Hf] Hk%kget_in. rewrite Forall_forall in Hf. specialize (Hf _ Hk). simpl in Hf. by bool_split.
Qed.
Lemma kget_reread k (m : list (string * any)) : kget k (prod_map id reread <$> m) = reread <$> kget k m.
Proof. induction m as [|[a x] m IH]; [done|]. cbn. destruct (String.eqb k a); [done|exact IH]. Qed.
Lemma reread_plain a : plain a = true -> plain (reread a) = true.
Proof. by destruct a. Qed.
Lemma plain_reread_map m : plain_map m -> plain_map (prod_map id reread <$> m).
Proof.
  intros [Hs Hf]. split.
  - unfold sorted_keys in *. clear Hf. induction Hs as [|x l Hs IH Hx]; [constructor|]. simpl. constructor; [done|].
    rewrite Forall_fmap. eapply Forall_impl; [exact Hx|]. done.
  - rewrite Forall_fmap. eapply Forall_impl; [exact Hf|]. intros [k a] H. simpl in *. bool_split.
    rewrite reread_plain by done. unfold id. by rewrite H.
Qed.
#[export] Hint Resolve plain_nil plain_kset plain_kdel plain_reread_map : amap.
