(* ===== verification/Pool.v ===== *)
(** * Calls in parallel with a bound ([runBounded])

    The loop of [runBounded] and the goroutines it starts, as a step relation:
    the loop takes a target, waits for a slot, starts the call; calls end in any
    order; the context may be cancelled at any time. *)

From stdpp Require Import relations.
From S2P Require Import Prelude GoStrings NodeMonitor.

Section pool.
Context {T : Type}.

(** [held] is the target the loop has taken and is waiting for a slot with;
    [skipped] are the targets it left out when it found the context cancelled. *)
Record pool := MkPool {
  p_todo : list T; p_held : option T; p_running : list T; p_finished : list T; p_skipped : list T; p_cancelled : bool }.
Definition runBounded (targets : list T) (cancelled : bool) : pool := MkPool targets None [] [] [] cancelled.

Inductive pool_step : pool -> pool -> Prop :=
| PickStep t todo run fin skip :
    pool_step (MkPool (t :: todo) None run fin skip false) (MkPool todo (Some t) run fin skip false)
| BreakStep t todo run fin skip :
    pool_step (MkPool (t :: todo) None run fin skip true) (MkPool [] None run fin (skip ++ t :: todo) true)
| CallStep t todo run fin skip c :
    length run < republishConcurrency ->
    pool_step (MkPool todo (Some t) run fin skip c) (MkPool todo None (t :: run) fin skip c)
| FinishStep todo held run1 t run2 fin skip c :
    pool_step (MkPool todo held (run1 ++ t :: run2) fin skip c) (MkPool todo held (run1 ++ run2) (fin ++ [t]) skip c)
| CancelStep todo held run fin skip :
    pool_step (MkPool todo held run fin skip false) (MkPool todo held run fin skip true).

(** [wg.Wait()] has returned. *)
Definition returned (p : pool) : Prop := p_todo p = [] /\ p_held p = None /\ p_running p = [].

Definition held_list (o : option T) : list T := match o with Some t => [t] | None => [] end.
Definition all_targets (p : pool) : list T :=
  p_finished p ++ p_running p ++ held_list (p_held p) ++ p_todo p ++ p_skipped p.
Definition pool_inv (targets : list T) (p : pool) : Prop :=
  length (p_running p) <= republishConcurrency /\ all_targets p ≡ₚ targets /\
  (p_skipped p <> [] -> p_cancelled p = true).

Lemma pool_step_inv targets p p' : pool_step p p' -> pool_inv targets p -> pool_inv targets p'.
Proof.
  intros Hs (Hl & Hp & Hc). unfold pool_inv, all_targets in *. destruct Hs; simpl in *.
  - split_and!; [done|by rewrite <-Hp|done].
  - split_and!; [done| |done]. rewrite <-Hp. solve_Permutation.
  - split_and!; [lia| |done]. rewrite <-Hp. solve_Permutation.
  - rewrite length_app in *. simpl in *. split_and!; [lia| |done]. rewrite <-Hp. solve_Permutation.
  - split_and!; [done|done|done].
Qed.
Lemma pool_inv_init targets c : pool_inv targets (runBounded targets c).
Proof. unfold pool_inv, all_targets. simpl. rewrite app_nil_r. split_and!; [lia|done|done]. Qed.
Lemma pool_reach targets c p : rtc pool_step (runBounded targets c) p -> pool_inv targets p.
Proof.
  intros Hr. assert (Hi := pool_inv_init targets c). revert Hi.
  induction Hr as [p|p q r Hs _ IH]; intros Hi; [done|]. eapply IH, pool_step_inv; done.
Qed.

(** What is left to do shrinks with every step. *)
Definition pool_work (p : pool) : nat :=
  3 * length (p_todo p) + 2 * length (held_list (p_held p)) + length (p_running p) + (if p_cancelled p then 0 else 1).
Lemma pool_step_work p p' : pool_step p p' -> pool_work p' < pool_work p.
Proof. unfold pool_work. intros []; simpl; rewrite ?length_app; simpl; lia. Qed.
Lemma pool_terminates p : Acc (fun p' p => pool_step p p') p.
Proof.
  remember (pool_work p) as n eqn:Hn. revert p Hn. induction (lt_wf n) as [n _ IH]. intros p ->.
  constructor. intros p' Hs. eapply IH; [by apply pool_step_work|done].
Qed.
(** As long as it has not returned, it can go on without being cancelled. *)
Lemma pool_progress targets p :
  pool_inv targets p -> returned p \/ exists p', pool_step p p' /\ p_cancelled p' = p_cancelled p.
Proof.
  intros (Hl & _). destruct p as [todo held run fin skip c]; simpl in *. destruct run as [|t run].
  - destruct held as [t|]; [right; eexists; split; [apply CallStep; simpl; unfold republishConcurrency; lia|done]|].
    destruct todo as [|t todo]; [by left|right]. destruct c; eexists; (split; [constructor|done]).
  - right. eexists. split; [apply (FinishStep todo held [] t run)|done].
Qed.
Lemma pool_step_cancelled p p' : pool_step p p' -> p_cancelled p = true -> p_cancelled p' = true.
Proof. by intros []. Qed.
End pool.
Arguments pool T : clear implicits.

(** C20: every run of [runBounded] ends: it has no infinite execution, never has
    more than 16 calls in flight, cannot get stuck before it returns, and when it
    has returned every target was called exactly once, up to those a cancelled
    context left out. *)
Theorem runBounded_completes {T} (targets : list T) c p :
  rtc pool_step (runBounded targets c) p ->
  length (p_running p) <= republishConcurrency /\ Acc (fun q' q => pool_step q q') p /\
  (returned p \/ exists p', pool_step p p' /\ p_cancelled p' = p_cancelled p) /\
  (returned p -> p_finished p ++ p_skipped p ≡ₚ targets /\ (p_cancelled p = false -> p_finished p ≡ₚ targets)).
Proof.
  intros Hr. pose proof (pool_reach _ _ _ Hr) as Hi. split; [apply Hi|]. split; [apply pool_terminates|].
  split; [by eapply pool_progress|]. intros (Ht & Hh & Hrun). destruct Hi as (_ & Hp & Hs).
  unfold all_targets in Hp. rewrite Ht, Hh, Hrun in Hp. simpl in Hp. split; [done|]. intros Hc.
  destruct (p_skipped p) as [|x l]; [by rewrite app_nil_r in Hp|]. by rewrite Hs in Hc.
Qed.

Lemma runBounded_completes_witness :
  let p := MkPool [] None [] [1; 2] [] false in
  rtc pool_step (runBounded [1; 2] false) p /\ length (p_running p) <= republishConcurrency /\
  Acc (fun q' q => pool_step q q') p /\
  (returned p \/ exists p', pool_step p p' /\ p_cancelled p' = p_cancelled p) /\
  (returned p -> p_finished p ++ p_skipped p ≡ₚ [1; 2] /\ (p_cancelled p = false -> p_finished p ≡ₚ [1; 2])).
Proof.
  intros p.
  assert (Hr : rtc pool_step (runBounded [1; 2] false) p).
  { eapply rtc_l; [apply PickStep|]. eapply rtc_l; [apply CallStep; simpl; unfold republishConcurrency; lia|].
    eapply rtc_l; [apply PickStep|]. eapply rtc_l; [apply CallStep; simpl; unfold republishConcurrency; lia|].
    eapply rtc_l; [apply (FinishStep [] None [2] 1 [])|]. eapply rtc_l; [apply (FinishStep [] None [] 2 [])|]. apply rtc_refl. }
  split; [exact Hr|]. exact (runBounded_completes [1; 2] false p Hr).
Defined.
