(* ===== verification/MonitorProps.v ===== *)
(** * What the node monitor manager guarantees

    Connections under any sequence of operations, and the set of nodes behind
    their config that a sweep finds. *)

From stdpp Require Import relations.
From Stdlib Require Import Sorted.
From S2P Require Import Prelude GoStrings Json Decode GoTime ConfigDoc Etcd Db Effects Storage NodeMonitor.
Local Open Scope string_scope.
Local Open Scope Z_scope.

(** ** Connections *)

Section connections.
Context {D : NodeDial}.

(** The atomic operations of the manager, in any order. *)
Inductive mgr_step : NodeMonitorManager -> NodeMonitorManager -> Prop :=
| StepStart uuid ip port m : mgr_step m (StartMonitoring uuid ip port m).2
| StepStop uuid m : mgr_step m (StopMonitoring uuid m)
| StepBegin uuid m : mgr_step m (beginNicFetch uuid m).2
| StepEnd uuid m : mgr_step m (endNicFetch uuid m)
| StepLeader v m : mgr_step m (SetLeader v m)
| StepDatabase v m : mgr_step m (SetDatabase v m)
| StepNudge pending now m : mgr_step m (dueForNudge pending now m).2.

(** Every connection dialled is the one of exactly one monitor, or closed
    exactly once. *)
Record conns_ok (m : NodeMonitorManager) : Prop := {
  mon_key k mon : monitors m !! k = Some mon -> nm_nodeUUID mon = k;
  mon_open k mon : monitors m !! k = Some mon -> (nm_conn mon < conns m)%nat /\ nm_conn mon ∉ closed m;
  mon_unique k k' mon mon' :
    monitors m !! k = Some mon -> monitors m !! k' = Some mon' -> nm_conn mon = nm_conn mon' -> k = k';
  closed_once : NoDup (closed m);
  closed_old c : c ∈ closed m -> (c < conns m)%nat;
  no_leak c : (c < conns m)%nat -> c ∈ closed m \/ exists k mon, monitors m !! k = Some mon /\ nm_conn mon = c }.

Lemma stop_ok uuid m : conns_ok m -> conns_ok (stopMonitoringLocked uuid m).
Proof using Type.
  intros [H1 H2 H3 H4 H5 H6]. unfold stopMonitoringLocked. destruct (monitors m !! uuid) as [mon|] eqn:E; [|done].
  destruct (H2 _ _ E) as [Hlt Hopen]. split; simpl.
  - intros k mon' [_ Hk]%lookup_delete_Some. by apply H1.
  - intros k mon' [Hne Hk]%lookup_delete_Some. destruct (H2 _ _ Hk) as [Hlt' Ho']. split; [done|].
    rewrite not_elem_of_cons. split; [|done]. intros He. by apply Hne, (H3 uuid k mon mon').
  - intros k k' m1 m2 [_ Hk]%lookup_delete_Some [_ Hk']%lookup_delete_Some. by apply H3.
  - by constructor.
  - intros c [->|Hc]%elem_of_cons; auto.
  - intros c Hc. destruct (H6 c Hc) as [Hin|(k & mon' & Hk & <-)]; [left; by right|].
    destruct (decide (uuid = k)) as [<-|Hne]; [|right; exists k, mon'; by rewrite lookup_delete_ne].
    left. assert (mon' = mon) as -> by congruence. by left.
Qed.
Lemma open_ok uuid ip port m : monitors m !! uuid = None -> conns_ok m -> conns_ok (open_monitor uuid ip port m).2.
Proof using Type.
  intros Hno [H1 H2 H3 H4 H5 H6]. unfold open_monitor. destruct (dial _); [|done]. simpl. split; simpl.
  - intros k mon [[<- <-]|[_ Hk]]%lookup_insert_Some; [done|]. by apply H1.
  - intros k mon [[<- <-]|[_ Hk]]%lookup_insert_Some; simpl.
    + split; [lia|]. intros Hc%H5. lia.
    + destruct (H2 _ _ Hk). split; [lia|done].
  - intros k k' m1 m2 [[<- <-]|[Hn Hk]]%lookup_insert_Some [[<- <-]|[Hn' Hk']]%lookup_insert_Some He; simpl in *; try done.
    + destruct (H2 _ _ Hk'). lia.
    + destruct (H2 _ _ Hk). lia.
    + by apply (H3 k k' m1 m2).
  - done.
  - intros c Hc%H5. lia.
  - intros c Hc. destruct (decide (c = conns m)) as [->|Hne].
    + right. exists uuid. eexists. by rewrite lookup_insert_eq.
    + destruct (H6 c ltac:(lia)) as [Hin|(k & mon & Hk & Hc')]; [by left|]. right. exists k, mon.
      rewrite lookup_insert_ne; [done|]. intros <-. congruence.
Qed.
Lemma start_ok uuid ip port m : conns_ok m -> conns_ok (StartMonitoring uuid ip port m).2.
Proof using Type.
  intros Hm. unfold StartMonitoring. destruct (monitors m !! uuid) as [mon|] eqn:E; [|by apply open_ok].
  destruct (_ && _); [done|]. apply open_ok, stop_ok; [|done].
  unfold stopMonitoringLocked. rewrite E. simpl. apply lookup_delete_eq.
Qed.
Lemma same_table_ok m m' :
  monitors m' = monitors m -> conns m' = conns m -> closed m' = closed m -> conns_ok m -> conns_ok m'.
Proof using Type. intros E1 E2 E3 [H1 H2 H3 H4 H5 H6]. split; rewrite ?E1, ?E2, ?E3; done. Qed.
Lemma mgr_step_ok m m' : mgr_step m m' -> conns_ok m -> conns_ok m'.
Proof using Type.
  intros []; [apply start_ok|apply stop_ok|apply same_table_ok..]; try done;
    unfold beginNicFetch; by destruct (bool_decide _).
Qed.
Lemma new_ok database : conns_ok (NewNodeMonitorManager database).
Proof using Type. split; simpl; try done; [constructor|set_solver|lia]. Qed.

(** C17: node connections neither leak nor outlive their monitor: after any
    sequence of manager operations every connection ever dialled is closed
    exactly once or is the open connection of exactly one monitor, the one of its
    node. *)
Theorem connections_accounted database m :
  rtc mgr_step (NewNodeMonitorManager database) m ->
  NoDup (closed m) /\
  forall c, (c < conns m)%nat ->
    (c ∈ closed m /\ forall k mon, monitors m !! k = Some mon -> nm_conn mon <> c) \/
    (c ∉ closed m /\ exists k mon, monitors m !! k = Some mon /\ nm_nodeUUID mon = k /\ nm_conn mon = c /\
       forall k' mon', monitors m !! k' = Some mon' -> nm_conn mon' = c -> k' = k).
Proof.
  intros Hr. assert (Hok : conns_ok m).
  { pose proof (new_ok database) as Hi. revert Hi.
    induction Hr as [x|x y z Hs _ IH]; intros Hi; [done|]. by eapply IH, mgr_step_ok. }
  destruct Hok as [H1 H2 H3 H4 H5 H6]. split; [done|]. intros c Hc.
  destruct (H6 c Hc) as [Hin|(k & mon & Hk & <-)]; [left|right].
  - split; [done|]. intros k mon Hk <-. by destruct (H2 _ _ Hk).
  - split; [by destruct (H2 _ _ Hk)|]. exists k, mon. split_and!; [done|by apply H1|done|].
    intros k' mon' Hk' He. by apply (H3 k' k mon' mon).
Qed.

(** What a successful start leaves: the node is monitored at the address asked
    for, the default port standing for an unreported one. *)
Lemma StartMonitoring_address uuid ip port m :
  (StartMonitoring uuid ip port m).1 = true ->
  exists mon, monitors (StartMonitoring uuid ip port m).2 !! uuid = Some mon /\
    nm_nodeIP mon = ip /\ nm_nodeGRPCPort mon = resolveNodeGRPCPort port.
Proof using Type.
  unfold StartMonitoring, open_monitor. destruct (monitors m !! uuid) as [mon|] eqn:E.
  - destruct (String.eqb_spec (nm_nodeIP mon) ip); simpl; [destruct (Z.eqb_spec (nm_nodeGRPCPort mon) (resolveNodeGRPCPort port)); simpl|].
    + intros _. by exists mon.
    + destruct (dial _); [|done]. intros _. eexists. split; [simpl; apply lookup_insert_eq|done].
    + destruct (dial _); [|done]. intros _. eexists. split; [simpl; apply lookup_insert_eq|done].
  - destruct (dial _); [|done]. intros _. eexists. split; [simpl; apply lookup_insert_eq|done].
Qed.
End connections.

(** At most one NIC fetch per node: a second one is turned away until the first
    has ended. *)
Lemma beginNicFetch_exclusive uuid m :
  (beginNicFetch uuid m).1 = true -> (beginNicFetch uuid (beginNicFetch uuid m).2).1 = false /\
  (beginNicFetch uuid (endNicFetch uuid (beginNicFetch uuid m).2)).1 = true.
Proof.
  unfold beginNicFetch. destruct (bool_decide (uuid ∈ nicFetchInFlight m)) eqn:E; [done|]. intros _. simpl. split.
  - by rewrite bool_decide_eq_true_2 by (apply elem_of_union; left; by apply elem_of_singleton).
  - rewrite bool_decide_eq_false_2; [done|]. rewrite elem_of_difference, elem_of_singleton. tauto.
Qed.

(** ** Nodes behind their config *)

(** One node, one config: the order in which the configs are visited does not
    matter. *)
Lemma unconfirmed_exact (active : gmap string republishTarget) (confirmed pushed : gmap ConfigKey Z) node target :
  unconfirmedFromRevisions active confirmed pushed !! node = Some target <->
  active !! node = Some target /\
  exists user rev, pushed !! (node, user) = Some rev /\ default 0 (confirmed !! (node, user)) < rev.
Proof.
  unfold unconfirmedFromRevisions.
  apply (map_fold_weak_ind (fun r (pushed : gmap ConfigKey Z) => r !! node = Some target <-> active !! node = Some target /\
    exists user rev, pushed !! (node, user) = Some rev /\ default 0 (confirmed !! (node, user)) < rev)).
  - rewrite lookup_empty. split; [done|]. intros (_ & user & rev & Hr & _). by rewrite lookup_empty in Hr.
  - intros [n u] rev p r Hno IH. simpl.
    assert (Hext : forall user rv, <[(n, u) := rev]> p !! (node, user) = Some rv <->
      (n, u) = (node, user) /\ rv = rev \/ p !! (node, user) = Some rv).
    { intros user rv. rewrite lookup_insert_Some. split; [intros [[? ?]|[? ?]]; auto|].
      intros [[? ->]|Hp]; [by left|]. right. split; [|done]. intros He. rewrite He in Hno. congruence. }
    destruct (active !! n) as [t|] eqn:Ea.
    + destruct (Z.leb_spec rev (default 0 (confirmed !! (n, u)))).
      * rewrite IH. split; intros (Ha & user & rv & Hr & Hlt); (split; [done|]); exists user, rv; (split; [|done]).
        -- apply Hext. by right.
        -- apply Hext in Hr as [[[= <- <-] ->]|Hr]; [lia|done].
      * destruct (decide (n = node)) as [<-|Hne].
        -- rewrite lookup_insert_eq. split.
           ++ intros [= <-]. split; [done|]. exists u, rev. split; [apply Hext; by left|done].
           ++ intros [Ha _]. congruence.
        -- rewrite lookup_insert_ne by done. rewrite IH. split; intros (Ha & user & rv & Hr & Hlt);
             (split; [done|]); exists user, rv; (split; [|done]); [apply Hext; by right|].
           by apply Hext in Hr as [[[= -> _] _]|Hr].
    + rewrite IH. split; intros (Ha & user & rv & Hr & Hlt); (split; [done|]); exists user, rv; (split; [|done]).
      * apply Hext. by right.
      * apply Hext in Hr as [[[= -> _] _]|Hr]; [congruence|done].
Qed.

(** ** The requests of a sweep *)

Lemma due_node pending now m node target :
  (forall k t, pending !! k = Some t -> tg_nodeUUID t = k) -> pending !! node = Some target ->
  (node ∈ tg_nodeUUID <$> (dueForNudge pending now m).1 <-> (nudge_node now (confirmState m !! node)).2 = true) /\
  confirmState (dueForNudge pending now m).2 !! node = Some (nudge_node now (confirmState m !! node)).1.
Proof.
  intros Hkey Hp. unfold dueForNudge. simpl. split.
  - rewrite list_elem_of_fmap. setoid_rewrite list_elem_of_omap. split.
    + intros (t & -> & [k t'] & Hin & Ht). apply elem_of_map_to_list in Hin. simpl in Ht.
      destruct (nudge_node now (confirmState m !! k)).2 eqn:E; [|done]. injection Ht as ->. by rewrite (Hkey _ _ Hin).
    + intros Hd. exists target. split; [symmetry; by apply Hkey|]. exists (node, target). simpl.
      rewrite Hd. split; [by apply elem_of_map_to_list|done].
  - by rewrite map_lookup_imap, Hp.
Qed.

(** *** Witnesses *)

Definition dial_all : NodeDial := fun _ => true.
(** A node that moved to another address: its first connection is closed. *)
Definition moved_node : NodeMonitorManager :=
  (@StartMonitoring dial_all "n" "10.0.0.2" 0 (@StartMonitoring dial_all "n" "10.0.0.1" 50052 (NewNodeMonitorManager true)).2).2.
Example moved_node_state :
  closed moved_node = [0%nat] /\ monitors moved_node !! "n" = Some (MkMonitor "n" "10.0.0.2" 50052 1).
Proof. vm_compute. done. Qed.
Lemma connections_accounted_witness :
  rtc (@mgr_step dial_all) (NewNodeMonitorManager true) moved_node /\ NoDup (closed moved_node) /\
  forall c, (c < conns moved_node)%nat ->
    (c ∈ closed moved_node /\ forall k mon, monitors moved_node !! k = Some mon -> nm_conn mon <> c) \/
    (c ∉ closed moved_node /\ exists k mon, monitors moved_node !! k = Some mon /\ nm_nodeUUID mon = k /\ nm_conn mon = c /\
       forall k' mon', monitors moved_node !! k' = Some mon' -> nm_conn mon' = c -> k' = k).
Proof.
  assert (Hr : rtc (@mgr_step dial_all) (NewNodeMonitorManager true) moved_node).
  { eapply rtc_l; [apply (StepStart "n" "10.0.0.1" 50052)|]. eapply rtc_l; [apply (StepStart "n" "10.0.0.2" 0)|]. apply rtc_refl. }
  split; [exact Hr|]. exact (@connections_accounted dial_all true moved_node Hr).
Defined.

(** ** The sweep against etcd and the tables *)

Section keyed.
Context {K V : Type} `{Countable K} (f : string * kv -> option (K * V)) (g : K -> string).
(** The entries [f] accepts determine their keys. *)
Definition keyed (kvs : list (string * kv)) : Prop := forall e y v, e ∈ kvs -> f e = Some (y, v) -> e.1 = g y.

Lemma keyed_nodup (kvs : list (string * kv)) : keyed kvs -> NoDup kvs.*1 -> NoDup (omap f kvs).*1.
Proof using.
  induction kvs as [|e kvs IH]; intros Hk; cbn; [constructor|]. intros [He Hn]%NoDup_cons.
  assert (Hk' : keyed kvs) by (intros e' y v Hin; apply Hk; by right).
  destruct (f e) as [[y v]|] eqn:Ef; [|by apply IH].
  cbn. apply NoDup_cons. split; [|by apply IH]. intros ([y' v'] & -> & Hin)%list_elem_of_fmap. apply list_elem_of_omap in Hin as (e' & He' & Hf').
  apply He. rewrite (Hk e y' v) by (done || by left). apply list_elem_of_fmap. exists e'. split; [symmetry; by eapply Hk'|done].
Qed.
Lemma keyed_lookup (kvs : list (string * kv)) x v : keyed kvs -> NoDup kvs.*1 ->
  (list_to_map (reverse (omap f kvs)) : gmap K V) !! x = Some v <-> exists e, e ∈ kvs /\ f e = Some (x, v).
Proof using.
  intros Hk Hn. rewrite <-elem_of_list_to_map by (rewrite reverse_Permutation; by apply keyed_nodup).
  by rewrite elem_of_reverse, list_elem_of_omap.
Qed.
End keyed.

Lemma config_key_parses k node user : parseHSIConfigKey k = Some (node, user) <->
  k = hsiKey node user /\ has_byte "/" node = false /\ has_byte "/" user = false /\ node <> "" /\ user <> "".
Proof.
  unfold parseHSIConfigKey, hsiKey, configKeyPrefix, has_prefix, trim_prefix. split.
  - destruct (strip_prefix "configs/" k) as [s|] eqn:Hs; [|done]. apply strip_prefix_inv in Hs as ->. cbn [negb from_option id].
    pose proof (join_split "/" s) as Hj. pose proof (split_on_pieces "/" s) as Hp. destruct (split_on "/" s) as [|a [|b [|c [|]]]]; try done.
    destruct (String.eqb_spec b "hsi") as [->|]; [|done]. destruct (String.eqb_spec a ""), (String.eqb_spec c ""); try done.
    intros [= <- <-]. rewrite !Forall_cons in Hp. destruct Hp as (Ha & _ & Hc & _). split_and!; try done. by rewrite <-Hj.
  - intros (-> & Hn & Hu & Hne & Hue). rewrite strip_prefix_app. cbn [negb from_option id].
    change (node +:+ "/hsi/" +:+ user) with (node +:+ String "/" ("hsi" +:+ String "/" user)).
    rewrite split_on_app, split_on_app, split_on_no_sep by done. apply String.eqb_neq in Hne, Hue. cbn. by rewrite Hne, Hue.
Qed.
Lemma target_key (e : string * kv) (s : string) t : e.1 = nodeKeyPrefix +:+ s -> parseRepublishTarget e.1 (kv_value e.2) = Some t -> tg_nodeUUID t = s.
Proof.
  intros ->. unfold parseRepublishTarget, trim_prefix. rewrite strip_prefix_app. cbn [from_option id].
  destruct (String.eqb s ""); [done|]. destruct (unmarshal_map _) as [m|]; [|done]. cbn.
  destruct (negb _); [done|]. destruct (String.eqb _ _); [done|]. by intros [= <-].
Qed.

Section sweep.
Context `{EtcdLaws E}.
Implicit Types (w : world E).

Lemma pushed_lookup (s : E) node user rev :
  pushed_revisions (et_range s configKeyPrefix) !! (node, user) = Some rev <->
  parseHSIConfigKey (hsiKey node user) = Some (node, user) /\ exists e, et_get s (hsiKey node user) = Some e /\ kv_mod e = rev.
Proof.
  unfold pushed_revisions. rewrite (keyed_lookup _ (fun k => hsiKey k.1 k.2)); [| |apply range_nodup].
  - split.
    + intros ([k e] & Hin%range_spec & Hk). simpl in Hk. destruct (parseHSIConfigKey k) as [y|] eqn:Ek; [|done]. injection Hk as -> <-.
      pose proof Ek as Ek'. apply config_key_parses in Ek' as (Hk & _). subst k. split; [exact Ek|]. destruct Hin as [_ Hin]. by exists e.
    + intros (Hp & e & He & <-). exists (hsiKey node user, e). split; [|by simpl; rewrite Hp]. apply range_spec. split; [|done].
      apply has_prefix_iff. by exists (node +:+ "/hsi/" +:+ user).
  - intros [k e] [n u] v _. simpl. destruct (parseHSIConfigKey k) as [[n' u']|] eqn:Ek; [|done]. intros [= -> -> _].
    by apply config_key_parses in Ek as (-> & _).
Qed.
Lemma active_lookup (s : E) node target :
  active_nodes (et_range s nodeKeyPrefix) !! node = Some target <->
  exists n, et_get s (nodeKeyPrefix +:+ node) = Some n /\ parseRepublishTarget (nodeKeyPrefix +:+ node) (kv_value n) = Some target.
Proof.
  set (f := fun e : string * kv => option_map (fun t => (tg_nodeUUID t, t)) (parseRepublishTarget e.1 (kv_value e.2))).
  assert (Hf : ((fun t => (tg_nodeUUID t, t)) <$> targets_of (et_range s nodeKeyPrefix)) = omap f (et_range s nodeKeyPrefix)).
  { unfold targets_of, f. generalize (et_range s nodeKeyPrefix). intros l. induction l as [|e l IH]; [done|]. cbn.
    destruct (parseRepublishTarget _ _); cbn; by rewrite IH. }
  unfold active_nodes. rewrite Hf, (keyed_lookup f (fun n => nodeKeyPrefix +:+ n)); [| |apply range_nodup].
  - split.
    + intros ([k e] & Hin & Hk). pose proof Hin as [[n ->]%has_prefix_iff He]%range_spec. unfold f in Hk. simpl in Hk.
      destruct (parseRepublishTarget _ _) as [t|] eqn:Et; [|done]. injection Hk as <- ->.
      rewrite (target_key (nodeKeyPrefix +:+ n, e) n target eq_refl Et). by exists e.
    + intros (n & Hg & Hp). exists (nodeKeyPrefix +:+ node, n). split; [apply range_spec; split; [apply has_prefix_iff; by exists node|done]|].
      unfold f. cbn [fst snd]. rewrite Hp. cbn [option_map]. by rewrite (target_key (nodeKeyPrefix +:+ node, n) node target eq_refl Hp).
  - intros [k e] y v [[n ->]%has_prefix_iff _]%range_spec. unfold f. simpl. destruct (parseRepublishTarget _ _) as [t|] eqn:Et; [|done].
    intros [= <- <-]. by rewrite (target_key (nodeKeyPrefix +:+ n, e) n t eq_refl Et).
Qed.

(** The world when the n-th call of a program is served. *)
Fixpoint moment (n : nat) w (ts : list turn) : world E :=
  match n with O => w | S n => moment n (interfere (hd quiet ts) w) (tl ts) end.
Definition faultless (t : turn) : bool := match t_etcd t, t_db t with None, None => true | _, _ => false end.
Lemma faultless_hd ts : forallb faultless ts = true -> t_etcd (hd quiet ts) = None /\ t_db (hd quiet ts) = None.
Proof. destruct ts as [|t ts]; [done|]. cbn [forallb hd]. unfold faultless. by destruct (t_etcd t), (t_db t). Qed.

(** Active in one store, and behind in another with respect to the tables. *)
Definition active_in (s : E) (node : string) (target : republishTarget) : Prop :=
  exists n, et_get s (nodeKeyPrefix +:+ node) = Some n /\ parseRepublishTarget (nodeKeyPrefix +:+ node) (kv_value n) = Some target.
Definition behind_in (s : E) (d : db) (node : string) : Prop :=
  exists user e,
    has_byte "/" node = false /\ has_byte "/" user = false /\ node <> "" /\ user <> "" /\
    et_get s (hsiKey node user) = Some e /\
    default 0 (ModRevision <$> hsi_config_current d !! (node, user)) < kv_mod e.
Lemma unconfirmed_spec (s1 s2 : E) d node target :
  unconfirmedFromRevisions (active_nodes (et_range s1 nodeKeyPrefix)) (ModRevision <$> hsi_config_current d)
    (pushed_revisions (et_range s2 configKeyPrefix)) !! node = Some target <->
  active_in s1 node target /\ behind_in s2 d node.
Proof.
  rewrite unconfirmed_exact, active_lookup. apply and_iff_compat_l.
  setoid_rewrite pushed_lookup. setoid_rewrite config_key_parses. split.
  - intros (user & rev & ((_ & ? & ? & ? & ?) & e & He & <-) & Hlt). rewrite lookup_fmap in Hlt. by exists user, e.
  - intros (user & e & ? & ? & ? & ? & He & Hlt). exists user, (kv_mod e). rewrite lookup_fmap. split; [|done]. split; [done|by exists e].
Qed.

Lemma unconfirmed_run w ts :
  (forallb faultless ts = true -> is_ok (outcome unconfirmedNodes w ts) = true) /\
  forall pending, outcome unconfirmedNodes w ts = Ok pending -> forall node target,
    pending !! node = Some target <->
    active_in (w_etcd (moment 1 w ts)) node target /\
    behind_in (w_etcd (moment 3 w ts)) (w_db (moment 2 w ts)) node.
Proof.
  unfold unconfirmedNodes, outcome. rewrite run_call_bind. unfold step_eff. cbn [perform moment]. unfold etcd_reply.
  set (w1 := interfere (hd quiet ts) w). split.
  - intros Hf. pose proof (faultless_hd _ Hf) as [-> _]. cbn beta iota zeta. case_bool_decide; [done|].
    assert (Hf1 : forallb faultless (tl ts) = true) by (by destruct ts as [|t ts]; [|apply andb_true_iff in Hf as [_ ?]]).
    rewrite run_call_bind. unfold step_eff at 1. cbn [perform]. unfold db_reply, ListCurrentModRevisions. pose proof (faultless_hd _ Hf1) as [_ ->]. cbn beta iota zeta.
    assert (Hf2 : forallb faultless (tl (tl ts)) = true) by (by destruct (tl ts) as [|t l]; [|apply andb_true_iff in Hf1 as [_ ?]]).
    rewrite run_call_bind. unfold step_eff. cbn [perform]. unfold etcd_reply. by pose proof (faultless_hd _ Hf2) as [-> _].
  - intros pending. destruct (t_etcd (hd quiet ts)) as [[e0 b0]|]; [by intros [=]|]. cbn beta iota zeta. case_bool_decide as He.
    { intros [= <-] node target. rewrite lookup_empty. split; [done|]. intros [Ha%active_lookup _]. by rewrite He, lookup_empty in Ha. }
    rewrite run_call_bind. unfold step_eff at 1. cbn [perform]. unfold db_reply, ListCurrentModRevisions. cbn beta iota zeta.
    destruct (t_db _) as [[e1 b1]|]; [by intros [=]|]. cbn beta iota zeta.
    rewrite run_call_bind. unfold step_eff. cbn [perform]. unfold etcd_reply.
    destruct (t_etcd _) as [[e2 b2]|]; [by intros [=]|]. intros [= <-] node target. apply unconfirmed_spec.
Qed.

(** C40: what the sweep reports as pending, whatever happens between its reads:
    the nodes that were active when it listed the nodes and had, when it listed
    the configs, one at a newer revision than the tables held confirmed in
    between, a config never confirmed counting as revision 0 -- and no other
    node.  So a node that stays active and behind is always found, and one that
    had caught up is not asked.  Only a failed read makes the sweep skip a turn. *)
Theorem sweep_finds_behind w ts :
  (forallb faultless ts = true -> is_ok (outcome unconfirmedNodes w ts) = true) /\
  forall pending, outcome unconfirmedNodes w ts = Ok pending -> forall node target,
    pending !! node = Some target <->
    active_in (w_etcd (moment 1 w ts)) node target /\
    behind_in (w_etcd (moment 3 w ts)) (w_db (moment 2 w ts)) node.
Proof. apply unconfirmed_run. Qed.
End sweep.

(** The node is active, its subscriber's config is at revision 3 and was never confirmed. *)
Definition pushed_ahead : world mem :=
  World (et_put (et_put mem_empty (nodeKeyPrefix +:+ "n") (marshal_map [("node_ip", AStr "10.0.0.1"); ("status", AStr "active")]))
                (hsiKey "n" "2") "{}") db_empty 0 false [].
Example pushed_ahead_pending :
  outcome unconfirmedNodes pushed_ahead [] = Ok {[ "n" := MkTarget "n" "10.0.0.1" 0 ]}.
Proof. vm_compute. done. Qed.
(** The node restarts with another config pushed while the sweep reads. *)
Definition pushed_meanwhile : list turn :=
  [quiet; Turn [EvPut (hsiKey "n" "3") "{}"] 0 None None None false false []; Turn [EvDel (nodeKeyPrefix +:+ "n")] 0 None None None false false []].
Lemma sweep_finds_behind_witness :
  exists pending, outcome unconfirmedNodes pushed_ahead pushed_meanwhile = Ok pending /\ pending !! "n" = Some (MkTarget "n" "10.0.0.1" 0).
Proof.
  destruct (sweep_finds_behind pushed_ahead pushed_meanwhile) as [Hok Hb].
  destruct (outcome unconfirmedNodes pushed_ahead pushed_meanwhile) as [pending|e]; [|by specialize (Hok eq_refl)].
  exists pending. split; [done|]. apply (Hb pending eq_refl).
  split; [eexists; split; [vm_compute; reflexivity|vm_compute; reflexivity]|]. exists "2". eexists. do 4 (split; [done|]).
  split; [vm_compute; reflexivity|done].
Defined.
