(* ===== verification/Sweep.v ===== *)
(** * The confirmation sweep as a whole

    The sweep of [internal/server/node_monitor.go] reads etcd and the tables at
    every tick, keeps a backoff per node and calls the nodes.  This file follows
    one node that stays behind through all of it. *)

From S2P Require Import Prelude GoStrings Json Decode GoTime ConfigDoc Etcd Db DbProps Effects Storage NodeMonitor Progress MonitorProps.
Local Open Scope string_scope.
Local Open Scope Z_scope.
Local Open Scope go_scope.

(** ** When a node that stays behind is asked *)

(** Of the times of the sweeps, those at which it is: from [next] on, then after
    twice the gap each time, up to the bound. *)
Fixpoint schedule (next gap : Z) (times : list Z) : list Z :=
  match times with
  | [] => []
  | t :: times =>
      if t <? next then schedule next gap times
      else let gap := Z.min (gap * 2) configConfirmBackoffMax in t :: schedule (t + gap) gap times
  end.
(** The gaps from the time [last] on: at least [gap], then twice as much each
    time up to the bound. *)
Fixpoint spaced (gap last : Z) (ts : list Z) : Prop :=
  match ts with
  | [] => True
  | t :: ts => last + gap <= t /\ spaced (Z.min (gap * 2) configConfirmBackoffMax) t ts
  end.
Lemma schedule_spaced gap last times : spaced gap last (schedule (last + gap) gap times).
Proof.
  revert gap last. induction times as [|t times IH]; intros gap last; cbn [schedule]; [done|].
  destruct (Z.ltb_spec t (last + gap)); [apply IH|]. split; [lia|apply IH].
Qed.
(** A sweep whose time has come asks, unless an earlier one did. *)
Lemma schedule_asks next gap times t : t ∈ times -> next <= t -> schedule next gap times <> [].
Proof.
  induction times as [|x times IH]; [by intros ?%elem_of_nil|]. cbn [schedule]. intros Hin Hle.
  destruct (Z.ltb_spec x next); [|done]. apply elem_of_cons in Hin as [->|Hin]; [lia|by apply IH].
Qed.

(** ** The calls of one sweep *)

Section calls.
Context {D : NodeDial}.

Definition reached (node : string) (e : string * list republishReply) : bool :=
  String.eqb e.1 node && match e.2 with [] => false | _ => true end.
Definition asked_at (node : string) (l : list (Z * list (string * list republishReply))) : list Z :=
  omap (fun s => if existsb (reached node) s.2 then Some s.1 else None) l.

Lemma StartMonitoring_confirm uuid ip port m : confirmState (StartMonitoring uuid ip port m).2 = confirmState m.
Proof using Type.
  unfold StartMonitoring, open_monitor, stopMonitoringLocked. destruct (monitors m !! uuid); repeat case_match; by simplify_eq/=.
Qed.
Lemma StartMonitoring_database uuid ip port m : mgr_database (StartMonitoring uuid ip port m).2 = mgr_database m.
Proof using Type.
  unfold StartMonitoring, open_monitor, stopMonitoringLocked. destruct (monitors m !! uuid); repeat case_match; by simplify_eq/=.
Qed.
Lemma StartMonitoring_dialled uuid ip port m : (forall address, dial address = true) -> (StartMonitoring uuid ip port m).1 = true.
Proof using Type.
  intros Hd. unfold StartMonitoring, open_monitor. destruct (monitors m !! uuid); [destruct (_ && _); [done|]|]; by rewrite Hd.
Qed.

(** Nothing but the monitors changes, and with addresses that parse everybody
    is called. *)
Lemma sweepCall_calls answers acc t node :
  (forall address, dial address = true) ->
  let r := sweepCall answers acc t in
  confirmState r.1 = confirmState acc.1 /\ mgr_database r.1 = mgr_database acc.1 /\
  existsb (reached node) r.2 = existsb (reached node) acc.2 || String.eqb (tg_nodeUUID t) node.
Proof using Type.
  intros Hd. unfold sweepCall, sweepNode. destruct acc as [m rs]. cbn [fst snd].
  pose proof (StartMonitoring_confirm (tg_nodeUUID t) (tg_nodeIP t) (tg_grpcPort t) m) as Hc.
  pose proof (StartMonitoring_database (tg_nodeUUID t) (tg_nodeIP t) (tg_grpcPort t) m) as Hdb.
  pose proof (StartMonitoring_dialled (tg_nodeUUID t) (tg_nodeIP t) (tg_grpcPort t) m Hd) as Hok.
  destruct (StartMonitoring _ _ _ m) as [ok m1]. cbn [fst snd] in *. subst ok. cbn [fst snd]. split_and!; [done..|].
  rewrite existsb_app. unfold reached at 2. cbn [existsb fst snd]. by rewrite andb_true_r, orb_false_r.
Qed.
Lemma sweepAll_calls `{EtcdLaws E} answers due m node (w : world E) ts r w' ts' :
  (forall address, dial address = true) -> forallb smooth ts = true -> w_done w = false ->
  run (sweepAll answers due m) w ts = (r, w', ts') ->
  confirmState r.1 = confirmState m /\ mgr_database r.1 = mgr_database m /\
  existsb (reached node) r.2 = bool_decide (node ∈ tg_nodeUUID <$> due).
Proof using Type.
  intros Hd. unfold sweepAll.
  assert (Hgen : forall acc w ts, forallb smooth ts = true -> w_done w = false -> run (sweep_from answers due acc) w ts = (r, w', ts') ->
    confirmState r.1 = confirmState acc.1 /\ mgr_database r.1 = mgr_database acc.1 /\
    existsb (reached node) r.2 = existsb (reached node) acc.2 || bool_decide (node ∈ tg_nodeUUID <$> due)); [|apply (Hgen (m, []))].
  clear w ts. induction due as [|t due IH]; intros acc w ts Hs Hdn Hrun; cbn [sweep_from] in Hrun.
  - cbn [run] in Hrun. simplify_eq. split_and!; [done..|]. by rewrite orb_false_r.
  - apply run_bind_inv in Hrun as (ended & w1 & ts1 & H1 & H2). destruct (smooth_run _ _ _ _ _ _ Hs H1) as [Hs1 D1].
    rewrite (smooth_ctx _ _ _ _ _ Hs H1), Hdn in H2.
    destruct (sweepCall_calls answers acc t node Hd) as (S1 & S2 & S3).
    destruct (IH (sweepCall answers acc t) w1 ts1 Hs1 ltac:(congruence) H2) as (I1 & I2 & I3).
    rewrite I1, I2, I3, S1, S2, S3, <-orb_assoc. split_and!; [done..|]. f_equal. apply Bool.eq_iff_eq_true.
    rewrite orb_true_iff, String.eqb_eq, !bool_decide_eq_true. cbn [fmap list_fmap]. rewrite elem_of_cons. split; intros [->|Hin]; auto.
Qed.
End calls.

(** ** A node that stays behind *)

Section behind.
Context `{EtcdLaws E}.
Implicit Types (w : world E) (ts : list turn).
Context (node user : string) (r : Z).

(** It is active, its subscriber's config is at revision [r] or later, and it has
    not confirmed [r]. *)
Record lagging (s : E) (d : db) : Prop := {
  lag_ids : has_byte "/" node = false /\ has_byte "/" user = false /\ node <> "" /\ user <> "";
  lag_active : exists target, active_in s node target;
  lag_pushed : exists e, et_get s (hsiKey node user) = Some e /\ r <= kv_mod e;
  lag_confirmed : default 0 (ModRevision <$> hsi_config_current d !! (node, user)) < r }.

(** Others keep it so: its entry may be rewritten (heartbeats) as long as it stays
    active, its config may be pushed again, and no confirmation of it arrives. *)
Definition keeps_behind (t : turn) : bool :=
  forallb (fun o => match o with
                    | EvPut k v => if String.eqb k (nodeKeyPrefix +:+ node)
                                   then match parseRepublishTarget k v with Some _ => true | None => false end else true
                    | EvDel k => negb (String.eqb k (nodeKeyPrefix +:+ node)) && negb (String.eqb k (hsiKey node user))
                    | EvCompact _ => true
                    end) (t_env t) &&
  forallb (fun o => match o with SqlConfirm row _ => negb (bool_decide (row_key row = (node, user))) | _ => true end) (t_sql t).

Lemma keys_apart : nodeKeyPrefix +:+ node <> hsiKey node user.
Proof using. unfold nodeKeyPrefix, hsiKey. by intros [=]. Qed.

Lemma current_elsewhere now o d k :
  (match o with SqlConfirm row _ => row_key row <> k | _ => True end) ->
  hsi_config_current (apply_sql now d o) !! k = hsi_config_current d !! k.
Proof using.
  intros Ho. destruct o as [row|row|row status|row status|topic p off v e|watcher rev]; cbn [apply_sql]; unfold after; try done.
  - unfold InsertNodeEvent. by destruct (existsb _ _).
  - unfold UpsertCurrentWithHistory. destruct (upsertCurrent row now d) as [[[] d1]|] eqn:Eu; [|done].
    destruct (appendHistoryWithStatus row status now d1) as [[[] d2]|] eqn:Ea; [|done].
    apply append_current in Ea as ->. apply upsertCurrent_inv in Eu as (c & _ & _ & _ & ->).
    destruct (hsi_config_current d !! row_key row); [destruct (_ <? _)|]; by rewrite ?lookup_insert_ne.
  - destruct (appendHistoryWithStatus row status now d) as [[[] d2]|] eqn:Ea; [|done]. by apply append_current in Ea as ->.
  - unfold SendToDLQ. by destruct (List.find _ _).
Qed.

Lemma lagging_env s d o :
  et_wf s -> keeps_behind (Turn [o] 0 None None None false false []) = true -> lagging s d -> lagging (apply_env s o) d.
Proof using Type*.
  intros Hs Ho [Hi (target & n & Hn & Hp) (e & He & Hm) Hc]. pose proof keys_apart as Hne.
  unfold keeps_behind in Ho. cbn [t_env t_sql forallb] in Ho. rewrite !andb_true_r in Ho.
  destruct o as [k v|k|rev]; cbn [apply_env] in *.
  - split; [done| | |done].
    + destruct (String.eqb_spec k (nodeKeyPrefix +:+ node)) as [->|Hk].
      * destruct (parseRepublishTarget _ v) as [t|] eqn:Ep; [|done]. exists t. unfold active_in.
        rewrite get_put_same by done. eexists. split; [done|]. by destruct (et_get s _).
      * exists target, n. rewrite get_put_other by congruence. done.
    + destruct (decide (k = hsiKey node user)) as [->|Hk].
      * rewrite get_put_same, He by done. eexists. split; [done|]. simpl. pose proof (mod_bound s _ _ Hs He). lia.
      * rewrite get_put_other by done. by exists e.
  - apply andb_true_iff in Ho as [H1%negb_true_iff%String.eqb_neq H2%negb_true_iff%String.eqb_neq]. split; [done| | |done].
    + exists target, n. by rewrite get_del_other by congruence.
    + exists e. by rewrite get_del_other by congruence.
  - split; [done| | |done]; [exists target, n|exists e]; by rewrite get_compact.
Qed.
Lemma lagging_turn s d t now :
  et_wf s -> keeps_behind t = true -> lagging s d ->
  lagging (apply_envs s (t_env t)) (fold_left (apply_sql now) (t_sql t) d).
Proof using Type*.
  unfold keeps_behind, apply_envs. intros Hs [He Hq]%andb_true_iff Hl.
  assert (Hd : lagging s (fold_left (apply_sql now) (t_sql t) d)).
  { revert d Hl. induction (t_sql t) as [|o l IH]; intros d Hl; [done|]. cbn [forallb fold_left] in *. apply andb_true_iff in Hq as [Ho Hq].
    apply IH; [done|]. destruct Hl as [? ? ? Hc]. split; [done..|]. rewrite current_elsewhere; [done|].
    destruct o; try done. by apply negb_true_iff, bool_decide_eq_false in Ho. }
  clear Hq Hl. revert s Hs Hd. induction (t_env t) as [|o l IH]; intros s Hs Hd; [done|]. cbn [forallb fold_left] in *.
  apply andb_true_iff in He as [Ho He]. apply IH; [done|by apply wf_env|]. apply lagging_env; [done| |done].
  unfold keeps_behind. cbn [t_env t_sql forallb]. by rewrite Ho.
Qed.

(** ** A sweep that finds it *)

(** Programs that change neither etcd nor the tables. *)
Definition only_looks {X} (e : eff X) : Prop :=
  match e with
  | EDb q => forall now d a d', q now d = Ok (a, d') -> d' = d
  | ETxn _ _ | EPutLease _ _ _ | EDelete _ | ECommit _ => False
  | _ => True
  end.
Fixpoint looks {A} (p : prog A) : Prop :=
  match p with Ret _ => True | Vis e k => only_looks e /\ forall x, looks (k x) end.
Lemma looks_bind {A B} (p : prog A) (f : A -> prog B) : looks p -> (forall a, looks (f a)) -> looks (bind p f).
Proof using. intros Hp Hf. induction p as [a|X e k IH]; cbn [bind looks]; [apply Hf|]. destruct Hp as [He Hk]. split; [done|]. intros x. by apply IH. Qed.

Definition behind w : Prop := et_wf (w_etcd w) /\ lagging (w_etcd w) (w_db w).
Lemma behind_interfere ts w : forallb keeps_behind ts = true -> behind w -> behind (interfere (hd quiet ts) w).
Proof using Type*.
  intros Ht [Hs Hl]. assert (Hk : keeps_behind (hd quiet ts) = true) by (destruct ts; [done|by apply andb_true_iff in Ht as [? _]]).
  split; [rewrite interfere_etcd; by apply wf_envs|by apply lagging_turn].
Qed.
Lemma behind_looks {A} (p : prog A) w ts a w' ts' :
  looks p -> forallb keeps_behind ts = true -> behind w -> run p w ts = (a, w', ts') -> behind w'.
Proof using Type*.
  revert w ts. induction p as [b|X e k IH]; intros w ts; cbn [looks run]; [intros _ _ Hb [= _ <- _]; done|].
  intros [He Hk] Ht Hb. destruct (step_eff e w ts) as [x w1] eqn:Es. intros Hr. eapply IH; [apply Hk|by apply ok_tl| |exact Hr].
  apply (behind_interfere ts) in Hb; [|done]. change w1 with (x, w1).2. rewrite <-Es. unfold step_eff.
  set (t := hd quiet ts) in *. set (w2 := interfere t w) in *.
  destruct e as [key|key rev|p|g o|key v ttl|key|B q| |d b0| |ms]; try done; cbn [perform];
    try match goal with |- context [etcd_reply ?t ?w ?f] => destruct (etcd_reply_world t w f) as [-> | ->]; done end.
  - by destruct (t_etcd t) as [[]|].
  - destruct (db_reply_world t w2 q) as [-> | (y & d & Hq & ->)]; [done|]. by apply He in Hq as ->.
Qed.
Lemma behind_moment n w ts : forallb keeps_behind ts = true -> behind w -> behind (moment n w ts).
Proof using Type*.
  revert w ts. induction n as [|n IH]; intros w ts Ht Hb; cbn [moment]; [done|]. apply IH; [by apply ok_tl|by apply behind_interfere].
Qed.

Lemma unconfirmed_looks : looks unconfirmedNodes.
Proof using.
  unfold unconfirmedNodes. apply looks_bind; [done|]. intros [[nodes rev]|e]; [|done]. destruct (bool_decide _); [done|].
  apply looks_bind; [split; [|done]; by intros now d a d' [= _ <-]|]. intros [confirmed|e]; [|done].
  apply looks_bind; [done|]. by intros [[configs rev']|e].
Qed.
Lemma smooth_faultless ts : forallb smooth ts = true -> forallb faultless ts = true.
Proof using.
  induction ts as [|t ts IH]; [done|]. cbn [forallb]. intros [Ht Hs]%andb_true_iff. rewrite IH by done. rewrite andb_true_r.
  unfold smooth in Ht. unfold faultless. by destruct (t_etcd t), (t_db t).
Qed.
Lemma found w ts : behind w -> forallb smooth ts = true -> forallb keeps_behind ts = true ->
  exists pending target, outcome unconfirmedNodes w ts = Ok pending /\ pending !! node = Some target /\
    forall k t, pending !! k = Some t -> tg_nodeUUID t = k.
Proof using Type*.
  intros Hb Hs Ht. destruct (unconfirmed_run w ts) as [Hok Hp]. specialize (Hok (smooth_faultless _ Hs)).
  destruct (outcome unconfirmedNodes w ts) as [pending|e]; [|done].
  destruct (behind_moment 1 w ts Ht Hb) as [_ [_ [target Ha] _ _]]. destruct (behind_moment 2 w ts Ht Hb) as [_ [_ _ _ Hc]].
  destruct (behind_moment 3 w ts Ht Hb) as [_ [(H1 & H2 & H3 & H4) _ (e & He & Hm) _]]. exists pending, target. split_and!; [done| |].
  - apply (Hp pending eq_refl). split; [done|]. exists user, e. split_and!; try done. lia.
  - intros k t [(n & _ & Hn) _]%(Hp pending eq_refl). by apply (target_key (nodeKeyPrefix +:+ k, Kv (kv_value n) 0 0 0) k t eq_refl).
Qed.

Lemma sweep_once m w ts res w' ts' :
  behind w -> forallb smooth ts = true -> forallb keeps_behind ts = true -> mgr_database m = true ->
  run (SweepConfigConfirmations m) w ts = (res, w', ts') ->
  behind w' /\ exists now due, res.1 = Some (now, due) /\ mgr_database res.2 = true /\
    confirmState res.2 !! node = Some (nudge_node now (confirmState m !! node)).1 /\
    bool_decide (node ∈ tg_nodeUUID <$> due) = (nudge_node now (confirmState m !! node)).2.
Proof using Type*.
  intros Hb Hs Ht Hm Hrun. assert (Hl : looks (SweepConfigConfirmations m)).
  { unfold SweepConfigConfirmations. rewrite Hm. apply looks_bind; [apply unconfirmed_looks|]. intros [p|e]; [|done].
    apply looks_bind; [done|]. intros now. by destruct (dueForNudge p now m). }
  split; [by eapply behind_looks|]. unfold SweepConfigConfirmations in Hrun. rewrite Hm in Hrun. cbn [negb] in Hrun.
  apply run_bind_inv in Hrun as (rp & w1 & ts1 & H1 & H2). destruct (found w ts Hb Hs Ht) as (pending & target & Ho & Hn & Hk).
  unfold outcome in Ho. rewrite H1 in Ho. cbn in Ho. subst rp. apply run_bind_inv in H2 as (now & w2 & ts2 & _ & H3).
  destruct (due_node pending now m node target Hk Hn) as [Hdue Hst]. destruct (dueForNudge pending now m) as [due m'] eqn:Ed.
  cbn [run] in H3. simplify_eq. exists now, due. cbn [fst snd] in *. split_and!; [done| |done|].
  - unfold dueForNudge in Ed. by simplify_eq.
  - apply Bool.eq_iff_eq_true. by rewrite bool_decide_eq_true.
Qed.

(** ** The loop *)

Context {D : NodeDial} (Hdial : forall address, dial address = true).

Lemma sweep_looks answers due acc : looks (sweep_from answers due acc).
Proof using Type.
  revert acc. induction due as [|t due IH]; intros acc; [done|]. cbn [sweep_from]. apply looks_bind; [done|]. intros [|]; [done|apply IH].
Qed.
(** One tick: the time of its sweep, and whether the node is asked then. *)
Lemma one_tick wait answers ticks m w ts a w' ts' :
  behind w -> forallb smooth ts = true -> forallb keeps_behind ts = true -> w_done w = false -> mgr_database m = true ->
  run (RunConfigConfirmationSweep ((wait, answers) :: ticks) m) w ts = (a, w', ts') ->
  exists now replies m1 w1 ts1 rest, behind w1 /\ forallb smooth ts1 = true /\ forallb keeps_behind ts1 = true /\ w_done w1 = false /\
    mgr_database m1 = true /\ confirmState m1 !! node = Some (nudge_node now (confirmState m !! node)).1 /\
    existsb (reached node) replies = (nudge_node now (confirmState m !! node)).2 /\
    run (RunConfigConfirmationSweep ticks m1) w1 ts1 = (rest, w', ts') /\ a.2 = (now, replies) :: rest.2.
Proof using Type*.
  intros Hb Hs Ht Hd Hm Hrun. cbn [RunConfigConfirmationSweep] in Hrun. apply run_bind_inv in Hrun as (ended & w1 & ts1 & H1 & H2).
  destruct (smooth_run _ _ _ _ _ _ Hs H1) as [Hs1 D1]. pose proof (smooth_sleep _ _ _ _ _ _ _ Hs H1) as ->. rewrite Hd in H2.
  pose proof (behind_looks (call (ESleep _ _)) _ _ _ _ _ ltac:(done) Ht Hb H1) as Hb1. pose proof (run_ok _ _ _ _ _ _ _ Ht H1) as Ht1.
  apply run_bind_inv in H2 as (swept & w2 & ts2 & H2 & H3). destruct (smooth_run _ _ _ _ _ _ Hs1 H2) as [Hs2 D2].
  pose proof (run_ok _ _ _ _ _ _ _ Ht1 H2) as Ht2.
  destruct (sweep_once m w1 ts1 swept w2 ts2 Hb1 Hs1 Ht1 Hm H2) as (Hb2 & now & due & Hsw & Hm2 & Hst & Hdue).
  rewrite Hsw in H3. apply run_bind_inv in H3 as ([m1 replies] & w3 & ts3 & H3 & H4).
  assert (Hd2 : w_done w2 = false) by congruence.
  destruct (sweepAll_calls answers due swept.2 node _ _ _ _ _ Hdial Hs2 Hd2 H3) as (C1 & C2 & C3). cbn [fst snd] in *.
  destruct (smooth_run _ _ _ _ _ _ Hs2 H3) as [Hs3 D3]. pose proof (run_ok _ _ _ _ _ _ _ Ht2 H3) as Ht3.
  pose proof (behind_looks _ _ _ _ _ _ (sweep_looks answers due _) Ht2 Hb2 H3) as Hb3.
  apply run_bind_inv in H4 as (rest & w4 & ts4 & H4 & H5). cbn [run] in H5. simplify_eq.
  exists now, replies, m1, w3, ts3, rest. split_and!; try done; [congruence|by rewrite C2|by rewrite C1|by rewrite C3].
Qed.

Lemma loop_asks ticks : forall m w ts a w' ts' st,
  behind w -> forallb smooth ts = true -> forallb keeps_behind ts = true -> w_done w = false -> mgr_database m = true ->
  confirmState m !! node = Some st -> run (RunConfigConfirmationSweep ticks m) w ts = (a, w', ts') ->
  length a.2 = length ticks /\ asked_at node a.2 = schedule (nextNudge st) (cs_backoff st) a.2.*1.
Proof using Type*.
  induction ticks as [|[wait answers] ticks IH]; intros m w ts a w' ts' st Hb Hs Ht Hd Hm Hst Hrun; [cbn [RunConfigConfirmationSweep run] in Hrun; by simplify_eq|].
  destruct (one_tick _ _ _ _ _ _ _ _ _ Hb Hs Ht Hd Hm Hrun) as (now & replies & m1 & w1 & ts1 & rest & Hb1 & Hs1 & Ht1 & Hd1 & Hm1 & Hst1 & Hr & Hrest & ->).
  destruct (IH _ _ _ _ _ _ _ Hb1 Hs1 Ht1 Hd1 Hm1 Hst1 Hrest) as [Hlen Hask]. rewrite Hst in *. cbn [length fmap list_fmap].
  split; [by rewrite Hlen|]. unfold asked_at in *. cbn [omap list_omap fst snd]. rewrite Hr. cbn [schedule nudge_node] in *.
  destruct (Z.ltb_spec now (nextNudge st)); cbn [fst snd] in *; by rewrite Hask.
Qed.
End behind.

(** ** Property *)

(** C23: a node that stays active and behind is not forgotten and not flooded,
    whatever else is written meanwhile: every tick sweeps; the first sweep only
    starts the clock; from 60 s after it on the node is asked at the first sweep
    whose time has come, then again 120, 240, 480 and from then on 900 s later.
    So no two requests are closer than that, and as soon as one sweep is 60 s
    after the first the node has been asked. *)
Theorem sweep_asks_lagging `{EtcdLaws E} {D : NodeDial} node user r ticks m (w : world E) ts :
  world_wf w -> lagging node user r (w_etcd w) (w_db w) -> w_done w = false ->
  forallb smooth ts = true -> forallb (keeps_behind node user) ts = true ->
  (forall address, dial address = true) -> mgr_database m = true -> confirmState m !! node = None ->
  let swept := (outcome (RunConfigConfirmationSweep ticks m) w ts).2 in
  length swept = length ticks /\
  match swept.*1 with
  | [] => True
  | first :: later =>
      asked_at node swept = schedule (first + configConfirmTimeout) configConfirmTimeout later /\
      spaced configConfirmTimeout first (asked_at node swept) /\
      forall t, t ∈ later -> first + configConfirmTimeout <= t -> asked_at node swept <> []
  end.
Proof.
  intros Hw Hl Hd Hs Ht Hdial Hm Hno swept. unfold swept, outcome. destruct (run _ w ts) as [[a w'] ts'] eqn:Hrun. cbn [fst].
  destruct ticks as [|[wait answers] ticks]; [cbn [RunConfigConfirmationSweep run] in Hrun; by simplify_eq|].
  destruct (one_tick node user r Hdial wait answers ticks m w ts a w' ts' (conj Hw Hl) Hs Ht Hd Hm Hrun)
    as (now & replies & m1 & w1 & ts1 & rest & Hb1 & Hs1 & Ht1 & Hd1 & Hm1 & Hst1 & Hr & Hrest & ->).
  rewrite Hno in Hst1, Hr. cbn [nudge_node fst snd] in Hst1, Hr.
  destruct (loop_asks node user r Hdial ticks _ _ _ _ _ _ _ Hb1 Hs1 Ht1 Hd1 Hm1 Hst1 Hrest) as [Hlen Hask]. cbn [nextNudge cs_backoff] in Hask.
  assert (Heq : asked_at node ((now, replies) :: rest.2) = asked_at node rest.2) by (unfold asked_at; cbn [omap list_omap fst snd]; by rewrite Hr).
  cbn [length fmap list_fmap fst]. split; [by rewrite Hlen|]. rewrite Heq, Hask. split_and!; [done|apply schedule_spaced|].
  intros t Ht' Hle. by eapply schedule_asks.
Qed.

(** *** Witness *)

(** Nine sweeps; the node beats between all calls and its config is pushed again. *)
Definition nine_ticks : list (Z * (string -> bool)) := repeat (30 * second, fun _ => true) 9.
Definition beating : list turn :=
  repeat (Turn [EvPut (nodeKeyPrefix +:+ "n") (marshal_map [("node_ip", AStr "10.0.0.1"); ("status", AStr "active"); ("beat", AStr "again")]);
                EvPut (hsiKey "n" "2") "{}"] 0 None None None false false []) 20.
Definition manager : NodeMonitorManager := NewNodeMonitorManager true.
Lemma pushed_ahead_lagging : lagging "n" "2" 3 (w_etcd pushed_ahead) (w_db pushed_ahead).
Proof.
  split; [done| | |done].
  - exists (MkTarget "n" "10.0.0.1" 0). eexists. split; [vm_compute; reflexivity|vm_compute; reflexivity].
  - eexists. split; [vm_compute; reflexivity|done].
Qed.
Lemma sweep_asks_lagging_witness :
  let swept := (outcome (RunConfigConfirmationSweep (D := dial_all) nine_ticks manager) pushed_ahead beating).2 in
  length swept = 9%nat /\
  match swept.*1 with
  | [] => True
  | first :: later =>
      asked_at "n" swept = schedule (first + configConfirmTimeout) configConfirmTimeout later /\
      spaced configConfirmTimeout first (asked_at "n" swept) /\
      forall t, t ∈ later -> first + configConfirmTimeout <= t -> asked_at "n" swept <> []
  end.
Proof.
  apply (sweep_asks_lagging (D := dial_all) "n" "2" 3 nine_ticks manager pushed_ahead beating);
    [apply wf_put, wf_put, mem_empty_wf|apply pushed_ahead_lagging|reflexivity|vm_compute; reflexivity|vm_compute; reflexivity
    |reflexivity|reflexivity|reflexivity].
Defined.
Example nine_sweeps :
  let swept := (outcome (RunConfigConfirmationSweep (D := dial_all) nine_ticks manager) pushed_ahead beating).2 in
  (fun t => t / second) <$> swept.*1 = [30; 60; 90; 120; 150; 180; 210; 240; 270] /\
  (fun t => t / second) <$> asked_at "n" swept = [90; 210].
Proof. vm_compute. done. Qed.
