(* ===== verification/NodeServer.v ===== *)
(** * Node registration and liveness ([internal/server/grpc_server.go])

    The closures that rewrite a node's entry, the four calls of the node
    service, and the eviction of stale nodes.  A handler returns, besides its
    reply, the calls it makes on the monitor manager, in order; [run_mgr]
    carries them out. *)

From S2P Require Import Prelude GoStrings Json JsonNormal Decode GoTime ConfigDoc Etcd Db Effects Cas Storage NodeMonitor.
Local Open Scope string_scope.
Local Open Scope Z_scope.
Local Open Scope go_scope.

Definition HeartbeatTimeout : Z := 60.
Definition CheckInterval : Z := 30.
(** [time.Now().Unix()] *)
Definition unix_of (now : Z) : Z := now / second.

Record NodeRegisterRequest := MkRegister {
  rg_NodeUuid : string; rg_Ip : string; rg_Version : string; rg_Location : string; rg_GrpcPort : Z; rg_HostOs : string }.
Record NodeHeartbeat := MkHeartbeat { hb_NodeUuid : string; hb_UptimeTimestamp : Z; hb_Ip : string; hb_HostOs : string }.

(** ** The closures *)

Definition map_of (l : list (string * any)) : list (string * any) := fold_left (fun m kv => kset kv.1 kv.2 m) l [].
Definition carry (k : string) (existing m : list (string * any)) : list (string * any) :=
  match kget k existing with Some v => kset k v m | None => m end.

Definition registered_map (existing : list (string * any)) (req : NodeRegisterRequest) (registeredAt : Z) : list (string * any) :=
  let nodeData := map_of
    [("node_uuid", AStr (rg_NodeUuid req)); ("node_ip", AStr (rg_Ip req)); ("version", AStr (rg_Version req));
     ("location", AStr (rg_Location req)); ("registered_at", AInt registeredAt); ("last_seen_time", AInt registeredAt);
     ("status", AStr "active"); ("grpc_port", AInt (rg_GrpcPort req))] in
  let nodeData := if String.eqb (rg_HostOs req) "" then nodeData else kset "host_os" (AStr (rg_HostOs req)) nodeData in
  carry "nic_model_lan" existing (carry "nic_model_wan" existing nodeData).
Definition registerNodeCASValue (req : NodeRegisterRequest) (registeredAt : Z) (current : option string) (now : Z)
  : result nodeerr (CASResult * unit) :=
  let existing := match current with
                  | None => []
                  | Some cur => match unmarshal_map cur with Some decoded => default [] decoded | None => [] end
                  end in
  Ok (cas_put (marshal_map (registered_map existing req registeredAt)), tt).

Definition heartbeat_map (req : NodeHeartbeat) (heartbeatAt : Z) (nodeData : list (string * any)) : list (string * any) :=
  let nodeData := kset "last_seen_time" (AInt heartbeatAt) nodeData in
  let nodeData := kset "uuid" (AStr (hb_NodeUuid req)) nodeData in
  let nodeData := kset "uptime" (AInt (hb_UptimeTimestamp req)) nodeData in
  let nodeData := kset "node_ip" (AStr (hb_Ip req)) nodeData in
  let nodeData := kset "status" (AStr "active") nodeData in
  let nodeData := kdel "inactive_reason" (kdel "inactive_at" nodeData) in
  if String.eqb (hb_HostOs req) "" then nodeData else kset "host_os" (AStr (hb_HostOs req)) nodeData.
Definition heartbeatNodeCASValue (req : NodeHeartbeat) (heartbeatAt : Z) (current : option string) (now : Z)
  : result nodeerr (CASResult * list (string * any)) :=
  let? nodeData := node_map current in
  let nodeData := heartbeat_map req heartbeatAt nodeData in
  Ok (cas_put (marshal_map nodeData), nodeData).

Definition inactive_map (at_ : Z) (reason : string) (nodeData : list (string * any)) : list (string * any) :=
  kset "inactive_reason" (AStr reason) (kset "inactive_at" (AInt at_) (kset "status" (AStr "inactive") nodeData)).
(** [nodeData["last_seen_time"].(float64)] *)
Definition last_seen (nodeData : list (string * any)) : option Z :=
  match kget "last_seen_time" nodeData with Some (ANum f) => Some (float_to_int64 f) | _ => None end.
(** The checks of the closure, on a map that may be nil. *)
Definition staleNodeCASValue (currentTime : Z) (current : option string) (now : Z) : result nodeerr (CASResult * unit) :=
  match current with
  | None => Err errNodeNotRegistered
  | Some cur =>
      match unmarshal_map cur with
      | None => Err errInvalidNodeData
      | Some decoded =>
          let nodeData := default [] decoded in
          match last_seen nodeData with
          | None => Err errInvalidNodeData
          | Some lastSeenTime =>
              if String.eqb (string_at "status" nodeData) "inactive" then Err errNodeNoLongerStale
              else if wrap64 (currentTime - lastSeenTime) <=? HeartbeatTimeout then Err errNodeNoLongerStale
              else Ok (cas_put (marshal_map (inactive_map currentTime "heartbeat_timeout" nodeData)), tt)
          end
      end
  end.

Definition shutdownNodeCASValue (shutdownAt : Z) (current : option string) (now : Z) : result nodeerr (CASResult * unit) :=
  let? nodeData := node_map current in
  Ok (cas_put (marshal_map (inactive_map shutdownAt "node_shutdown" nodeData)), tt).

(** ** Calls on the monitor manager *)

(** [CallStart] is the start of [afterNodeRegistered], whose two goroutines
    follow only a successful start, or that of a heartbeat, which has none. *)
Inductive mgr_call :=
| CallStart (nodeUUID nodeIP : string) (grpcPort : Z) (follow_ups : bool)
| CallStop (nodeUUID : string)
| CallFetchNic (nodeUUID : string).
#[export] Instance mgr_call_eq_dec : EqDecision mgr_call.
Proof. solve_decision. Defined.
(** The goroutines started. *)
Inductive spawned := SpawnFetchNic (nodeUUID : string) | SpawnRepublishConfig (nodeUUID : string).
Definition run_call {D : NodeDial} (c : mgr_call) (m : NodeMonitorManager) : NodeMonitorManager * list spawned :=
  match c with
  | CallStart nodeUUID nodeIP grpcPort follow_ups =>
      let '(ok, m) := StartMonitoring nodeUUID nodeIP grpcPort m in
      (m, if ok && follow_ups then [SpawnFetchNic nodeUUID; SpawnRepublishConfig nodeUUID] else [])
  | CallStop nodeUUID => (StopMonitoring nodeUUID m, [])
  | CallFetchNic nodeUUID => (m, [SpawnFetchNic nodeUUID])
  end.
Fixpoint run_mgr {D : NodeDial} (l : list mgr_call) (m : NodeMonitorManager) : NodeMonitorManager * list spawned :=
  match l with
  | [] => (m, [])
  | c :: l => let '(m, s1) := run_call c m in let '(m, s2) := run_mgr l m in (m, (s1 ++ s2)%list)
  end.

(** ** The handlers *)

(** A reply, an error, or the panic of a closure, which takes the process
    down. *)
Inductive node_reply :=
| RegisterReply (success : bool) (message : string)
| EmptyReply
| NodeError (message : string)
| NodePanic.
#[export] Instance node_reply_eq_dec : EqDecision node_reply.
Proof. solve_decision. Defined.

Definition afterNodeRegistered (nodeUUID nodeIP : string) (grpcPort : Z) : list mgr_call :=
  [CallStart nodeUUID nodeIP grpcPort true].
Definition RegisterNode (req : NodeRegisterRequest) : prog (node_reply * list mgr_call) :=
  if String.eqb (rg_NodeUuid req) "" then Ret (RegisterReply false "node_uuid is required", [])
  else
    do! now := call ENow in
    do! r := CAS (node_key (rg_NodeUuid req)) (registerNodeCASValue req (unix_of now)) in
    Ret (match r with
         | Err _ => (RegisterReply false "Failed to register node", [])
         | Ok _ => (RegisterReply true "Node registered successfully",
                    afterNodeRegistered (rg_NodeUuid req) (rg_Ip req) (rg_GrpcPort req))
         end).

Definition UnregisterNode (req : NodeRegisterRequest) : prog (node_reply * list mgr_call) :=
  if String.eqb (rg_NodeUuid req) "" then Ret (NodeError "node_uuid is required", [])
  else
    do! resp := call (EGet (node_key (rg_NodeUuid req))) in
    match resp with
    | Err _ => Ret (NodeError "failed to check node registration", [])
    | Ok None => Ret (NodeError "node not registered", [])
    | Ok (Some _) =>
        do! del := call (EDelete (node_key (rg_NodeUuid req))) in
        Ret (match del with Err _ => NodeError "failed to unregister node" | Ok _ => EmptyReply end,
             [CallStop (rg_NodeUuid req)])
    end.

(** The replies [ReportShutdown] and [Heartbeat] give for a failed [CAS]. *)
Definition cas_error_reply (e : caserr nodeerr) : node_reply :=
  match e with
  | CasMutate errNodeNotRegistered => NodeError "node not registered"
  | CasMutate errInvalidNodeData => NodeError "failed to process node data"
  | CasMutate NilMapPanic => NodePanic
  | _ => NodeError "failed to update node data"
  end.

Definition ReportShutdown (nodeUuid : string) : prog (node_reply * list mgr_call) :=
  if String.eqb nodeUuid "" then Ret (NodeError "node_uuid is required", [])
  else
    do! now := call ENow in
    do! r := CAS (node_key nodeUuid) (shutdownNodeCASValue (unix_of now)) in
    Ret (match r with Err e => (cas_error_reply e, []) | Ok _ => (EmptyReply, [CallStop nodeUuid]) end).

(** The calls of a heartbeat, from the map it stored. *)
Definition heartbeat_calls (req : NodeHeartbeat) (nodeData : list (string * any)) : list mgr_call :=
  let nodeIP := if String.eqb (hb_Ip req) "" then string_at "node_ip" nodeData else hb_Ip req in
  ((if String.eqb nodeIP "" then [] else [CallStart (hb_NodeUuid req) nodeIP (port_at nodeData) false]) ++
   match kget "nic_model_wan" nodeData with Some _ => [] | None => [CallFetchNic (hb_NodeUuid req)] end)%list.
Definition Heartbeat (req : NodeHeartbeat) : prog (node_reply * list mgr_call) :=
  if String.eqb (hb_NodeUuid req) "" then Ret (NodeError "node_uuid is required", [])
  else
    do! now := call ENow in
    do! r := CAS (node_key (hb_NodeUuid req)) (heartbeatNodeCASValue req (unix_of now)) in
    Ret (match r with
         | Err e => (cas_error_reply e, [])
         | Ok nodeData => (EmptyReply, heartbeat_calls req nodeData)
         end).

(** ** Stale nodes *)

Section stale.
(** [fmt.Sprintf("%v", nodeUUID)] of a value that is not a string. *)
Context (sprint_v : any -> string).
Definition sprint_uuid (v : any) : string := match v with AStr s => s | ANil => "<nil>" | _ => sprint_v v end.

(** The uuid of the monitor to stop: the stored one, or what follows "nodes/" in
    the key. *)
Definition stale_uuid (key : string) (nodeData : list (string * any)) : any :=
  match kget "node_uuid" nodeData with
  | None | Some ANil => if (6 <? String.length key)%nat then AStr (sdrop 6 key) else ANil
  | Some v => v
  end.
(** Whether the snapshot makes an entry a candidate. *)
Definition stale_candidate (currentTime : Z) (value : string) : option (list (string * any)) :=
  match unmarshal_map value with
  | None => None
  | Some decoded =>
      let nodeData := default [] decoded in
      letopt lastSeenTime := last_seen nodeData in
      if HeartbeatTimeout <? wrap64 (currentTime - lastSeenTime)
      then if String.eqb (string_at "status" nodeData) "inactive" then None else Some nodeData
      else None
  end.
(** Every failure of the [CAS] is logged and skipped. *)
Fixpoint stale_loop (currentTime : Z) (kvs : list (string * kv)) (calls : list mgr_call) : prog (list mgr_call) :=
  match kvs with
  | [] => Ret calls
  | (key, e) :: kvs =>
      match stale_candidate currentTime (kv_value e) with
      | None => stale_loop currentTime kvs calls
      | Some nodeData =>
          do! r := CAS key (staleNodeCASValue currentTime) in
          match r with
          | Ok _ => stale_loop currentTime kvs (calls ++ [CallStop (sprint_uuid (stale_uuid key nodeData))])%list
          | Err _ => stale_loop currentTime kvs calls
          end
      end
  end.
Definition checkAndUnregisterStaleNodes : prog (list mgr_call) :=
  do! resp := call (ERange nodeKeyPrefix) in
  match resp with
  | Err _ => Ret []
  | Ok (kvs, _) => do! now := call ENow in stale_loop (unix_of now) kvs []
  end.
(** One tick of [monitorStaleNodes]. *)
Definition monitorStaleNodes_tick (m : NodeMonitorManager) : prog (list mgr_call) :=
  if negb (IsLeader m) then Ret [] else checkAndUnregisterStaleNodes.
End stale.
