(* ===== verification/NodeProps.v ===== *)
(** * What the node service guarantees

    A node's entry as a state machine: which states the closures lead to, that
    the handlers only take such steps, and that eviction only happens to nodes
    that are stale at the commit. *)

From S2P Require Import Prelude GoStrings Json JsonNormal Decode GoTime ConfigDoc Etcd Db Effects Cas Storage Hoare Amaps NodeMonitor NodeServer.
Local Open Scope string_scope.
Local Open Scope Z_scope.
Local Open Scope go_scope.

(** ** Entries *)

(** Texts of a request are valid UTF-8 (the protobuf decoder refuses others);
    the integers are those a [float64] holds exactly, which a timestamp in
    seconds is for the next 285 million years. *)
Definition register_ok (req : NodeRegisterRequest) : bool :=
  forallb valid_utf8 [rg_NodeUuid req; rg_Ip req; rg_Version req; rg_Location req; rg_HostOs req]
  && exact_int (rg_GrpcPort req).
Definition heartbeat_ok (req : NodeHeartbeat) : bool :=
  forallb valid_utf8 [hb_NodeUuid req; hb_Ip req; hb_HostOs req] && exact_int (hb_UptimeTimestamp req).

(** The steps of one node's entry, at a time in seconds. *)
Inductive node_step (time : Z) (cur : option string) : option string -> Prop :=
| NodeRegister req now new :
    register_ok req = true -> registerNodeCASValue req time cur now = Ok (cas_put new, tt) -> node_step time cur (Some new)
| NodeBeat req now new m :
    heartbeat_ok req = true -> heartbeatNodeCASValue req time cur now = Ok (cas_put new, m) -> node_step time cur (Some new)
| NodeShutdown now new : shutdownNodeCASValue time cur now = Ok (cas_put new, tt) -> node_step time cur (Some new)
| NodeStale now new : staleNodeCASValue time cur now = Ok (cas_put new, tt) -> node_step time cur (Some new)
| NodeNic wan lan now new :
    valid_utf8 wan = true -> valid_utf8 lan = true ->
    nicModels_mutate wan lan cur now = Ok (cas_put new, tt) -> node_step time cur (Some new)
| NodeRemove : node_step time cur None.

Inductive node_reach : option string -> Prop :=
| ReachNone : node_reach None
| ReachStep time cur new : node_reach cur -> exact_int time = true -> node_step time cur new -> node_reach new.

(** Active without markers, or inactive with both. *)
Definition status_ok (m : list (string * any)) : Prop :=
  (kget "status" m = Some (AStr "active") /\ kget "inactive_at" m = None /\ kget "inactive_reason" m = None) \/
  (kget "status" m = Some (AStr "inactive") /\ (exists t, kget "inactive_at" m = Some t) /\
   exists reason, kget "inactive_reason" m = Some (AStr reason)).
Definition seen_ok (m : list (string * any)) : Prop :=
  exists t, kget "last_seen_time" m = Some (AInt t) \/ kget "last_seen_time" m = Some (ANum (FInt t)).
Definition entry_inv (m : list (string * any)) : Prop := plain_map m /\ status_ok m /\ seen_ok m.
Definition stored_inv (cur : option string) : Prop := forall v, cur = Some v -> exists m, v = marshal_map m /\ entry_inv m.

Ltac kget_simpl := repeat (rewrite ?kget_kset, ?kget_kdel; cbn [String.eqb Ascii.eqb Bool.eqb]).

Lemma entry_reread m : entry_inv m -> entry_inv (prod_map id reread <$> m).
Proof.
  intros (Hp & Hs & (t & Ht)). split_and!; [by apply plain_reread_map| |].
  - unfold status_ok in *. rewrite !kget_reread. destruct Hs as [(-> & -> & ->)|(-> & [x ->] & [r ->])]; [by left|].
    right. split_and!; [done|by exists (reread x)|by exists r].
  - exists t. rewrite kget_reread. destruct Ht as [-> | ->]; by right.
Qed.
(** What a closure finds in an entry that satisfies the invariant. *)
Lemma stored_map v : (exists m, v = marshal_map m /\ entry_inv m) ->
  exists m, unmarshal_map v = Some (Some m) /\ entry_inv m /\ is_Some (last_seen m).
Proof.
  intros (m & -> & Hm). exists (prod_map id reread <$> m). split_and!; [apply unmarshal_marshal_map, Hm|by apply entry_reread|].
  destruct Hm as (_ & _ & t & Ht). unfold last_seen. rewrite kget_reread. destruct Ht as [-> | ->]; by eexists.
Qed.
Lemma put_stored m : entry_inv m -> stored_inv (Some (marshal_map m)).
Proof. intros Hm v [= <-]. by exists m. Qed.

Lemma registered_inv existing req time :
  plain_map existing -> register_ok req = true -> exact_int time = true -> entry_inv (registered_map existing req time).
Proof.
  intros He Hr Ht. unfold register_ok in Hr. cbn [forallb] in Hr. bool_split.
  assert (Hcarry : forall k m, valid_utf8 k = true -> plain_map m -> plain_map (carry k existing m)).
  { intros k m Hk Hm. unfold carry. destruct (kget k existing) as [a|] eqn:Ea; [|done].
    apply plain_kset; [done|exact (plain_kget _ _ _ He Ea)|done]. }
  assert (Hkeep : forall k k' m, k <> k' -> kget k' (carry k existing m) = kget k' m).
  { intros k k' m Hne. unfold carry. destruct (kget k existing); [|done]. rewrite kget_kset.
    by destruct (String.eqb_spec k' k) as [->|]. }
  unfold registered_map. set (base := map_of _).
  set (m := if String.eqb (rg_HostOs req) "" then base else kset "host_os" (AStr (rg_HostOs req)) base).
  assert (Hb : plain_map base) by (subst base; unfold map_of; cbn [fold_left fst snd]; repeat apply plain_kset; done || apply plain_nil).
  assert (Hm : plain_map m) by (subst m; destruct (String.eqb _ _); [done|by apply plain_kset]).
  assert (Hg : forall k, k <> "host_os" -> kget k m = kget k base).
  { intros k Hne. subst m. destruct (String.eqb _ _); [done|]. rewrite kget_kset. by destruct (String.eqb_spec k "host_os"). }
  split_and!.
  - apply Hcarry, Hcarry; done.
  - left. rewrite !Hkeep, !Hg by done. subst base. unfold map_of. cbn [fold_left fst snd]. kget_simpl. done.
  - exists time. left. rewrite !Hkeep, !Hg by done. subst base. unfold map_of. cbn [fold_left fst snd]. by kget_simpl.
Qed.
Lemma heartbeat_inv req time m :
  plain_map m -> heartbeat_ok req = true -> exact_int time = true -> entry_inv (heartbeat_map req time m).
Proof.
  intros Hm Hr Ht. unfold heartbeat_ok in Hr. cbn [forallb] in Hr. bool_split. unfold heartbeat_map.
  split_and!; destruct (String.eqb (hb_HostOs req) "");
    try (repeat first [apply plain_kset | apply plain_kdel]; done);
    try (left; kget_simpl; done); exists time; left; by kget_simpl.
Qed.
Lemma inactive_inv time reason m :
  plain_map m -> seen_ok m -> exact_int time = true -> valid_utf8 reason = true -> entry_inv (inactive_map time reason m).
Proof.
  intros Hm [t Hs] Ht Hr. unfold inactive_map. split_and!.
  - repeat apply plain_kset; done.
  - right. kget_simpl. split_and!; [done|by eexists|by eexists].
  - exists t. by kget_simpl.
Qed.
Lemma nic_inv wan lan m :
  entry_inv m -> valid_utf8 wan = true -> valid_utf8 lan = true ->
  entry_inv (kset "nic_model_lan" (AStr lan) (kset "nic_model_wan" (AStr wan) m)).
Proof.
  intros (Hp & Hs & Ht) Hw Hl. split_and!; [repeat apply plain_kset; done| |].
  - unfold status_ok. by kget_simpl.
  - unfold seen_ok. by kget_simpl.
Qed.

Lemma node_map_inv cur m : stored_inv cur -> node_map cur = Ok m -> entry_inv m.
Proof.
  intros Hi. unfold node_map. destruct cur as [v|]; [|done]. destruct (stored_map v (Hi v eq_refl)) as (m' & -> & Hm & _).
  by intros [= <-].
Qed.
Lemma put_value (m : list (string * any)) new : cas_put (marshal_map m) = cas_put new -> new = marshal_map m.
Proof. intros Hp. symmetry. exact (f_equal cas_value Hp). Qed.

Lemma node_step_inv time cur new : stored_inv cur -> exact_int time = true -> node_step time cur new -> stored_inv new.
Proof.
  intros Hi Ht [req now v Hr Hv|req now v m Hr Hv|now v Hv|now v Hv|wan lan now v Hw Hl Hv|].
  - apply Ok_inj, (f_equal fst), put_value in Hv as ->. apply put_stored, registered_inv; [|done..].
    destruct cur as [c|]; [|apply plain_nil]. destruct (stored_map c (Hi c eq_refl)) as (m & -> & Hm & _). apply Hm.
  - unfold heartbeatNodeCASValue in Hv. destruct (node_map cur) as [m0|] eqn:Em; [|done].
    apply Ok_inj, (f_equal fst), put_value in Hv as ->. apply put_stored, heartbeat_inv; [|done..]. by eapply node_map_inv.
  - unfold shutdownNodeCASValue in Hv. destruct (node_map cur) as [m0|] eqn:Em; [|done].
    apply Ok_inj, (f_equal fst), put_value in Hv as ->. destruct (node_map_inv _ _ Hi Em) as (Hp & _ & Hs).
    by apply put_stored, inactive_inv.
  - unfold staleNodeCASValue in Hv. destruct cur as [c|]; [|done]. destruct (stored_map c (Hi c eq_refl)) as (m & Em & (Hp & _ & Hs) & _).
    rewrite Em in Hv. simpl in Hv. destruct (last_seen m); [|done]. destruct (String.eqb _ _); [done|].
    destruct (_ <=? _); [done|]. apply Ok_inj, (f_equal fst), put_value in Hv as ->. by apply put_stored, inactive_inv.
  - unfold nicModels_mutate in Hv. destruct (node_map cur) as [m0|] eqn:Em; [|done].
    apply Ok_inj, (f_equal fst), put_value in Hv as ->. apply put_stored, nic_inv; [by eapply node_map_inv|done..].
  - by intros v [=].
Qed.

(** C14: in every state a node's entry can reach, it decodes, its status is active
    or inactive, the inactive markers are present exactly when it is inactive,
    and it has a time of last contact: no closure ever refuses it as invalid or
    panics on it. *)
Theorem node_entry_invariant cur v :
  node_reach cur -> cur = Some v ->
  exists m, node_map (Some v) = Ok m /\ status_ok m /\ is_Some (last_seen m) /\
    (string_at "status" m = "inactive" <-> kget "inactive_at" m <> None) /\
    (string_at "status" m = "inactive" <-> kget "inactive_reason" m <> None).
Proof.
  intros Hr ->. assert (Hi : stored_inv (Some v)).
  { remember (Some v) as cur eqn:E. clear v E.
    induction Hr as [|time cur new _ IH Ht Hs]; [by intros v [=]|]. by eapply node_step_inv. }
  destruct (stored_map v (Hi v eq_refl)) as (m & Em & (_ & Hs & _) & Ht). exists m. unfold node_map. rewrite Em.
  split_and!; [done|done|done| |]; unfold string_at;
    destruct Hs as [(E1 & E2 & E3)|(E1 & [x E2] & [r E3])]; rewrite E1, ?E2, ?E3; done.
Qed.

(** ** The handlers take such steps only *)

Inductive node_request :=
| ReqRegister (req : NodeRegisterRequest)
| ReqUnregister (req : NodeRegisterRequest)
| ReqHeartbeat (req : NodeHeartbeat)
| ReqShutdown (nodeUuid : string)
| ReqFetchNic (nodeUUID : string) (answers : nat -> statsAnswer)
| ReqStaleCheck.
Definition request_ok (r : node_request) : Prop :=
  match r with
  | ReqRegister req => register_ok req = true
  | ReqHeartbeat req => heartbeat_ok req = true
  | ReqFetchNic _ answers => forall n nics, answers n = Stats nics -> Forall (fun s => valid_utf8 s = true) nics
  | _ => True
  end.
(** The work of one request or background task on the entries. *)
Definition node_service (sprint_v : any -> string) (r : node_request) : prog (list mgr_call) :=
  match r with
  | ReqRegister req => do! r := RegisterNode req in Ret r.2
  | ReqUnregister req => do! r := UnregisterNode req in Ret r.2
  | ReqHeartbeat req => do! r := Heartbeat req in Ret r.2
  | ReqShutdown nodeUuid => do! r := ReportShutdown nodeUuid in Ret r.2
  | ReqFetchNic nodeUUID answers => do! _ := FetchInitialNicModel nodeUUID answers in Ret []
  | ReqStaleCheck => checkAndUnregisterStaleNodes sprint_v
  end.

Section service.
Context `{EtcdLaws E}.

Definition node_write (s : E) (o : etcdop) : Prop :=
  exists uuid time, match o with
    | OpPut k v => k = node_key uuid /\ node_step time (cas_current (et_get s k)) (Some v)
    | OpDelete k => k = node_key uuid
    end.

(** A closure that always puts, each time taking a step. *)
Lemma node_CAS {Y} uuid time (mutate : option string -> Z -> result nodeerr (CASResult * Y)) :
  (forall cur now res y, mutate cur now = Ok (res, y) ->
     exists v, res = cas_put v /\ node_step time cur (Some v)) ->
  writes_only node_write (CAS (node_key uuid) mutate).
Proof.
  intros Hm. apply writes_CAS. intros s now res y _ Hr. destruct (Hm _ _ _ _ Hr) as (v & -> & Hs).
  exists uuid, time. unfold cas_op. simpl. done.
Qed.

Lemma put_of (m : list (string * any)) {Y} (y y' : Y) res :
  @Ok nodeerr _ (cas_put (marshal_map m), y) = Ok (res, y') -> cas_put (marshal_map m) = res /\ y = y'.
Proof using Type. intros Hr. apply Ok_inj in Hr. split; [exact (f_equal fst Hr)|exact (f_equal snd Hr)]. Qed.

Lemma register_step req time cur now res y :
  register_ok req = true -> registerNodeCASValue req time cur now = Ok (res, y) ->
  exists v, res = cas_put v /\ node_step time cur (Some v).
Proof using Type.
  intros Hr Hm. pose proof Hm as Hp. unfold registerNodeCASValue in Hp. apply put_of in Hp as [<- <-].
  eexists. split; [done|]. by apply (NodeRegister _ _ req now).
Qed.
Lemma heartbeat_step req time cur now res y :
  heartbeat_ok req = true -> heartbeatNodeCASValue req time cur now = Ok (res, y) ->
  exists v, res = cas_put v /\ node_step time cur (Some v).
Proof using Type.
  intros Hr Hm. pose proof Hm as Hp. unfold heartbeatNodeCASValue in Hp. destruct (node_map cur); [|done].
  apply put_of in Hp as [<- <-]. eexists. split; [done|]. by apply (NodeBeat _ _ req now _ _ Hr Hm).
Qed.
Lemma shutdown_step time cur now res y :
  shutdownNodeCASValue time cur now = Ok (res, y) -> exists v, res = cas_put v /\ node_step time cur (Some v).
Proof using Type.
  intros Hm. pose proof Hm as Hp. unfold shutdownNodeCASValue in Hp. destruct (node_map cur); [|done].
  apply put_of in Hp as [<- <-]. eexists. split; [done|]. by apply (NodeShutdown _ _ now).
Qed.
Lemma stale_put time cur now res y :
  staleNodeCASValue time cur now = Ok (res, y) ->
  exists c nodeData last, cur = Some c /\ unmarshal_map c = Some nodeData /\ last_seen (default [] nodeData) = Some last /\
    string_at "status" (default [] nodeData) <> "inactive" /\ HeartbeatTimeout < wrap64 (time - last) /\
    res = cas_put (marshal_map (inactive_map time "heartbeat_timeout" (default [] nodeData))).
Proof using Type.
  unfold staleNodeCASValue. destruct cur as [c|]; [|done]. destruct (unmarshal_map c) as [m|] eqn:Em; [|done].
  destruct (last_seen (default [] m)) as [last|] eqn:El; [|done].
  destruct (String.eqb_spec (string_at "status" (default [] m)) "inactive"); [done|].
  destruct (Z.leb_spec (wrap64 (time - last)) HeartbeatTimeout); [done|]. intros Hp. apply put_of in Hp as [<- _].
  exists c, m, last. split_and!; done.
Qed.
Lemma stale_step time cur now res y :
  staleNodeCASValue time cur now = Ok (res, y) -> exists v, res = cas_put v /\ node_step time cur (Some v).
Proof using Type.
  intros Hm. destruct (stale_put _ _ _ _ _ Hm) as (c & m & last & _ & _ & _ & _ & _ & ->).
  eexists. split; [done|]. apply (NodeStale _ _ now). by destruct y.
Qed.
Lemma nic_step time wan lan cur now res y :
  valid_utf8 wan = true -> valid_utf8 lan = true ->
  nicModels_mutate wan lan cur now = Ok (res, y) -> exists v, res = cas_put v /\ node_step time cur (Some v).
Proof using Type.
  intros Hw Hl Hm. pose proof Hm as Hp. unfold nicModels_mutate in Hp. destruct (node_map cur); [|done].
  apply put_of in Hp as [<- <-]. eexists. split; [done|]. by apply (NodeNic _ _ wan lan now).
Qed.

(** *** NIC models *)

Lemma writeNic_writes n uuid wan lan :
  valid_utf8 wan = true -> valid_utf8 lan = true -> writes_only node_write (writeNicModels_loop n uuid wan lan).
Proof.
  intros Hw Hl. induction n as [|n IH]; cbn [writeNicModels_loop]; (apply writes_bind;
    [apply (node_CAS uuid 0); intros cur now res y; by apply nic_step|]); intros r; solve_writes; apply IH.
Qed.
Definition texts_valid (o : option (list string)) : Prop := forall nics, o = Some nics -> Forall (fun s => valid_utf8 s = true) nics.
Lemma fetch_stats_valid retries answers n :
  (forall n nics, answers n = Stats nics -> Forall (fun s => valid_utf8 s = true) nics) ->
  returns texts_valid (fetch_stats retries answers n).
Proof.
  intros Ha.
  assert (Hret : forall n nics, answers n = Stats nics -> returns texts_valid (Ret (Some nics)) (E:=E)).
  { intros m nics En. apply returns_ret. intros l [= <-]. by eapply Ha. }
  assert (Hnone : returns texts_valid (Ret None) (E:=E)) by by apply returns_ret.
  revert n. induction retries as [|k IH]; intros n; cbn [fetch_stats]; destruct (answers n) as [| |nics] eqn:En; eauto.
  - apply returns_ret. intros l [= <-]. constructor.
  - apply returns_bind. intros _. apply IH.
Qed.
Lemma fetch_stats_writes P retries answers n : writes_only P (fetch_stats retries answers n).
Proof. revert n. induction retries as [|k IH]; intros n; cbn [fetch_stats]; solve_writes; apply IH. Qed.
Lemma model_of_valid nics i : Forall (fun s => valid_utf8 s = true) nics -> valid_utf8 (model_of (nics !! i)) = true.
Proof.
  intros Hf. unfold model_of. destruct (nics !! i) as [s|] eqn:Es; [|done]. destruct (String.eqb s ""); [done|].
  by eapply Forall_lookup_1 in Hf.
Qed.
Lemma fetchNic_writes uuid answers :
  (forall n nics, answers n = Stats nics -> Forall (fun s => valid_utf8 s = true) nics) ->
  writes_only node_write (FetchInitialNicModel uuid answers).
Proof.
  intros Ha. apply (writes_bind_returns _ texts_valid); [by apply fetch_stats_valid|apply fetch_stats_writes|].
  intros [nics|] Hv; [|apply writes_ret]. specialize (Hv nics eq_refl).
  apply writes_bind; [apply writeNic_writes; by apply model_of_valid|]. intros r.
  solve_writes. all: apply writes_bind; [by apply writeNic_writes|intros ?; apply writes_ret].
Qed.

(** *** Stale nodes *)

Lemma stale_loop_writes sprint_v time kvs calls :
  Forall (fun e => has_prefix nodeKeyPrefix e.1 = true) kvs -> writes_only node_write (stale_loop sprint_v time kvs calls).
Proof.
  intros Hk. revert calls. induction Hk as [|[key e] kvs Hp _ IH]; intros calls; cbn [stale_loop]; [apply writes_ret|].
  destruct (stale_candidate _ _); [|apply IH]. apply has_prefix_iff in Hp as [uuid Hu]. simpl in Hu. subst key.
  apply writes_bind; [|intros []; apply IH]. apply (node_CAS uuid time). intros cur now res y. by apply stale_step.
Qed.
(** C25: the node service is the state machine: whatever request or background
    task runs, every write it makes is one step of the entry of one node, taken
    from the value that entry has at the commit. *)
Theorem node_service_steps sprint_v r : request_ok r -> writes_only node_write (node_service sprint_v r).
Proof.
  destruct r as [req|req|req|uuid|uuid answers|]; intros Hr; cbn [node_service].
  - apply writes_bind; [|intros ?; apply writes_ret]. unfold RegisterNode. apply writes_if; [apply writes_ret|].
    apply writes_bind; [apply writes_read; constructor|intros now].
    apply writes_bind; [|intros ?; apply writes_ret]. apply (node_CAS _ (unix_of now)). intros cur n res y. by apply register_step.
  - apply writes_bind; [|intros ?; apply writes_ret]. unfold UnregisterNode. solve_writes.
    apply writes_delete. intros s _. by exists (rg_NodeUuid req), 0.
  - apply writes_bind; [|intros ?; apply writes_ret]. unfold Heartbeat. apply writes_if; [apply writes_ret|].
    apply writes_bind; [apply writes_read; constructor|intros now].
    apply writes_bind; [|intros ?; apply writes_ret]. apply (node_CAS _ (unix_of now)). intros cur n res y. by apply heartbeat_step.
  - apply writes_bind; [|intros ?; apply writes_ret]. unfold ReportShutdown. apply writes_if; [apply writes_ret|].
    apply writes_bind; [apply writes_read; constructor|intros now].
    apply writes_bind; [|intros ?; apply writes_ret]. apply (node_CAS _ (unix_of now)). intros cur n res y. by apply shutdown_step.
  - apply writes_bind; [by apply fetchNic_writes|intros ?; apply writes_ret].
  - unfold checkAndUnregisterStaleNodes. eapply writes_bind_returns; [apply range_keys|apply writes_read; constructor|].
    intros [[kvs rev]|e] Hk; [|apply writes_ret]. apply writes_bind; [apply writes_read; constructor|intros now].
    by apply stale_loop_writes.
Qed.

(** *** Eviction *)

Lemma ensures_wf {A} (p : prog A) (w : world E) Q :
  world_wf w -> ensures p w (fun a w' => world_wf w' -> Q a w') -> ensures p w Q.
Proof. intros Hw Hq ts. by apply Hq, run_wf. Qed.

(** A write that marks an entry inactive which, in the store it is made on, is
    not inactive and was last seen more than a minute before [time]. *)
Definition evicted (time : Z) (so : E * etcdop) : Prop :=
  exists k c nodeData last, cas_current (et_get so.1 k) = Some c /\ unmarshal_map c = Some nodeData /\
    last_seen (default [] nodeData) = Some last /\ string_at "status" (default [] nodeData) <> "inactive" /\
    HeartbeatTimeout < wrap64 (time - last) /\
    so.2 = OpPut k (marshal_map (inactive_map time "heartbeat_timeout" (default [] nodeData))).
Definition evictions (time : Z) (w : world E) (before : nat) (calls : list mgr_call) (w' : world E) : Prop :=
  w_now w <= w_now w' /\ exists l, own_writes w' = (l ++ own_writes w)%list /\ Forall (evicted time) l /\
    (length calls <= before + length l)%nat.

Lemma evictions_step time w w1 w2 n calls so ws :
  own_writes w1 = (ws ++ own_writes w)%list -> Forall (evicted time) ws -> w_now w <= w_now w1 ->
  (so <= n + length ws)%nat -> evictions time w1 so calls w2 -> evictions time w n calls w2.
Proof using Type.
  intros Ho Hf Hn Hl (Hn2 & l & Ho2 & Hf2 & Hl2). split; [lia|]. exists (l ++ ws)%list.
  rewrite Ho2, Ho, app_assoc, length_app. split_and!; [done|by apply Forall_app|lia].
Qed.
Lemma stale_loop_evicts sprint_v time kvs calls (w : world E) :
  world_wf w -> ensures (stale_loop sprint_v time kvs calls) w (evictions time w (length calls)).
Proof.
  revert calls w. induction kvs as [|[key e] kvs IH]; intros calls w Hw; cbn [stale_loop].
  - apply ensures_ret. split; [lia|]. exists []. split_and!; [done|constructor|simpl; lia].
  - destruct (stale_candidate _ _) as [m|]; [|by apply IH]. apply ensures_bind, ensures_wf; [done|].
    apply ensures_CAS; [done|]. intros r w1 [x w2 Ho Hn _|w0 now res y r0 w2 Hd Hn Hm Ho _ Hr] Hw2.
    + eapply ensures_mono; [|by apply IH]. intros c w3. apply (evictions_step time w w2 w3 _ c _ []); [done|constructor|done|simpl; lia].
    + assert (Hev : evicted time (w_etcd w0, cas_op key res)).
      { destruct (stale_put _ _ _ _ _ Hm) as (c & m0 & last & Hc & Hu & Hl & Hs & Ht & ->). exists key, c, m0, last. done. }
      assert (Hws : own_writes w2 = ([(w_etcd w0, cas_op key res)] ++ own_writes w)%list) by done.
      destruct Hr as [-> | [x ->]]; (eapply ensures_mono; [|by apply IH]; intros c w3;
        apply (evictions_step time w w2 w3 _ c _ _ Hws); [by constructor|lia|rewrite ?length_app; simpl; lia]).
Qed.

(** C16: eviction is safe against concurrent heartbeats: whatever happens between
    the snapshot and the commits, an entry is only marked inactive when, in the
    very state the write replaces, it is not inactive and was last seen more than
    60 s before the check; and no monitor is stopped without such a commit. *)
Theorem eviction_only_stale sprint_v (w : world E) ts :
  world_wf w ->
  let calls := outcome (checkAndUnregisterStaleNodes sprint_v) w ts in
  let w' := final (checkAndUnregisterStaleNodes sprint_v) w ts in
  exists now l, w_now w <= now <= w_now w' /\ own_writes w' = (l ++ own_writes w)%list /\
    Forall (evicted (unix_of now)) l /\ (length calls <= length l)%nat.
Proof.
  intros Hw. revert ts. change (ensures (checkAndUnregisterStaleNodes sprint_v) w (fun calls w' =>
    exists now l, w_now w <= now <= w_now w' /\ own_writes w' = (l ++ own_writes w)%list /\
      Forall (evicted (unix_of now)) l /\ (length calls <= length l)%nat)).
  unfold checkAndUnregisterStaleNodes. apply ensures_bind, ensures_range.
  - intros w1 (D1 & D2 & D3 & D4). apply ensures_bind, ensures_now. intros w2 (F1 & F2 & F3 & F4).
    assert (Hw2 : world_wf w2).
    { destruct D1 as [l1 E1], F1 as [l2 E2]. unfold world_wf. rewrite E2, E1. by apply wf_envs, wf_envs. }
    eapply ensures_mono; [|by apply stale_loop_evicts]. intros calls w3 (Hn & l & Ho & Hf & Hl).
    exists (w_now w2), l. split_and!; [lia|lia|congruence|done|done].
  - intros w1 e (_ & _ & D3 & D4). apply ensures_ret. exists (w_now w), []. split_and!; [lia|lia|done|constructor|simpl; lia].
Qed.
End service.

(** ** A heartbeat without an address *)

(** A heartbeat that carries no address erases the stored one, and its
    fallback to the stored address never applies: it starts no monitor, and the
    node is no longer a republish target. *)
Theorem heartbeat_without_ip req time m key :
  hb_Ip req = "" ->
  string_at "node_ip" (heartbeat_map req time m) = "" /\
  (forall uuid ip port follow, CallStart uuid ip port follow ∉ heartbeat_calls req (heartbeat_map req time m)) /\
  (plain_map m -> heartbeat_ok req = true -> exact_int time = true ->
     parseRepublishTarget key (marshal_map (heartbeat_map req time m)) = None).
Proof.
  intros Hip.
  assert (Hs : kget "node_ip" (heartbeat_map req time m) = Some (AStr "")).
  { unfold heartbeat_map. rewrite Hip. destruct (String.eqb (hb_HostOs req) ""); by kget_simpl. }
  assert (Hstr : string_at "node_ip" (heartbeat_map req time m) = "") by (unfold string_at; by rewrite Hs).
  split; [done|]. split.
  - intros uuid ip port follow. unfold heartbeat_calls. rewrite Hip, Hstr. simpl.
    destruct (kget "nic_model_wan" _); [apply not_elem_of_nil|]. by rewrite list_elem_of_singleton.
  - intros Hm Hr Ht. unfold parseRepublishTarget. destruct (String.eqb _ ""); [done|].
    rewrite unmarshal_marshal_map by (by apply heartbeat_inv). cbv beta iota zeta. destruct (negb _); [done|].
    set (r := prod_map id reread <$> heartbeat_map req time m).
    assert (Hd : string_at "node_ip" (default [] (Some r)) = "").
    { unfold string_at. simpl. unfold r. by rewrite kget_reread, Hs. }
    by rewrite Hd.
Qed.

(** *** Witnesses *)

Definition register_n : NodeRegisterRequest := MkRegister "n" "10.0.0.1" "1.2" "lab" 50060 "".
Definition entry_at (time : Z) : string := marshal_map (registered_map [] register_n time).
Definition beat_n : NodeHeartbeat := MkHeartbeat "n" 77 "10.0.0.1" "".
Definition silent_n : NodeHeartbeat := MkHeartbeat "n" 77 "" "".
(** A node registered 100 seconds before the clock of the first world. *)
Definition stale_world : world mem :=
  World (et_put mem_empty "nodes/n" (entry_at (1740000000 - 100))) db_empty (1740000000 * second) false [].
Lemma stale_world_wf : world_wf stale_world.
Proof. apply (wf_put (E := mem)), mem_empty_wf. Qed.
Definition value_of (k : string) (w : world mem) : option string := kv_value <$> et_get (w_etcd w) k.
Definition no_print (v : any) : string := "".

Lemma node_entry_invariant_witness :
  node_reach (Some (entry_at 1740000000)) /\
  exists m, node_map (Some (entry_at 1740000000)) = Ok m /\ status_ok m /\ is_Some (last_seen m) /\
    (string_at "status" m = "inactive" <-> kget "inactive_at" m <> None) /\
    (string_at "status" m = "inactive" <-> kget "inactive_reason" m <> None).
Proof.
  assert (Hr : node_reach (Some (entry_at 1740000000))).
  { apply (ReachStep 1740000000 None); [apply ReachNone|reflexivity|].
    apply (NodeRegister _ _ register_n 0); [reflexivity|vm_compute; reflexivity]. }
  split; [exact Hr|]. exact (node_entry_invariant _ _ Hr eq_refl).
Defined.
Lemma node_service_steps_witness :
  request_ok (ReqRegister register_n) /\ writes_only (E := mem) node_write (node_service no_print (ReqRegister register_n)).
Proof. split; [reflexivity|]. apply (node_service_steps (E := mem) no_print (ReqRegister register_n)). reflexivity. Defined.
Lemma eviction_only_stale_witness :
  world_wf stale_world /\
  let calls := outcome (checkAndUnregisterStaleNodes no_print) stale_world [] in
  let w' := final (checkAndUnregisterStaleNodes no_print) stale_world [] in
  exists now l, w_now stale_world <= now <= w_now w' /\ own_writes w' = (l ++ own_writes stale_world)%list /\
    Forall (evicted (unix_of now)) l /\ (length calls <= length l)%nat.
Proof. split; [exact stale_world_wf|]. exact (eviction_only_stale no_print stale_world [] stale_world_wf). Defined.
Lemma heartbeat_without_ip_witness :
  hb_Ip silent_n = "" /\
  string_at "node_ip" (heartbeat_map silent_n 5 []) = "" /\
  (forall uuid ip port follow, CallStart uuid ip port follow ∉ heartbeat_calls silent_n (heartbeat_map silent_n 5 [])) /\
  (plain_map [] -> heartbeat_ok silent_n = true -> exact_int 5 = true ->
     parseRepublishTarget "nodes/n" (marshal_map (heartbeat_map silent_n 5 [])) = None).
Proof. split; [reflexivity|]. apply (heartbeat_without_ip silent_n 5 [] "nodes/n"). reflexivity. Defined.

(** The stale node is marked, and its monitor stopped; with a heartbeat arriving
    between the snapshot and the commit it is left alone. *)
Example stale_node_marked :
  outcome (checkAndUnregisterStaleNodes no_print) stale_world [] = [CallStop "n"] /\
  value_of "nodes/n" (final (checkAndUnregisterStaleNodes no_print) stale_world []) =
    Some (marshal_map (inactive_map 1740000000 "heartbeat_timeout" (registered_map [] register_n (1740000000 - 100)))).
Proof. vm_compute. done. Qed.
Example heartbeat_wins :
  let ts := [quiet; quiet; busy [EvPut "nodes/n" (entry_at 1740000000)]] in
  outcome (checkAndUnregisterStaleNodes no_print) stale_world ts = [] /\
  value_of "nodes/n" (final (checkAndUnregisterStaleNodes no_print) stale_world ts) = Some (entry_at 1740000000).
Proof. vm_compute. done. Qed.
(** The four calls on the stale node. *)
Example node_calls :
  outcome (Heartbeat beat_n) stale_world [] =
    (EmptyReply, [CallStart "n" "10.0.0.1" 50060 false; CallFetchNic "n"]) /\
  outcome (Heartbeat (MkHeartbeat "m" 1 "" "")) stale_world [] = (NodeError "node not registered", []) /\
  outcome (ReportShutdown "n") stale_world [] = (EmptyReply, [CallStop "n"]) /\
  outcome (RegisterNode register_n) stale_world [] =
    (RegisterReply true "Node registered successfully", [CallStart "n" "10.0.0.1" 50060 true]).
Proof. vm_compute. done. Qed.
(** An entry another client replaced by [null] makes a heartbeat panic. *)
Example null_entry_panics :
  outcome (Heartbeat beat_n) stale_world [busy [EvPut "nodes/n" "null"]] = (NodePanic, []).
Proof. vm_compute. done. Qed.
