(* ===== verification/Startup.v ===== *)
(** * Start-up and leadership

    The shared signing secret ([server/jwt_secret.go]), the connection to
    PostgreSQL with its migrations ([db/db.go]) and the election loop
    ([leader/leader.go]) with the leader flag [main.go] keeps. *)

From S2P Require Import Prelude GoStrings GoTime Etcd Db Effects Cas Storage Hoare.
Local Open Scope string_scope.
Local Open Scope Z_scope.
Local Open Scope go_scope.

(** ** The signing secret *)

Definition jwtSecretEtcdKey : string := "auth/jwt_secret".
Inductive secreterr := SecretRead (e : eerr) | SecretRandom | SecretStore (e : eerr) | SecretReadAgain (e : eerr) | SecretGone.

(** [secret] is the environment's JWT_SECRET, [random] the base64 text of 32
    random bytes, [None] when the source fails. *)
Definition ResolveJWTSecret (secret : string) (random : option string) : prog (result secreterr string) :=
  if negb (String.eqb secret "") then Ret (Ok secret)
  else
    do! resp := call (EGet jwtSecretEtcdKey) in
    match resp with
    | Err e => Ret (Err (SecretRead e))
    | Ok (Some e) => Ret (Ok (kv_value e))
    | Ok None =>
        match random with
        | None => Ret (Err SecretRandom)
        | Some candidate =>
            do! txnResp := call (ETxn (Version0 jwtSecretEtcdKey) (OpPut jwtSecretEtcdKey candidate)) in
            match txnResp with
            | Err e => Ret (Err (SecretStore e))
            | Ok true => Ret (Ok candidate)
            | Ok false =>
                do! resp := call (EGet jwtSecretEtcdKey) in
                Ret (match resp with
                     | Err e => Err (SecretReadAgain e)
                     | Ok None => Err SecretGone
                     | Ok (Some e) => Ok (kv_value e)
                     end)
            end
        end
    end.

Section secret.
Context `{EtcdLaws E}.

(** C32: replicas agree on the signing secret: without JWT_SECRET, the secret a
    process resolves is the one stored at that moment, whoever stored it, and the
    process writes at most once and only where no secret was; so a secret, once
    stored, is never replaced by a starting replica. *)
Theorem ResolveJWTSecret_agrees random (w : world E) ts :
  world_wf w ->
  let r := outcome (ResolveJWTSecret "" random) w ts in
  let w' := final (ResolveJWTSecret "" random) w ts in
  (forall s, r = Ok s -> exists e, et_get (w_etcd w') jwtSecretEtcdKey = Some e /\ kv_value e = s) /\
  exists l, own_writes w' = (l ++ own_writes w)%list /\ (length l <= 1)%nat /\
    Forall (fun so => et_get so.1 jwtSecretEtcdKey = None /\ exists candidate, random = Some candidate /\
                      so.2 = OpPut jwtSecretEtcdKey candidate) l.
Proof.
  intros Hw. revert ts. set (Q := fun (r : result secreterr string) (w' : world E) =>
    (forall s, r = Ok s -> exists e, et_get (w_etcd w') jwtSecretEtcdKey = Some e /\ kv_value e = s) /\
    exists l, own_writes w' = (l ++ own_writes w)%list /\ (length l <= 1)%nat /\
      Forall (fun so => et_get so.1 jwtSecretEtcdKey = None /\ exists candidate, random = Some candidate /\
                        so.2 = OpPut jwtSecretEtcdKey candidate) l).
  change (ensures (ResolveJWTSecret "" random) w Q). unfold ResolveJWTSecret. simpl negb. cbv iota.
  assert (Hnone : forall w1, drift w w1 -> exists l, own_writes w1 = (l ++ own_writes w)%list /\ (length l <= 1)%nat /\
      Forall (fun so => et_get so.1 jwtSecretEtcdKey = None /\ exists candidate, random = Some candidate /\
                        so.2 = OpPut jwtSecretEtcdKey candidate) l).
  { intros w1 (_ & _ & _ & Ho). exists []. split_and!; [done|simpl; lia|constructor]. }
  assert (Herr : forall w1 e, drift w w1 -> Q (Err e) w1) by (intros w1 e D; split; [done|by apply Hnone]).
  apply ensures_bind, ensures_get; [|intros w1 e D; by apply ensures_ret, Herr].
  intros w1 D1. destruct (et_get (w_etcd w1) jwtSecretEtcdKey) as [e|] eqn:E1.
  { apply ensures_ret. split; [intros s [= <-]; by exists e|by apply Hnone]. }
  destruct random as [candidate|]; [|by apply ensures_ret, Herr]. apply ensures_bind, ensures_txn.
  - intros w2 D2 Hg. cbn [check] in Hg. destruct (et_get (w_etcd w2) jwtSecretEtcdKey) eqn:E2; [done|].
    assert (Hw2 : et_wf (w_etcd w2)) by exact (drift_wf _ _ D2 (drift_wf _ _ D1 Hw)).
    assert (Hown : exists l, own_writes (with_etcd w2 (et_put (w_etcd w2) jwtSecretEtcdKey candidate)
        (ATxn (w_etcd w2) (Version0 jwtSecretEtcdKey) (OpPut jwtSecretEtcdKey candidate))) = (l ++ own_writes w)%list /\
        (length l <= 1)%nat /\ Forall (fun so => et_get so.1 jwtSecretEtcdKey = None /\
          exists c, Some candidate = Some c /\ so.2 = OpPut jwtSecretEtcdKey c) l).
    { exists [(w_etcd w2, OpPut jwtSecretEtcdKey candidate)]. destruct D1 as (_ & _ & _ & Ho1), D2 as (_ & _ & _ & Ho2).
      rewrite <-Ho1, <-Ho2. split_and!; [done|simpl; lia|]. repeat constructor; [done|by exists candidate]. }
    split; [|intros e; apply ensures_ret; by split].
    apply ensures_ret. split; [|done]. intros s [= <-]. simpl. rewrite get_put_same by done. rewrite E2. by eexists.
  - intros w2 D2 _. apply ensures_bind, ensures_get.
    + intros w3 D3. apply ensures_ret. assert (D : drift w w3) by (etransitivity; [exact D1|]; by transitivity w2).
      split; [|by apply Hnone]. intros s. destruct (et_get (w_etcd w3) jwtSecretEtcdKey) as [e|]; [|done].
      intros [= <-]. by exists e.
    + intros w3 e D3. apply ensures_ret, Herr. etransitivity; [exact D1|]. by transitivity w2.
  - intros w2 e D2. apply ensures_ret, Herr. by transitivity w1.
Qed.
End secret.

Lemma ResolveJWTSecret_agrees_witness :
  world_wf world0 /\
  let r := outcome (ResolveJWTSecret "" (Some "c2VjcmV0")) world0 [] in
  let w' := final (ResolveJWTSecret "" (Some "c2VjcmV0")) world0 [] in
  (forall s, r = Ok s -> exists e, et_get (w_etcd w') jwtSecretEtcdKey = Some e /\ kv_value e = s) /\
  exists l, own_writes w' = (l ++ own_writes world0)%list /\ (length l <= 1)%nat /\
    Forall (fun so => et_get so.1 jwtSecretEtcdKey = None /\ exists candidate, Some "c2VjcmV0" = Some candidate /\
                      so.2 = OpPut jwtSecretEtcdKey candidate) l.
Proof. split; [exact world0_wf|]. exact (ResolveJWTSecret_agrees (Some "c2VjcmV0") world0 [] world0_wf). Defined.
(** The loser of the race adopts the winner's secret. *)
Example secret_race :
  outcome (ResolveJWTSecret "" (Some "mine")) world0 [quiet; busy [EvPut jwtSecretEtcdKey "theirs"]] = Ok "theirs".
Proof. vm_compute. done. Qed.

(** ** PostgreSQL *)

Definition connectRetryInitialDelay : Z := 2 * second.
Definition connectRetryMaxDelay : Z := 30 * second.
(** How the loop ends up: it published the database, or stopped with the
    context; [Connecting] when the given attempts are used up. *)
Inductive connected := Published | Stopped | Connecting.
(** One entry per call of [New]: did it succeed? *)
Fixpoint ConnectLoop (delay : Z) (attempts : list bool) : prog connected :=
  match attempts with
  | [] => Ret Connecting
  | ok :: attempts =>
      do! cancelled := call ECtx in
      if cancelled : bool then Ret Stopped
      else if ok : bool then Ret Published
      else
        do! ended := call (ESleep delay false) in
        if ended : bool then Ret Stopped else ConnectLoop (Z.min (delay * 2) connectRetryMaxDelay) attempts
  end.

(** [sort.Strings] *)
Fixpoint insert_name (x : string) (l : list string) : list string :=
  match l with
  | [] => [x]
  | y :: l' => if String.leb x y then x :: l else y :: insert_name x l'
  end.
Definition sort_names (l : list string) : list string := foldr insert_name [] l.
Definition has_suffix (suffix s : string) : bool :=
  let n := (String.length s - String.length suffix)%nat in
  (String.length suffix <=? String.length s)%nat && String.eqb (Json.sdrop n s) suffix.
Definition migration_names (entries : list (string * bool)) : list string :=
  sort_names ((List.filter (fun e => negb e.2 && has_suffix ".sql" e.1) entries).*1).
(** [applied] are the rows of [schema_migrations], [run name] tells whether the
    transaction of a file commits.  Returns the rows afterwards and whether there
    was no error. *)
Fixpoint migrate_loop (run_sql : string -> bool) (names applied : list string) : list string * bool :=
  match names with
  | [] => (applied, true)
  | name :: names =>
      if bool_decide (name ∈ applied) then migrate_loop run_sql names applied
      else if run_sql name then migrate_loop run_sql names (applied ++ [name])%list
      else (applied, false)
  end.
(** The advisory lock makes the migrations of several replicas follow one
    another. *)
Definition migrate (run_sql : string -> bool) (entries : list (string * bool)) (applied : list string) : list string * bool :=
  migrate_loop run_sql (migration_names entries) applied.

Lemma migrate_loop_inv run_sql names applied :
  exists fresh, (migrate_loop run_sql names applied).1 = (applied ++ fresh)%list /\
    (NoDup applied -> NoDup (applied ++ fresh)%list) /\ fresh `sublist_of` names /\
    ((migrate_loop run_sql names applied).2 = true -> forall n, n ∈ names -> n ∈ (applied ++ fresh)%list).
Proof.
  revert applied. induction names as [|name names IH]; intros applied; cbn [migrate_loop].
  - exists []. rewrite app_nil_r. split_and!; [done|done|constructor|]. intros _ n Hn. by apply not_elem_of_nil in Hn.
  - destruct (bool_decide (name ∈ applied)) eqn:E.
    + apply bool_decide_eq_true in E. destruct (IH applied) as (fresh & H1 & H2 & H3 & H4). exists fresh.
      split_and!; [done|done|by constructor|]. intros Hok n [->|Hn]%elem_of_cons; [apply elem_of_app; by left|by apply H4].
    + apply bool_decide_eq_false in E. destruct (run_sql name).
      * destruct (IH (applied ++ [name])%list) as (fresh & H1 & H2 & H3 & H4). exists (name :: fresh).
        rewrite H1. rewrite <-!app_assoc in *. cbn [app] in *. split_and!; [done| |by constructor|].
        -- intros Hn. apply H2. apply NoDup_app. split_and!; [done| |by apply NoDup_singleton].
           intros x Hx Hin%list_elem_of_singleton. congruence.
        -- intros Hok n [->|Hn]%elem_of_cons; [apply elem_of_app; right; by left|].
           exact (H4 Hok n Hn).
      * exists []. rewrite app_nil_r. split_and!; [done|done|apply sublist_nil_l|done].
Qed.
(** No file is applied twice, new ones in file-name order, and a run after a
    successful one applies nothing. *)
Lemma migrate_once run_sql entries applied :
  NoDup applied ->
  let '(applied', ok) := migrate run_sql entries applied in
  NoDup applied' /\ (exists fresh, applied' = (applied ++ fresh)%list /\ fresh `sublist_of` migration_names entries) /\
  (ok = true -> forall run_sql', migrate run_sql' entries applied' = (applied', true)).
Proof.
  intros Hn. destruct (migrate run_sql entries applied) as [applied' ok] eqn:E. unfold migrate in E.
  destruct (migrate_loop_inv run_sql (migration_names entries) applied) as (fresh & H1 & H2 & H3 & H4). rewrite E in *. simpl in *. subst applied'.
  split; [by apply H2|]. split; [by exists fresh|]. intros Hok run_sql'. unfold migrate. specialize (H4 Hok). revert H4.
  generalize (migration_names entries). intros names. clear. induction names as [|n names IH]; intros Hin; cbn [migrate_loop]; [done|].
  rewrite bool_decide_eq_true_2 by (apply Hin; by left). apply IH. intros x Hx. apply Hin. by right.
Qed.

(** ** Leadership *)

(** One round of [runOnce]: the session or the campaign fails, or the process
    leads for a while. *)
Inductive round := SessionFailed | CampaignFailed | Led.
Definition runOnce (r : round) : bool := match r with Led => true | _ => false end.
(** The elections won. *)
Fixpoint leader_Run (rounds : list round) : prog nat :=
  do! cancelled := call ECtx in
  if cancelled : bool then Ret 0%nat
  else match rounds with
       | [] => Ret 0%nat
       | r :: rounds =>
           if runOnce r then do! n := leader_Run rounds in Ret (S n)
           else do! _ := call (ESleep (3 * second) false) in leader_Run rounds
       end.

(** The flag of [main.go]: set when elected; when a term ends, a goroutine of
    that term clears it, whenever it gets to run. *)
Record leadership := MkLeadership { l_flag : bool; l_term : bool; l_clearing : nat }.
Inductive leader_step : leadership -> leadership -> Prop :=
| Elected flag n : leader_step (MkLeadership flag false n) (MkLeadership true true n)
| TermEnded flag n : leader_step (MkLeadership flag true n) (MkLeadership flag false (S n))
| FlagCleared flag t n : leader_step (MkLeadership flag t (S n)) (MkLeadership false t n).

(** Once the clearing goroutines of past terms have run, and if they ran before
    the next election, the flag says whether the process leads. *)
Definition prompt_step (a b : leadership) : Prop :=
  leader_step a b /\ (l_term a = false -> l_term b = true -> l_clearing a = 0%nat).
Lemma prompt_flag a : relations.rtc prompt_step (MkLeadership false false 0) a -> l_clearing a = 0%nat -> l_flag a = l_term a.
Proof.
  intros Hr. assert (Hinv : (l_term a = true -> l_flag a = true /\ l_clearing a = 0%nat) /\
    (l_clearing a = 0%nat -> l_flag a = l_term a)); [|by apply Hinv].
  assert (H0 : (l_term (MkLeadership false false 0) = true -> l_flag (MkLeadership false false 0) = true /\ l_clearing (MkLeadership false false 0) = 0%nat) /\
    (l_clearing (MkLeadership false false 0) = 0%nat -> l_flag (MkLeadership false false 0) = l_term (MkLeadership false false 0))) by done.
  revert H0. induction Hr as [x|x y z [Hs Hp] _ IH]; [done|]. intros [H1 H2]. apply IH. clear IH.
  destruct Hs as [flag n|flag n|flag t n]; simpl in *.
  - by rewrite (Hp eq_refl eq_refl).
  - done.
  - split; [intros Ht; by destruct (H1 Ht)|]. intros _. destruct t; [by destruct (H1 eq_refl)|done].
Qed.
(** A clearing that comes after the next election leaves a leader whose flag says
    it does not lead. *)
Example late_clearing :
  relations.rtc leader_step (MkLeadership false false 0) (MkLeadership false true 0).
Proof.
  eapply relations.rtc_l; [apply Elected|]. eapply relations.rtc_l; [apply TermEnded|].
  eapply relations.rtc_l; [apply Elected|]. eapply relations.rtc_l; [apply FlagCleared|]. apply relations.rtc_refl.
Qed.
