(* ===== verification/HttpFront.v ===== *)
(** * The HTTP front ([internal/server/rest_server.go], [log_server.go])

    From a request line to a handler: the route table of [newRouter], the
    security headers, the answers for unmatched paths, the log router, the
    redirect from HTTP, and the process-local signing secret.  Finding the route
    of a path is gin's: the class [GinTree] is its documented rule. *)

From S2P Require Import Prelude GoStrings Json Decode Validation Etcd Db Events Effects Cas HsiConfig Storage Auth LiveQueries RestServer.
Local Open Scope string_scope.
Local Open Scope Z_scope.
Local Open Scope go_scope.

(** ** Path patterns *)

Inductive segment := Lit (s : string) | Par (name : string) | All (name : string).
#[export] Instance segment_eq_dec : EqDecision segment.
Proof. solve_decision. Defined.
Definition segment_of (s : string) : segment :=
  match s with
  | String ":" name => Par name
  | String "*" name => All name
  | _ => Lit s
  end.
Definition segments (pattern : string) : list segment := segment_of <$> split_on "/" pattern.

(** The parameters of a path under a pattern: a parameter takes one segment, a
    catch-all the rest with its slash. *)
Fixpoint match_segs (pat : list segment) (path : list string) : option (list (string * string)) :=
  match pat, path with
  | [], [] => Some []
  | All name :: _, _ :: _ => Some [(name, "/" +:+ join_with "/" path)]
  | Lit s :: pat, w :: path => if String.eqb s w then match_segs pat path else None
  | Par name :: pat, w :: path => letopt ps := match_segs pat path in Some ((name, w) :: ps)
  | _, _ => None
  end.
Definition match_path (pattern path : string) : option (list (string * string)) :=
  match_segs (segments pattern) (split_on "/" path).

(** Patterns are compared segment by segment: a literal comes before a
    parameter, a parameter before a catch-all. *)
Definition seg_rank (s : segment) : nat := match s with Lit _ => 0 | Par _ => 1 | All _ => 2 end.
Fixpoint lex_lt (a b : list nat) : bool :=
  match a, b with
  | x :: a, y :: b => (x <? y)%nat || ((x =? y)%nat && lex_lt a b)
  | [], _ :: _ => true
  | _, [] => false
  end.
Definition preferred (p q : string) : bool := lex_lt (seg_rank <$> segments p) (seg_rank <$> segments q).

(** What the router answers for a path: a registered route, a redirect to the
    same path with or without a trailing slash, or nothing. *)
Inductive found := Matched (i : nat) (params : list (string * string)) | SlashRedirect | Unmatched.
Class GinTree := find_route : list (string * string) -> string -> string -> found.
Definition no_empty (params : list (string * string)) : bool := forallb (fun p => negb (String.eqb p.2 "")) params.
Definition matches (table : list (string * string)) (method path : string) (i : nat) (params : list (string * string)) : Prop :=
  exists pattern, table !! i = Some (method, pattern) /\ match_path pattern path = Some params.
(** gin's documentation: a route found matches; of two that match, the one
    preferred is found; a path that matches a route with its parameters filled
    is found. *)
Class GinTreeLaws `{GinTree} : Prop := {
  found_matches table method path i params :
    find_route table method path = Matched i params -> matches table method path i params;
  found_first table method path i params j ps p q :
    find_route table method path = Matched i params -> matches table method path j ps -> no_empty ps = true ->
    table !! i = Some (method, p) -> table !! j = Some (method, q) -> preferred q p = false;
  found_some table method path i params :
    matches table method path i params -> no_empty params = true ->
    exists j ps, find_route table method path = Matched j ps }.

(** ** The route table *)

(** Which live query a route asks. *)
Inductive live_kind := KLease | KArp | KDnsCache | KPPPoE | KDhcpConfig.
Inductive target :=
| Api (auth : bool) (r : route)
| Live (k : live_kind)
| Swagger
| StaticFiles
| FaviconFile
| IndexFile.
Record endpoint := Endpoint { e_method : string; e_pattern : string; e_target : target }.

(** [api.GET(path, r.AuthMiddlewareWithBlacklist(), h)], and without it. *)
Definition guarded (method path : string) (r : route) : endpoint := Endpoint method ("/api" +:+ path) (Api true r).
Definition open_ (method path : string) (r : route) : endpoint := Endpoint method ("/api" +:+ path) (Api false r).
Definition live (path : string) (k : live_kind) : endpoint := Endpoint "GET" ("/api" +:+ path) (Live k).

Definition routes : list endpoint := [
  open_ "GET" "/health" GET_health;
  open_ "POST" "/login" POST_login;
  guarded "POST" "/logout" POST_logout;
  guarded "POST" "/verify-password" POST_verify_password;
  guarded "GET" "/nodes" GET_nodes;
  guarded "DELETE" "/nodes/inactive" DELETE_nodes_inactive;
  guarded "DELETE" "/nodes/:nodeId" DELETE_node;
  guarded "GET" "/nodes/:nodeId/subscriber-count" GET_subscriber_count;
  guarded "PUT" "/nodes/:nodeId/subscriber-count" PUT_subscriber_count;
  guarded "POST" "/users" POST_users;
  guarded "DELETE" "/users/:username" DELETE_user;
  guarded "GET" "/users" GET_users;
  guarded "GET" "/config/:nodeId/hsi/users" GET_hsi_users;
  guarded "GET" "/config/:nodeId/hsi/:userId" GET_hsi;
  guarded "POST" "/config/:nodeId/hsi" POST_hsi;
  guarded "PUT" "/config/:nodeId/hsi/:userId" PUT_hsi;
  guarded "DELETE" "/config/:nodeId/hsi/:userId" DELETE_hsi;
  guarded "POST" "/pppoe/dial" POST_dial;
  guarded "POST" "/pppoe/hangup" POST_hangup;
  guarded "GET" "/pppoe/status/:nodeId/:userId" GET_pppoe_status;
  live "/config/:nodeId/dhcp/lease/:userId" KLease;
  live "/config/:nodeId/arp/:userId" KArp;
  live "/config/:nodeId/dns-cache/:userId" KDnsCache;
  live "/config/:nodeId/pppoe/:userId" KPPPoE;
  live "/config/:nodeId/dhcp/:userId" KDhcpConfig;
  guarded "GET" "/config/:nodeId/dns/:userId" GET_dns_records;
  guarded "GET" "/config/:nodeId/dns/:userId/:domain" GET_dns_record;
  guarded "POST" "/config/:nodeId/dns/:userId" POST_dns;
  guarded "DELETE" "/config/:nodeId/dns/:userId/:domain" DELETE_dns;
  guarded "GET" "/failed-events" GET_all_events;
  guarded "DELETE" "/failed-events" DELETE_events;
  guarded "GET" "/failed-events/:nodeId" GET_events;
  Endpoint "GET" "/swagger/*any" Swagger;
  Endpoint "GET" "/static/*filepath" StaticFiles;
  Endpoint "HEAD" "/static/*filepath" StaticFiles;
  Endpoint "GET" "/favicon.ico" FaviconFile;
  Endpoint "HEAD" "/favicon.ico" FaviconFile;
  Endpoint "GET" "/" IndexFile ].
Definition table : list (string * string) := (fun e => (e_method e, e_pattern e)) <$> routes.

(** ** Serving *)

(** The decoded request line, the Authorization header, the body, and the
    [event_type] of the query string. *)
Record http_request := HttpRequest { Method : string; URL_Path : string; Header : string; Body : string; event_type_query : string }.
(** [c.Param] of an absent parameter is empty. *)
Definition param (name : string) (params : list (string * string)) : string :=
  match List.find (fun p => String.eqb p.1 name) params with Some p => p.2 | None => "" end.
Definition context_of (q : http_request) (params : list (string * string)) : Context :=
  MkContext (Header q) (Body q) (param "nodeId" params) (param "userId" params) (param "username" params)
    (param "domain" params) (event_type_query q).

Inductive content := ApiResponse (r : response) | SwaggerUI (any : string) | FileFrom (dir filepath : string) | File (path : string) | Redirected.
Definition security_headers : list (string * string) := [
  ("Strict-Transport-Security", "max-age=31536000; includeSubDomains");
  ("X-Content-Type-Options", "nosniff");
  ("X-Frame-Options", "DENY");
  ("X-XSS-Protection", "1; mode=block") ].
Definition NoRoute (path : string) : content :=
  if has_prefix "/api/" path then ApiResponse (fail_with StatusNotFound "Not found") else File "./web/build/index.html".

Section front.
Context {JW : Jwt} {BC : Bcrypt} {GN : Gin} {GT : GinTree}.
Context (jwtSecret : string) (database : bool) (salt : string).
Context (events_json : list (Z * NodeEventRow) -> json) (status_json : PPPoEStatusRow -> json).
(** What the monitor table and the node have to say to a live query. *)
Context (ask : live_kind -> Context -> option bool * live_query).

Definition chain : route -> Context -> prog response := newRouter jwtSecret database events_json status_json salt.
Definition serve_target (t : target) (q : http_request) (params : list (string * string)) : prog content :=
  match t with
  | Api _ r => do! resp := chain r (context_of q params) in Ret (ApiResponse resp)
  | Live k => let c := context_of q params in
              do! resp := chain (GET_live (ask k c).1 (ask k c).2) c in Ret (ApiResponse resp)
  | Swagger => Ret (SwaggerUI (param "any" params))
  | StaticFiles => Ret (FileFrom "./web/build/static" (param "filepath" params))
  | FaviconFile => Ret (File "./web/build/favicon.ico")
  | IndexFile => Ret (File "./web/build/index.html")
  end.
(** A slash redirect is written before any middleware runs. *)
Definition ServeHTTP (q : http_request) : prog (list (string * string) * content) :=
  match find_route table (Method q) (URL_Path q) with
  | SlashRedirect => Ret ([], Redirected)
  | Unmatched => Ret (security_headers, NoRoute (URL_Path q))
  | Matched i params =>
      match routes !! i with
      | Some e => do! body := serve_target (e_target e) q params in Ret (security_headers, body)
      | None => Ret (security_headers, NoRoute (URL_Path q))
      end
  end.

(** ** The log router *)

(** The log file at the time of the request. *)
Inductive log_file := LogMissing | LogStatFailed | LogContent (s : string).
Inductive log_answer := LogRefused (r : response) | LogText (code : Z) (s : string) | LogServed (s : string).
(** The token check also guards unmatched paths. *)
Definition NewLogRouter (file : log_file) (path header : string) : prog log_answer :=
  do! mw := AuthMiddlewareWithBlacklist jwtSecret (MkContext header "" "" "" "" "" "") in
  Ret (match mw with
       | Some r => LogRefused r
       | None =>
           if negb (String.eqb path "/") then LogText StatusNotFound "404 page not found"
           else match file with
                | LogMissing => LogText StatusNotFound "log file not found"
                | LogStatFailed => LogText StatusInternalServerError "failed to stat log file"
                | LogContent s => LogServed s
                end
       end).
End front.

(** ** HTTP to HTTPS *)

(** [len(host) > 5 && host[len(host)-5:] == port] *)
Definition ends_in_port (port host : string) : bool :=
  (5 <? String.length host)%nat && String.eqb (sdrop (String.length host - 5) host) port.
(** The location of the 301. *)
Definition RedirectToHTTPS (host requestURI : string) : string :=
  let host :=
    if ends_in_port ":8080" host then stake (String.length host - 5) host +:+ ":8443"
    else if ends_in_port ":8443" host then host
    else host +:+ ":8443" in
  "https://" +:+ host +:+ requestURI.

(** ** The process-local secret *)

(** [jwtSecretOnce] with [cachedJWTSecret]: [None] before the first call. *)
Definition GetJWTSecret (env_secret : string) (random : option string) (cached : option string) : string * option string :=
  match cached with
  | Some s => (s, cached)
  | None =>
      let s := if negb (String.eqb env_secret "") then env_secret
               else match random with None => "super-secret-key" | Some text => text end in
      (s, Some s)
  end.
(** The secret a [RestServer] is built with. *)
Definition NewRestServer_secret (jwtSecrets : list string) env_secret random cached : string * option string :=
  match jwtSecrets with
  | s :: _ => (s, cached)
  | [] => GetJWTSecret env_secret random cached
  end.
