(* ===== verification/FrontProps.v ===== *)
(** * What the HTTP front guarantees

    Every URL built from checked ids reaches its own handler; without a token no
    URL has an effect; and where paths and ids do not fit together. *)

From S2P Require Import Prelude GoStrings Json Decode Validation Etcd Db Events Effects Cas HsiConfig Storage Hoare Auth LiveQueries RestServer ApiDocs GrpcProps ApiProps AuthProps HttpFront.
Local Open Scope string_scope.
Local Open Scope Z_scope.
Local Open Scope go_scope.

(** ** Patterns *)

(** The path of a pattern under an assignment of its parameters. *)
Definition seg_value (ids : string -> string) (s : segment) : string :=
  match s with Lit w => w | Par name | All name => ids name end.
Definition url_of (pattern : string) (ids : string -> string) : string := join_with "/" (seg_value ids <$> segments pattern).
Fixpoint named (ids : string -> string) (pat : list segment) : list (string * string) :=
  match pat with
  | Par name :: pat => (name, ids name) :: named ids pat
  | _ :: pat => named ids pat
  | [] => []
  end.
Definition no_catch_all (pat : list segment) : bool := forallb (fun s => match s with All _ => false | _ => true end) pat.

Lemma match_filled ids pat : no_catch_all pat = true -> match_segs pat (seg_value ids <$> pat) = Some (named ids pat).
Proof.
  induction pat as [|[s|name|name] pat IH]; cbn [no_catch_all forallb fmap list_fmap match_segs seg_value named]; [done| | |done]; intros H.
  - by rewrite String.eqb_refl, IH.
  - by rewrite IH.
Qed.
Lemma segments_nonempty pattern : segments pattern <> [].
Proof. unfold segments. pose proof (split_on_nonempty "/" pattern). by destruct (split_on "/" pattern). Qed.
(** The literals of a pattern are pieces of it, so they have no slash. *)
Lemma segment_values_clean ids pattern :
  (forall name, has_byte "/" (ids name) = false) -> Forall (fun w => has_byte "/" w = false) (seg_value ids <$> segments pattern).
Proof.
  intros Hi. unfold segments. apply Forall_fmap, Forall_fmap. eapply Forall_impl; [apply split_on_pieces|].
  intros w Hw. unfold segment_of. destruct w as [|[[] [] [] [] [] [] [] []] w]; simpl; try done; apply Hi.
Qed.
Lemma match_url p pattern ids : (forall name, has_byte "/" (ids name) = false) ->
  match_path p (url_of pattern ids) = match_segs (segments p) (seg_value ids <$> segments pattern).
Proof.
  intros Hi. unfold match_path, url_of. rewrite split_join; [done| |by apply segment_values_clean].
  intros E. apply fmap_nil_inv in E. by apply segments_nonempty in E.
Qed.
Lemma url_matches pattern ids :
  (forall name, has_byte "/" (ids name) = false) -> no_catch_all (segments pattern) = true ->
  match_path pattern (url_of pattern ids) = Some (named ids (segments pattern)).
Proof. intros Hi Hc. rewrite match_url by done. by apply match_filled. Qed.
Lemma named_full ids pat : (forall name, ids name <> "") -> no_empty (named ids pat) = true.
Proof.
  intros Hi. induction pat as [|[] pat IH]; cbn [named no_empty forallb]; [done|done| |done].
  simpl. destruct (String.eqb_spec (ids name) ""); [by apply Hi in e|done].
Qed.
Lemma param_named ids name pat :
  param name (named ids pat) = if bool_decide (Par name ∈ pat) then ids name else "".
Proof.
  unfold param. induction pat as [|s pat IH]; [done|].
  assert (Hskip : s <> Par name -> bool_decide (Par name ∈ s :: pat) = bool_decide (Par name ∈ pat)).
  { intros Hs. apply bool_decide_ext. rewrite elem_of_cons. split; [intros [?|?]; [congruence|done]|by right]. }
  destruct s as [s|n|n]; cbn [named List.find]; [by rewrite IH, Hskip| |by rewrite IH, Hskip].
  simpl. destruct (String.eqb_spec n name) as [->|Hne]; [by rewrite bool_decide_eq_true_2 by left|].
  rewrite IH, Hskip; [done|]. congruence.
Qed.

(** Can one path match both patterns? *)
Fixpoint overlap (p q : list segment) : bool :=
  match p, q with
  | [], [] => true
  | All _ :: _, _ :: _ | _ :: _, All _ :: _ => true
  | Lit a :: p, Lit b :: q => String.eqb a b && overlap p q
  | _ :: p, _ :: q => overlap p q
  | _, _ => false
  end.
Lemma overlap_sound p q path a b : match_segs p path = Some a -> match_segs q path = Some b -> overlap p q = true.
Proof.
  revert q path a b. induction p as [|[s|n|n] p IH]; intros [|[s'|n'|n'] q] [|w path] a b; cbn [match_segs overlap]; try done.
  - destruct (String.eqb_spec s w) as [->|]; [|done]. destruct (String.eqb_spec s' w) as [->|]; [|done].
    rewrite String.eqb_refl. apply IH.
  - destruct (String.eqb_spec s w) as [->|]; [|done]. intros Ha. destruct (match_segs q path) eqn:Hq; [|done]. intros _. exact (IH _ _ _ _ Ha Hq).
  - destruct (match_segs p path) eqn:Hp; [|done]. intros _. destruct (String.eqb_spec s' w) as [->|]; [|done]. intros Hb. exact (IH _ _ _ _ Hp Hb).
  - destruct (match_segs p path) eqn:Hp; [|done]. intros _. destruct (match_segs q path) eqn:Hq; [|done]. intros _. exact (IH _ _ _ _ Hp Hq).
Qed.

(** ** The table *)

Definition is_api (t : target) : bool := match t with Api _ _ | Live _ => true | _ => false end.
(** The flag of an entry is the check its chain makes. *)
Lemma routes_auth : Forall (fun e => match e_target e with Api auth r => auth = authenticated r | _ => True end) routes.
Proof. repeat constructor. Qed.
Lemma api_no_catch_all i e : routes !! i = Some e -> is_api (e_target e) = true -> no_catch_all (segments (e_pattern e)) = true.
Proof.
  intros Hi He. assert (Hall : forallb (fun e => negb (is_api (e_target e)) || no_catch_all (segments (e_pattern e))) routes = true) by (vm_compute; done).
  rewrite forallb_forall in Hall. specialize (Hall e (proj1 (list_elem_of_In _ _) (list_elem_of_lookup_2 _ _ _ Hi))). by rewrite He in Hall.
Qed.

(** Two entries some request could match, where the first is not preferred. *)
Definition clash (e f : endpoint) : bool :=
  String.eqb (e_method e) (e_method f) && overlap (segments (e_pattern e)) (segments (e_pattern f)) &&
  negb (preferred (e_pattern e) (e_pattern f)).
Definition clashes : list (nat * nat) :=
  List.filter (fun ij => negb (ij.1 =? ij.2)%nat && match routes !! ij.1, routes !! ij.2 with Some e, Some f => clash e f | _, _ => false end)
    (list_prod (seq 0 (length routes)) (seq 0 (length routes))).
(** A node called [inactive] and a subscriber called [users]. *)
Lemma two_clashes : clashes = [(6, 5); (13, 12)]%nat.
Proof. vm_compute. reflexivity. Qed.
Lemma clash_listed i j e f : routes !! i = Some e -> routes !! j = Some f -> i <> j -> clash e f = true ->
  (i, j) = (6, 5)%nat \/ (i, j) = (13, 12)%nat.
Proof.
  intros Hi Hj Hne Hc. assert (Hin : In (i, j) clashes).
  { apply filter_In. split.
    - apply in_prod; apply in_seq; [apply lookup_lt_Some in Hi|apply lookup_lt_Some in Hj]; lia.
    - simpl. rewrite Hi, Hj, Hc. by destruct (Nat.eqb_spec i j). }
  rewrite two_clashes in Hin. destruct Hin as [<-|[<-|[]]]; auto.
Qed.
Lemma table_lookup i m p : table !! i = Some (m, p) -> exists e, routes !! i = Some e /\ e_method e = m /\ e_pattern e = p.
Proof. unfold table. rewrite list_lookup_fmap. destruct (routes !! i) as [e|]; [|done]. intros [= <- <-]. eauto. Qed.
Lemma lookup_table i e : routes !! i = Some e -> table !! i = Some (e_method e, e_pattern e).
Proof. unfold table. rewrite list_lookup_fmap. by intros ->. Qed.

(** ** Dispatch *)

Section dispatch.
Context `{GinTreeLaws}.

(** An entry that no other entry shadows is found for its own URLs. *)
Lemma url_found i e ids :
  routes !! i = Some e -> is_api (e_target e) = true ->
  (forall name, ids name <> "" /\ has_byte "/" (ids name) = false) ->
  exists j f ps, find_route table (e_method e) (url_of (e_pattern e) ids) = Matched j ps /\ routes !! j = Some f /\
    match_path (e_pattern f) (url_of (e_pattern e) ids) = Some ps /\
    (j = i \/ (i, j) = (6, 5)%nat \/ (i, j) = (13, 12)%nat).
Proof using All.
  intros Hi He Hids. pose proof (api_no_catch_all _ _ Hi He) as Hc.
  pose proof (url_matches (e_pattern e) ids (fun n => proj2 (Hids n)) Hc) as Hm.
  pose proof (named_full ids (segments (e_pattern e)) (fun n => proj1 (Hids n))) as Hf.
  assert (Hmi : matches table (e_method e) (url_of (e_pattern e) ids) i (named ids (segments (e_pattern e)))).
  { exists (e_pattern e). by rewrite (lookup_table _ _ Hi). }
  destruct (found_some _ _ _ _ _ Hmi Hf) as (j & ps & Hfind). exists j.
  destruct (found_matches _ _ _ _ _ Hfind) as (p & Hp & Hmatch).
  destruct (table_lookup _ _ _ Hp) as (f & Hj & Hmeth & <-). exists f, ps. split_and!; [done..|].
  destruct (decide (j = i)) as [|Hne]; [by left|right]. eapply clash_listed; [done..|by apply not_eq_sym|].
  unfold clash. rewrite Hmeth, String.eqb_refl. unfold match_path in Hm, Hmatch. rewrite (overlap_sound _ _ _ _ _ Hm Hmatch).
  by rewrite (found_first _ _ _ _ _ _ _ _ _ Hfind Hmi Hf Hp (lookup_table _ _ Hi)).
Qed.

(** No parameter of an API route has a slash. *)
Lemma params_no_slash i e path ps name :
  routes !! i = Some e -> is_api (e_target e) = true -> match_path (e_pattern e) path = Some ps ->
  has_byte "/" (param name ps) = false.
Proof using.
  intros Hi He. pose proof (api_no_catch_all _ _ Hi He) as Hc. unfold match_path. pose proof (split_on_pieces "/" path) as Hw.
  revert ps Hc Hw. generalize (segments (e_pattern e)), (split_on "/" path). intros pat. induction pat as [|[s|n|n] pat IH];
    intros [|w ws] ps; cbn [match_segs no_catch_all forallb]; try done; intros Hc Hw.
  - by intros [= <-].
  - destruct (String.eqb_spec s w); [|done]. apply IH; [done|by inversion Hw].
  - destruct (match_segs pat ws) as [ps'|] eqn:E; [|done]. intros [= <-]. apply Forall_cons in Hw as [Hn Hws].
    specialize (IH ws ps' Hc Hws E). revert IH. unfold param. cbn [List.find]. by destruct (String.eqb _ name).
Qed.
End dispatch.

(** Which URLs a literal route takes: unregistering a node of this name. *)
Definition shadowed (e : endpoint) (ids : string -> string) : bool :=
  match e_target e with Api _ DELETE_node => String.eqb (ids "nodeId") "inactive" | _ => false end.

Section served.
Context `{GinTreeLaws} {JW : Jwt} {BC : Bcrypt} {GN : Gin}.
Context (jwtSecret : string) (database : bool) (salt : string).
Context (events_json : list (Z * NodeEventRow) -> json) (status_json : PPPoEStatusRow -> json).
Context (ask : live_kind -> Context -> option bool * live_query).
Local Notation ServeHTTP := (ServeHTTP jwtSecret database salt events_json status_json ask).
Local Notation serve_target := (serve_target jwtSecret database salt events_json status_json ask).

Lemma serve_matched q i e ps : find_route table (Method q) (URL_Path q) = Matched i ps -> routes !! i = Some e ->
  ServeHTTP q = (do! body := serve_target (e_target e) q ps in Ret (security_headers, body)).
Proof using. intros Hf Hi. unfold HttpFront.ServeHTTP. by rewrite Hf, Hi. Qed.

(** The two pairs of entries with a path in common. *)
Lemma inactive_taken ids p f e : routes !! 6%nat = Some e -> routes !! 5%nat = Some f ->
  (forall name, has_byte "/" (ids name) = false) ->
  match_path (e_pattern f) (url_of (e_pattern e) ids) = Some p -> shadowed e ids = true /\ e_target f = Api true DELETE_nodes_inactive.
Proof using.
  intros [= <-] [= <-] Hids. rewrite match_url by done. unfold shadowed. cbn [e_pattern e_target guarded String.app].
  change (segments "/api/nodes/:nodeId") with [Lit ""; Lit "api"; Lit "nodes"; Par "nodeId"].
  change (segments "/api/nodes/inactive") with [Lit ""; Lit "api"; Lit "nodes"; Lit "inactive"].
  cbn [fmap list_fmap seg_value match_segs]. rewrite !String.eqb_refl. rewrite String.eqb_sym. by destruct (String.eqb _ _).
Qed.
Lemma users_not_taken ids p f e : routes !! 13%nat = Some e -> routes !! 12%nat = Some f ->
  (forall name, has_byte "/" (ids name) = false) ->
  match_path (e_pattern f) (url_of (e_pattern e) ids) = Some p -> ids "userId" = "users".
Proof using.
  intros [= <-] [= <-] Hids. rewrite match_url by done. cbn [e_pattern guarded String.app].
  change (segments "/api/config/:nodeId/hsi/:userId") with [Lit ""; Lit "api"; Lit "config"; Par "nodeId"; Lit "hsi"; Par "userId"].
  change (segments "/api/config/:nodeId/hsi/users") with [Lit ""; Lit "api"; Lit "config"; Par "nodeId"; Lit "hsi"; Lit "users"].
  cbn [fmap list_fmap seg_value match_segs]. rewrite !String.eqb_refl. by destruct (String.eqb_spec "users" (ids "userId")).
Qed.

(** The literal route is found for the name it shares. *)
Lemma shadowed_lost i e ids ps : routes !! i = Some e -> shadowed e ids = true -> (forall name, has_byte "/" (ids name) = false) ->
  find_route table (e_method e) (url_of (e_pattern e) ids) <> Matched i ps.
Proof using All.
  intros Hi Hs Hids Hfind.
  assert (He : e = guarded "DELETE" "/nodes/:nodeId" DELETE_node /\ ids "nodeId" = "inactive").
  { revert Hi Hs. clear. unfold shadowed. destruct (e_target e) as [a r| | | | |] eqn:Et; try done. destruct r eqn:Er; try done.
    intros Hi Hn%String.eqb_eq. split; [|done]. clear Hn. revert i Hi Et. 
    assert (Hall : Forall (fun e => match e_target e with Api _ DELETE_node => e = guarded "DELETE" "/nodes/:nodeId" DELETE_node | _ => True end) routes)
      by (repeat constructor). intros i Hi Et. rewrite Forall_lookup in Hall. specialize (Hall _ _ Hi). by rewrite Et in Hall. }
  destruct He as [-> Hn].
  assert (H5 : matches table "DELETE" (url_of (e_pattern (guarded "DELETE" "/nodes/:nodeId" DELETE_node)) ids) 5 []).
  { exists "/api/nodes/inactive". split; [done|]. rewrite match_url by done.
    change (seg_value ids <$> segments (e_pattern (guarded "DELETE" "/nodes/:nodeId" DELETE_node))) with ["" : string; "api"; "nodes"; ids "nodeId"].
    rewrite Hn. reflexivity. }
  pose proof (found_first _ _ _ _ _ _ _ _ _ Hfind H5 eq_refl (lookup_table _ _ Hi) eq_refl) as Hp. by vm_compute in Hp.
Qed.

(** C31: a request for the URL of an API route, its parameters filled with a
    numeric subscriber id and other non-empty values without a slash, is answered
    by that route's own chain, which sees exactly these values under their names
    and nothing for the other parameters; with one exception: to unregister a
    node called "inactive" is to delete all inactive nodes. *)
Theorem url_reaches_handler i e ids header body event_type :
  routes !! i = Some e -> is_api (e_target e) = true ->
  (forall name, ids name <> "" /\ has_byte "/" (ids name) = false) -> ValidateUserID (ids "userId") = None ->
  let q := HttpRequest (e_method e) (url_of (e_pattern e) ids) header body event_type in
  exists params,
    ServeHTTP q = (do! body := serve_target (if shadowed e ids then Api true DELETE_nodes_inactive else e_target e) q params in
                   Ret (security_headers, body)) /\
    (shadowed e ids = false -> forall name,
       param name params = if bool_decide (Par name ∈ segments (e_pattern e)) then ids name else "").
Proof using All.
  intros Hi He Hids Huser q. pose proof (fun n => proj2 (Hids n)) as Hclean.
  destruct (url_found i e ids Hi He Hids) as (j & f & ps & Hfind & Hj & Hm & Hcase).
  exists ps. rewrite (serve_matched q j f ps Hfind Hj). destruct Hcase as [-> |[[= -> ->] |[= -> ->]]].
  - assert (f = e) as -> by congruence. rewrite url_matches in Hm by (done || by apply (api_no_catch_all i)).
    injection Hm as <-. split; [|intros _ name; apply param_named]. destruct (shadowed e ids) eqn:Es; [|done].
    by destruct (shadowed_lost _ _ _ _ Hi Es Hclean Hfind).
  - destruct (inactive_taken _ _ _ _ Hi Hj Hclean Hm) as [-> ->]. by split.
  - by rewrite (users_not_taken _ _ _ _ Hi Hj Hclean Hm) in Huser.
Qed.
End served.

(** ** A lookup that obeys the rules *)

Fixpoint candidates (i : nat) (t : list (string * string)) (method path : string) : list (nat * string * list (string * string)) :=
  match t with
  | [] => []
  | (m, p) :: t =>
      let rest := candidates (S i) t method path in
      if String.eqb m method then match match_path p path with Some ps => (i, p, ps) :: rest | None => rest end else rest
  end.
Definition better (x : nat * string * list (string * string)) best :=
  match best with Some y => if preferred y.1.2 x.1.2 then Some y else Some x | None => Some x end.
#[local] Instance plain_tree : GinTree := fun t method path =>
  match foldr better None (candidates 0 t method path) with Some (i, _, ps) => Matched i ps | None => Unmatched end.

Lemma candidates_spec t method path i j p ps :
  (j, p, ps) ∈ candidates i t method path <-> exists k, j = (i + k)%nat /\ t !! k = Some (method, p) /\ match_path p path = Some ps.
Proof.
  revert i. induction t as [|[m q] t IH]; intros i; cbn [candidates].
  - split; [intros []%not_elem_of_nil|by intros (k & _ & [=] & _)].
  - assert (Hrest : (j, p, ps) ∈ candidates (S i) t method path <->
      exists k, j = (i + S k)%nat /\ t !! k = Some (method, p) /\ match_path p path = Some ps).
    { rewrite IH. split; intros (k & -> & H1 & H2); exists k; (split_and!; [lia|done|done]). }
    assert (Hlift : (exists k, j = (i + k)%nat /\ ((m, q) :: t) !! k = Some (method, p) /\ match_path p path = Some ps) <->
      (j = i /\ (m, q) = (method, p) /\ match_path p path = Some ps) \/ (j, p, ps) ∈ candidates (S i) t method path).
    { rewrite Hrest. split.
      - intros ([|k] & -> & H1 & H2); [left|right; by exists k]. injection H1 as -> ->. split_and!; [lia|done|done].
      - intros [(-> & [= -> ->] & H2)|(k & -> & H1 & H2)]; [exists 0%nat|by exists (S k)]. split_and!; [lia|done|done]. }
    rewrite Hlift. destruct (String.eqb_spec m method) as [->|Hne].
    + destruct (match_path q path) as [qs|] eqn:Hq.
      * rewrite elem_of_cons. split; (intros [Hx|]; [left|by right]).
        -- injection Hx as -> -> ->. done.
        -- destruct Hx as (-> & [= ->] & Hx). congruence.
      * split; [by right|]. intros [(-> & [= ->] & Hx)|]; [congruence|done].
    + split; [by right|]. intros [(-> & [= -> ->] & Hx)|]; done.
Qed.
Lemma lex_lt_neg_trans a b c : lex_lt a b = false -> lex_lt b c = false -> lex_lt a c = false.
Proof.
  revert b c. induction a as [|x a IH]; intros [|y b] [|z c]; cbn [lex_lt]; try done.
  rewrite !orb_false_iff, !andb_false_iff, !Nat.ltb_ge, !Nat.eqb_neq. intros [H1 H2] [H3 H4]. split; [lia|].
  destruct H2 as [?|H2]; [left; lia|]. destruct H4 as [?|H4]; [left; lia|]. right. by eapply IH.
Qed.
Lemma lex_lt_asym a b : lex_lt a b = true -> lex_lt b a = false.
Proof.
  revert b. induction a as [|x a IH]; intros [|y b]; cbn [lex_lt]; try done.
  rewrite orb_true_iff, andb_true_iff, Nat.ltb_lt, Nat.eqb_eq, orb_false_iff, andb_false_iff, Nat.ltb_ge, Nat.eqb_neq.
  intros [?|[-> ?]]; split; [lia|left; lia|lia|right; by apply IH].
Qed.
Lemma lex_lt_irrefl a : lex_lt a a = false.
Proof. destruct (lex_lt a a) eqn:E; [|done]. pose proof (lex_lt_asym _ _ E). congruence. Qed.
Lemma best_spec l b : foldr better None l = Some b -> b ∈ l /\ forall y, y ∈ l -> preferred y.1.2 b.1.2 = false.
Proof.
  revert b. induction l as [|x l IH]; intros b; cbn [foldr]; [done|]. destruct (foldr better None l) as [y|] eqn:E; cbn [better].
  - destruct (IH y eq_refl) as [Hy Hmin]. destruct (preferred y.1.2 x.1.2) eqn:Hp; intros [= <-].
    + split; [by right|]. intros z [->|Hz]%elem_of_cons; [by apply lex_lt_asym|by apply Hmin].
    + split; [by left|]. intros z [->|Hz]%elem_of_cons; [apply lex_lt_irrefl|by eapply lex_lt_neg_trans; [apply Hmin|]].
  - intros [= <-]. split; [by left|]. intros z [->|Hz]%elem_of_cons.
    + apply lex_lt_irrefl.
    + destruct l as [|a l]; [by apply not_elem_of_nil in Hz|]. cbn [foldr better] in E. by destruct (foldr better None l) as [y|]; cbn [better] in E; [destruct (preferred _ _)|].
Qed.
#[local] Instance plain_tree_laws : GinTreeLaws.
Proof.
  assert (Hfind : forall t m path i ps, find_route t m path = Matched i ps ->
    exists p, (i, p, ps) ∈ candidates 0 t m path /\ forall y, y ∈ candidates 0 t m path -> preferred y.1.2 p = false).
  { intros t m path i ps. unfold find_route, plain_tree. destruct (foldr _ _ _) as [[[j p] qs]|] eqn:E; [|done]. intros [= -> ->].
    apply best_spec in E. by exists p. }
  split.
  - intros t m path i ps (p & Hin & _)%Hfind. apply candidates_spec in Hin as (k & -> & H1 & H2). by exists p.
  - intros t m path i ps j qs p q (p' & Hin & Hmin)%Hfind (q' & Hj & Hq) _ Hp Hq'.
    apply candidates_spec in Hin as (k & -> & H1 & _). assert (p' = p) as -> by (simpl in *; congruence).
    assert (q' = q) as -> by congruence. apply (Hmin (j, q, qs)), candidates_spec. by exists j.
  - intros t m path i ps (p & Hi & Hp) _. unfold find_route, plain_tree.
    assert (Hin : (i, p, ps) ∈ candidates 0 t m path) by (apply candidates_spec; by exists i).
    destruct (foldr _ _ _) as [[[j p'] qs]|] eqn:E; [eauto|].
    destruct (candidates 0 t m path) as [|x l]; [by apply not_elem_of_nil in Hin|].
    cbn [foldr better] in E. by destruct (foldr better None l) as [y|]; cbn [better] in E; [destruct (preferred _ _)|].
Qed.

Definition ids7 (name : string) : string := if String.eqb name "nodeId" then "node-1" else if String.eqb name "userId" then "7" else "example.org".
Definition silent : live_kind -> Context -> option bool * live_query := fun _ _ => (None, LiveArp (Err RpcFailed)).
Lemma url_reaches_handler_witness :
  let e := guarded "DELETE" "/config/:nodeId/dns/:userId/:domain" DELETE_dns in
  let q := HttpRequest "DELETE" "/api/config/node-1/dns/7/example.org" "Bearer user.admin" "" "" in
  exists params,
    @ServeHTTP plain_jwt plain_bcrypt plain_gin plain_tree "s3cret" true "salt" no_events no_status silent q =
      (do! body := @serve_target plain_jwt plain_bcrypt plain_gin "s3cret" true "salt" no_events no_status silent (e_target e) q params in
       Ret (security_headers, body)) /\
    (shadowed e ids7 = false -> forall name,
       param name params = if bool_decide (Par name ∈ segments (e_pattern e)) then ids7 name else "").
Proof.
  apply (@url_reaches_handler plain_tree plain_tree_laws plain_jwt plain_bcrypt plain_gin "s3cret" true "salt" no_events no_status silent
           28%nat (guarded "DELETE" "/config/:nodeId/dns/:userId/:domain" DELETE_dns) ids7); try reflexivity.
  intros name. unfold ids7. repeat destruct (String.eqb _ _); done.
Defined.

(** ** Without a token *)

Section no_token.
Context `{EtcdLaws E} `{GinTreeLaws} {JW : Jwt} {BC : Bcrypt} {GN : Gin}.
Context (jwtSecret : string) (database : bool) (salt : string).
Context (events_json : list (Z * NodeEventRow) -> json) (status_json : PPPoEStatusRow -> json).
Context (ask : live_kind -> Context -> option bool * live_query).
Local Notation chain := (chain jwtSecret database salt events_json status_json).

Lemma path_refused c resp : validatePathIDs c = Some resp -> StatusCode resp = 400.
Proof using.
  unfold validatePathIDs. destruct (String.eqb _ ""), (String.eqb _ ""); try done;
    unfold ValidateNodeID, ValidateUserID; repeat case_match; intros [= <-]; try done; simplify_eq; done.
Qed.
(** The two routes without a token check only read. *)
Lemma public_reads r c (w : world E) : authenticated r = false -> ensures (handler jwtSecret database events_json status_json salt r c) w (fun _ w' => drift w w').
Proof using All.
  destruct r; try done; intros _; cbn [handler].
  - apply ensures_bind, ensures_get; [|intros w1 e D; by apply ensures_ret].
    intros w1 D. apply ensures_bind, ensures_now. intros w2 D2. apply ensures_ret. by transitivity w1.
  - unfold Login. destruct (ShouldBindJSON _ _ _) as [req|]; [|by apply ensures_ret]. unfold getUserPassword.
    apply ensures_bind, ensures_bind, ensures_get; [|intros w1 e D; by do 2 apply ensures_ret].
    intros w1 D. apply ensures_ret. cbv beta iota. destruct (String.eqb _ ""); [by apply ensures_ret|].
    destruct (bcrypt_compare _ _); [|by apply ensures_ret]. cbn [negb]. apply ensures_bind, ensures_now. intros w2 D2.
    destruct (generateToken _ _ _); apply ensures_ret; by transitivity w1.
Qed.
Lemma chain_without_token r c (w : world E) :
  (forall now, validateToken jwtSecret (bearerToken (Authorization c)) now = None) ->
  ensures (chain r c) w (fun resp w' => drift w w' /\ (authenticated r = true -> StatusCode resp ∈ [400; 401; 500])).
Proof using All.
  intros Hv. destruct (authenticated r) eqn:Ha.
  - intros ts. destruct (dead_router jwtSecret database salt events_json status_json r c w ts Ha) as (resp & w' & ts' & Hr & Hs & D).
    { intros _. left. intros now _. apply Hv. }
    unfold outcome, final, chain. rewrite Hr. cbn [fst snd]. split; [done|]. intros _. destruct Hs as [-> |[-> | ->%path_refused]]; set_solver.
  - unfold chain, newRouter. destruct (validatePathIDs c); [by apply ensures_ret|]. rewrite Ha.
    eapply ensures_mono; [|by apply public_reads]. by intros.
Qed.

(** C30: a request to the REST listener whose Authorization header carries no
    valid token changes nothing in etcd or PostgreSQL, whatever its method and
    path; and an API answer other than an error is only given by the health check
    and the login. The log listener serves such a request nothing. *)
Theorem no_token_no_effect q file path (w : world E) :
  (forall now, validateToken jwtSecret (bearerToken (Header q)) now = None) ->
  ensures (ServeHTTP jwtSecret database salt events_json status_json ask q) w (fun a w' => drift w w' /\
    forall resp, a.2 = ApiResponse resp ->
      StatusCode resp ∈ [400; 401; 404; 500] \/
      exists i ps e, find_route table (Method q) (URL_Path q) = Matched i ps /\ routes !! i = Some e /\
        e_target e ∈ [Api false GET_health; Api false POST_login]) /\
  ensures (NewLogRouter jwtSecret file path (Header q)) w (fun a w' => drift w w' /\ exists resp, a = LogRefused resp).
Proof using All.
  intros Hv. split.
  - unfold ServeHTTP. assert (Hno : ensures (Ret (security_headers, NoRoute (URL_Path q))) w (fun a w' => drift w w' /\
      forall resp, a.2 = ApiResponse resp -> StatusCode resp ∈ [400; 401; 404; 500] \/
        exists i ps e, find_route table (Method q) (URL_Path q) = Matched i ps /\ routes !! i = Some e /\
          e_target e ∈ [Api false GET_health; Api false POST_login])).
    { apply ensures_ret. split; [done|]. intros resp. unfold NoRoute. simpl. destruct (has_prefix _ _); [|done]. intros [= <-]. left. set_solver. }
    destruct (find_route _ _ _) as [i ps| |]; [|by apply ensures_ret|exact Hno].
    destruct (routes !! i) as [e|] eqn:Hi; [|exact Hno]. apply ensures_bind.
    assert (Hchain : forall r, e_target e = Api (authenticated r) r \/ (exists k, e_target e = Live k) /\ authenticated r = true ->
      ensures (do! resp := chain r (context_of q ps) in Ret (ApiResponse resp)) w (fun body w' => drift w w' /\
        forall resp, body = ApiResponse resp -> StatusCode resp ∈ [400; 401; 404; 500] \/ e_target e ∈ [Api false GET_health; Api false POST_login])).
    { intros r Hr. apply ensures_bind. eapply ensures_mono; [|apply chain_without_token; apply Hv].
      intros resp w' [D Hs]. apply ensures_ret. split; [done|]. intros resp' [= <-]. destruct (authenticated r) eqn:Ha.
      - left. specialize (Hs eq_refl). set_solver.
      - right. destruct Hr as [-> |[_ [=]]]. destruct r; try done; set_solver. }
    eapply (ensures_mono _ _ (fun body w' => drift w w' /\ forall resp, body = ApiResponse resp ->
      StatusCode resp ∈ [400; 401; 404; 500] \/ e_target e ∈ [Api false GET_health; Api false POST_login])).
    { intros body w' [D Hs]. apply ensures_ret. split; [done|]. intros resp Hb. destruct (Hs resp Hb); [by left|right; by exists i, ps, e]. }
    pose proof routes_auth as Hauth. rewrite Forall_lookup in Hauth. specialize (Hauth i e Hi).
    unfold serve_target. destruct (e_target e) as [auth r|k| | | |] eqn:Et; try (apply ensures_ret; by split).
    + apply Hchain. left. by rewrite Hauth.
    + apply Hchain. right. by split; [exists k|].
  - unfold NewLogRouter. apply ensures_bind. intros ts.
    destruct (run (AuthMiddlewareWithBlacklist jwtSecret (MkContext (Header q) "" "" "" "" "" "")) w ts) as [[m w1] ts1] eqn:Em.
    unfold outcome, final. rewrite Em. simpl. apply dead_middleware in Em as [(resp & -> & _) D]; [|right; left; intros; apply Hv].
    intros ts2. cbn. split; [done|]. by exists resp.
Qed.
End no_token.
Definition forged_delete : http_request := HttpRequest "DELETE" "/api/config/node-1/hsi/7" "Bearer other.admin" "" "".
Lemma no_token_no_effect_witness :
  ensures (@ServeHTTP plain_jwt plain_bcrypt plain_gin plain_tree "s3cret" true "salt" no_events no_status silent forged_delete) world7
    (fun a w' => drift world7 w' /\
      forall resp, a.2 = ApiResponse resp ->
        StatusCode resp ∈ [400; 401; 404; 500] \/
        exists i ps e, @find_route plain_tree table "DELETE" "/api/config/node-1/hsi/7" = Matched i ps /\ routes !! i = Some e /\
          e_target e ∈ [Api false GET_health; Api false POST_login]) /\
  ensures (@NewLogRouter plain_jwt "s3cret" (LogContent "secrets") "/" "Bearer other.admin") world7
    (fun a w' => drift world7 w' /\ exists resp, a = LogRefused resp).
Proof.
  apply (@no_token_no_effect mem _ _ plain_tree plain_tree_laws plain_jwt plain_bcrypt plain_gin "s3cret" true "salt"
           no_events no_status silent forged_delete (LogContent "secrets") "/" world7).
  intros now. reflexivity.
Defined.
(** The same request with the token of an admin deletes the config. *)
Example with_token :
  (outcome (@ServeHTTP plain_jwt plain_bcrypt plain_gin plain_tree "s3cret" true "salt" no_events no_status silent
     (HttpRequest "DELETE" "/api/config/node-1/hsi/7" admin_header "" "")) world7 []).2 =
  ApiResponse (JSON StatusOK (message_json "HSI config deleted successfully")).
Proof. vm_compute. reflexivity. Qed.

(** ** Names and paths *)

(** The REST API stores a DNS record whose domain has a slash, but no URL names
    it again: it can neither be read alone nor deleted. *)
Lemma slash_domain_unreachable `{GinTreeLaws} q i e ps domain :
  find_route table (Method q) (URL_Path q) = Matched i ps -> routes !! i = Some e -> is_api (e_target e) = true ->
  has_byte "/" domain = true -> Param_domain (context_of q ps) <> domain.
Proof.
  intros Hf Hi He Hd Heq. apply found_matches in Hf as (p & Hp & Hm). destruct (table_lookup _ _ _ Hp) as (f & Hj & _ & <-).
  assert (f = e) as -> by congruence. pose proof (params_no_slash i e (URL_Path q) ps "domain" Hi He Hm) as Hn.
  simpl in Heq. congruence.
Qed.
Example slash_domain_accepted : ValidateDnsRecord "example.org/x" "10.0.0.1" 60 = None.
Proof. reflexivity. Qed.
(** Unregistering the node called [inactive] is another request. *)
Example node_inactive :
  ValidateNodeID "inactive" = None /\
  @find_route plain_tree table "DELETE" "/api/nodes/inactive" = Matched 5 [] /\
  option_map e_target (routes !! 5%nat) = Some (Api true DELETE_nodes_inactive).
Proof. vm_compute. done. Qed.

(** A name without a port, and one with either of the two ports, goes to port
    8443; the path and query are kept. *)
Lemma redirect_port name uri :
  has_byte ":" name = false -> name <> "" ->
  RedirectToHTTPS name uri = "https://" +:+ name +:+ ":8443" +:+ uri /\
  RedirectToHTTPS (name +:+ ":8080") uri = "https://" +:+ name +:+ ":8443" +:+ uri /\
  RedirectToHTTPS (name +:+ ":8443") uri = "https://" +:+ name +:+ ":8443" +:+ uri.
Proof.
  intros Hn Hne. assert (Hcut : forall port, String.length port = 5%nat ->
      sdrop (String.length (name +:+ port) - 5) (name +:+ port) = port /\ stake (String.length (name +:+ port) - 5) (name +:+ port) = name /\
      (5 <? String.length (name +:+ port))%nat = true).
  { intros port Hp. rewrite slength_app, Hp. replace (String.length name + 5 - 5)%nat with (String.length name) by lia.
    rewrite sdrop_app, stake_app. split_and!; [done..|]. apply Nat.ltb_lt. destruct name; [done|simpl; lia]. }
  assert (Hno : forall r, ends_in_port (String ":" r) name = false).
  { intros r. unfold ends_in_port. destruct (String.eqb_spec (sdrop (String.length name - 5) name) (String ":" r)) as [E|]; [|by rewrite andb_false_r].
    exfalso. pose proof (stake_sdrop (String.length name - 5) name) as Hs. rewrite E in Hs. rewrite <-Hs in Hn. clear -Hn.
    induction (stake _ _) as [|a s IH]; simpl in Hn; [done|]. apply orb_false_iff in Hn as [_ Hn]. by apply IH. }
  split_and!; unfold RedirectToHTTPS.
  - rewrite !Hno. by rewrite !sapp_assoc.
  - destruct (Hcut ":8080" eq_refl) as (H1 & H2 & H3). unfold ends_in_port. rewrite H1, H2, H3. simpl. by rewrite !sapp_assoc.
  - destruct (Hcut ":8443" eq_refl) as (H1 & H2 & H3). unfold ends_in_port. rewrite H1, H3. simpl. by rewrite !sapp_assoc.
Qed.
(** Any other port stays, and a second one is appended. *)
Example redirect_two_ports : RedirectToHTTPS "controller:8081" "/" = "https://controller:8081:8443/".
Proof. reflexivity. Qed.

(** All callers in a process get the secret of the first call. *)
Lemma GetJWTSecret_once env env' random random' cached :
  GetJWTSecret env' random' (GetJWTSecret env random cached).2 =
  ((GetJWTSecret env random cached).1, (GetJWTSecret env random cached).2).
Proof. by destruct cached. Qed.
