(* ===== verification/Settings.v ===== *)
(** * Settings from the environment

    What [main.go] and the packages read from environment variables: ports,
    endpoints, and the PostgreSQL connection string of [db/db.go], which
    [net/url] assembles with its escaping. *)

From S2P Require Import Prelude GoStrings Json OffsetGuard.
Local Open Scope string_scope.
Local Open Scope Z_scope.
Local Open Scope go_scope.

(** ** [net/url] *)

Inductive encoding := encodeUserPassword | encodeHost | encodePath | encodeQueryComponent.
Definition alphanumeric (c : ascii) : bool :=
  between 97 (code c) 122 || between 65 (code c) 90 || between 48 (code c) 57.
Definition shouldEscape (c : ascii) (mode : encoding) : bool :=
  if alphanumeric c then false
  else if match mode with encodeHost => has_byte c "!$&'()*+,;=:[]<>" || (code c =? 34) | _ => false end then false
  else if has_byte c "-_.~" then false
  else if has_byte c "$&+,/:;=?@" then
    match mode with
    | encodePath => has_byte c "?"
    | encodeUserPassword => has_byte c "@/?:"
    | encodeQueryComponent => true
    | encodeHost => true
    end
  else true.
Definition upperhex (n : Z) : ascii := if n <? 10 then byte (48 + n) else byte (55 + n).
Definition escape_byte (mode : encoding) (c : ascii) : string :=
  if shouldEscape c mode then
    match mode with
    | encodeQueryComponent => if Ascii.eqb c " " then "+" else String "%" (String (upperhex (code c / 16)) (String (upperhex (code c mod 16)) ""))
    | _ => String "%" (String (upperhex (code c / 16)) (String (upperhex (code c mod 16)) ""))
    end
  else String c "".
Fixpoint escape (mode : encoding) (s : string) : string :=
  match s with EmptyString => "" | String c s => escape_byte mode c +:+ escape mode s end.

(** [net.JoinHostPort] *)
Definition JoinHostPort (host port : string) : string :=
  if has_byte ":" host then "[" +:+ host +:+ "]:" +:+ port else host +:+ ":" +:+ port.

(** ** The connection string *)

(** [u.String()] of the URL assembled from the parts: an absolute path, a host
    and a user are present. *)
Definition DSN (getenv : string -> string) : string :=
  let databaseURL := getenv "DATABASE_URL" in
  if negb (String.eqb databaseURL "") then databaseURL
  else
    let host := getenv "POSTGRES_HOST" in
    if String.eqb host "" then ""
    else
      let port := envOr getenv "POSTGRES_PORT" "5432" in
      let user := envOr getenv "POSTGRES_USER" "fastrg" in
      let pass := envOr getenv "POSTGRES_PASSWORD" "fastrg" in
      let name := envOr getenv "POSTGRES_DB" "fastrg" in
      let sslmode := envOr getenv "POSTGRES_SSLMODE" "disable" in
      "postgres://" +:+ escape encodeUserPassword user +:+ ":" +:+ escape encodeUserPassword pass +:+ "@" +:+
      escape encodeHost (JoinHostPort host port) +:+ escape encodePath ("/" +:+ name) +:+
      "?" +:+ "sslmode=" +:+ escape encodeQueryComponent sslmode.

(** ** Ports, endpoints, names *)

Record listeners := MkListeners { grpcPort : string; httpPort : string; httpsPort : string }.
Definition main_ports (getenv : string -> string) : listeners :=
  MkListeners (envOr getenv "GRPC_PORT" "50051") (envOr getenv "HTTP_REDIRECT_PORT" "8080") (envOr getenv "HTTPS_PORT" "8443").
(** What a listener is set up with: its address, the lowest TLS version it
    accepts and its certificate and key files ([None]: no TLS), and whether an
    error of it ends the process. *)
Definition VersionTLS12 : Z := 771.
Record http_server := MkServer { srv_Addr : string; srv_tls : option (Z * string * string); srv_fatal : bool }.
Definition NewHardenedTLSServer (addr certFile keyFile : string) (fatal : bool) : http_server :=
  MkServer addr (Some (VersionTLS12, certFile, keyFile)) fatal.
Definition StartRestServer (getenv : string -> string) (addr : string) : http_server :=
  NewHardenedTLSServer addr (envOr getenv "CERT_FILE" "./certs/server.crt") (envOr getenv "KEY_FILE" "./certs/server.key") true.
Definition StartHTTPRedirectServer (addr : string) : http_server := MkServer addr None false.
Definition startLogServer (getenv : string -> string) : http_server :=
  NewHardenedTLSServer (":" +:+ envOr getenv "LOG_HTTPS_PORT" "8444")
    (envOr getenv "CERT_FILE" "./certs/server.crt") (envOr getenv "KEY_FILE" "./certs/server.key") false.
Definition StartPrometheusServer (getenv : string -> string) : string :=
  envOr getenv "PROMETHEUS_LISTEN_IP" "127.0.0.1" +:+ ":" +:+ "55688".
(** [hostname] is [os.Hostname], [None] on error. *)
Definition Identity (getenv : string -> string) (hostname : option string) : string :=
  if negb (String.eqb (getenv "POD_NAME") "") then getenv "POD_NAME"
  else match hostname with
       | Some h => if negb (String.eqb h "") then h else "unknown"
       | None => "unknown"
       end.
(** The endpoints handed to the etcd client. *)
Definition NewEtcdClient_endpoints (getenv : string -> string) : list string :=
  trim_space <$> split_on "," (envOr getenv "ETCD_ENDPOINTS" "localhost:2379").

(** ** Escaping is undone *)

(** The decoder of RFC 3986; [plus] for the form encoding of queries. *)
Fixpoint unescape (plus : bool) (s : string) : option string :=
  match s with
  | EmptyString => Some ""
  | String c r =>
      if Ascii.eqb c "%" then
        match r with
        | String a (String b r) =>
            letopt x := hex_val a in letopt y := hex_val b in
            letopt t := unescape plus r in Some (String (byte (16 * x + y)) t)
        | _ => None
        end
      else letopt t := unescape plus r in Some (String (if plus && Ascii.eqb c "+" then " " else c) t)
  end.
Definition is_query (mode : encoding) : bool := match mode with encodeQueryComponent => true | _ => false end.
Definition decodes_to (plus : bool) (e : string) (c : ascii) : bool :=
  match e with
  | String x "" => negb (Ascii.eqb x "%") && Ascii.eqb (if plus && Ascii.eqb x "+" then " " else x) c
  | String x (String a (String b "")) =>
      Ascii.eqb x "%" && match hex_val a, hex_val b with Some h, Some l => Ascii.eqb (byte (16 * h + l)) c | _, _ => false end
  | _ => false
  end.
Lemma decodes_byte mode c : decodes_to (is_query mode) (escape_byte mode c) c = true.
Proof. by destruct mode, c as [[] [] [] [] [] [] [] []]. Qed.
Lemma decodes_unescape plus e c r : decodes_to plus e c = true -> unescape plus (e +:+ r) = option_map (String c) (unescape plus r).
Proof.
  destruct e as [|x [|a [|b [|]]]]; cbn [decodes_to]; try done.
  - intros [Hx%negb_true_iff Hc%Ascii.eqb_eq]%andb_true_iff. simpl. rewrite Hx, Hc. by destruct (unescape plus r).
  - intros [Hx Hc]%andb_true_iff. simpl. rewrite Hx. destruct (hex_val a), (hex_val b); try done.
    apply Ascii.eqb_eq in Hc. rewrite Hc. by destruct (unescape plus r).
Qed.
Lemma unescape_escape mode s : unescape (is_query mode) (escape mode s) = Some s.
Proof. induction s as [|c s IH]; [done|]. cbn [escape]. by rewrite (decodes_unescape _ _ c), IH by apply decodes_byte. Qed.

(** What ends each part of a URL never occurs in its escaped text. *)
Definition delimiters (mode : encoding) : string :=
  match mode with encodeUserPassword => "@:/?#" | encodeHost => "@/?#" | encodePath => "?#" | encodeQueryComponent => "&#" end.
Lemma has_byte_list d l : has_byte d l = true -> In d (list_ascii_of_string l).
Proof. induction l as [|a l IH]; simpl; [done|]. intros [<-%Ascii.eqb_eq|]%orb_true_iff; auto. Qed.
Lemma escape_byte_clean mode c :
  forallb (fun d => negb (has_byte d (escape_byte mode c))) (list_ascii_of_string (delimiters mode)) = true.
Proof. by destruct mode, c as [[] [] [] [] [] [] [] []]. Qed.
Lemma escape_clean mode d s : has_byte d (delimiters mode) = true -> has_byte d (escape mode s) = false.
Proof.
  intros Hd%has_byte_list. induction s as [|c s IH]; [done|]. cbn [escape]. rewrite has_byte_app, IH, orb_false_r.
  pose proof (escape_byte_clean mode c) as Hc. rewrite forallb_forall in Hc. by apply negb_true_iff, Hc.
Qed.

(** ** Reading the connection string back *)

(** [strings.Cut] at a byte. *)
Fixpoint cut (c : ascii) (s : string) : option (string * string) :=
  match s with
  | EmptyString => None
  | String a r => if Ascii.eqb a c then Some ("", r) else letopt (x, y) := cut c r in Some (String a x, y)
  end.
Lemma cut_app c w s : has_byte c w = false -> cut c (w +:+ String c s) = Some (w, s).
Proof.
  induction w as [|a w IH]; simpl; [by rewrite Ascii.eqb_refl|]. intros [-> Hw]%orb_false_iff. by rewrite IH.
Qed.

Record dsn_fields := MkDsn { dsn_user : string; dsn_pass : string; dsn_host : string; dsn_name : string; dsn_sslmode : string }.
(** A PostgreSQL URL, taken apart at its delimiters before anything is decoded. *)
Definition parse_dsn (dsn : string) : option dsn_fields :=
  letopt r := strip_prefix "postgres://" dsn in
  letopt (userinfo, r) := cut "@" r in
  letopt (user, pass) := cut ":" userinfo in
  letopt (hostport, r) := cut "/" r in
  letopt (name, query) := cut "?" r in
  letopt sslmode := strip_prefix "sslmode=" query in
  letopt user := unescape false user in letopt pass := unescape false pass in
  letopt hostport := unescape false hostport in letopt name := unescape false name in
  letopt sslmode := unescape true sslmode in
  Some (MkDsn user pass hostport name sslmode).

(** C35: when the connection string is assembled from its parts, whatever bytes
    the user, password, host, database and mode contain, a reader that splits it
    at the delimiters of a URL and decodes the pieces gets exactly these parts
    back: no character of a password can end the part it is in. *)
Theorem DSN_roundtrip getenv :
  getenv "DATABASE_URL" = "" -> getenv "POSTGRES_HOST" <> "" ->
  parse_dsn (DSN getenv) = Some (MkDsn
    (envOr getenv "POSTGRES_USER" "fastrg") (envOr getenv "POSTGRES_PASSWORD" "fastrg")
    (JoinHostPort (getenv "POSTGRES_HOST") (envOr getenv "POSTGRES_PORT" "5432"))
    (envOr getenv "POSTGRES_DB" "fastrg") (envOr getenv "POSTGRES_SSLMODE" "disable")).
Proof.
  intros Hurl Hhost. unfold DSN. rewrite Hurl. destruct (String.eqb_spec (getenv "POSTGRES_HOST") ""); [done|]. cbn [String.eqb negb].
  set (user := envOr _ "POSTGRES_USER" _). set (pass := envOr _ "POSTGRES_PASSWORD" _). set (name := envOr _ "POSTGRES_DB" _).
  set (hostport := JoinHostPort _ _). set (ssl := envOr _ "POSTGRES_SSLMODE" _). unfold parse_dsn. rewrite strip_prefix_app.
  change (escape encodePath ("/" +:+ name)) with (String "/" (escape encodePath name)).
  replace (escape encodeUserPassword user +:+ ":" +:+ escape encodeUserPassword pass +:+ "@" +:+ escape encodeHost hostport +:+
      String "/" (escape encodePath name) +:+ "?" +:+ "sslmode=" +:+ escape encodeQueryComponent ssl)
    with ((escape encodeUserPassword user +:+ String ":" (escape encodeUserPassword pass)) +:+ String "@" (escape encodeHost hostport +:+
      String "/" (escape encodePath name +:+ String "?" ("sslmode=" +:+ escape encodeQueryComponent ssl)))) by (by rewrite !sapp_assoc).
  rewrite cut_app by (rewrite has_byte_app; simpl; by rewrite !escape_clean).
  rewrite cut_app by (by apply escape_clean). rewrite cut_app by (by apply escape_clean). rewrite cut_app by (by apply escape_clean).
  rewrite strip_prefix_app. change false with (is_query encodeUserPassword) at 1 2. rewrite !unescape_escape.
  change false with (is_query encodeHost) at 1. rewrite unescape_escape. change false with (is_query encodePath). rewrite unescape_escape.
  change true with (is_query encodeQueryComponent). by rewrite unescape_escape.
Qed.
Definition odd_env (key : string) : string :=
  if String.eqb key "POSTGRES_HOST" then "::1" else if String.eqb key "POSTGRES_PASSWORD" then "p@:/#% word"
  else if String.eqb key "POSTGRES_DB" then "db/#% name" else "".
Lemma DSN_roundtrip_witness :
  odd_env "DATABASE_URL" = "" /\ odd_env "POSTGRES_HOST" <> "" /\
  parse_dsn (DSN odd_env) = Some (MkDsn "fastrg" "p@:/#% word" "[::1]:5432" "db/#% name" "disable").
Proof. split_and!; [done|done|]. apply (DSN_roundtrip odd_env); done. Defined.
Example DSN_text : DSN odd_env = "postgres://fastrg:p%40%3A%2F%23%25%20word@[::1]:5432/db/%23%25%20name?sslmode=disable".
Proof. vm_compute. reflexivity. Qed.
