(* ===== verification/Metrics.v ===== *)
(** * Database health metrics ([internal/db/metrics.go])

    The failure counter every repository call passes through, and the sampler
    that publishes whether PostgreSQL answers and how many [pppoe_status] rows
    each node has. *)

From S2P Require Import Prelude GoStrings GoTime Etcd Db Effects Hoare.
Local Open Scope string_scope.
Local Open Scope Z_scope.
Local Open Scope go_scope.

Definition metricsSampleInterval : Z := 30 * second.
(** [fastrg_db_up], [fastrg_pppoe_status_rows] and [fastrg_db_errors_total];
    a label without a value is not exported. *)
Record db_metrics := MkDbMetrics { dbUp : Z; pppoeStatusRows : gmap string Z; dbErrorsTotal : gmap string Z }.

(** [observe(op, err)] *)
Definition observe {A} (op : string) (r : result dberr A) (mt : db_metrics) : db_metrics :=
  match r with
  | Ok _ => mt
  | Err _ => MkDbMetrics (dbUp mt) (pppoeStatusRows mt) (<[op := default 0 (dbErrorsTotal mt !! op) + 1]> (dbErrorsTotal mt))
  end.
Definition Ping : query unit := fun _ d => Ok (tt, d).
Definition set_up (v : Z) (mt : db_metrics) : db_metrics := MkDbMetrics v (pppoeStatusRows mt) (dbErrorsTotal mt).

Definition sampleMetrics (mt : db_metrics) : prog db_metrics :=
  do! ping := call (EDb Ping) in
  let mt := observe "ping" ping mt in
  match ping with
  | Err _ => Ret (set_up 0 mt)
  | Ok _ =>
      let mt := set_up 1 mt in
      do! counts := call (EDb CountPPPoEStatusByNode) in
      let mt := observe "count_pppoe_status_by_node" counts mt in
      Ret (match counts with
           | Err _ => mt
           | Ok counts => MkDbMetrics (dbUp mt) counts (dbErrorsTotal mt)
           end)
  end.
(** One sample at once and one per tick; [ticks] bounds the ticks, the context
    ends the loop. *)
Fixpoint sampler_loop (ticks : nat) (mt : db_metrics) : prog db_metrics :=
  match ticks with
  | O => Ret mt
  | S ticks =>
      do! ended := call (ESleep metricsSampleInterval false) in
      if ended : bool then Ret mt
      else do! mt := sampleMetrics mt in sampler_loop ticks mt
  end.
Definition RunMetricsSampler (ticks : nat) (mt : db_metrics) : prog db_metrics :=
  do! mt := sampleMetrics mt in sampler_loop ticks mt.

(** ** The counts *)

(** The rows of one node. *)
Definition rows_of (node : string) (m : gmap ConfigKey StatusRec) : gmap ConfigKey StatusRec := filter (fun kv => kv.1.1 = node) m.
Definition count_rows (node : string) (m : gmap ConfigKey StatusRec) : Z := Z.of_nat (size (rows_of node m)).
Lemma counts_spec (m : gmap ConfigKey StatusRec) node :
  map_fold (fun (k : ConfigKey) _ (c : gmap string Z) => <[k.1 := default 0 (c !! k.1) + 1]> c) ∅ m !! node =
  if count_rows node m =? 0 then None else Some (count_rows node m).
Proof.
  apply (map_fold_weak_ind (fun (c : gmap string Z) m => c !! node = if count_rows node m =? 0 then None else Some (count_rows node m))).
  - rewrite lookup_empty. unfold count_rows, rows_of. by rewrite map_filter_empty, map_size_empty.
  - intros [n u] x m' c Hnone IH. cbn [fst]. unfold count_rows, rows_of in *. rewrite map_filter_insert. cbn [fst].
    case_decide as Hn.
    + subst n. rewrite lookup_insert_eq, map_size_insert_None by (by apply map_lookup_filter_None_2; left). rewrite IH.
      match goal with |- context [Z.of_nat (S ?n)] => generalize n end. intros [|k]; [reflexivity|].
      replace (Z.of_nat (S k) =? 0) with false by done. replace (Z.of_nat (S (S k)) =? 0) with false by done. f_equal. simpl. lia.
    + rewrite lookup_insert_ne by done. by rewrite delete_id by done.
Qed.

(** ** Properties *)

Definition consistent (mt : db_metrics) (d : db) : Prop :=
  forall node, pppoeStatusRows mt !! node = if count_rows node (pppoe_status d) =? 0 then None else Some (count_rows node (pppoe_status d)).

(** The outcomes of a sample of tables [d]. *)
Inductive sampled (mt : db_metrics) (d : db) : db_metrics -> Prop :=
| Down : sampled mt d (set_up 0 (observe "ping" (Err DbConn : result dberr unit) mt))
| Fresh mt' : dbUp mt' = 1 -> dbErrorsTotal mt' = dbErrorsTotal mt -> consistent mt' d -> sampled mt d mt'
| CountFailed : sampled mt d (observe "count_pppoe_status_by_node" (Err DbConn : result dberr unit) (set_up 1 mt)).

(** A sample tells the truth about the tables as they are when it is done, and
    does not change them: the database counts as up exactly when the ping was
    answered; when the count is answered too, every node has its number of rows
    and a node without rows has no gauge, whatever the gauges were before; a
    failure keeps the row gauges and is counted once. *)
Theorem sample_exact `{EtcdLaws E} mt (w : world E) :
  ensures (sampleMetrics mt) w (fun mt' w' => db_env (w_db w) (w_db w') /\ sampled mt (w_db w') mt').
Proof.
  unfold sampleMetrics. apply ensures_bind, ensures_query.
  - intros w1 [] now d Hd [= ->]. split; [|intros e; apply ensures_ret; by split; [|apply Down]].
    apply ensures_bind, ensures_query; [|intros w2 e Hd2; apply ensures_ret; split; [by etrans|apply CountFailed]].
    intros w2 counts now2 d2 Hd2 [= <- ->]. split; [|intros e; apply ensures_ret; split; [by etrans|apply CountFailed]].
    apply ensures_ret. split; [by etrans|]. apply Fresh; [done..|]. intros node. apply counts_spec.
  - intros w1 e Hd. apply ensures_ret. split; [done|apply Down].
Qed.
(** Two rows of one node; the gauge of a node whose rows are gone disappears. *)
Definition two_rows : db := set_pppoe (list_to_map (((fun u => (("node-1", u), status_of (MkPPPoE "node-1" u "connected" "10.0.0.2" "10.0.0.1" "" "" "" "" 5 0) 7)) <$> ["1"; "2"]))) db_empty.
Definition old_metrics : db_metrics := MkDbMetrics 0 {["gone" := 3]} ∅.
Lemma sample_exact_witness :
  let w := World world0.(w_etcd) two_rows 0 false [] in
  ensures (sampleMetrics old_metrics) w (fun mt' w' => db_env (w_db w) (w_db w') /\ sampled old_metrics (w_db w') mt').
Proof. intros w. exact (sample_exact old_metrics w). Defined.
Example sample_two_rows :
  let w := World world0.(w_etcd) two_rows 0 false [] in
  pppoeStatusRows (outcome (sampleMetrics old_metrics) w []) = {["node-1" := 2]}.
Proof. vm_compute. reflexivity. Qed.
