(* ===== verification/Lifecycle.v ===== *)
(** * The process from start to exit ([main.go])

    Serving until a signal or a failed listener, the ordered shutdown, and the
    leader's goroutine next to it, as a step relation; and the wait of a new
    leader for its database. *)

From S2P Require Import Prelude GoStrings GoTime Etcd Db Effects Hoare.
From stdpp Require Import relations.
Local Open Scope string_scope.
Local Open Scope Z_scope.
Local Open Scope go_scope.

(** ** The leader's projection *)

(** [polls] is [nmm.Database() != nil] at each look; a first look is taken at
    once, then one per tick. *)
Inductive projection_start := Started | LeaderGone | StillWaiting.
Fixpoint startProjectionWhenDatabaseReady (polls : list bool) : prog projection_start :=
  match polls with
  | [] => Ret StillWaiting
  | ready :: polls =>
      if ready : bool then Ret Started
      else
        do! ended := call (ESleep second false) in
        if ended : bool then Ret LeaderGone else startProjectionWhenDatabaseReady polls
  end.

(** Both orders of events are covered: a database that is ready at any look
    starts the projection, unless leadership ends first. *)
Lemma projection_starts `{EtcdLaws E} polls (w : world E) : true ∈ polls ->
  ensures (startProjectionWhenDatabaseReady polls) w (fun r _ => r = Started \/ r = LeaderGone).
Proof.
  revert w. induction polls as [|[] polls IH]; intros w Hin; cbn [startProjectionWhenDatabaseReady].
  - by apply not_elem_of_nil in Hin.
  - apply ensures_ret. by left.
  - apply elem_of_cons in Hin as [[=]|Hin]. apply ensures_bind, ensures_call. intros ts [] w' _; [apply ensures_ret; by right|by apply IH].
Qed.

(** ** Serving and shutting down *)

Inductive listener := RestListener | RedirectListener | LogListener | GrpcListener.
#[export] Instance listener_eq_dec : EqDecision listener.
Proof. solve_decision. Defined.
(** What the main goroutine has left to do once it woke up. *)
Inductive duty := Drain (l : listener) | CancelWorkers | CloseEtcd.
(** The goroutine of [leader.Run]: it resigns after its context ended, through
    the etcd client, which may be closed by then. *)
Inductive leader_state := Campaigning | Leading | Resigning | Resigned (released : bool) | Idle.
(** [todo] is [None] while serving. [serveErr] is the channel of capacity 1. *)
Record process := Process {
  cancelled : bool; serveErr : option string; todo : option (list duty); exitErr : option string;
  listening : list listener; etcd_open : bool; lead : leader_state; exited : option Z }.
Definition shutdown : list duty :=
  [Drain RestListener; Drain RedirectListener; Drain LogListener; Drain GrpcListener; CancelWorkers; CloseEtcd].
Definition started : process :=
  Process false None None None [RestListener; RedirectListener; LogListener; GrpcListener] true Campaigning None.

Definition set_lead (l : leader_state) (p : process) : process :=
  Process (cancelled p) (serveErr p) (todo p) (exitErr p) (listening p) (etcd_open p) l (exited p).
Definition cancel (p : process) : process :=
  Process true (serveErr p) (todo p) (exitErr p) (listening p) (etcd_open p) (lead p) (exited p).
(** [select { case serveErr <- err: default: }] *)
Definition report (err : string) (p : process) : process :=
  Process (cancelled p) (match serveErr p with None => Some err | e => e end) (todo p) (exitErr p) (listening p) (etcd_open p) (lead p) (exited p).
Definition perform_duty (d : duty) (rest : list duty) (p : process) : process :=
  match d with
  | Drain l => Process (cancelled p) (serveErr p) (Some rest) (exitErr p) (List.filter (fun l' => negb (bool_decide (l = l'))) (listening p))
                 (etcd_open p) (lead p) (exited p)
  | CancelWorkers => Process true (serveErr p) (Some rest) (exitErr p) (listening p) (etcd_open p) (lead p) (exited p)
  | CloseEtcd => Process (cancelled p) (serveErr p) (Some rest) (exitErr p) (listening p) false (lead p) (exited p)
  end.

(** One step of the process; an exited process takes none. Only the REST and
    the gRPC listener report their errors. *)
Inductive main_step (p : process) : process -> Prop :=
| Signalled : exited p = None -> main_step p (cancel p)
| ServeFailed l err : exited p = None -> l ∈ [RestListener; GrpcListener] -> main_step p (report err p)
| WokenBySignal : exited p = None -> todo p = None -> cancelled p = true ->
    main_step p (Process (cancelled p) (serveErr p) (Some shutdown) None (listening p) (etcd_open p) (lead p) (exited p))
| WokenByError err : exited p = None -> todo p = None -> serveErr p = Some err ->
    main_step p (Process (cancelled p) None (Some shutdown) (Some err) (listening p) (etcd_open p) (lead p) (exited p))
| Duty d rest : exited p = None -> todo p = Some (d :: rest) -> main_step p (perform_duty d rest p)
| Exits : exited p = None -> todo p = Some [] ->
    main_step p (Process (cancelled p) (serveErr p) (todo p) (exitErr p) (listening p) (etcd_open p) (lead p)
                   (Some (match exitErr p with Some _ => 1 | None => 0 end)))
| Elected : exited p = None -> lead p = Campaigning -> cancelled p = false -> main_step p (set_lead Leading p)
| SessionLost : exited p = None -> lead p = Leading -> main_step p (set_lead Resigning p)
| Resigns : exited p = None -> lead p = Resigning -> main_step p (set_lead (Resigned (etcd_open p)) p)
| CampaignsAgain r : exited p = None -> lead p = Resigned r -> cancelled p = false -> main_step p (set_lead Campaigning p)
| GivesUp : exited p = None -> cancelled p = true -> (lead p = Campaigning \/ exists r, lead p = Resigned r) -> main_step p (set_lead Idle p).

(** ** How far the shutdown is determines what still runs *)

Definition pending (ds : list duty) : list listener := omap (fun d => match d with Drain l => Some l | _ => None end) ds.
Definition to_close (ds : list duty) : bool := existsb (fun d => match d with CloseEtcd => true | _ => false end) ds.
Definition to_cancel (ds : list duty) : bool := existsb (fun d => match d with CancelWorkers => true | _ => false end) ds.
Definition staged (p : process) : Prop :=
  match todo p with
  | None => etcd_open p = true /\ listening p = listening started /\ exitErr p = None
  | Some ds =>
      (exists n, ds = drop n shutdown) /\ listening p = pending ds /\ etcd_open p = to_close ds /\
      (cancelled p || to_cancel ds) = true /\ (exitErr p = None -> cancelled p = true)
  end /\
  forall c, exited p = Some c -> todo p = Some [] /\ c = match exitErr p with Some _ => 1 | None => 0 end.

Lemma duty_staged d rest n : d :: rest = drop n shutdown ->
  (forall e, listening (perform_duty d rest e) = match d with Drain l => List.filter (fun l' => negb (bool_decide (l = l'))) (listening e) | _ => listening e end) /\
  rest = drop (S n) shutdown /\
  match d with Drain l => List.filter (fun l' => negb (bool_decide (l = l'))) (pending (d :: rest)) | _ => pending (d :: rest) end = pending rest /\
  (match d with CloseEtcd => false | _ => to_close (d :: rest) end) = to_close rest.
Proof.
  intros E. split; [by destruct d|]. do 6 (destruct n as [|n]; [injection E as -> ->; split_and!; reflexivity|]). by destruct n.
Qed.
Lemma step_staged p q : main_step p q -> staged p -> staged q.
Proof.
  intros Hs [Ht He]. destruct Hs as [Hx|l err Hx _|Hx Hn Hc|err Hx Hn Hc|d rest Hx Hd|Hx Hn|Hx _ _|Hx _|Hx _|r Hx _ _|Hx _ _];
    try (split; [exact Ht|exact He]).
  - split; [|exact He]. simpl. destruct (todo p); [|exact Ht]. destruct Ht as (H1 & H2 & H3 & _ & _). by split_and!.
  - rewrite Hn in Ht. destruct Ht as (H1 & H2 & H3). split; [|simpl; by rewrite Hx]. simpl. split_and!; [by exists 0%nat|done|done|by rewrite Hc|done].
  - rewrite Hn in Ht. destruct Ht as (H1 & H2 & H3). split; [|simpl; by rewrite Hx]. simpl. split_and!; [by exists 0%nat|done|done|by destruct (cancelled p)|done].
  - rewrite Hd in Ht. destruct Ht as ([n Hdrop] & Hl & Ho & Hcan & Herr). destruct (duty_staged d rest n Hdrop) as (Hlist & Hrest & Hpend & Hclose).
    split; [|by destruct d; simpl; rewrite Hx]. replace (todo (perform_duty d rest p)) with (Some rest) by (by destruct d).
    split_and!; [by exists (S n)| | | |by destruct d].
    + by rewrite Hlist, <-Hpend, Hl.
    + rewrite <-Hclose. by destruct d.
    + by destruct d.
  - split; [exact Ht|]. simpl. intros c [= <-]. done.
Qed.
Lemma reachable_staged p : rtc main_step started p -> staged p.
Proof.
  intros Hr. assert (H0 : staged started) by (split; done). revert H0. induction Hr as [|p q r Hs _ IH]; [done|]. intros H0. by eapply IH, step_staged.
Qed.

(** C34: in every run of the process, the etcd client is only closed when all
    listeners are drained and the workers were told to stop; the listeners are
    only drained after a signal or a listener's error; and the process exits with
    the client closed, with 1 when an error woke it and with 0 after a signal. *)
Theorem shutdown_ordered p :
  rtc main_step started p ->
  (etcd_open p = false -> listening p = [] /\ cancelled p = true) /\
  (listening p <> listening started -> cancelled p = true \/ exists err, exitErr p = Some err) /\
  (forall c, exited p = Some c -> etcd_open p = false /\
     ((c = 1 /\ exists err, exitErr p = Some err) \/ (c = 0 /\ exitErr p = None))).
Proof.
  intros [Ht He]%reachable_staged. destruct (todo p) as [ds|].
  - destruct Ht as ([n ->] & Hl & Ho & Hc & Herr). split_and!.
    + intros Hcl. rewrite Hcl in Ho. rewrite Hl. do 6 (destruct n as [|n]; [done|]). simpl in Hc. destruct n; rewrite orb_false_r in Hc; by split.
    + intros _. destruct (exitErr p); [by right; eexists|left; by apply Herr].
    + intros c Hx. destruct (He c Hx) as [[= Hd] ->]. rewrite Ho, Hd. split; [done|]. destruct (exitErr p); [left; eauto|by right].
  - destruct Ht as (H1 & H2 & H3). split_and!; [by rewrite H1|done|]. intros c Hx. by destruct (He c Hx).
Qed.

(** A main goroutine that woke up exits by its own next steps. *)
Lemma shutdown_exits p ds : todo p = Some ds -> exited p = None ->
  exists q c, rtc main_step p q /\ exited q = Some c.
Proof.
  revert p. induction ds as [|d ds IH]; intros p Hd Hx.
  - eexists _, _. split; [by apply rtc_once, Exits|reflexivity].
  - destruct (IH (perform_duty d ds p)) as (q & c & Hr & Hq); [by destruct d|by destruct d|]. exists q, c. split; [|done].
    eapply rtc_l; [by apply Duty|done].
Qed.

(** A signalled leader exits cleanly. *)
Definition after_signal : process := Process true None (Some shutdown) None (listening started) true Leading None.
Lemma leader_signalled : rtc main_step started after_signal.
Proof.
  eapply rtc_l; [by apply (Elected started)|]. eapply rtc_l; [by apply Signalled|]. eapply rtc_l; [by apply WokenBySignal|]. apply rtc_refl.
Qed.
Definition drained : process := Process true None (Some []) None [] false Leading None.
Lemma leader_drained : rtc main_step started drained.
Proof.
  etransitivity; [apply leader_signalled|].
  do 6 (eapply rtc_l; [by eapply Duty|]). apply rtc_refl.
Qed.
Lemma shutdown_ordered_witness :
  rtc main_step started drained /\
  (etcd_open drained = false -> listening drained = [] /\ cancelled drained = true) /\
  (listening drained <> listening started -> cancelled drained = true \/ exists err, exitErr drained = Some err) /\
  (forall c, exited drained = Some c -> etcd_open drained = false /\
     ((c = 1 /\ exists err, exitErr drained = Some err) \/ (c = 0 /\ exitErr drained = None))).
Proof. split; [exact leader_drained|]. apply shutdown_ordered. exact leader_drained. Defined.

(** Nothing waits for the leader's goroutine: the client can be closed before it
    resigns, which then releases nothing, and the process can be gone before it
    tries. Another replica has to wait for the session to expire. *)
Example closed_before_resign :
  exists p, rtc main_step started p /\ exited p = Some 0 /\ lead p = Resigned false.
Proof.
  exists (Process true None (Some []) None [] false (Resigned false) (Some 0)). split; [|done].
  etransitivity; [apply leader_drained|]. eapply rtc_l; [by apply SessionLost|]. eapply rtc_l; [by apply Resigns|].
  eapply rtc_l; [by apply Exits|]. apply rtc_refl.
Qed.
Example gone_before_resign : exists p, rtc main_step started p /\ exited p = Some 0 /\ lead p = Leading.
Proof.
  exists (Process true None (Some []) None [] false Leading (Some 0)). split; [|done].
  etransitivity; [apply leader_drained|]. eapply rtc_l; [by apply Exits|]. apply rtc_refl.
Qed.
