(* ===== verification/ControlLoop.v ===== *)
(** * The control loop: push, confirm, roll back

    The parts together: what the consumer records when a node confirms a config,
    whatever is pushed meanwhile, and that a config a node then fails to apply is
    replaced by the one it confirmed. *)

From S2P Require Import Prelude GoStrings Json JsonNormal Decode GoTime ConfigDoc Etcd Db DbProps Events Effects Cas Storage Rollback OfflineEdit Consumer AtLeastOnce Progress.
Local Open Scope string_scope.
Local Open Scope Z_scope.
Local Open Scope go_scope.

(** ** Reads of a past revision *)

Section past.
Context `{EtcdLaws E}.
Implicit Types (w : world E).

(** Nothing is compacted just before a call, and etcd does not claim so. *)
Definition uncompacted (t : turn) : bool :=
  forallb (fun o => match o with EvCompact _ => false | _ => true end) (t_env t) &&
  match t_etcd t with Some (EtcdCompacted, _) => false | _ => true end.

(** [k] holds [o] at revision [r]. *)
Definition held (k : string) (r : Z) (o : option kv) w : Prop :=
  world_wf w /\ r <= et_rev (w_etcd w) /\ et_at (w_etcd w) k r = Ok o.

Lemma held_envs k r o (s : E) l :
  forallb (fun o => match o with EvCompact _ => false | _ => true end) l = true ->
  et_wf s -> r <= et_rev s -> et_at s k r = Ok o ->
  et_wf (apply_envs s l) /\ r <= et_rev (apply_envs s l) /\ et_at (apply_envs s l) k r = Ok o.
Proof.
  unfold apply_envs. revert s. induction l as [|x l IH]; intros s; simpl; [done|]. intros [Hx Hl]%andb_true_iff Hw Hr Ha.
  apply IH; [done|by apply wf_env|pose proof (rev_env s x); lia|].
  destruct x as [k' v|k'|c]; simpl; [by rewrite at_put|by rewrite at_del|done].
Qed.
Lemma held_interfere k r o t w : uncompacted t = true -> held k r o w -> held k r o (interfere t w).
Proof.
  intros [Ht _]%andb_true_iff (Hw & Hr & Ha). unfold held, world_wf. rewrite interfere_etcd. by apply held_envs.
Qed.
Lemma held_effect k r o w w' : effect w w' -> held k r o w -> held k r o w'.
Proof.
  assert (Hput : forall v k' s, et_wf s -> r <= et_rev s -> et_at s k r = Ok o ->
    et_wf (et_put s k' v) /\ r <= et_rev (et_put s k' v) /\ et_at (et_put s k' v) k r = Ok o).
  { intros v k' s Hw Hr Ha. rewrite at_put, rev_put by done. split_and!; [by apply wf_put|lia|done]. }
  assert (Hdel : forall k' s, et_wf s -> r <= et_rev s -> et_at s k r = Ok o ->
    et_wf (et_del s k') /\ r <= et_rev (et_del s k') /\ et_at (et_del s k') k r = Ok o).
  { intros k' s Hw Hr Ha. rewrite at_del, rev_del by done. split_and!; [by apply wf_del|case_match; lia|done]. }
  intros [|g op _|g op _|k' v ttl|k'|A q a d _|d|m] (Hw & Hr & Ha); unfold held, world_wf in *; simpl; auto.
  destruct op; simpl; auto.
Qed.
Lemma held_run {A} (p : prog A) k r o w ts a w' ts' :
  forallb uncompacted ts = true -> held k r o w -> run p w ts = (a, w', ts') ->
  held k r o w' /\ forallb uncompacted ts' = true.
Proof.
  revert w ts. induction p as [b|X e f IH]; intros w ts Ht Hw; cbn [run]; [intros; by simplify_eq|].
  destruct (step_eff e w ts) as [x w1] eqn:Es. apply IH.
  - destruct ts as [|t ts]; [done|]. simpl in *. by apply andb_true_iff in Ht as [_ Ht].
  - change w1 with (x, w1).2. rewrite <-Es. unfold step_eff. eapply held_effect; [apply perform_effect|].
    apply held_interfere; [|done]. destruct ts as [|t ts]; [done|]. simpl in *. by apply andb_true_iff in Ht as [Ht _].
Qed.
(** Reading it back gives [o], or fails for want of etcd. *)
Lemma held_read k r o w ts x w' ts' :
  forallb uncompacted ts = true -> held k r o w -> run (call (EGetRev k r)) w ts = (x, w', ts') ->
  x = Ok o \/ exists e, x = Err e /\ e <> EtcdCompacted.
Proof.
  intros Ht Hw Hr. assert (Hh : uncompacted (hd quiet ts) = true).
  { destruct ts as [|t ts]; [done|]. simpl in *. by apply andb_true_iff in Ht as [Ht _]. }
  pose proof (held_interfere _ _ _ _ _ Hh Hw) as (_ & _ & Ha). rewrite run_call in Hr. revert Hr.
  unfold step_eff. cbn [perform]. unfold uncompacted in Hh. apply andb_true_iff in Hh as [_ Hh].
  destruct (t_etcd (hd quiet ts)) as [[e b]|]; intros [= <- _ _]; [right; exists e; split; [done|by intros ->]|by left].
Qed.

(** Revision [r], where [k] held [o], is reached; it may be compacted by now. *)
Definition reached (k : string) (r : Z) (o : option kv) w : Prop :=
  world_wf w /\ r <= et_rev (w_etcd w) /\ (et_at (w_etcd w) k r = Ok o \/ et_at (w_etcd w) k r = Err EtcdCompacted).
Lemma reached_env k r o (s : E) x :
  et_wf s /\ r <= et_rev s /\ (et_at s k r = Ok o \/ et_at s k r = Err EtcdCompacted) ->
  et_wf (apply_env s x) /\ r <= et_rev (apply_env s x) /\
  (et_at (apply_env s x) k r = Ok o \/ et_at (apply_env s x) k r = Err EtcdCompacted).
Proof.
  intros (Hw & Hr & Ha). split_and!; [by apply wf_env|pose proof (rev_env s x); lia|].
  destruct (at_env_stable s x k r Hw Hr) as [-> | ->]; [done|by right].
Qed.
Lemma reached_interfere k r o t w : reached k r o w -> reached k r o (interfere t w).
Proof.
  unfold reached, world_wf. rewrite interfere_etcd. unfold apply_envs. generalize (w_etcd w). generalize (t_env t). intros l.
  induction l as [|x l IH]; intros s Hs; [done|]. cbn [fold_left]. by apply IH, reached_env.
Qed.
Lemma reached_run {A} (p : prog A) k r o w ts a w' ts' : reached k r o w -> run p w ts = (a, w', ts') -> reached k r o w'.
Proof.
  intros Hw Hrun. assert (Hf : reached k r o (final p w ts)); [|unfold final in Hf; by rewrite Hrun in Hf].
  apply (run_stable (reached k r o)); [|done]. apply stable_effect; [intros t w0; apply reached_interfere|].
  intros w0 w1 Hw0 [|g op _|g op _|k' v ttl|k'|B q b d _|d|m]; [done|..|done|done|done].
  - destruct op as [k' v|k']; [exact (reached_env k r o _ (EvPut k' v) Hw0)|exact (reached_env k r o _ (EvDel k') Hw0)].
  - done.
  - exact (reached_env k r o _ (EvPut k' v) Hw0).
  - exact (reached_env k r o _ (EvDel k') Hw0).
Qed.
Lemma reached_read k r o w ts x w' ts' :
  reached k r o w -> run (call (EGetRev k r)) w ts = (x, w', ts') -> x = Ok o \/ exists e, x = Err e.
Proof.
  intros Hw Hr. destruct (reached_interfere _ _ _ (hd quiet ts) _ Hw) as (_ & _ & Ha). rewrite run_call in Hr. revert Hr.
  unfold step_eff. cbn [perform]. destruct (t_etcd (hd quiet ts)) as [[e b]|]; intros [= <- _ _]; [eauto|].
  destruct Ha as [Ha|Ha]; [by left|right; by exists EtcdCompacted].
Qed.
End past.

(** ** Confirmations *)

Section confirm.
Context {J : Jsonb} {P : ProtoEvents} {T : ErrorTexts} `{EtcdLaws E}.
Implicit Types (w : world E).

(** The message is the report of [node] that it runs [user]'s config of revision
    [r]. *)
Definition confirms (value : string) (ev : NodeEvent) (r : Z) : Prop :=
  exists res, unmarshal_event value = Some ev /\ ev_payload ev = PApply res /\ ar_success res = true /\
    ar_applied_mod res = r /\ 0 < r.
Definition config_of (ev : NodeEvent) : string := hsiKey (ev_node ev) (ev_user ev).
Definition attested_row (ev : NodeEvent) (r : Z) (e : kv) : HSIConfigRow :=
  confirmed_row ev (kv_bytes (kv_value e)) r (time_Unix (ev_timestamp ev)).
Definition same_configs (d d1 : db) : Prop :=
  hsi_config_current d1 = hsi_config_current d /\ hsi_config_history d1 = hsi_config_history d.

(** What may be recorded for the attested revision: what it held, or, when it is
    [gone], what etcd held instead in one of the states the handling [found]; and
    when nothing is. *)
Context (found : list E) (gone : Prop) (o : option kv).
Definition recordable (ev : NodeEvent) (e : kv) : Prop :=
  o = Some e \/ gone /\ exists s, s ∈ found /\ et_get s (config_of ev) = Some e.
Definition unrecorded (ev : NodeEvent) : Prop := o = None \/ gone /\ exists s, s ∈ found /\ et_get s (config_of ev) = None.

(** A statement that records the attested config. *)
Definition records (ev : NodeEvent) (r : Z) (d d' : db) : Prop :=
  exists e now, recordable ev e /\ UpsertCurrentWithHistory (attested_row ev r e) "success" now d = Ok (tt, d').
(** No statement of the process, but for these, changes the config tables. *)
Definition only_records (ev : NodeEvent) (r : Z) w w' : Prop :=
  exists qs, own_queries w' = (qs ++ own_queries w)%list /\ Forall (fun q => same_configs q.1 q.2 \/ records ev r q.1 q.2) qs.

Lemma only_none ev r w w' : own_queries w' = own_queries w -> only_records ev r w w'.
Proof using Type. intros Hq. by exists []. Qed.
Lemma only_one ev r w w' d d' :
  own_queries w' = (d, d') :: own_queries w -> same_configs d d' \/ records ev r d d' -> only_records ev r w w'.
Proof using Type. intros Hq Hd. exists [(d, d')]. split; [done|]. by apply Forall_singleton. Qed.
Lemma only_app ev r w1 w2 w3 : only_records ev r w1 w2 -> only_records ev r w2 w3 -> only_records ev r w1 w3.
Proof using Type.
  intros (q1 & E1 & F1) (q2 & E2 & F2). exists (q2 ++ q1)%list. split; [by rewrite E2, E1, app_assoc|]. by apply Forall_app.
Qed.
Lemma event_inserted_configs row now d b d' : InsertNodeEvent row now d = Ok (b, d') -> same_configs d d'.
Proof using Type. unfold InsertNodeEvent. by destruct (existsb _ _); intros [= _ <-]. Qed.

(** What the others may do to the tables meanwhile. *)
Section among.
Context (R : db -> db -> Prop) {HR : PreOrder R} (ok : turn -> bool).
Hypothesis R_turn : forall t now d, ok t = true -> R d (fold_left (apply_sql now) (t_sql t) d).
Hypothesis R_same : forall d d', same_configs d d' -> R d d'.

(** What one handling of the report does: when it settles the report, recording
    the config is the last thing done. *)
Definition confirmed (ev : NodeEvent) (r : Z) w (settled : Prop) w' : Prop :=
  only_records ev r w w' /\
  exists d1, R (w_db w) d1 /\ ((w_db w' = d1 /\ (settled -> unrecorded ev)) \/ records ev r d1 (w_db w')).

(** The attested revision can be read for the rest of the run, or is gone. *)
Definition attests (k : string) (r : Z) w ts : Prop :=
  held k r o w /\ forallb uncompacted ts = true \/ gone /\ reached k r o w.
Lemma attests_run {A} (p : prog A) k r w ts a w' ts' : attests k r w ts -> run p w ts = (a, w', ts') -> attests k r w' ts'.
Proof using Type H0. intros [[Hw Ht]|[Hg Hw]] Hrun; [left; by eapply held_run|right; split; [done|by eapply reached_run]]. Qed.

Lemma readConfirmedConfig_attested ev r w ts y w' ts' :
  0 < r -> attests (config_of ev) r w ts -> (forall s, s ∈ met (readConfirmedConfig (config_of ev) r) w ts -> s ∈ found) ->
  run (readConfirmedConfig (config_of ev) r) w ts = (Ok y, w', ts') ->
  match y with Some (value, rev) => rev = r /\ exists e, value = kv_bytes (kv_value e) /\ recordable ev e | None => unrecorded ev end.
Proof using Type H0.
  intros Hpos Hat Hm. unfold readConfirmedConfig in *. apply Z.ltb_lt in Hpos. rewrite Hpos in *. intros Hrun.
  apply run_bind_inv in Hrun as (x & w1 & ts1 & H1 & H2). rewrite (met_bind _ _ _ _ _ _ _ H1) in Hm.
  assert (Hx : x = Ok o \/ exists e, x = Err e /\ (e = EtcdCompacted -> gone)).
  { destruct Hat as [[Hw Ht]|[Hg Hw]].
    - destruct (held_read _ _ _ _ _ _ _ _ Ht Hw H1) as [-> |(e & -> & He)]; [by left|right]. by exists e.
    - destruct (reached_read _ _ _ _ _ _ _ _ Hw H1) as [-> |(e & ->)]; [by left|right]. by exists e. }
  destruct Hx as [-> |(e & -> & He)].
  - destruct o as [e|] eqn:Eo; cbn [run] in H2; simplify_eq; [|by left]. split; [done|]. exists e. split; [done|by left].
  - destruct e; try discriminate H2. specialize (He eq_refl).
    apply run_bind_inv in H2 as (z & w2 & ts2 & H2 & H3). rewrite (met_bind _ _ _ _ _ _ _ H2) in Hm.
    destruct z as [o'|]; [|discriminate H3]. destruct (get_met _ _ _ _ _ _ H2) as (s & Hs & ->).
    assert (Hf : s ∈ found) by (apply Hm; rewrite !elem_of_app; auto).
    destruct (et_get s (config_of ev)) as [e|] eqn:Eg; cbn [run] in H3; simplify_eq.
    + split; [done|]. exists e. split; [done|]. right. eauto.
    + right. eauto.
Qed.

Lemma record_success_confirms c ev res w ts x w' ts' :
  c_etcd c = true -> 0 < ar_applied_mod res -> forallb ok ts = true -> attests (config_of ev) (ar_applied_mod res) w ts ->
  (forall s, s ∈ met (record_success c ev res (time_Unix (ev_timestamp ev))) w ts -> s ∈ found) ->
  run (record_success c ev res (time_Unix (ev_timestamp ev))) w ts = (x, w', ts') ->
  confirmed ev (ar_applied_mod res) w (x = Ok tt) w'.
Proof using Type* HR R_turn.
  intros Hc Hpos Hok Hat Hm. unfold record_success in *. rewrite Hc in *. cbn [negb] in *. intros Hrun.
  apply run_bind_inv in Hrun as (a & w1 & ts1 & H1 & H2). rewrite (met_bind _ _ _ _ _ _ _ H1) in Hm.
  pose proof (rel_no_sql R ok R_turn _ _ _ _ _ _ Hok (readConfirmedConfig_uses _ _) H1) as Hr.
  pose proof (run_no_sql_queries _ _ _ _ _ _ (readConfirmedConfig_uses _ _) H1) as Hq. apply (run_ok ok _ _ _ _ _ _ Hok) in H1 as Hok1.
  destruct a as [y|e]; [|cbn [run] in H2; simplify_eq; split; [by apply only_none|exists (w_db w'); split; [done|by left]]].
  apply (readConfirmedConfig_attested ev) in H1; [|done..|intros s Hs; apply Hm, elem_of_app; by left].
  destruct y as [[value rev]|]; [|cbn [run] in H2; simplify_eq; split; [by apply only_none|exists (w_db w'); split; [done|by left]]].
  destruct H1 as (-> & e & -> & Hrec). apply run_bind_inv in H2 as (u & w3 & ts3 & H2 & H4). cbn [run] in H4. simplify_eq.
  apply (rel_db R ok R_turn) in H2 as (d & Hd & Hcase); [|done].
  assert (Hrd : R (w_db w) d) by (by etransitivity). destruct Hcase as [([] & now & Hu & Hl & Hx)|(<- & Hl & er & ->)].
  - assert (records ev (ar_applied_mod res) d (w_db w')) as Hrs by (by exists e, now).
    split; [eapply only_one; [by rewrite Hl, Hq|by right]|]. exists d. split; [done|by right].
  - split; [apply only_none; congruence|]. exists (w_db w'). split; [done|]. left. split; [done|]. by destruct er.
Qed.

Lemma handle_confirms c v ev r w ts x w' ts' :
  c_etcd c = true -> confirms v ev r -> forallb ok ts = true -> attests (config_of ev) r w ts ->
  (forall s, s ∈ met (handle c v) w ts -> s ∈ found) ->
  run (handle c v) w ts = (x, w', ts') -> confirmed ev r w (x = Ok tt) w'.
Proof using Type* HR R_turn R_same.
  intros Hc (res & Hu & Hp & Hs & <- & Hpos) Hok Hat. unfold handle. rewrite Hu, Hp. unfold handleConfigApplyResult. rewrite Hs.
  intros Hm Hrun. apply run_bind_inv in Hrun as (a & w1 & ts1 & H1 & H2). rewrite (met_bind _ _ _ _ _ _ _ H1) in Hm.
  assert (only_records ev (ar_applied_mod res) w w1 /\ R (w_db w) (w_db w1)) as [Ho Hr].
  { destruct (negb _); [|cbn [run] in H1; simplify_eq; split; [by apply only_none|done]].
    apply run_bind_inv in H1 as (y & w2 & ts2 & H1 & H3). cbn [run] in H3. simplify_eq.
    apply (rel_db R ok R_turn) in H1 as (d & Hd & [(b & now & Hq & Hl & _)|(-> & Hl & _)]); [|by split; [apply only_none|]|done].
    apply event_inserted_configs in Hq. split; [eapply only_one; [done|by left]|]. etransitivity; [done|by apply R_same]. }
  pose proof (run_ok ok _ _ _ _ _ _ Hok H1) as Hok1. apply (attests_run _ _ _ _ _ _ _ _ Hat) in H1 as Hat1.
  destruct a as [[]|e]; [|cbn [run] in H2; simplify_eq; split; [done|]; exists (w_db w'); split; [done|]; by left].
  destruct (record_success_confirms _ _ _ _ _ _ _ _ Hc Hpos Hok1 Hat1 (fun s Hs => Hm s (proj2 (elem_of_app _ _ _) (or_intror Hs))) H2)
    as (Ho' & d1 & Hd1 & Hd).
  split; [by eapply only_app|]. exists d1. split; [by etransitivity|done].
Qed.
End among.

(** The row of a confirmation, with the document as PostgreSQL stores it. *)
Definition stored_row (ev : NodeEvent) (r : Z) (e : kv) (text : string) : HSIConfigRow :=
  with_config (Some text) (attested_row ev r e).
Lemma upsert_confirmed ev r e now d d' :
  UpsertCurrentWithHistory (attested_row ev r e) "success" now d = Ok (tt, d') ->
  exists text, jsonb_in (kv_value e) = Some text /\
    (hsi_config_current d' = hsi_config_current d \/
     hsi_config_current d' = <[(ev_node ev, ev_user ev) := stored_row ev r e text]> (hsi_config_current d)) /\
    (hsi_config_history d' = hsi_config_history d \/
     exists n, hsi_config_history d' = (hsi_config_history d ++ [MkHist n (stored_row ev r e text) "success"])%list) /\
    exists row, hsi_config_current d' !! (ev_node ev, ev_user ev) = Some row /\ r <= ModRevision row.
Proof.
  unfold UpsertCurrentWithHistory. destruct (upsertCurrent _ now d) as [[[] d1]|] eqn:Eu; [|done].
  destruct (upsertCurrent_inv _ _ _ _ Eu) as (text & Hj & Hh & _ & Hc). destruct (upsertCurrent_holds _ _ _ _ Eu) as (row & Hr & Hle).
  intros Ha. pose proof (append_current _ _ _ _ _ Ha) as Hcur. exists text. split_and!.
  - revert Hj. unfold jsonb_param, attested_row, confirmed_row. cbn [ConfigJSON]. unfold kv_bytes.
    destruct (String.eqb _ ""); [done|]. by destruct (jsonb_in _); intros [= ->].
  - rewrite Hcur, Hc. case_match; [case_match|]; auto.
  - revert Ha. unfold appendHistoryWithStatus. rewrite Hj, Hh. destruct (existsb _ _); intros [= <-]; [left; done|right; by exists (seq_history d1)].
  - exists row. by rewrite Hcur.
Qed.
End confirm.

(** C6: a report that a node runs a config is recorded exactly, whatever is
    pushed, changed or deleted under the key while it is handled, whatever other
    replicas write to the tables and however often it fails: every statement the
    process runs leaves the current view alone or gives it one document at the
    attested revision, and leaves the history alone or appends that document as a
    success; no other subscriber is touched.  The document is the one the attested
    revision held -- always so unless that revision is [gone], that is, compacted
    before or while the report is handled; once it is gone, the document may
    instead be what the key held in a state etcd was in during the handling, which
    the node never confirmed ([compacted_confirmation]).  And once the report is
    settled, a revision at least as new is on record, unless there was no config:
    at the attested revision, or, that being gone, in such a state.  The attested
    revision must be one etcd has reached; otherwise see
    [Progress.future_revision_stalls]. *)
Theorem confirmation_exact `{Jsonb, ProtoEvents, ErrorTexts, EtcdLaws E} c v ev r o (w : world E) ts :
  c_etcd c = true -> confirms v ev r -> reached (config_of ev) r o w ->
  let w' := final (handle c v) w ts in let k := (ev_node ev, ev_user ev) in
  let gone := et_at (w_etcd w) (config_of ev) r = Err EtcdCompacted \/ forallb uncompacted ts = false in
  let held_meanwhile x := exists s, s ∈ met (handle c v) w ts /\ et_get s (config_of ev) = x in
  let document e := o = Some e \/ gone /\ held_meanwhile (Some e) in
  (exists qs, own_queries w' = (qs ++ own_queries w)%list /\ forall d d', (d, d') ∈ qs ->
     (hsi_config_current d' = hsi_config_current d \/
      exists e text, document e /\ jsonb_in (kv_value e) = Some text /\
        hsi_config_current d' = <[k := stored_row ev r e text]> (hsi_config_current d)) /\
     (hsi_config_history d' = hsi_config_history d \/
      exists e text n, document e /\ jsonb_in (kv_value e) = Some text /\
        hsi_config_history d' = (hsi_config_history d ++ [MkHist n (stored_row ev r e text) "success"])%list)) /\
  (outcome (handle c v) w ts = Ok tt ->
   (exists row, hsi_config_current (w_db w') !! k = Some row /\ r <= ModRevision row) \/
   o = None \/ gone /\ held_meanwhile None).
Proof.
  intros Hc Hv Hw w' k gone held_meanwhile document. unfold w'. unfold outcome, final.
  destruct (run (handle c v) w ts) as [[x w1] ts'] eqn:Hrun. cbn [fst snd].
  assert (Hat : attests gone o (config_of ev) r w ts).
  { unfold attests, gone, held. destruct Hw as (Hwf & Hr & [Ha|Ha]); [|right; split; [by left|by split_and!; auto]].
    destruct (forallb uncompacted ts); [by left|right]. split; [by right|by split_and!; auto]. }
  assert (HR : PreOrder (fun _ _ : db => True)) by (by split).
  destruct (handle_confirms (met (handle c v) w ts) gone o (fun _ _ => True) (fun _ => true) (fun _ _ _ _ => I) (fun _ _ _ => I)
              _ _ _ _ _ _ _ _ _ Hc Hv (all_turns ts) Hat (fun _ Hs => Hs) Hrun) as ((qs & Hq & Hall) & d1 & _ & Hd).
  split.
  - exists qs. split; [done|]. intros d d' Hin. rewrite Forall_forall in Hall.
    destruct (Hall _ Hin) as [[S1 S2]|(e & now & He & Hu)]; [split; by left|]. cbn [fst snd] in Hu.
    destruct (upsert_confirmed _ _ _ _ _ _ Hu) as (text & Hj & Hcur & Hh & _). split.
    + destruct Hcur as [->|]; [by left|right]. by exists e, text.
    + destruct Hh as [->|[n Hh]]; [by left|right]. by exists e, text, n.
  - intros Hx. destruct Hd as [[_ Hn]|(e & now & _ & Hu)]; [right; exact (Hn Hx)|left].
    by destruct (upsert_confirmed _ _ _ _ _ _ Hu) as (text & _ & _ & _ & Hrow).
Qed.

(** ** One subscriber's history *)

Definition history_of (k : ConfigKey) (d : db) : list HistRow := filter (fun h => row_key (h_row h) = k) (hsi_config_history d).
Definition same_history_of (k : ConfigKey) (d d1 : db) : Prop := history_of k d1 = history_of k d.
#[export] Instance same_history_of_preorder k : PreOrder (same_history_of k).
Proof. split; [done|]. intros d1 d2 d3 H1 H2. unfold same_history_of in *. congruence. Qed.
Lemma configs_history k d d1 : same_configs d d1 -> same_history_of k d d1.
Proof. intros [_ Hh]. unfold same_history_of, history_of. by rewrite Hh. Qed.

(** A statement that is not about this subscriber's configs. *)
Definition spares (k : ConfigKey) (o : sqlop) : bool :=
  match o with SqlConfirm row _ | SqlHistory row _ => bool_decide (row_key row <> k) | _ => true end.
Definition spared (k : ConfigKey) (t : turn) : bool := forallb (spares k) (t_sql t).

Lemma append_history_of {J : Jsonb} k row status now d d' :
  row_key row <> k -> appendHistoryWithStatus row status now d = Ok (tt, d') -> same_history_of k d d'.
Proof.
  intros Hk. unfold appendHistoryWithStatus. destruct (jsonb_param _) as [c|]; [|done].
  destruct (existsb _ _); intros [= <-]; [done|]. unfold same_history_of, history_of. simpl.
  rewrite filter_app, filter_cons_False by (by destruct row). apply app_nil_r.
Qed.
Lemma spares_history k now o d : spares k o = true -> same_history_of k d (apply_sql now d o).
Proof.
  destruct o as [row|row|row status|row status|topic p off v e|watcher rev]; cbn [spares apply_sql]; intros Hk; try apply bool_decide_eq_true in Hk; unfold after.
  - done.
  - unfold InsertNodeEvent. by destruct (existsb _ _).
  - unfold UpsertCurrentWithHistory. destruct (upsertCurrent row now d) as [[[] d1]|] eqn:Eu; [|done].
    apply upsertCurrent_inv in Eu as (c & _ & Hh & _). destruct (appendHistoryWithStatus row status now d1) as [[[] d2]|] eqn:Ea; [|done].
    apply (append_history_of k) in Ea; [|done]. unfold same_history_of, history_of in *. by rewrite Ea, Hh.
  - destruct (appendHistoryWithStatus row status now d) as [[[] d2]|] eqn:Ea; [|done]. by apply (append_history_of k) in Ea.
  - unfold SendToDLQ. by destruct (List.find _ _).
  - done.
Qed.
Lemma spared_turn k t now d : spared k t = true -> same_history_of k d (fold_left (apply_sql now) (t_sql t) d).
Proof.
  unfold spared. generalize (t_sql t). intros l. revert d. induction l as [|o l IH]; intros d; [done|]. cbn [forallb fold_left].
  intros [Ho Hl]%andb_true_iff. etransitivity; [by apply (spares_history k now o)|by apply IH].
Qed.

(** Questions about one subscriber's history. *)
Lemma find_filter {A} (P : A -> Prop) {HP : forall x, Decision (P x)} (f : A -> bool) l :
  (forall x, f x = true -> P x) -> List.find f (filter P l) = List.find f l.
Proof.
  intros Hf. induction l as [|x l IH]; [done|]. rewrite filter_cons. simpl. destruct (f x) eqn:Ef.
  - rewrite decide_True by auto. simpl. by rewrite Ef.
  - case_decide; [simpl; by rewrite Ef|done].
Qed.
Lemma existsb_filter {A} (P : A -> Prop) {HP : forall x, Decision (P x)} (f : A -> bool) l :
  (forall x, f x = true -> P x) -> existsb f (filter P l) = existsb f l.
Proof.
  intros Hf. induction l as [|x l IH]; [done|]. rewrite filter_cons. case_decide as Hx; simpl; rewrite IH; [done|].
  destruct (f x) eqn:Ef; [by destruct (Hx (Hf _ Ef))|done].
Qed.
Lemma reverse_filter {A} (P : A -> Prop) {HP : forall x, Decision (P x)} (l : list A) : reverse (filter P l) = filter P (reverse l).
Proof.
  induction l as [|x l IH]; [done|]. rewrite reverse_cons, filter_app, <-IH, !filter_cons, filter_nil.
  case_decide; [by rewrite reverse_cons|by rewrite app_nil_r].
Qed.
Lemma success_of node user h : is_success node user h = true -> row_key (h_row h) = (node, user).
Proof.
  unfold is_success, row_key. rewrite !andb_true_iff. intros [[[[Hn%String.eqb_eq Hu%String.eqb_eq] _] _] _]. by rewrite Hn, Hu.
Qed.
Lemma same_history_key row status h : same_history row status h = true -> row_key (h_row h) = row_key row.
Proof.
  unfold same_history, row_key. rewrite !andb_true_iff. intros [[[Hn%String.eqb_eq Hu%String.eqb_eq] _] _]. by rewrite Hn, Hu.
Qed.
Lemma last_success_same d d1 node user now : same_history_of (node, user) d d1 ->
  GetLastSuccessfulConfig node user now d1 = match GetLastSuccessfulConfig node user now d with Ok (r, _) => Ok (r, d1) | Err e => Err e end.
Proof.
  unfold same_history_of, history_of, GetLastSuccessfulConfig. intros Hh.
  rewrite <-(find_filter _ (is_success node user) (reverse (hsi_config_history d1)) (success_of node user)), <-reverse_filter, Hh.
  by rewrite reverse_filter, find_filter by apply success_of.
Qed.
Lemma recorded_same row status d d1 : same_history_of (row_key row) d d1 ->
  existsb (same_history row status) (hsi_config_history d1) = existsb (same_history row status) (hsi_config_history d).
Proof.
  unfold same_history_of, history_of. intros Hh.
  rewrite <-(existsb_filter _ (same_history row status) (hsi_config_history d1) (same_history_key row status)), Hh.
  apply existsb_filter, same_history_key.
Qed.

(** ** Undisturbed handling of one subscriber *)

Section healthy.
Context {J : Jsonb} {P : ProtoEvents} {T : ErrorTexts} `{EtcdLaws E}.
Implicit Types (w : world E).

(** No request fails, nobody else writes the subscriber's key, and no other
    replica its history. *)
Definition healthy (k : ConfigKey) (t : turn) : bool :=
  calm (hsiKey k.1 k.2) t && match t_db t with None => true | Some _ => false end && spared k t.
Lemma healthy_parts k ts : forallb (healthy k) ts = true -> forallb (calm (hsiKey k.1 k.2)) ts = true /\ forallb (spared k) ts = true.
Proof.
  unfold healthy. induction ts as [|t ts IH]; [done|]. cbn [forallb].
  intros [[[-> _]%andb_true_iff ->]%andb_true_iff Hts]%andb_true_iff. by apply IH in Hts as [-> ->].
Qed.
Lemma healthy_calm k ts : forallb (healthy k) ts = true -> forallb (calm (hsiKey k.1 k.2)) ts = true.
Proof. apply healthy_parts. Qed.
Lemma healthy_spared k ts : forallb (healthy k) ts = true -> forallb (spared k) ts = true.
Proof. apply healthy_parts. Qed.
Lemma healthy_head k ts : forallb (healthy k) ts = true -> healthy k (hd quiet ts) = true.
Proof. destruct ts as [|t ts]; [done|]. simpl. by intros [-> _]%andb_true_iff. Qed.

Lemma healthy_db {A} k (q : query A) w ts r w' ts' :
  world_wf w -> forallb (healthy k) ts = true -> run (call (EDb q)) w ts = (r, w', ts') ->
  world_wf w' /\ et_get (w_etcd w') (hsiKey k.1 k.2) = et_get (w_etcd w) (hsiKey k.1 k.2) /\ forallb (healthy k) ts' = true /\
  exists now d, same_history_of k (w_db w) d /\
    match q now d with Ok (a, d') => r = Ok a /\ w_db w' = d' | Err e => r = Err e /\ w_db w' = d end.
Proof.
  intros Hw Ht Hr. pose proof (healthy_head _ _ Ht) as Hh. unfold healthy in Hh. apply andb_true_iff in Hh as [[Hc Hdb]%andb_true_iff Hs].
  pose proof (rel_interfere _ _ (spared_turn k) ts w (healthy_spared _ _ Ht)) as Hrel.
  destruct (calm_turn _ _ w Hc) as [_ Hg]. rewrite run_call in Hr. injection Hr as Hstep <-. revert Hstep. unfold step_eff. cbn [perform].
  unfold db_reply. set (t := hd quiet ts) in *. destruct (t_db t); [done|].
  assert (Hwi : world_wf (interfere t w)) by (eapply drift_wf; [apply interfere_drift|done]).
  destruct (q (w_now (interfere t w)) (w_db (interfere t w))) as [[a d]|e] eqn:Hq; intros [= <- <-]; (split; [exact Hwi|]);
    (split; [exact Hg|]); (split; [by apply ok_tl|]); exists (w_now (interfere t w)), (w_db (interfere t w)); by rewrite Hq.
Qed.

(** The compare-and-swap takes effect at once. *)
Lemma healthy_cas {X Y} key (mutate : mutator X Y) (v : Z -> string) y w ts r w' ts' :
  world_wf w -> forallb (calm key) ts = true ->
  (forall now, sees key mutate (w_etcd w) now = Ok (cas_put (v now), y)) ->
  run (CASWithRevision key mutate) w ts = (r, w', ts') ->
  r = Ok y /\ world_wf w' /\
  exists now e, et_get (w_etcd w') key = Some e /\ kv_value e = v now /\
    forall e0, et_get (w_etcd w) key = Some e0 -> kv_mod e0 < kv_mod e.
Proof.
  intros Hw H1. pose proof (ok_tl _ _ H1) as H2. pose proof (ok_tl _ _ H2) as H3.
  intros Hsees. destruct (calm_turn _ _ w (calm_head _ _ H1)) as [F1 G1].
  pose proof (calm_turn _ _ (interfere (hd quiet ts) w) (calm_head _ _ H2)) as [F2 G2].
  pose proof (calm_turn _ _ (interfere (hd quiet (tl ts)) (interfere (hd quiet ts) w)) (calm_head _ _ H3)) as [F3 G3].
  unfold CASWithRevision. change casMaxRetries with (S 4). cbn [cas_loop]. rewrite run_call_bind. unfold step_eff. cbn [perform]. unfold etcd_reply.
  rewrite F1. rewrite run_call_bind. unfold step_eff. cbn [perform].
  set (w1 := interfere (hd quiet ts) w) in *. set (w2 := interfere (hd quiet (tl ts)) w1) in *.
  pose proof (Hsees (w_now w2)) as Hs. unfold sees in Hs. rewrite G1. rewrite Hs.
  rewrite run_call_bind. unfold step_eff. cbn [perform]. unfold etcd_reply. rewrite F3.
  set (w3 := interfere (hd quiet (tl (tl ts))) w2) in *.
  assert (Hw3 : world_wf w3) by (repeat (eapply drift_wf; [apply interfere_drift|]); done).
  assert (Hget : et_get (w_etcd w3) key = et_get (w_etcd w) key) by congruence.
  assert (check (w_etcd w3) (cas_guard key (cas_revision (et_get (w_etcd w) key))) = true) as -> by (rewrite <-Hget; by apply guard_current).
  clearbody w3.
  cbn [run]. intros [= <- <- _]. split_and!; [done|by apply wf_put|]. exists (w_now w2). cbn [w_etcd with_etcd do_op cas_op cas_put cas_delete cas_value].
  rewrite get_put_same by done. rewrite Hget. eexists. split; [reflexivity|]. split; [by destruct (et_get (w_etcd w) key)|].
  intros e0 He0. rewrite He0. simpl. rewrite He0 in Hget. pose proof (mod_bound _ _ _ Hw3 Hget). lia.
Qed.

(** ** Failed configs *)

(** The message reports that the config of version [rv] failed; when it names a
    ModRevision, it is [modRevision]. *)
Definition reports_failure (value : string) (ev : NodeEvent) (rv modRevision : Z) : Prop :=
  exists res, unmarshal_event value = Some ev /\ ev_payload ev = PApply res /\ ar_success res = false /\
    ar_applied_rv res <> "" /\ parse_uint 64 (ar_applied_rv res) = Some rv /\
    forall m, ev_correlation ev <> "" -> parse_int 64 (ev_correlation ev) = Some m -> m = modRevision.
Definition metadata_readable (value : string) : Prop :=
  exists node, unmarshal (one_field "metadata" (one_field "node" d_string)) "" value = Some node.

Lemma rollback_written prev payload cur rv modRevision applied correlation :
  configResourceVersion cur = Some rv -> metadata_readable cur -> payload_of (config_bytes prev) = Some payload ->
  applied <> "" -> parse_uint 64 applied = Some rv ->
  (forall m, correlation <> "" -> parse_int 64 correlation = Some m -> m = modRevision) ->
  exists node, wf_json payload = true /\ valid_utf8 node = true /\
    forall now, rollback_mutate (Some prev) applied correlation (Some cur) modRevision now =
      Ok (cas_put (encode (rollback_doc payload node rv now)), tt).
Proof.
  intros Hrv [node Hn] Hp Ha Hap Hc. exists node.
  assert (Hv : forall now, rollbackConfigValue (config_bytes prev) cur rv now = Some (encode (rollback_doc payload node rv now))).
  { intros now. unfold rollbackConfigValue. unfold payload_of in Hp. destruct (unmarshal _ None _) as [[p|]|]; [|done..].
    injection Hp as ->. by rewrite Hn. }
  destruct (rollbackConfigValue_inv _ _ _ _ _ (Hv 0)) as (p & n & H1 & H2 & H3 & H4 & _).
  unfold payload_of in Hp. rewrite H1 in Hp. injection Hp as ->. rewrite Hn in H4. injection H4 as ->.
  split_and!; [done..|]. intros now. unfold rollback_mutate.
  rewrite (guard_complete _ _ _ _ _ Hrv); [by rewrite Hv|unfold still_failed; cbn [appliedRV correlationID currentModRevision]].
  apply String.eqb_neq in Ha. by rewrite Ha.
Qed.

(** What a failed version leaves in etcd. *)
Definition restored (key : string) (payload : json) (rv modRevision : Z) w : Prop :=
  exists e, et_get (w_etcd w) key = Some e /\ payload_of (kv_value e) = Some payload /\
    configResourceVersion (kv_value e) = Some (wrapu64 (rv + 1)) /\ modRevision < kv_mod e.

Definition subscriber (ev : NodeEvent) : ConfigKey := (ev_node ev, ev_user ev).

Lemma rollback_restores ev res prev payload rv e w ts r w' ts' :
  world_wf w -> forallb (healthy (subscriber ev)) ts = true -> et_get (w_etcd w) (config_of ev) = Some e ->
  configResourceVersion (kv_value e) = Some rv -> metadata_readable (kv_value e) -> payload_of (config_bytes prev) = Some payload ->
  ar_applied_rv res <> "" -> parse_uint 64 (ar_applied_rv res) = Some rv ->
  (forall m, ev_correlation ev <> "" -> parse_int 64 (ev_correlation ev) = Some m -> m = kv_mod e) ->
  run (rollback_etcd ev res (Some prev)) w ts = (r, w', ts') ->
  r = Ok tt /\ world_wf w' /\ restored (config_of ev) payload rv (kv_mod e) w'.
Proof.
  intros Hw Ht He Hrv Hread Hpay Ha Hap Hc Hrun. unfold rollback_etcd in Hrun.
  apply run_bind_inv in Hrun as (k & w1 & ts1 & H1 & H2). cbn [run] in H2. simplify_eq.
  assert (Hne : String.eqb (kv_value e) "" = false).
  { apply String.eqb_neq. intros E0. rewrite E0 in Hrv. by vm_compute in Hrv. }
  destruct (rollback_written prev payload (kv_value e) rv (kv_mod e) _ _ Hrv Hread Hpay Ha Hap Hc) as (node & Hwp & Hnode & Hm).
  change (hsiKey (ev_node ev) (ev_user ev)) with (config_of ev) in H1.
  apply (healthy_cas _ _ (fun now => encode (rollback_doc payload node rv now)) tt) in H1 as (-> & Hw1 & now & e1 & He1 & Hv1 & Hmod);
    [|done|exact (healthy_calm _ _ Ht)|].
  - split_and!; [done..|]. exists e1. rewrite He1, Hv1. pose proof (configResourceVersion_range _ _ Hrv).
    destruct (rollback_reads payload node rv now Hwp Hnode) as [-> ->]; [lia|]. split_and!; [done..|by apply Hmod].
  - intros now. unfold sees. rewrite He. cbn [cas_current cas_revision]. unfold kv_bytes. rewrite Hne. apply Hm.
Qed.

Lemma failure_restores v ev rv prev payload e w ts r w' ts' :
  world_wf w -> forallb (healthy (subscriber ev)) ts = true -> et_get (w_etcd w) (config_of ev) = Some e ->
  reports_failure v ev rv (kv_mod e) -> configResourceVersion (kv_value e) = Some rv -> metadata_readable (kv_value e) ->
  (forall now, GetLastSuccessfulConfig (ev_node ev) (ev_user ev) now (w_db w) = Ok (Some prev, w_db w)) ->
  payload_of (config_bytes prev) = Some payload ->
  run (handle both v) w ts = (r, w', ts') -> r = Ok tt /\ restored (config_of ev) payload rv (kv_mod e) w'.
Proof.
  intros Hw Ht He (res & Hu & Hp & Hs & Ha & Hap & Hc) Hrv Hread Hlast Hpay. unfold handle. rewrite Hu, Hp.
  unfold handleConfigApplyResult. rewrite Hs, andb_false_r. cbn [negb]. intros Hrun.
  apply run_bind_inv in Hrun as (a & w1 & ts1 & H1 & H2). apply run_bind_inv in H1 as (y & w2 & ts2 & H1 & H3). cbn [run] in H3.
  apply (healthy_db (subscriber ev)) in H1 as (Hw2 & Hg2 & Ht2 & now & d & Hd & Hq); [|done..].
  destruct (InsertNodeEvent_records (apply_event_row ev res (time_Unix (ev_timestamp ev))) now d) as (b & d' & Hq' & _).
  rewrite Hq' in Hq. destruct Hq as [-> Hd'].
  assert (Hins : same_history_of (subscriber ev) (w_db w) (w_db w2)).
  { etransitivity; [exact Hd|]. rewrite Hd'. eapply configs_history, event_inserted_configs. done. }
  assert (a = Ok tt /\ w1 = w2 /\ ts1 = ts2) as (-> & -> & ->) by (by simplify_eq). clear H3.
  unfold record_failure in H2. apply run_bind_inv in H2 as (q & w3 & ts3 & H3 & H4).
  apply (healthy_db (subscriber ev)) in H3 as (Hw3 & Hg3 & Ht3 & now3 & d3 & Hd3 & Hq3); [|done..].
  rewrite (last_success_same (w_db w) d3), Hlast in Hq3 by (by etransitivity). destruct Hq3 as [-> _].
  cbn [c_etcd both] in H4. apply run_bind_inv in H4 as (u & w4 & ts4 & H4 & H5).
  assert (He3 : et_get (w_etcd w3) (config_of ev) = Some e) by (unfold config_of, subscriber in *; cbn [fst snd] in *; congruence).
  pose proof (run_ok _ _ _ _ _ _ _ Ht3 H4) as Ht4.
  destruct (rollback_restores _ _ _ _ _ _ _ _ _ _ _ Hw3 Ht3 He3 Hrv Hread Hpay Ha Hap Hc H4) as (-> & Hw4 & Hres).
  apply run_bind_inv in H5 as (z & w5 & ts5 & H5 & H6). cbn [run] in H6. simplify_eq.
  apply (healthy_db (subscriber ev)) in H5 as (_ & Hg5 & _ & now5 & d5 & _ & Hq5); [|done..].
  unfold restored. change (config_of ev) with (hsiKey (subscriber ev).1 (subscriber ev).2). rewrite Hg5. split; [|exact Hres].
  revert Hq5. unfold RollbackToLastSuccessful, appendHistoryWithStatus. simpl. by destruct (existsb _ _); intros [-> _].
Qed.

(** A confirmation that was not on record yet is what a rollback restores next. *)
Lemma confirmed_is_last ev r e text d d1 d' now :
  same_history_of (subscriber ev) d d1 -> existsb (same_history (attested_row ev r e) "success") (hsi_config_history d) = false ->
  jsonb_in (kv_value e) = Some text -> UpsertCurrentWithHistory (attested_row ev r e) "success" now d1 = Ok (tt, d') ->
  forall now', GetLastSuccessfulConfig (ev_node ev) (ev_user ev) now' d' = Ok (Some (stored_row ev r e text), d').
Proof.
  intros Hh Hnew Hj Hu now'. rewrite <-(recorded_same (attested_row ev r e) "success" d d1 Hh) in Hnew.
  destruct (last_success_is_latest (attested_row ev r e) now now' _ _ eq_refl Hnew Hu) as (c & Hc & Hl).
  assert (c = text) as ->; [|exact Hl]. revert Hc. unfold jsonb_param, attested_row, confirmed_row. cbn [ConfigJSON]. unfold kv_bytes.
  destruct (String.eqb _ ""); [done|]. rewrite Hj. congruence.
Qed.
End healthy.

(** C5: the control loop closes: when a node's confirmation of a config has been
    recorded, and a config pushed later fails on the node, handling the failure
    puts the confirmed config back: the entry holds the confirmed payload, in a new
    revision and with the failed version advanced by one, so that the node picks
    it up.  While the confirmation is handled, etcd and the database may fail and
    others may push and write what they like, but nothing is compacted (a
    compaction makes the handling record another content, which is then
    "restored": [compacted_confirmation]) and nobody else writes this subscriber's
    history, then or until the failure is handled; the confirmation is not a
    repetition of one on record.  The failure names the version that is current,
    whose document is readable, and is handled undisturbed ([healthy]): no call
    fails, nobody else writes the subscriber's key or history. *)
Theorem failed_config_restored `{Jsonb, ProtoEvents, ErrorTexts, EtcdLaws E} v0 ev0 r e0 text payload (w : world E) ts
    v ev rv e (w1 : world E) ts1 :
  (* the confirmation *)
  confirms v0 ev0 r -> held (config_of ev0) r (Some e0) w -> forallb uncompacted ts = true -> forallb (spared (subscriber ev0)) ts = true ->
  jsonb_in (kv_value e0) = Some text -> payload_of text = Some payload ->
  existsb (same_history (attested_row ev0 r e0) "success") (hsi_config_history (w_db w)) = false ->
  outcome (handle both v0) w ts = Ok tt ->
  (* the failure, later, of the same subscriber *)
  subscriber ev = subscriber ev0 -> world_wf w1 -> same_history_of (subscriber ev0) (w_db (final (handle both v0) w ts)) (w_db w1) ->
  et_get (w_etcd w1) (config_of ev) = Some e -> configResourceVersion (kv_value e) = Some rv -> metadata_readable (kv_value e) ->
  reports_failure v ev rv (kv_mod e) -> forallb (healthy (subscriber ev)) ts1 = true ->
  outcome (handle both v) w1 ts1 = Ok tt /\ restored (config_of ev) payload rv (kv_mod e) (final (handle both v) w1 ts1).
Proof.
  intros Hv0 Hheld Hts Hsp Hj Hpay Hnew Hok Hsub Hw1 Hsame He Hrv Hread Hv Hts1. unfold outcome, final in *.
  destruct (run (handle both v0) w ts) as [[x w'] ts'] eqn:Hrun. cbn [fst snd] in *. subst x.
  destruct (handle_confirms (met (handle both v0) w ts) False (Some e0) (same_history_of (subscriber ev0)) _ (spared_turn _) (configs_history _)
              both _ _ _ _ _ _ _ _ eq_refl Hv0 Hsp (or_introl (conj Hheld Hts)) (fun _ Hs => Hs) Hrun)
    as (_ & d1 & Hd1 & [[_ Hn]|(e1 & now & [[= <-]|[[] _]] & Hu)]); [by destruct (Hn eq_refl) as [|[]]|].
  destruct (run (handle both v) w1 ts1) as [[y w2] ts2] eqn:Hrun1. cbn [fst snd].
  refine (failure_restores _ _ _ (stored_row ev0 r e0 text) _ _ _ _ _ _ _ Hw1 Hts1 He Hv Hrv Hread _ Hpay Hrun1).
  intros now'. injection Hsub as -> ->. rewrite (last_success_same _ _ _ _ _ Hsame).
  by rewrite (confirmed_is_last _ _ _ _ _ _ _ _ Hd1 Hnew Hj Hu).
Qed.

(** *** Witnesses *)

(** A decoder of two messages: version 3 is running at revision [r], version 4
    failed. *)
Definition two_events (r : Z) : ProtoEvents := fun v =>
  if String.eqb v "ok" then Some (MkNodeEvent "n" "2" 1 5 "" (PApply (MkApply "update" true "" "" "3" false r)))
  else if String.eqb v "failed" then Some (MkNodeEvent "n" "2" 1 6 "" (PApply (MkApply "update" false "E1" "bad vlan" "4" false 0)))
  else None.
Definition store_good : mem := et_put mem_empty (hsiKey "n" "2") (doc_at "good" "3").
Definition world_good : world mem := World store_good db_empty 0 false [].
(** The bad config is pushed while the confirmation is handled, and another
    replica confirms a config of another subscriber. *)
Definition other_row : HSIConfigRow := MkRow "n" "3" "upsert" (Some "{}") "" 2 "" "node" None.
Definition push_bad : list turn :=
  [Turn [EvPut (hsiKey "n" "2") (doc_at "bad" "4")] 0 None None None false false [SqlConfirm other_row "success"]].
Definition good_rev : Z := et_rev store_good.
Definition world_pushed : world mem := final (handle (P := two_events good_rev) both "ok") world_good push_bad.
Definition ev_ok : NodeEvent := MkNodeEvent "n" "2" 1 5 "" (PApply (MkApply "update" true "" "" "3" false good_rev)).
Definition ev_failed : NodeEvent := MkNodeEvent "n" "2" 1 6 "" (PApply (MkApply "update" false "E1" "bad vlan" "4" false 0)).
Definition kv_good : kv := default (Kv "" 0 0 0) (et_get store_good (hsiKey "n" "2")).
Definition kv_bad : kv := default (Kv "" 0 0 0) (et_get (w_etcd world_pushed) (hsiKey "n" "2")).
Lemma held_good : held (config_of ev_ok) good_rev (Some kv_good) world_good.
Proof. split_and!; [apply wf_put, mem_empty_wf|vm_compute; discriminate|vm_compute; reflexivity]. Qed.
Lemma reached_good : reached (config_of ev_ok) good_rev (Some kv_good) world_good.
Proof. destruct held_good as (Hw & Hr & Ha). split_and!; [exact Hw|exact Hr|left; exact Ha]. Qed.
(** The bad config is pushed and the attested revision compacted. *)
Definition compact_then_report : list turn := [busy [EvPut (hsiKey "n" "2") (doc_at "bad" "4"); EvCompact (good_rev + 1)]].
Lemma confirms_good : confirms (P := two_events good_rev) "ok" ev_ok good_rev.
Proof. eexists. split; [reflexivity|]. split; [reflexivity|]. split_and!; reflexivity. Qed.

Lemma confirmation_exact_witness :
  let ts := compact_then_report in let p := handle (P := two_events good_rev) both "ok" in let w' := final p world_good ts in
  let gone := et_at (w_etcd world_good) (config_of ev_ok) good_rev = Err EtcdCompacted \/ forallb uncompacted ts = false in
  let held_meanwhile x := exists s, s ∈ met p world_good ts /\ et_get s (config_of ev_ok) = x in
  let document e := Some kv_good = Some e \/ gone /\ held_meanwhile (Some e) in
  (exists qs, own_queries w' = (qs ++ own_queries world_good)%list /\ forall d d', (d, d') ∈ qs ->
     (hsi_config_current d' = hsi_config_current d \/
      exists e text, document e /\ jsonb_in (kv_value e) = Some text /\
        hsi_config_current d' = <[("n", "2") := stored_row ev_ok good_rev e text]> (hsi_config_current d)) /\
     (hsi_config_history d' = hsi_config_history d \/
      exists e text n, document e /\ jsonb_in (kv_value e) = Some text /\
        hsi_config_history d' = (hsi_config_history d ++ [MkHist n (stored_row ev_ok good_rev e text) "success"])%list)) /\
  (outcome p world_good ts = Ok tt ->
   (exists row, hsi_config_current (w_db w') !! ("n", "2") = Some row /\ good_rev <= ModRevision row) \/
   Some kv_good = None \/ gone /\ held_meanwhile None).
Proof.
  exact (confirmation_exact (H0 := two_events good_rev) both "ok" ev_ok good_rev (Some kv_good) world_good compact_then_report
           eq_refl confirms_good reached_good).
Defined.

Lemma failed_config_restored_witness :
  let p := handle (P := two_events good_rev) both "failed" in
  outcome p world_pushed [] = Ok tt /\ restored (config_of ev_failed) (JStr "good") 4 (kv_mod kv_bad) (final p world_pushed []).
Proof.
  apply (failed_config_restored (H0 := two_events good_rev) "ok" ev_ok good_rev kv_good (doc_at "good" "3") (JStr "good") world_good push_bad
           "failed" ev_failed 4 kv_bad world_pushed []); try reflexivity.
  - exact confirms_good.
  - exact held_good.
  - apply run_wf. apply wf_put, mem_empty_wf.
  - exists "n". vm_compute. reflexivity.
  - eexists. split; [reflexivity|]. split; [reflexivity|]. split_and!; [reflexivity|done|reflexivity|done].
Defined.

(** ** When the attested revision is gone *)

(** A compaction before the report is handled: the content recorded as confirmed
    is the config pushed later, which the node never confirmed; when that one
    fails, it is "restored" over itself. *)
Example compacted_confirmation :
  let ts := compact_then_report in
  let w1 := final (handle (P := two_events good_rev) both "ok") world_good ts in
  let w2 := final (handle (P := two_events good_rev) both "failed") w1 [] in
  (ConfigJSON <$> hsi_config_current (w_db w1) !! ("n", "2")) = Some (Some (doc_at "bad" "4")) /\
  (ModRevision <$> hsi_config_current (w_db w1) !! ("n", "2")) = Some good_rev /\
  option_map (fun e => (payload_of (kv_value e), configResourceVersion (kv_value e))) (et_get (w_etcd w2) (hsiKey "n" "2")) =
    Some (Some (JStr "bad"), Some 5).
Proof. vm_compute. done. Qed.
