(* ===== verification/Tools.v ===== *)
(** * The operator tools ([tools/])

    What each tool sends, and what the controller makes of it: the account
    [create_user] writes can log in, an entry of [put_node] is kept alive by
    heartbeats but is no republish target before the first one, and
    [kafka_produce] publishes exactly the bytes it was given in base64. *)

From S2P Require Import Prelude GoStrings Json JsonNormal Decode GoTime ConfigDoc Etcd Db Effects Cas Storage Auth NodeMonitor NodeServer NodeProps Amaps OffsetGuard.
Local Open Scope string_scope.
Local Open Scope Z_scope.
Local Open Scope go_scope.

(** ** etcd *)

(** All tools that talk to etcd read the endpoints this way. *)
Definition tool_endpoints (getenv : string -> string) : list string :=
  trim_space <$> split_on "," (envOr getenv "ETCD_ENDPOINTS" "127.0.0.1:2379").

(** The [Put] of [create_user]: the error of the hash is dropped, with the empty
    hash that comes with it. *)
Definition create_user {B : Bcrypt} (salt : string) : envop :=
  let pw := "admin" in EvPut "users/admin" (default "" (bcrypt_generate salt pw)).

(** Argument [i], counted from 1, or the default. *)
Definition argument (args : list string) (i : nat) (def : string) : string := default def (args !! i).
(** The entry of [put_node] and its key; [args] starts with the program's name,
    and the clock is read twice. *)
Definition put_node_data (args : list string) (registered seen : Z) : list (string * any) := map_of
  [("node_uuid", AStr (argument args 1 "node1")); ("ip", AStr (argument args 2 "192.168.1.100"));
   ("version", AStr (argument args 4 "1.0.0")); ("registered_at", AInt (unix_of registered)); ("last_seen_time", AInt (unix_of seen));
   ("status", AStr "active"); ("node_type", AStr (argument args 3 "gateway"));
   ("location", AStr (argument args 5 "test-location")); ("description", AStr (argument args 6 "Test node created by put_node tool"))].
Definition put_node (args : list string) (registered seen : Z) : envop :=
  EvPut ("nodes/" +:+ argument args 1 "node1") (marshal_map (put_node_data args registered seen)).

(** ** The node service *)

Definition failed_rpc (r : node_reply) : bool := match r with NodeError _ | NodePanic => true | _ => false end.
(** The calls of [test_grpc], with the uptime the tool takes from its clock; a
    failed call ends it. *)
Definition test_grpc : prog (list node_reply) :=
  let beat now := Heartbeat (MkHeartbeat "test-node-001" (unix_of now) "192.168.1.100" "") in
  do! registerResp := RegisterNode (MkRegister "test-node-001" "192.168.1.100" "1.0.0" "" 0 "") in
  if failed_rpc registerResp.1 then Ret [registerResp.1] else
  do! now := call ENow in
  do! first := beat now in
  if failed_rpc first.1 then Ret [registerResp.1; first.1] else
  do! _ := call (ESleep (2 * second) false) in
  do! now := call ENow in
  do! again := beat now in
  Ret [registerResp.1; first.1; again.1].

(** ** Kafka *)

Definition b64_val (c : ascii) : option Z :=
  let n := code c in
  if between 65 n 90 then Some (n - 65) else if between 97 n 122 then Some (n - 71)
  else if between 48 n 57 then Some (n + 4) else if n =? 43 then Some 62 else if n =? 47 then Some 63 else None.
Definition pad : ascii := "=".
(** The decoder skips line breaks wherever they are. *)
Fixpoint skip_breaks (s : string) : string :=
  match s with
  | "" => ""
  | String c r => if (code c =? 10) || (code c =? 13) then skip_breaks r else String c (skip_breaks r)
  end.
(** Groups of four; padding only ends the text, and bits under it are dropped. *)
Fixpoint b64_groups (s : string) : option string :=
  match s with
  | "" => Some ""
  | String a (String b (String c (String d rest))) =>
      letopt x := b64_val a in
      letopt y := b64_val b in
      let one := byte ((x * 64 + y) / 16) in
      match b64_val c with
      | None => if Ascii.eqb c pad && Ascii.eqb d pad && String.eqb rest "" then Some (String one "") else None
      | Some z =>
          let two := byte ((y * 64 + z) / 4 mod 256) in
          match b64_val d with
          | None => if Ascii.eqb d pad && String.eqb rest "" then Some (String one (String two "")) else None
          | Some u => letopt more := b64_groups rest in Some (String one (String two (String (byte ((z * 64 + u) mod 256)) more)))
          end
      end
  | _ => None
  end.
Definition DecodeString (s : string) : option string := b64_groups (skip_breaks s).

(** How [kafka_produce] ends: the usage text, a missing topic, a bad payload, or
    a [WriteMessages] to brokers and topic of one message without a key. *)
Inductive produce_end := Usage | NoTopic | BadBase64 | Produce (brokers : list string) (topic payload : string).
Definition kafka_produce (getenv : string -> string) (args : list string) : produce_end :=
  match args with
  | _ :: text :: _ =>
      let brokers := trim_space <$> split_on "," (envOr getenv "KAFKA_BROKERS" "localhost:9092") in
      let topic := getenv "KAFKA_TOPIC" in
      if String.eqb topic "" then NoTopic
      else match DecodeString text with None => BadBase64 | Some payload => Produce brokers topic payload end
  | _ => Usage
  end.
Definition exit_status (written : bool) (e : produce_end) : Z := match e with Produce _ _ _ => if written then 0 else 1 | _ => 1 end.

(** ** base64 is undone *)

Definition b64_char (n : Z) : ascii :=
  if n <? 26 then byte (65 + n) else if n <? 52 then byte (71 + n) else if n <? 62 then byte (n - 4) else if n =? 62 then "+"%char else "/"%char.
(** The encoding of RFC 4648. *)
Fixpoint b64_encode (s : string) : string :=
  match s with
  | "" => ""
  | String a "" => let v := code a in
      String (b64_char (v / 4)) (String (b64_char (v mod 4 * 16)) "==")
  | String a (String b "") => let v := code a * 256 + code b in
      String (b64_char (v / 1024)) (String (b64_char (v / 16 mod 64)) (String (b64_char (v mod 16 * 4)) "="))
  | String a (String b (String c rest)) => let v := (code a * 256 + code b) * 256 + code c in
      String (b64_char (v / 262144)) (String (b64_char (v / 4096 mod 64))
        (String (b64_char (v / 64 mod 64)) (String (b64_char (v mod 64)) (b64_encode rest))))
  end.

Definition b64_ok (n : Z) : bool :=
  bool_decide (b64_val (b64_char n) = Some n) && negb (code (b64_char n) =? 10) && negb (code (b64_char n) =? 13).
Lemma b64_chars n : 0 <= n < 64 -> b64_ok n = true.
Proof.
  intros Hn. assert (Hall : forallb (fun k => b64_ok (Z.of_nat k)) (seq 0 64) = true) by (vm_compute; reflexivity).
  rewrite forallb_forall in Hall. rewrite <-(Z2Nat.id n) by lia. apply Hall, in_seq. lia.
Qed.
Lemma b64_val_char n : 0 <= n < 64 -> b64_val (b64_char n) = Some n.
Proof. intros Hn%b64_chars. unfold b64_ok in Hn. by bool_hyps. Qed.
Lemma skip_char n r : 0 <= n < 64 -> skip_breaks (String (b64_char n) r) = String (b64_char n) (skip_breaks r).
Proof. intros Hn%b64_chars. unfold b64_ok in Hn. bool_split. cbn [skip_breaks]. by rewrite H0, H1. Qed.

Lemma string_ind3 (P : string -> Prop) :
  P "" -> (forall a, P (String a "")) -> (forall a b, P (String a (String b ""))) ->
  (forall a b c s, P s -> P (String a (String b (String c s)))) -> forall s, P s.
Proof.
  intros H0 H1 H2 H3. assert (Hall : forall s, P s /\ (forall a, P (String a s)) /\ (forall a b, P (String a (String b s)))).
  { induction s as [|c s (I0 & I1 & I2)]; split_and!; auto. }
  intros s. apply Hall.
Qed.

Lemma byte_eq n c : n = code c -> byte n = c.
Proof. intros ->. apply byte_code. Qed.
Ltac sextets := Z.to_euclidean_division_equations; lia.
Lemma DecodeString_encode s : DecodeString (b64_encode s) = Some s.
Proof.
  unfold DecodeString. induction s as [|a|a b|a b c s IH] using string_ind3; [done|..]; cbn [b64_encode]; cbv zeta;
    pose proof (code_range a) as Ha; try pose proof (code_range b) as Hb; try pose proof (code_range c) as Hc.
  - rewrite !skip_char by sextets. cbn [skip_breaks b64_groups]. rewrite !b64_val_char by sextets. cbn.
    do 2 f_equal. apply byte_eq. sextets.
  - rewrite !skip_char by sextets. cbn [skip_breaks b64_groups]. rewrite !b64_val_char by sextets. cbn.
    do 2 f_equal; [|f_equal]; apply byte_eq; sextets.
  - rewrite !skip_char by sextets. cbn [b64_groups]. rewrite !b64_val_char by sextets. rewrite IH.
    do 2 f_equal; [|f_equal; [|f_equal]]; apply byte_eq; sextets.
Qed.

(** ** What the controller makes of the entries *)

(** A tool run while a login request waits: the account works at once. *)
Lemma create_user_logs_in `{EtcdLaws E} {JW : Jwt} {BC : Bcrypt} {GN : Gin} salt hash jwtSecret c (w : world E) :
  bcrypt_generate salt "admin" = Some hash -> hash <> "" -> bcrypt_compare hash "admin" = true ->
  ShouldBindJSON d_credentials (MkCred "" "") c = Some (MkCred "admin" "admin") -> world_wf w ->
  outcome (Login jwtSecret c) w [busy [create_user salt]] =
    match generateToken jwtSecret "admin" (w_now w + 0 + 0) with
    | None => fail_with StatusInternalServerError "Failed to generate token"
    | Some token => JSON StatusOK (JObj [("token", JStr token)])
    end.
Proof.
  intros Hg Hne Hc Hb Hw. unfold Login, outcome. rewrite Hb. cbn [cr_Username cr_Password]. unfold getUserPassword.
  rewrite run_bind, run_bind, Effects.run_call. unfold step_eff. cbn [perform]. unfold create_user. rewrite Hg. simpl.
  rewrite get_put_same by done. cbn [run].
  match goal with |- context [kv_value ?e] => replace (kv_value e) with hash by (by destruct (et_get _ _)) end.
  apply String.eqb_neq in Hne. rewrite Hne, Hc. cbn [negb].
  cbn. by destruct (generateToken _ _ _).
Qed.

(** [put_node] writes the address under another name than the service reads:
    the entry is active, yet no sweep and no republish request reaches it. *)
Lemma put_node_no_target args registered seen : 
  Forall (fun s => valid_utf8 s = true) args -> exact_int (unix_of registered) = true -> exact_int (unix_of seen) = true ->
  let data := put_node_data args registered seen in
  parseRepublishTarget (nodeKeyPrefix +:+ argument args 1 "node1") (marshal_map data) = None /\
  exists m, unmarshal_map (marshal_map data) = Some (Some m) /\ string_at "status" m = "active" /\ last_seen m = Some (unix_of seen).
Proof.
  intros Hargs Hr Hs data.
  assert (Harg : forall i def, valid_utf8 def = true -> valid_utf8 (argument args i def) = true).
  { intros i def Hd. unfold argument. destruct (args !! i) as [s|] eqn:E; [|done]. exact (Forall_lookup_1 _ _ _ _ Hargs E). }
  assert (Hp : plain_map data).
  { unfold data, put_node_data, map_of. cbn [fold_left fst snd]. repeat (apply plain_kset; [done|cbn [plain]; first [done|by apply Harg]|]). apply plain_nil. }
  assert (Hu : unmarshal_map (marshal_map data) = Some (Some (prod_map id reread <$> data))) by (by apply unmarshal_marshal_map).
  assert (Hk : forall k, string_at k (prod_map id reread <$> data) = match kget k data with Some (AStr s) => s | _ => "" end).
  { intros k. unfold string_at. rewrite kget_reread. by destruct (kget k data) as [[]|]. }
  split.
  - unfold parseRepublishTarget. destruct (String.eqb _ ""); [done|]. rewrite Hu. cbn [default]. rewrite !Hk.
    unfold data, put_node_data, map_of. cbn [fold_left fst snd]. kget_simpl. done.
  - eexists. split; [exact Hu|]. rewrite Hk. unfold last_seen. rewrite kget_reread.
    unfold data, put_node_data, map_of. cbn [fold_left fst snd]. kget_simpl. split; [done|]. cbn [fmap option_fmap option_map reread].
    unfold exact_int in Hs. bool_hyps. unfold float_to_int64. cbn [ftrunc]. rewrite (proj2 (andb_true_iff _ _)); [done|].
    split; apply Z.leb_le; unfold min_int64, max_int64; lia.
Qed.

(** Against an empty store all calls of [test_grpc] succeed and the entry is
    active, with the address of the heartbeat. *)
Example test_grpc_passes :
  outcome test_grpc world0 [] = [RegisterReply true "Node registered successfully"; EmptyReply; EmptyReply] /\
  match et_get (w_etcd (final test_grpc world0 [])) "nodes/test-node-001" with
  | Some e => match unmarshal_map (kv_value e) with
              | Some (Some m) => string_at "status" m = "active" /\ string_at "node_ip" m = "192.168.1.100" /\ last_seen m = Some 1740000002
              | _ => False
              end
  | None => False
  end.
Proof. vm_compute. done. Qed.
