(* ===== verification/Boot.v ===== *)
(** * Starting the process ([main.go], [internal/db/db.go])

    The start of the controller in the order of [main], the pools the database
    connection opens and closes on the way to a published database, and which
    background work runs when. *)

From S2P Require Import Prelude GoStrings GoTime Etcd Db Effects Hoare OffsetGuard Startup Settings.
Local Open Scope string_scope.
Local Open Scope Z_scope.
Local Open Scope go_scope.

(** ** Connection pools *)

(** Pools are numbered as they are opened. *)
Record pools := MkPools { opened : nat; closed_pools : list nat }.
Definition open_pool (p : pools) : nat * pools := (opened p, MkPools (S (opened p)) (closed_pools p)).
Definition close_pool (id : nat) (p : pools) : pools := MkPools (opened p) (id :: closed_pools p).

(** How far one attempt of [New] gets. *)
Inductive attempt := ParseFails | ConnectFails | PingFails | MigrateFails | Connects.
#[export] Instance attempt_eq_dec : EqDecision attempt.
Proof. solve_decision. Defined.
(** [None] is an error, otherwise the pool of the database. *)
Definition New (a : attempt) (p : pools) : option nat * pools :=
  match a with
  | ParseFails | ConnectFails => (None, p)
  | PingFails | MigrateFails => let '(id, p) := open_pool p in (None, close_pool id p)
  | Connects => let '(id, p) := open_pool p in (Some id, p)
  end.

(** [ConnectLoop] with its pools: with a published database it goes on to wait
    for the end of the context and closes the pool then ([publish_end]). *)
Fixpoint connect_pools (delay : Z) (attempts : list attempt) (p : pools) : prog (connected * pools) :=
  match attempts with
  | [] => Ret (Connecting, p)
  | a :: attempts =>
      let '(database, p) := New a p in
      do! cancelled := call ECtx in
      match database with
      | Some id => if cancelled : bool then Ret (Stopped, close_pool id p) else Ret (Published, p)
      | None =>
          if cancelled : bool then Ret (Stopped, p)
          else
            do! ended := call (ESleep delay false) in
            if ended : bool then Ret (Stopped, p) else connect_pools (Z.min (delay * 2) connectRetryMaxDelay) attempts p
      end
  end.
Definition publish_end (p : pools) : pools := close_pool (pred (opened p)) p.

(** The pools but the last are closed, each once; the last is when [all]. *)
Definition pools_ok (all : bool) (p : pools) : Prop :=
  NoDup (closed_pools p) /\ forall id, id ∈ closed_pools p <-> (id < if all then opened p else pred (opened p))%nat.

Lemma New_ok a p : pools_ok true p ->
  match New a p with
  | (None, p') => pools_ok true p'
  | (Some id, p') => pools_ok false p' /\ pools_ok true (close_pool id p') /\ id = pred (opened p') /\ (0 < opened p')%nat
  end.
Proof.
  intros [Hn Hp]. destruct a; try done.
  1,2: split; cbn; [constructor; [rewrite Hp; lia|done]|]; intros id; rewrite elem_of_cons, Hp; lia.
  cbn. split; [|split; [|split; [done|lia]]].
  - split; [done|]. intros id. cbn. by rewrite Hp.
  - split; [constructor; [cbn; rewrite Hp; lia|done]|]. intros id. cbn. rewrite elem_of_cons, Hp. lia.
Qed.

(** Whatever fails and whenever the context ends, no pool leaks and none is
    closed twice: all are closed, but for the one of a published database, which
    is closed with the context.  And the loop is [ConnectLoop]. *)
Lemma connect_pools_ok `{EtcdLaws E} attempts : forall delay p (w : world E) ts r p' w' ts',
  pools_ok true p -> run (connect_pools delay attempts p) w ts = ((r, p'), w', ts') ->
  match r with Published => pools_ok false p' /\ (0 < opened p')%nat /\ pools_ok true (publish_end p') | _ => pools_ok true p' end /\
  run (ConnectLoop delay ((fun a => bool_decide (a = Connects)) <$> attempts)) w ts = (r, w', ts').
Proof.
  induction attempts as [|a attempts IH]; intros delay p w ts r p' w' ts' Hp; cbn [connect_pools ConnectLoop fmap list_fmap].
  { cbn [run]. intros [= <- <- <- <-]. done. }
  pose proof (New_ok a p Hp) as HN. destruct (New a p) as [[id|] p1] eqn:EN.
  - assert (a = Connects) as -> by (by destruct a). rewrite !run_call_bind. destruct (step_eff ECtx w ts) as [[] w1].
    + cbn [run]. intros [= <- <- <- <-]. split; [by apply HN|done].
    + cbn [run]. intros [= <- <- <- <-]. destruct HN as (H1 & H2 & -> & H4). by split.
  - assert (bool_decide (a = Connects) = false) as -> by (by destruct a). rewrite !run_call_bind.
    destruct (step_eff ECtx w ts) as [[] w1]; [cbn [run]; by intros [= <- <- <- <-]|].
    rewrite !run_call_bind. destruct (step_eff (ESleep delay false) w1 _) as [[] w2]; [cbn [run]; by intros [= <- <- <- <-]|].
    by apply IH.
Qed.

(** ** The gRPC server's life *)

Record grpc_server := MkGrpc { monitoring : bool; serving : bool }.
Definition NewGrpcServer : grpc_server := MkGrpc true false.
(** Whether the listener could be opened; the error otherwise. *)
Definition grpc_Start (listens : bool) (s : grpc_server) : option grpc_server :=
  if listens then Some (MkGrpc (monitoring s) true) else None.
Definition grpc_Stop (s : grpc_server) : grpc_server := MkGrpc false false.

(** ** [main], up to serving *)

Inductive activity :=
| PrometheusServer | LogServer | DatabaseLoop (dsn : string) | LeaderElection | StaleMonitor | GrpcServer | RedirectServer | HttpsServer
| MetricsSampler | KafkaConsumer (brokers : list string)
| ProjectionStart | ConfirmationSweep | LeaderWatch.
#[export] Instance activity_eq_dec : EqDecision activity.
Proof. solve_decision. Defined.
Inductive bootError := NoEtcd | NoSecret (e : secreterr).

(** What is started, in order; [Fatal] exits are errors.  A metrics or redirect
    server that cannot listen is only logged. *)
Definition main_start (getenv : string -> string) (etcd prometheus redirect : bool) (random : option string)
  : prog (result bootError (list activity)) :=
  if negb etcd then Ret (Err NoEtcd)
  else
    do! secret := ResolveJWTSecret (getenv "JWT_SECRET") random in
    Ret (match secret with
         | Err e => Err (NoSecret e)
         | Ok _ =>
             Ok ((if prometheus then [PrometheusServer] else []) ++ [LogServer] ++
                 (if String.eqb (DSN getenv) "" then [] else [DatabaseLoop (DSN getenv)]) ++
                 [LeaderElection; StaleMonitor; GrpcServer] ++ (if redirect then [RedirectServer] else []) ++ [HttpsServer])%list
         end).
(** The callback of [ConnectLoop], and the one of [leader.Run]. *)
Definition on_ready (getenv : string -> string) : list activity :=
  MetricsSampler :: match Brokers getenv with Some brokers => [KafkaConsumer brokers] | None => [] end.
Definition on_elected : list activity := [ProjectionStart; ConfirmationSweep; LeaderWatch].

(** Without etcd or a secret nothing starts; otherwise the API is served and the
    database loop runs exactly when a connection string is configured. *)
Lemma main_start_serves `{EtcdLaws E} getenv prometheus redirect random (w : world E) ts :
  match outcome (main_start getenv true prometheus redirect random) w ts with
  | Ok l => NoDup l /\ GrpcServer ∈ l /\ HttpsServer ∈ l /\ LeaderElection ∈ l /\
            (forall dsn, DatabaseLoop dsn ∈ l <-> dsn = DSN getenv /\ dsn <> "")
  | Err NoEtcd => False
  | Err (NoSecret e) => outcome (ResolveJWTSecret (getenv "JWT_SECRET") random) w ts = Err e
  end.
Proof.
  unfold main_start, outcome. cbn [negb]. rewrite run_bind. destruct (run (ResolveJWTSecret _ _) w ts) as [[[s|e] w1] ts1]; [|done].
  cbn [run fst snd]. split.
  - destruct prometheus, redirect, (String.eqb (DSN getenv) ""); cbn [app]; repeat (constructor; [set_solver|]); constructor.
  - split_and!; [set_solver..|]. intros dsn. destruct (String.eqb_spec (DSN getenv) "") as [He|He];
      rewrite !elem_of_app, !elem_of_cons; destruct prometheus, redirect; rewrite ?elem_of_cons, ?elem_of_nil; naive_solver congruence.
Qed.
